(** * The attention descriptor [DescrptSeAtten] of deepmd/descriptor/se_atten.py

    A shallow embedding of the descriptor's graph-building code and of the
    tensor programs it builds, with the properties the specification states
    about them.

    Conventions.
    - Python integers are [Z]; sizes that the code feeds to [range] or to a
      shape are [nat].
    - A tensor of rank 1 is a [list], rank 2 a [list (list _)] of rows, rank 3
      a list of matrices; [reshape] is modelled on the row-major data and
      fails when the sizes do not match, as TensorFlow does.
    - A Python exception or a TensorFlow error is a [Raise] in the [result]
      monad.
    - Floating-point tensors are tensors over [R]: every operation is the
      exact one, except where a property depends on the exponential of the
      numeric substrate, which is then a parameter ([fexp]). *)

From Stdlib Require Import String.
From Stdlib Require Import List ZArith Lia Bool Reals Lra Permutation DecimalString.
Import ListNotations.

Set Implicit Arguments.

(** ** Exceptions *)

Inductive exn : Type :=
| AssertionError (msg : string)
| RuntimeError (msg : string)
| IndexError
| ZeroDivisionError
| InvalidArgumentError.

Inductive result (A : Type) : Type :=
| Ok (a : A)
| Raise (e : exn).

Arguments Ok {A} a.
Arguments Raise {A} e.

Definition rbind {A B : Type} (c : result A) (k : A -> result B) : result B :=
  match c with
  | Ok a => k a
  | Raise e => Raise e
  end.

Declare Scope result_scope.
Delimit Scope result_scope with result.
Notation "x <- c ;; k" := (rbind c (fun x => k))
  (at level 61, c at next level, right associativity) : result_scope.

Fixpoint mapM {A B : Type} (f : A -> result B) (l : list A) : result (list B) :=
  match l with
  | [] => Ok []
  | x :: l' =>
      match f x with
      | Ok y =>
          match mapM f l' with
          | Ok ys => Ok (y :: ys)
          | Raise e => Raise e
          end
      | Raise e => Raise e
      end
  end.

(** ** Tensors as lists *)

Module Tensor.

Section Shapes.

Context {A : Type}.

(** [chunk k r l]: the [r] consecutive pieces of length [k] of [l]. *)
Fixpoint chunk (k r : nat) (l : list A) : list (list A) :=
  match r with
  | O => []
  | S r' => firstn k l :: chunk k r' (skipn k l)
  end.

(** [tf.reshape(l, [r, k])] on row-major data. *)
Definition reshape2 (r k : nat) (l : list A) : result (list (list A)) :=
  if (length l =? r * k)%nat then Ok (chunk k r l) else Raise InvalidArgumentError.

(** [tf.reshape(l, [-1, k])]: the number of rows is inferred. *)
Definition reshape2_infer (k : nat) (l : list A) : result (list (list A)) :=
  match k with
  | O => Raise InvalidArgumentError
  | S _ =>
      if (length l mod k =? 0)%nat then Ok (chunk k (length l / k) l)
      else Raise InvalidArgumentError
  end.

(** [tf.reshape(l, [r, k, m])]. *)
Definition reshape3 (r k m : nat) (l : list A) : result (list (list (list A))) :=
  if (length l =? r * k * m)%nat
  then Ok (map (chunk m k) (chunk (k * m) r l))
  else Raise InvalidArgumentError.

(** [tf.reshape(l, [-1, k, m])]. *)
Definition reshape3_infer (k m : nat) (l : list A) : result (list (list (list A))) :=
  match (k * m)%nat with
  | O => Raise InvalidArgumentError
  | S _ =>
      if (length l mod (k * m) =? 0)%nat
      then Ok (map (chunk m k) (chunk (k * m) (length l / (k * m)) l))
      else Raise InvalidArgumentError
  end.

(** [tf.tile(l, [m])] on a vector, and on the last axis of a tensor. *)
Definition tile (m : nat) (l : list A) : list A := concat (repeat l m).

(** [tf.nn.embedding_lookup(params, ids)] with [ids] of rank 1. An id out
    of range is an error. *)
Definition lookup1 (params : list A) (i : Z) : result A :=
  if (i <? 0)%Z then Raise InvalidArgumentError
  else match nth_error params (Z.to_nat i) with
       | Some x => Ok x
       | None => Raise InvalidArgumentError
       end.

Definition embedding_lookup (params : list A) (ids : list Z) : result (list A) :=
  mapM (lookup1 params) ids.

(** Python's [l[0]]. *)
Definition index0 (l : list A) : result A :=
  match l with
  | x :: _ => Ok x
  | [] => Raise IndexError
  end.

End Shapes.

(** The value that a 32-bit integer tensor holds for the integer [z]. *)
Definition wrap_int32 (z : Z) : Z := ((z + 2 ^ 31) mod 2 ^ 32 - 2 ^ 31)%Z.

(** Python's [a // b] on non-negative integers. *)
Definition floordiv (a b : nat) : result nat :=
  match b with
  | O => Raise ZeroDivisionError
  | S _ => Ok (a / b)%nat
  end.

(** Elementwise [x + y] of two integer matrices with the same number of
    columns; a single row is broadcast over the other operand's rows. *)
Definition zip_add (x y : list Z) : list Z :=
  map (fun p => (fst p + snd p)%Z) (combine x y).

Definition add2 (x y : list (list Z)) : result (list (list Z)) :=
  if (length x =? length y)%nat then Ok (map (fun p => zip_add (fst p) (snd p)) (combine x y))
  else match x, y with
       | [rx], _ => Ok (map (zip_add rx) y)
       | _, [ry] => Ok (map (fun r => zip_add r ry) x)
       | _, _ => Raise InvalidArgumentError
       end.

(** [range(n)]. *)
Definition range (n : nat) : list Z := map Z.of_nat (seq 0 n).

(** [permute d sigma l]: the list whose entry [k] is entry [sigma[k]] of
    [l]. With [sigma] a permutation of [0 .. length l - 1] this reorders [l];
    it is how a reordering of the neighbor slots is written below. *)
Definition permute {A : Type} (d : A) (sigma : list nat) (l : list A) : list A :=
  map (fun i => nth i l d) sigma.

End Tensor.

Import Tensor.
Local Open Scope result_scope.

(** ** The type-exclusion mask (build_type_exclude_mask) *)

Module ExcludeMask.

(** [(a, b) in exclude_types]. *)
Definition pair_in (p : Z * Z) (exclude_types : list (Z * Z)) : bool :=
  existsb (fun q => (fst p =? fst q)%Z && (snd p =? snd q)%Z) exclude_types.

(** The boolean table: one row per [tt_j] in [range(ntypes)], one entry per
    [tt_i] in [range(ntypes + 1)]. *)
Definition type_mask (exclude_types : list (Z * Z)) (ntypes : nat) : list (list bool) :=
  map (fun tt_j =>
         map (fun tt_i => if negb (pair_in (tt_i, tt_j) exclude_types) then true else false)
             (range (ntypes + 1)))
      (range ntypes).

(** [tf.convert_to_tensor(type_mask, dtype=GLOBAL_TF_FLOAT_PRECISION)]. *)
Definition to_float (b : bool) : R := if b then 1%R else 0%R.

(** The gather index [idx] of the source, as a matrix of [shape0] rows.
    [sel[0]] and [ndescrpt // sel[0]] are Python expressions: they are
    evaluated, and raise, while the graph is made, before any tensor
    operation runs. The tensors hold 32-bit integers; the index is computed
    here in [Z], which is the same as long as [atype * (ntypes + 1)] and
    [atype * (ntypes + 1) + nei_type] fit in 32 bits: with types in range
    that is so up to 46340 types (lemma [exclude_idx_int32]). *)
Definition exclude_idx (ntypes : nat) (sel : list nat) (ndescrpt : nat)
    (atype : list Z) (shape0 : nat) (nei_type_vec : list Z) : result (list (list Z)) :=
  sel0 <- index0 sel ;;
  k <- floordiv ndescrpt sel0 ;;
  let atype_expand := map (fun a => [a]) atype in
  let idx_i :=
    map (fun row => tile ndescrpt (map (fun a => (a * (Z.of_nat ntypes + 1))%Z) row))
        atype_expand in
  idx_j <- reshape3 shape0 sel0 1 nei_type_vec ;;
  let idx_j := map (map (tile k)) idx_j in
  idx_j <- reshape2 shape0 ndescrpt (concat (map (@concat Z) idx_j)) ;;
  add2 idx_i idx_j.

Definition build_type_exclude_mask (exclude_types : list (Z * Z)) (ntypes : nat)
    (sel : list nat) (ndescrpt : nat) (atype : list Z) (shape0 : nat)
    (nei_type_vec : list Z) : result (list (list R)) :=
  let type_mask := map (map to_float) (type_mask exclude_types ntypes) in
  let type_mask := concat type_mask in
  idx <- exclude_idx ntypes sel ndescrpt atype shape0 nei_type_vec ;;
  let idx := concat idx in
  mask <- embedding_lookup type_mask idx ;;
  reshape2_infer ndescrpt mask.

End ExcludeMask.

(** ** The tensor programs of the forward pass *)

Module Sem.

Local Open Scope R_scope.

Notation vec := (list R) (only parsing).
Notation mat := (list (list R)) (only parsing).

Definition zipWith {A B C : Type} (f : A -> B -> C) (x : list A) (y : list B) : list C :=
  map (fun p => f (fst p) (snd p)) (combine x y).

Definition vadd : vec -> vec -> vec := zipWith Rplus.
Definition vmul : vec -> vec -> vec := zipWith Rmult.

Definition reduce_sum (x : vec) : R := fold_right Rplus 0 x.
Definition reduce_max (x : vec) : R := fold_right Rmax (hd 0 x) x.

Definition big_sum (n : nat) (f : nat -> R) : R := reduce_sum (map f (seq 0 n)).

Definition entry (a : mat) (i j : nat) : R := nth j (nth i a []) 0.

(** [tf.matmul(a, b, transpose_a=ta, transpose_b=tb)] for operands of static
    shape: the product has [r] rows and [c] columns and contracts [k]
    indices. *)
Definition matmul (ta tb : bool) (r k c : nat) (a b : mat) : mat :=
  map (fun i =>
         map (fun j =>
                big_sum k (fun t =>
                  (if ta then entry a t i else entry a i t)
                  * (if tb then entry b j t else entry b t j)))
             (seq 0 c))
      (seq 0 r).

(** [tf.transpose(a, perm=[0, 2, 1])] on one matrix of shape [r, c]. *)
Definition transpose (r c : nat) (a : mat) : mat :=
  map (fun j => map (fun i => entry a i j) (seq 0 r)) (seq 0 c).

(** [tf.slice] along the last axis, from [start], [size] entries. *)
Definition slice_last {A : Type} (start size : nat) (row : list A) : result (list A) :=
  if (start + size <=? length row)%nat then Ok (firstn size (skipn start row))
  else Raise InvalidArgumentError.

(** [tf.nn.l2_normalize(x, -1)]: [x * rsqrt(max(sum(x^2), 1e-12))]. *)
Definition l2_epsilon : R := / 1000000000000.

Definition l2_normalize (x : vec) : vec :=
  let s := Rmax (reduce_sum (map (fun v => v * v) x)) l2_epsilon in
  map (fun v => v * / sqrt s) x.

(** [tf.nn.softmax(x, axis=-1)] on one row, with the exponential [fexp] of
    the numeric substrate; the kernel shifts the logits by their maximum. *)
Definition softmax (fexp : R -> R) (x : vec) : vec :=
  let m := reduce_max x in
  let e := map (fun v => fexp (v - m)) x in
  map (fun v => v / reduce_sum e) e.

(** *** Attributes of the descriptor object

    The attributes that the constructor and the base class [DescrptSeA] set
    and the methods below read. [dim_out] and [dim_rot_mat_1] are the values
    of the base-class getters [get_dim_out()] and [get_dim_rot_mat_1()]. *)

Record descrpt : Type := {
  ntypes : nat;
  sel_a : list nat;
  nnei : nat;
  ndescrpt : nat;
  filter_neuron : list nat;
  n_axis_neuron : nat;
  att_n : nat;
  attn_layer : nat;
  attn_dotr : bool;
  attn_mask : bool;
  type_one_side : bool;
  compress : bool;
  original_sel : option (list Z);
  exclude_types : list (Z * Z);
  sel_all_a : list nat;
  davg : option mat;
  dstd : option mat;
  dim_out : nat;
  dim_rot_mat_1 : nat
}.

(** What [build] stores on the object for the later stages: the flattened
    neighbor types, the neighbor-validity mask of shape [natom, 1, nnei] and
    the additive mask derived from it. *)
Record env : Type := {
  nei_type_vec : list Z;
  nmask : list vec;
  negative_mask : list vec
}.

(** The learned parameters. The networks of deepmd.utils.network and the
    Keras layer normalization act on each row of their input on its own;
    each is given by its action on a row. *)
Record params : Type := {
  net_filter : vec -> vec;
  net_ebd_of_ebd : vec -> vec;
  net_two_side_ebd : vec -> vec;
  embedding_compose_s : vec;
  embedding_compose_n : vec;
  c_query : nat -> vec -> vec;
  c_key : nat -> vec -> vec;
  c_value : nat -> vec -> vec;
  c_out : nat -> vec -> vec;
  layer_normalization : nat -> vec -> vec
}.

(** [self.filter_neuron[-1]], the embedding width. *)
Definition outputs_size_last (self : descrpt) : nat := last (1%nat :: filter_neuron self) 1%nat.

Section Attention.

Variable fexp : R -> R.

(** The stages of [_scaled_dot_attn] on the [nei x nei] matrix of one atom.
    [m] and [neg] are that atom's rows of [self.nmask] and
    [self.negative_mask]. *)

(** attn = matmul(Q / temperature, K, transpose_b=True); attn *= nmask;
    attn += negative_mask *)
Definition attn_scores (nei d : nat) (m neg : vec) (Q K : mat) (temperature : R) : mat :=
  let attn := matmul false true nei d nei (map (map (fun q => q / temperature)) Q) K in
  let attn := map (fun row => vmul row m) attn in
  map (fun row => vadd row neg) attn.

(** attn = softmax(attn, axis=-1); attn *= reshape(nmask, [-1, nei, 1]).
    This is the matrix saved as [self.attn_weight]. *)
Definition attn_softmax (nei d : nat) (m neg : vec) (Q K : mat) (temperature : R) : mat :=
  let attn := map (softmax fexp) (attn_scores nei d m neg Q K temperature) in
  zipWith (fun row mi => map (fun w => w * mi) row) attn m.

(** if dotr: attn *= matmul(input_r, input_r, transpose_b=True) *)
Definition attn_gated (nei d : nat) (m neg : vec) (Q K : mat) (temperature : R)
    (input_r : mat) (dotr : bool) : mat :=
  let attn := attn_softmax nei d m neg Q K temperature in
  if dotr then
    let angular_weight := matmul false true nei 3 nei input_r input_r in
    zipWith vmul attn angular_weight
  else attn.

(** if do_mask: attn *= ones((nei, nei)) - eye(nei) *)
Definition attn_final (nei d : nat) (m neg : vec) (Q K : mat) (temperature : R)
    (input_r : mat) (dotr do_mask : bool) : mat :=
  let attn := attn_gated nei d m neg Q K temperature input_r dotr in
  if do_mask then
    let mask :=
      map (fun i => map (fun j => 1 - (if (i =? j)%nat then 1 else 0)) (seq 0 nei))
          (seq 0 nei) in
    zipWith vmul attn mask
  else attn.

(** [_scaled_dot_attn] on the batch: [Q], [K], [V] and [input_r] hold one
    matrix per atom. The weights it saves for atom 0 are diagnostics and
    are left out. *)
Definition _scaled_dot_attn (e : env) (nei d : nat) (Q K V : list mat) (temperature : R)
    (input_r : list mat) (dotr do_mask : bool) : list mat :=
  map (fun a =>
         let attn :=
           attn_final nei d (nth a (nmask e) []) (nth a (negative_mask e) [])
             (nth a Q []) (nth a K []) temperature (nth a input_r []) dotr do_mask in
         matmul false false nei nei d attn (nth a V []))
      (seq 0 (length Q)).

(** One pass of the loop body of [_attention_layers]; [input_xyz] has one
    row per neighbor slot of the batch. *)
Definition attention_layer (self : descrpt) (P : params) (e : env) (nei : nat)
    (outputs_size : nat) (input_r : list mat) (dotr do_mask : bool)
    (input_xyz : mat) (i : nat) : mat :=
  let sd_k := sqrt 1 in
  let natom := (length input_xyz / nei)%nat in
  let Q_c := map (c_query P i) input_xyz in
  let K_c := map (c_key P i) input_xyz in
  let V_c := map (c_value P i) input_xyz in
  let Q_c := map (map l2_normalize) (chunk nei natom Q_c) in
  let K_c := map (map l2_normalize) (chunk nei natom K_c) in
  let V_c := map (map l2_normalize) (chunk nei natom V_c) in
  let input_att := _scaled_dot_attn e nei (att_n self) Q_c K_c V_c sd_k input_r dotr do_mask in
  let input_att := concat input_att in
  let input_xyz := zipWith vadd input_xyz (map (c_out P i) input_att) in
  map (layer_normalization P i) input_xyz.

Definition _attention_layers (self : descrpt) (P : params) (e : env) (input_xyz : mat)
    (layer_num : nat) (shape_i1 : nat) (outputs_size : nat) (input_r : list mat)
    (dotr do_mask : bool) : mat :=
  fold_left (attention_layer self P e (shape_i1 / 4) outputs_size input_r dotr do_mask)
            (seq 0 layer_num) input_xyz.

(** The index that the two-sided branch of [_filter_lower] gathers with:
    [nei_type_vec * ntypes + tf.tile(atype, [nnei])]. *)
Definition index_of_two_side (nt nei : nat) (nei_types atype : list Z) : list Z :=
  let tmpres1 := map (fun t => (t * Z.of_nat nt)%Z) nei_types in
  let tmpres2 := tile nei atype in
  zip_add tmpres1 tmpres2.

(** The table of the two-sided branch: entry [i * nt + j] is the
    concatenation of [type_embedding[j]] and [type_embedding[i]]. *)
Definition two_side_type_embedding (type_embedding : mat) : mat :=
  let nt := length type_embedding in
  let type_embedding_nei := repeat type_embedding nt in
  let type_embedding_center := map (fun t => repeat t nt) type_embedding in
  concat (zipWith (zipWith (@app R)) type_embedding_nei type_embedding_center).

(** The embedding of every neighbor slot, before attention: the first part
    of the non-excluded branch of [_filter_lower]. *)
Definition type_embedded (self : descrpt) (P : params) (e : env)
    (xyz_scatter : mat) (type_embedding : mat) (atype : list Z) : result mat :=
  let xyz_scatter := map (net_filter P) xyz_scatter in
  if type_one_side self then
    let embedding_of_embedding := map (net_ebd_of_ebd P) type_embedding in
    nei_embed <- embedding_lookup embedding_of_embedding (nei_type_vec e) ;;
    Ok (zipWith vadd xyz_scatter nei_embed)
  else
    let embedding_of_two_side_type_embedding :=
      map (net_two_side_ebd P) (two_side_type_embedding type_embedding) in
    let idx := index_of_two_side (length type_embedding) (nnei self) (nei_type_vec e) atype in
    two_embd <- embedding_lookup embedding_of_two_side_type_embedding idx ;;
    Ok (zipWith (fun x t =>
                   vadd (vadd (vmul x t) (vmul (embedding_compose_s P) x))
                        (vmul (embedding_compose_n P) t))
                xyz_scatter two_embd).

(** The attended embedding [xyz_scatter_att] of [_filter_lower], one
    [nei x W] matrix per atom, together with the raw features reshaped to
    one [nei x 4] matrix per atom. *)
Definition attended (self : descrpt) (P : params) (e : env) (start_index incrs_index : nat)
    (inputs : mat) (type_embedding : option mat) (atype : option (list Z))
    : result (list mat * list mat) :=
  let outputs_size := outputs_size_last self in
  inputs_i <- mapM (slice_last (start_index * 4) (incrs_index * 4)) inputs ;;
  let shape_i1 := (incrs_index * 4)%nat in
  let natom := length inputs_i in
  inputs_reshape <- reshape2_infer 4 (concat inputs_i) ;;
  xyz_scatter <- mapM (slice_last 0 1) inputs_reshape ;;
  atype <- match atype with
           | Some t => Ok t
           | None => Raise (AssertionError "atype must exist!!")
           end ;;
  type_embedding <- match type_embedding with
                    | Some t => Ok t
                    | None => Raise InvalidArgumentError
                    end ;;
  if compress self then
    Raise (RuntimeError "compression of attention descriptor is not supported at the moment")
  else
    xyz_scatter <- type_embedded self P e xyz_scatter type_embedding atype ;;
    input_r <- mapM (slice_last 1 3) inputs_reshape ;;
    let input_r :=
      map (map l2_normalize)
          (chunk (shape_i1 / 4) (length input_r / (shape_i1 / 4)) input_r) in
    let xyz_scatter_att :=
      _attention_layers self P e xyz_scatter (attn_layer self) shape_i1 outputs_size
        input_r (attn_dotr self) (attn_mask self) in
    let nei := (shape_i1 / 4)%nat in
    Ok (chunk nei natom inputs_reshape,
        chunk nei (length xyz_scatter_att / nei) xyz_scatter_att).

(** [_filter_lower]: per atom, the product of the transposed raw features
    with the attended embedding. *)
Definition _filter_lower (self : descrpt) (P : params) (e : env) (start_index incrs_index : nat)
    (inputs : mat) (type_embedding : option mat) (atype : option (list Z))
    : result (list mat) :=
  ra <- attended self P e start_index incrs_index inputs type_embedding atype ;;
  let shape_i1 := (incrs_index * 4)%nat in
  Ok (zipWith (matmul true false 4 (shape_i1 / 4) (outputs_size_last self)) (fst ra) (snd ra)).

(** [np.cumsum(self.sel_a)[-1]]. *)
Definition cumsum_last (sel : list nat) : result nat :=
  match sel with
  | [] => Raise IndexError
  | _ => Ok (fold_right Nat.add 0%nat sel)
  end.

(** The divisor of [_filter]. *)
Definition filter_nnei (self : descrpt) (shape1 : nat) : R :=
  match original_sel self with
  | None => INR shape1 / 4
  | Some osel => IZR (fold_right Z.add 0%Z osel)
  end.

(** [_filter]: the descriptor and the rotation matrix of every atom. *)
Definition _filter (self : descrpt) (P : params) (e : env) (inputs : mat)
    (type_embedding : option mat) (atype : option (list Z))
    : result (mat * list mat) :=
  let shape1 := ndescrpt self in
  let outputs_size := outputs_size_last self in
  let outputs_size_2 := n_axis_neuron self in
  incrs <- cumsum_last (sel_a self) ;;
  xyz_scatter_1 <- _filter_lower self P e 0 incrs inputs type_embedding atype ;;
  let nnei := filter_nnei self shape1 in
  let xyz_scatter_1 := map (map (map (fun x => x / nnei))) xyz_scatter_1 in
  xyz_scatter_2 <- mapM (mapM (slice_last 0 outputs_size_2)) xyz_scatter_1 ;;
  let qmat := map (fun g => firstn 3 (skipn 1 g)) xyz_scatter_1 in
  let qmat := map (transpose 3 outputs_size) qmat in
  let result := zipWith (matmul true false outputs_size 4 outputs_size_2)
                        xyz_scatter_1 xyz_scatter_2 in
  let result := map (@concat R) result in
  Ok (result, qmat).

(** [input_dict]: [None] or a dictionary whose values may be [None]. *)
Definition dict_get {V : Type} (d : list (string * option V)) (key : string) : option V :=
  match find (fun p => String.eqb (fst p) key) d with
  | Some (_, v) => v
  | None => None
  end.

(** [_pass_filter]: the descriptor of shape [nframes, natoms[0], dim_out]
    and the rotation matrix of shape
    [nframes, natoms[0], get_dim_rot_mat_1() * 3]. *)
Definition _pass_filter (self : descrpt) (P : params) (e : env) (inputs : mat)
    (atype : list Z) (natoms0 : nat) (input_dict : option (list (string * option mat)))
    : result (list mat * list mat) :=
  type_embedding <-
    match input_dict with
    | Some d =>
        match dict_get d "type_embedding" with
        | Some t => Ok t
        | None => Raise (AssertionError "se_atten desctiptor must use type_embedding")
        end
    | None => Raise (AssertionError "se_atten desctiptor must use type_embedding")
    end ;;
  inputs <- reshape3_infer natoms0 (ndescrpt self) (concat inputs) ;;
  inputs_i <- reshape2_infer (ndescrpt self) (concat (map (@concat R) inputs)) ;;
  inputs_i <-
    (if (length (exclude_types self) =? 0)%nat then Ok inputs_i
     else
       mask <- ExcludeMask.build_type_exclude_mask (exclude_types self) (ntypes self)
                 (sel_a self) (ndescrpt self) atype (length inputs_i) (nei_type_vec e) ;;
       Ok (zipWith vmul inputs_i mask)) ;;
  lq <- _filter self P e inputs_i (Some type_embedding) (Some atype) ;;
  layer <- reshape3 (length inputs) natoms0 (dim_out self) (concat (fst lq)) ;;
  qmat <- reshape3 (length inputs) natoms0 (dim_rot_mat_1 self * 3)
            (concat (map (@concat R) (snd lq))) ;;
  Ok (layer, qmat).

(** The outputs of the environment-matrix operator [prod_env_mat_a_mix]
    that the forward pass reads: the features, the neighbor types and the
    neighbor-validity mask. The operator itself is external. *)
Record env_mat : Type := {
  op_descrpt : mat;
  op_nei_type_vec : list (list Z);
  op_nmask : list (list bool)
}.

Definition prod_env_mat : Type :=
  mat -> list (list Z) -> list nat -> mat -> list Z -> mat -> mat -> env_mat.

(** [tf.clip_by_value(t, lo, hi)]: [maximum(minimum(t, hi), lo)]. *)
Definition clip_by_value (lo hi t : Z) : Z := Z.max (Z.min t hi) lo.

Definition natoms_at (natoms : list nat) (i : nat) : result nat :=
  match nth_error natoms i with
  | Some n => Ok n
  | None => Raise InvalidArgumentError
  end.

(** What [build] computes before it calls [_pass_filter]. *)
Record prepared : Type := {
  pre_op : env_mat;
  pre_env : env;
  pre_descrpt_reshape : mat;
  pre_atype_nloc : list Z
}.

Definition build_prepare (self : descrpt) (op : prod_env_mat) (coord_ : vec)
    (atype_ : list Z) (natoms : list nat) (box_ : vec) (mesh : list Z)
    : result prepared :=
  let davg := match davg self with
              | Some d => d
              | None => repeat (repeat 0 (ndescrpt self)) (ntypes self)
              end in
  let dstd := match dstd self with
              | Some d => d
              | None => repeat (repeat 1 (ndescrpt self)) (ntypes self)
              end in
  natoms0 <- natoms_at natoms 0 ;;
  natoms1 <- natoms_at natoms 1 ;;
  coord <- reshape2_infer (natoms1 * 3) coord_ ;;
  box <- reshape2_infer 9 box_ ;;
  atype <- reshape2_infer natoms1 atype_ ;;
  let o := op coord atype natoms box mesh davg dstd in
  let nei_type_vec := concat (op_nei_type_vec o) in
  sel0 <- index0 (sel_all_a self) ;;
  nmask <- reshape2_infer sel0 (map ExcludeMask.to_float (concat (op_nmask o))) ;;
  let negative_mask := map (map (fun m => - IZR (Z.shiftl 2 32) * (1 - m))) nmask in
  descrpt_reshape <- reshape2_infer (ndescrpt self) (concat (op_descrpt o)) ;;
  let atype := map (map (clip_by_value 0 (Z.of_nat (ntypes self) - 1))) atype in
  atype_nloc <- mapM (slice_last 0 natoms0) atype ;;
  Ok {| pre_op := o;
        pre_env := {| nei_type_vec := nei_type_vec; nmask := nmask;
                      negative_mask := negative_mask |};
        pre_descrpt_reshape := descrpt_reshape;
        pre_atype_nloc := concat atype_nloc |}.

(** [build]: the descriptor [self.dout] and the rotation matrix
    [self.qmat]. *)
Definition build (self : descrpt) (P : params) (op : prod_env_mat) (coord_ : vec)
    (atype_ : list Z) (natoms : list nat) (box_ : vec) (mesh : list Z)
    (input_dict : option (list (string * option mat)))
    : result (list mat * list mat) :=
  pre <- build_prepare self op coord_ atype_ natoms box_ mesh ;;
  natoms0 <- natoms_at natoms 0 ;;
  _pass_filter self P (pre_env pre) (pre_descrpt_reshape pre) (pre_atype_nloc pre)
    natoms0 input_dict.

End Attention.

End Sem.

(** ** Building the graph

    [build] is run once to add nodes to TensorFlow's default graph. This
    model follows the calls of [build], [_pass_filter], [_filter] and
    [_filter_lower] in their order and records, as the state, the nodes added
    to the graph and the attributes assigned on the descriptor object. The
    tensors themselves are symbolic here. An exception leaves the state as it
    was when it was raised. *)

Module GraphBuild.

Local Open Scope string_scope.

Record state : Type := {
  graph : list string;
  attrs : list string
}.

Definition M (A : Type) : Type := state -> result A * state.

Definition ret {A : Type} (a : A) : M A := fun s => (Ok a, s).

Definition bind {A B : Type} (c : M A) (k : A -> M B) : M B :=
  fun s =>
    match c s with
    | (Ok a, s') => k a s'
    | (Raise e, s') => (Raise e, s')
    end.

Definition raise {A : Type} (e : exn) : M A := fun s => (Raise e, s).

Declare Scope graph_scope.
Delimit Scope graph_scope with graph.
Notation "c1 >> c2" := (bind c1 (fun _ => c2))
  (at level 62, right associativity) : graph_scope.
Notation "x <~ c ;; k" := (bind c (fun x => k))
  (at level 62, c at next level, right associativity) : graph_scope.
Local Open Scope graph_scope.

(** A TensorFlow call adds its node to the graph. *)
Definition node (name : string) : M unit :=
  fun s => (Ok tt, {| graph := graph s ++ [name]; attrs := attrs s |}).

Fixpoint nodes (names : list string) : M unit :=
  match names with
  | [] => ret tt
  | n :: rest => node n >> nodes rest
  end.

(** [self.attr = ...]. *)
Definition assign (attr : string) : M unit :=
  fun s => (Ok tt, {| graph := graph s; attrs := attrs s ++ [attr] |}).

Fixpoint assigns (names : list string) : M unit :=
  match names with
  | [] => ret tt
  | n :: rest => assign n >> assigns rest
  end.

Definition when (b : bool) (c : M unit) : M unit := if b then c else ret tt.

Fixpoint for_range (n : nat) (body : M unit) : M unit :=
  match n with
  | O => ret tt
  | S n' => for_range n' body >> body
  end.

Definition assigned (attr : string) (s : state) : bool :=
  existsb (String.eqb attr) (attrs s).

Definition has_node (name : string) (s : state) : bool :=
  existsb (String.eqb name) (graph s).

Definition build_type_exclude_mask : M unit :=
  nodes ["convert_to_tensor"; "reshape"; "reshape"; "mul"; "tile"; "reshape"; "tile";
         "reshape"; "add"; "reshape"; "embedding_lookup"; "reshape"].

Definition _scaled_dot_attn (dotr do_mask : bool) : M unit :=
  nodes ["div"; "matmul"; "mul"; "add"; "softmax"; "reshape"; "mul"] >>
  assign "attn_weight" >>
  when dotr (nodes ["matmul"; "mul"] >> assigns ["angular_weight"; "attn_weight_final"]) >>
  when do_mask (nodes ["ones"; "eye"; "sub"; "cast"; "mul"]) >>
  node "matmul".

Definition _attention_layers (layer_num : nat) (dotr do_mask : bool) : M unit :=
  node "sqrt" >>
  for_range layer_num
    (nodes ["one_layer:c_query"; "one_layer:c_key"; "one_layer:c_value";
            "reshape"; "l2_normalize"; "reshape"; "l2_normalize"; "reshape"; "l2_normalize"] >>
     _scaled_dot_attn dotr do_mask >>
     nodes ["reshape"; "one_layer:c_out"; "add"; "LayerNormalization"]).

Definition _filter_lower (self : Sem.descrpt) (atype_given : bool) : M unit :=
  nodes ["slice"; "shape"; "reshape"; "slice"; "reshape"] >>
  (if atype_given then ret tt else raise (AssertionError "atype must exist!!")) >>
  node "cast" >>
  (if Sem.compress self
   then raise (RuntimeError "compression of attention descriptor is not supported at the moment")
   else ret tt) >>
  node "embedding_net" >>
  (if Sem.type_one_side self
   then nodes ["embedding_net:_ebd_of_ebd"; "embedding_lookup"; "add"]
   else nodes ["reshape"; "tile"; "reshape"; "tile"; "concat"; "reshape";
               "embedding_net:_two_side_ebd"; "mul"; "tile"; "add"; "embedding_lookup";
               "get_variable:embedding_compose_s"; "get_variable:embedding_compose_n";
               "mul"; "mul"; "add"; "mul"; "add"]) >>
  nodes ["reshape"; "slice"; "l2_normalize"] >>
  _attention_layers (Sem.attn_layer self) (Sem.attn_dotr self) (Sem.attn_mask self) >>
  nodes ["reshape"; "reshape"; "matmul"].

Definition _filter (self : Sem.descrpt) : M unit :=
  nodes ["reshape"; "shape"] >>
  _filter_lower self true >>
  (match Sem.original_sel self with
   | None => ret tt
   | Some _ => nodes ["Variable:nnei"; "cast"]
   end) >>
  nodes ["div"; "slice"; "slice"; "transpose"; "matmul"; "reshape"].

Definition _pass_filter (self : Sem.descrpt) (input_dict : option (list (string * option unit)))
    : M unit :=
  (match input_dict with
   | Some d =>
       match Sem.dict_get d "type_embedding" with
       | Some _ => ret tt
       | None => raise (AssertionError "se_atten desctiptor must use type_embedding")
       end
   | None => raise (AssertionError "se_atten desctiptor must use type_embedding")
   end) >>
  nodes ["reshape"; "reshape"] >>
  when (negb (length (Sem.exclude_types self) =? 0)%nat)
       (nodes ["shape"] >> build_type_exclude_mask >> node "mul") >>
  _filter self >>
  nodes ["shape"; "reshape"; "shape"; "reshape"; "concat"; "concat"].

Definition build (self : Sem.descrpt) (input_dict : option (list (string * option unit)))
    : M unit :=
  nodes ["constant:rcut"; "constant:ntypes"; "constant:ndescrpt"; "constant:sel";
         "constant:original_sel"; "get_variable:t_avg"; "get_variable:t_std"] >>
  nodes ["reshape"; "reshape"; "reshape"] >>
  assigns ["attn_weight"; "angular_weight"; "attn_weight_final"] >>
  node "prod_env_mat_a_mix" >>
  assigns ["descrpt"; "descrpt_deriv"; "rij"; "nlist"; "nei_type_vec"; "nmask"] >>
  node "reshape" >> assign "nei_type_vec" >>
  nodes ["reshape"; "cast"] >> assign "nmask" >>
  nodes ["sub"; "mul"] >> assign "negative_mask" >>
  nodes ["summary.histogram:descrpt"; "summary.histogram:rij"; "summary.histogram:nlist"] >>
  node "reshape" >> assign "descrpt_reshape" >>
  nodes ["clip_by_value"; "slice"; "reshape"] >> assign "atype_nloc" >>
  node "identity_tensors" >>
  _pass_filter self input_dict >>
  assigns ["dout"; "qmat"] >>
  node "summary.histogram:embedding_net_output".

Definition empty : state := {| graph := []; attrs := [] |}.

(** [extends s0 s1 ns as]: [s1] is [s0] with the nodes [ns] added and the
    attributes [as] assigned. *)
Definition extends (s0 s1 : state) (added_nodes added_attrs : list string) : Prop :=
  graph s1 = (graph s0 ++ added_nodes)%list /\ attrs s1 = (attrs s0 ++ added_attrs)%list.

(** What [build] has added and assigned when it calls [_pass_filter]. *)
Definition before_pass_filter_nodes : list string :=
  ["constant:rcut"; "constant:ntypes"; "constant:ndescrpt"; "constant:sel";
   "constant:original_sel"; "get_variable:t_avg"; "get_variable:t_std";
   "reshape"; "reshape"; "reshape"; "prod_env_mat_a_mix"; "reshape"; "reshape"; "cast";
   "sub"; "mul"; "summary.histogram:descrpt"; "summary.histogram:rij";
   "summary.histogram:nlist"; "reshape"; "clip_by_value"; "slice"; "reshape";
   "identity_tensors"].

Definition before_pass_filter_attrs : list string :=
  ["attn_weight"; "angular_weight"; "attn_weight_final"; "descrpt"; "descrpt_deriv"; "rij";
   "nlist"; "nei_type_vec"; "nmask"; "nei_type_vec"; "nmask"; "negative_mask";
   "descrpt_reshape"; "atype_nloc"].

(** The nodes of the exclusion mask and of its product with the inputs. *)
Definition exclude_mask_nodes : list string :=
  ["shape"; "convert_to_tensor"; "reshape"; "reshape"; "mul"; "tile"; "reshape"; "tile";
   "reshape"; "add"; "reshape"; "embedding_lookup"; "reshape"; "mul"].

(** What [build] has added when [_filter_lower] tests [self.compress]. *)
Definition before_compress_check_nodes (self : Sem.descrpt) : list string :=
  (before_pass_filter_nodes
   ++ ["reshape"; "reshape"]
   ++ (if (length (Sem.exclude_types self) =? 0)%nat then [] else exclude_mask_nodes)
   ++ ["reshape"; "shape"; "slice"; "shape"; "reshape"; "slice"; "reshape"; "cast"])%list.

Definition compress_message : string :=
  "compression of attention descriptor is not supported at the moment".

Definition type_embedding_message : string :=
  "se_atten desctiptor must use type_embedding".

End GraphBuild.

(** ** Concrete inputs

    A descriptor with two types, two neighbor slots per atom, embedding
    width 1 and no attention layer; parameters under which every network is
    the identity on a row; a batch of one frame with two atoms. *)

Module Examples.
Import Sem.
Local Open Scope R_scope.

Definition descrpt_example (one_side compress_on : bool) (excl : list (Z * Z)) : descrpt :=
  {| ntypes := 2; sel_a := [2%nat]; nnei := 2; ndescrpt := 8; filter_neuron := [1%nat];
     n_axis_neuron := 1; att_n := 1; attn_layer := 0; attn_dotr := true;
     attn_mask := false; type_one_side := one_side; compress := compress_on;
     original_sel := None; exclude_types := excl; sel_all_a := [2%nat];
     davg := None; dstd := None; dim_out := 1; dim_rot_mat_1 := 1 |}.

Definition params_example : params :=
  {| net_filter := fun v => v;
     net_ebd_of_ebd := fun v => v;
     net_two_side_ebd := fun v => firstn 1 v;
     embedding_compose_s := [0];
     embedding_compose_n := [0];
     c_query := fun _ v => v;
     c_key := fun _ v => v;
     c_value := fun _ v => v;
     c_out := fun _ v => v;
     layer_normalization := fun _ v => v |}.

(** The same descriptor with embedding width 2, and parameters whose
    embedding net maps the radial scalar [s] to [(s, 1)]. *)
Definition descrpt_wide : descrpt :=
  {| ntypes := 2; sel_a := [2%nat]; nnei := 2; ndescrpt := 8; filter_neuron := [2%nat];
     n_axis_neuron := 1; att_n := 1; attn_layer := 0; attn_dotr := true;
     attn_mask := false; type_one_side := true; compress := false;
     original_sel := None; exclude_types := []; sel_all_a := [2%nat];
     davg := None; dstd := None; dim_out := 2; dim_rot_mat_1 := 2 |}.

Definition params_wide : params :=
  {| net_filter := fun v => [hd 0 v; 1];
     net_ebd_of_ebd := fun _ => [0; 0];
     net_two_side_ebd := fun _ => [0; 0];
     embedding_compose_s := [0; 0];
     embedding_compose_n := [0; 0];
     c_query := fun _ v => v;
     c_key := fun _ v => v;
     c_value := fun _ v => v;
     c_out := fun _ v => v;
     layer_normalization := fun _ v => v |}.

(** An exponential that underflows: like the IEEE-754 binary64 one, it is
    0 on arguments below -745. *)
Definition exp_underflow (x : R) : R := if Rle_dec x (-745) then 0 else exp x.

Definition env_example : env :=
  {| nei_type_vec := [0; 0; 0; 0]%Z;
     nmask := [[1; 1]; [1; 1]];
     negative_mask := [[0; 0]; [0; 0]] |}.

Definition type_embedding_example : mat := [[0]; [1]].

Definition inputs_example : mat :=
  [[1; 1; 0; 0; 2; 0; 2; 0]; [1; 1; 0; 0; 1; 0; 1; 0]].

Definition inputs_swapped : mat :=
  [[2; 0; 2; 0; 1; 1; 0; 0]; [1; 1; 0; 0; 1; 0; 1; 0]].
(** An environment-matrix operator that returns the features above with all
    neighbors present and of type 0, and a call of [build] on three atoms,
    two of them local, whose types are -1, 5 and 0. *)
Definition op_example : prod_env_mat :=
  fun _ _ _ _ _ _ _ =>
    {| op_descrpt := inputs_example;
       op_nei_type_vec := [[0; 0]; [0; 0]]%Z;
       op_nmask := [[true; true]; [true; true]] |}.

Definition coord_example : vec := [0; 0; 0; 1; 0; 0; 0; 1; 0].
Definition box_example : vec := [9; 0; 0; 0; 9; 0; 0; 0; 9].
Definition atype_example : list Z := [-1; 5; 0]%Z.
Definition natoms_example : list nat := [2; 3; 1; 1]%nat.

End Examples.

(** ** Reordering the neighbor slots of the atoms of a batch *)

(** [permute_blocks d sigmas blocks]: block [a] reordered by [sigmas[a]],
    the neighbor slots of every atom on their own. *)
Definition permute_blocks {A : Type} (d : A) (sigmas : list (list nat))
    (blocks : list (list A)) : list (list A) :=
  map (fun p => permute d (fst p) (snd p)) (combine sigmas blocks).

(** The same reordering on the flat slot indices of a batch of [natom]
    atoms with [nei] slots each. *)
Definition block_slots (nei natom : nat) (sigmas : list (list nat)) : list nat :=
  concat (map (fun a => map (fun i => (a * nei + i)%nat) (nth a sigmas [])) (seq 0 natom)).

(** ** Python values and numpy arrays

    The statistics pass and the loading of variables run as plain Python
    over numpy arrays; their exceptions are Python's. *)

Module Py.

Inductive exn : Type :=
| IndexError
| ValueError
| TypeError
| KeyError (key : string).

Inductive res (A : Type) : Type :=
| Done (a : A)
| Raised (e : exn).

Arguments Done {A} a.
Arguments Raised {A} e.

Definition bind {A B : Type} (c : res A) (k : A -> res B) : res B :=
  match c with
  | Done a => k a
  | Raised e => Raised e
  end.

(** [l[i]] on a list or an array of rank 1, with [i >= 0]. *)
Definition getitem {A : Type} (l : list A) (i : nat) : res A :=
  match nth_error l i with
  | Some x => Done x
  | None => Raised IndexError
  end.

(** [d[key]] on a dictionary with string keys. *)
Definition getkey {V : Type} (d : list (string * V)) (key : string) : res V :=
  match find (fun p => String.eqb (fst p) key) d with
  | Some (_, v) => Done v
  | None => Raised (KeyError key)
  end.

(** [np.reshape(a, [-1, k])] on the row-major data of [a]: numpy refuses to
    infer the number of rows when [k] is 0 or does not divide the size. *)
Definition reshape_rows {A : Type} (k : nat) (l : list A) : res (list (list A)) :=
  match k with
  | O => Raised ValueError
  | S _ =>
      if (length l mod k =? 0)%nat then Done (chunk k (length l / k) l)
      else Raised ValueError
  end.

(** [a[:, start:stop]] with [start <= stop]: a slice is cut at the end of
    the rows. *)
Definition columns {A : Type} (start stop : nat) (a : list (list A)) : list (list A) :=
  map (fun row => firstn (stop - start) (skipn start row)) a.

(** [l[i] = v] on a list that has an entry [i]. *)
Fixpoint setitem {A : Type} (l : list A) (i : nat) (v : A) : list A :=
  match l, i with
  | [], _ => []
  | _ :: rest, O => v :: rest
  | x :: rest, S i' => x :: setitem rest i' v
  end.

(** [str(i)], as [format] prints a non-negative integer. *)
Definition str (i : nat) : string := NilEmpty.string_of_uint (Nat.to_uint i).

End Py.

Declare Scope py_scope.
Delimit Scope py_scope with py.
Notation "x <- c ;; k" := (Py.bind c (fun x => k))
  (at level 61, c at next level, right associativity) : py_scope.

(** ** The statistics of the training data
    ([compute_input_stats], [_compute_dstats_sys_smth]) *)

Module Stats.

Import Sem.
Local Open Scope R_scope.
Local Open Scope py_scope.

(** [np.sum] of an array of rank 2, and [np.multiply(a, a)]. *)
Definition np_sum (a : mat) : R := reduce_sum (concat a).
Definition np_square (a : mat) : mat := map (map (fun v => v * v)) a.

(** The five numbers computed for one type from its block [dd] of the
    environment matrix. *)
Record type_stats : Type := {
  sumr : R;
  suma : R;
  sumn : nat;
  sumr2 : R;
  suma2 : R
}.

Definition block_stats (ndescrpt : nat) (dd : mat) : Py.res type_stats :=
  dd <- Py.reshape_rows ndescrpt (concat dd) ;;
  dd <- Py.reshape_rows 4 (concat dd) ;;
  let ddr := map (firstn 1) dd in
  let dda := map (skipn 1) dd in
  Py.Done {| sumr := np_sum ddr;
             suma := np_sum dda / 3;
             sumn := length dd;
             sumr2 := np_sum (np_square ddr);
             suma2 := np_sum (np_square dda) / 3 |}.

(** The same five numbers from the entries of a block in row-major order,
    four per neighbor slot. *)
Definition flat_stats (flat : vec) : type_stats :=
  let dd := chunk 4 (length flat / 4) flat in
  {| sumr := np_sum (map (firstn 1) dd);
     suma := np_sum (map (skipn 1) dd) / 3;
     sumn := length dd;
     sumr2 := np_sum (np_square (map (firstn 1) dd));
     suma2 := np_sum (np_square (map (skipn 1) dd)) / 3 |}.

(** The lists [sysr], [sysr2], [sysa], [sysa2], [sysn], one entry per
    type. *)
Record sys_stats : Type := {
  sysr : list R;
  sysr2 : list R;
  sysa : list R;
  sysa2 : list R;
  sysn : list nat
}.

(** [sysr.append(sumr)] and the four others. *)
Definition append_stats (acc : sys_stats) (type_i : nat) (s : type_stats) : sys_stats :=
  {| sysr := sysr acc ++ [sumr s];
     sysr2 := sysr2 acc ++ [sumr2 s];
     sysa := sysa acc ++ [suma s];
     sysa2 := sysa2 acc ++ [suma2 s];
     sysn := sysn acc ++ [sumn s] |}.

(** [sysr[type_i] += sumr] and the four others. *)
Definition add_stats (acc : sys_stats) (type_i : nat) (s : type_stats) : sys_stats :=
  {| sysr := Py.setitem (sysr acc) type_i (nth type_i (sysr acc) 0 + sumr s);
     sysr2 := Py.setitem (sysr2 acc) type_i (nth type_i (sysr2 acc) 0 + sumr2 s);
     sysa := Py.setitem (sysa acc) type_i (nth type_i (sysa acc) 0 + suma s);
     sysa2 := Py.setitem (sysa2 acc) type_i (nth type_i (sysa2 acc) 0 + suma2 s);
     sysn := Py.setitem (sysn acc) type_i (nth type_i (sysn acc) 0 + sumn s)%nat |}.

(** The entrywise sum of the statistics of two sets of frames. *)
Definition add_sys (a b : sys_stats) : sys_stats :=
  {| sysr := zipWith Rplus (sysr a) (sysr b);
     sysr2 := zipWith Rplus (sysr2 a) (sysr2 b);
     sysa := zipWith Rplus (sysa a) (sysa b);
     sysa2 := zipWith Rplus (sysa2 a) (sysa2 b);
     sysn := zipWith Nat.add (sysn a) (sysn b) |}.

(** [natoms[2] + ... + natoms[2 + t - 1]]: the atoms whose columns come
    before those of type [t]. *)
Definition atoms_before (natoms : list nat) (t : nat) : nat :=
  fold_right Nat.add 0%nat (firstn t (skipn 2 natoms)).

(** The loop [for type_i in range(self.ntypes)], which both branches of
    [_compute_dstats_sys_smth] run on an array [dd_all] with one row of
    [ndescrpt * natoms[0]] entries per frame; [store] is how the branch keeps
    the numbers of a type. *)
Fixpoint type_loop (ndescrpt : nat) (natoms : list nat) (dd_all : mat)
    (store : sys_stats -> nat -> type_stats -> sys_stats)
    (types : list nat) (start_index : nat) (acc : sys_stats) : Py.res sys_stats :=
  match types with
  | [] => Py.Done acc
  | type_i :: rest =>
      n <- Py.getitem natoms (2 + type_i) ;;
      let end_index := (start_index + ndescrpt * n)%nat in
      s <- block_stats ndescrpt (Py.columns start_index end_index dd_all) ;;
      type_loop ndescrpt natoms dd_all store rest end_index (store acc type_i s)
  end.

(** The loop [for ff in range(nframes)] of the mixed-type branch. *)
Fixpoint frame_loop (ndescrpt ntypes : nat) (real_natoms_vec : option (list (list nat)))
    (frames : list (nat * vec)) (acc : sys_stats) : Py.res sys_stats :=
  match frames with
  | [] => Py.Done acc
  | (ff, dd) :: rest =>
      natoms <- match real_natoms_vec with
                | Some v => Py.getitem v ff
                | None => Py.Raised Py.TypeError
                end ;;
      n0 <- Py.getitem natoms 0 ;;
      dd_ff <- Py.reshape_rows (ndescrpt * n0) dd ;;
      acc <- type_loop ndescrpt natoms dd_ff add_stats (seq 0 ntypes) 0 acc ;;
      frame_loop ndescrpt ntypes real_natoms_vec rest acc
  end.

(** What [_compute_dstats_sys_smth] does with the environment matrix
    [dd_all] that the session returns. *)
Definition dstats_of (self : descrpt) (dd_all : mat) (natoms_vec : list nat)
    (mixed_type : bool) (real_natoms_vec : option (list (list nat)))
    : Py.res sys_stats :=
  if mixed_type then
    let nframes := length dd_all in
    let zeros := {| sysr := repeat 0 (ntypes self);
                    sysr2 := repeat 0 (ntypes self);
                    sysa := repeat 0 (ntypes self);
                    sysa2 := repeat 0 (ntypes self);
                    sysn := repeat 0%nat (ntypes self) |} in
    frame_loop (ndescrpt self) (ntypes self) real_natoms_vec
      (combine (seq 0 nframes) dd_all) zeros
  else
    n0 <- Py.getitem natoms_vec 0 ;;
    dd_all <- Py.reshape_rows (ndescrpt self * n0) (concat dd_all) ;;
    type_loop (ndescrpt self) natoms_vec dd_all append_stats (seq 0 (ntypes self)) 0
      {| sysr := []; sysr2 := []; sysa := []; sysa2 := []; sysn := [] |}.

(** [_compute_dstats_sys_smth]: the session evaluates the operator, built
    by the constructor with a zero mean and a unit deviation, on the data of
    one system. The constructor gives the placeholder of [natoms_vec] the
    shape [[ntypes + 2]], and [run_sess] refuses with a [ValueError] a feed
    of another length before anything is computed. *)
Definition _compute_dstats_sys_smth (self : descrpt) (op : prod_env_mat)
    (data_coord data_box : mat) (data_atype : list (list Z)) (natoms_vec : list nat)
    (mesh : list Z) (mixed_type : bool) (real_natoms_vec : option (list (list nat)))
    : Py.res sys_stats :=
  if (length natoms_vec =? ntypes self + 2)%nat then
    let avg_zero := repeat (repeat 0 (ndescrpt self)) (ntypes self) in
    let std_ones := repeat (repeat 1 (ndescrpt self)) (ntypes self) in
    let dd_all := op_descrpt (op data_coord data_atype natoms_vec data_box mesh
                                 avg_zero std_ones) in
    dstats_of self dd_all natoms_vec mixed_type real_natoms_vec
  else Py.Raised Py.ValueError.

(** The dictionary of statistics: under each key, one list per system. *)
Record stat_dict : Type := {
  d_sumr : list (list R);
  d_suma : list (list R);
  d_sumn : list (list nat);
  d_sumr2 : list (list R);
  d_suma2 : list (list R)
}.

Definition no_stats : stat_dict :=
  {| d_sumr := []; d_suma := []; d_sumn := []; d_sumr2 := []; d_suma2 := [] |}.

(** The five [append] calls after a system. *)
Definition push_stats (d : stat_dict) (s : sys_stats) : stat_dict :=
  {| d_sumr := d_sumr d ++ [sysr s];
     d_suma := d_suma d ++ [sysa s];
     d_sumn := d_sumn d ++ [sysn s];
     d_sumr2 := d_sumr2 d ++ [sysr2 s];
     d_suma2 := d_suma2 d ++ [sysa2 s] |}.

(** [self.stat_dict[key] += ...] for the five keys. *)
Definition extend_stats (d new : stat_dict) : stat_dict :=
  {| d_sumr := d_sumr d ++ d_sumr new;
     d_suma := d_suma d ++ d_suma new;
     d_sumn := d_sumn d ++ d_sumn new;
     d_sumr2 := d_sumr2 d ++ d_sumr2 new;
     d_suma2 := d_suma2 d ++ d_suma2 new |}.

(** The data of one system: coordinates, box, types, [natoms_vec], mesh. *)
Record system : Type := {
  s_coord : mat;
  s_box : mat;
  s_atype : list (list Z);
  s_natoms : list nat;
  s_mesh : list Z
}.

(** [zip(data_coord, data_box, data_atype, natoms_vec, mesh)]: as long as
    the shortest list. *)
Fixpoint zip5 (data_coord data_box : list mat) (data_atype : list (list (list Z)))
    (natoms_vec : list (list nat)) (mesh : list (list Z)) : list system :=
  match data_coord, data_box, data_atype, natoms_vec, mesh with
  | cc :: c', bb :: b', ty :: t', nn :: n', mm :: m' =>
      {| s_coord := cc; s_box := bb; s_atype := ty; s_natoms := nn; s_mesh := mm |}
      :: zip5 c' b' t' n' m'
  | _, _, _, _, _ => []
  end.

(** The two [for] loops over the systems. *)
Fixpoint collect (f : system -> option (list (list nat)) -> Py.res sys_stats)
    (systems : list (system * option (list (list nat)))) (acc : stat_dict)
    : Py.res stat_dict :=
  match systems with
  | [] => Py.Done acc
  | (s, r_n) :: rest =>
      st <- f s r_n ;;
      collect f rest (push_stats acc st)
  end.

(** The part of the descriptor object that [compute_input_stats] reads and
    writes: the flag [multi_task], the dictionary [self.stat_dict], and the
    arguments of the calls of the base-class method [merge_input_stats]. *)
Record stats_object : Type := {
  multi_task : bool;
  self_stat_dict : stat_dict;
  merge_input_stats_calls : list stat_dict
}.

Definition compute_input_stats (self : descrpt) (op : prod_env_mat) (o : stats_object)
    (data_coord data_box : list mat) (data_atype : list (list (list Z)))
    (natoms_vec : list (list nat)) (mesh : list (list Z)) (mixed_type : bool)
    (real_natoms_vec : option (list (list (list nat))))
    : Py.res unit * stats_object :=
  let zipped := zip5 data_coord data_box data_atype natoms_vec mesh in
  let systems :=
    if mixed_type then
      match real_natoms_vec with
      | Some r => Py.Done (map (fun p => (fst p, Some (snd p))) (combine zipped r))
      | None => Py.Raised Py.TypeError
      end
    else Py.Done (map (fun s => (s, None)) zipped) in
  let run (s : system) (r_n : option (list (list nat))) :=
    _compute_dstats_sys_smth self op (s_coord s) (s_box s) (s_atype s) (s_natoms s)
      (s_mesh s) mixed_type r_n in
  match (systems <- systems ;; collect run systems no_stats) with
  | Py.Raised e => (Py.Raised e, o)
  | Py.Done stat =>
      if negb (multi_task o) then
        (Py.Done tt,
         {| multi_task := multi_task o;
            self_stat_dict := self_stat_dict o;
            merge_input_stats_calls := merge_input_stats_calls o ++ [stat] |})
      else
        (Py.Done tt,
         {| multi_task := multi_task o;
            self_stat_dict := extend_stats (self_stat_dict o) stat;
            merge_input_stats_calls := merge_input_stats_calls o |})
  end.

End Stats.

(** ** Concrete inputs of the statistics pass

    One system of two frames with one local atom, of type 0, and two
    neighbor slots; the operator returns the features of [Examples]. *)

Module StatsExamples.
Import Sem.

Definition self_example : descrpt := Examples.descrpt_example true false [].
Definition natoms_example : list nat := [1; 1; 1; 0]%nat.
Definition system_example : Stats.system :=
  {| Stats.s_coord := [[0; 0; 0]; [0; 0; 0]]%R;
     Stats.s_box := [Examples.box_example; Examples.box_example];
     Stats.s_atype := [[0]; [0]]%Z;
     Stats.s_natoms := natoms_example;
     Stats.s_mesh := [] |}.

(** An operator that returns the same features for every frame. *)
Definition op_per_frame : prod_env_mat :=
  fun coord _ _ _ _ _ _ =>
    {| op_descrpt := map (fun _ => [1; 1; 0; 0; 2; 0; 2; 0]%R) coord;
       op_nei_type_vec := map (fun _ => [0; 0]%Z) coord;
       op_nmask := map (fun _ => [true; true]) coord |}.

Definition object_example (multi : bool) : Stats.stats_object :=
  {| Stats.multi_task := multi;
     Stats.self_stat_dict := Stats.no_stats;
     Stats.merge_input_stats_calls := [] |}.

End StatsExamples.

(** ** Loading the variables of a frozen model ([init_variables])

    The part of the descriptor object that [init_variables] writes after
    the call of the base-class method: the dictionary of the variables of
    the attention layers, which
    [get_attention_layer_variables_from_graph_def] reads from the graph, and
    the arrays [self.beta] and [self.gamma] with one row per attention
    layer. An exception leaves the object as it was when it was raised. *)

Module Variables.

Import Sem.
Local Open Scope string_scope.

Record layer_norm : Type := {
  attention_layer_variables : option (list (string * vec));
  beta : mat;
  gamma : mat
}.

Definition M (A : Type) : Type := layer_norm -> Py.res A * layer_norm.

Definition ret {A : Type} (a : A) : M A := fun s => (Py.Done a, s).

Definition bind {A B : Type} (c : M A) (k : A -> M B) : M B :=
  fun s =>
    match c s with
    | (Py.Done a, s') => k a s'
    | (Py.Raised e, s') => (Py.Raised e, s')
    end.

Definition lift {A : Type} (c : Py.res A) : M A := fun s => (c, s).

Declare Scope vars_scope.
Delimit Scope vars_scope with vars.
Notation "c1 >> c2" := (bind c1 (fun _ => c2))
  (at level 62, right associativity) : vars_scope.
Notation "x <~ c ;; k" := (bind c (fun x => k))
  (at level 62, c at next level, right associativity) : vars_scope.
Local Open Scope vars_scope.

(** [a[i] = v] on an array of rank 2: [v] has the width of the row, or one
    entry that is broadcast. *)
Definition set_row (a : mat) (i : nat) (v : vec) : Py.res mat :=
  match nth_error a i with
  | None => Py.Raised Py.IndexError
  | Some row =>
      if (length v =? length row)%nat then Py.Done (Py.setitem a i v)
      else if (length v =? 1)%nat then Py.Done (Py.setitem a i (repeat (hd 0%R v) (length row)))
      else Py.Raised Py.ValueError
  end.

(** [self.attention_layer_variables[key]]. *)
Definition variable (key : string) : M vec :=
  fun s =>
    match attention_layer_variables s with
    | Some d => (Py.getkey d key, s)
    | None => (Py.Raised Py.TypeError, s)
    end.

(** [self.beta[i] = v] and [self.gamma[i] = v]. *)
Definition set_beta (i : nat) (v : vec) : M unit :=
  fun s =>
    match set_row (beta s) i v with
    | Py.Done b =>
        (Py.Done tt,
         {| attention_layer_variables := attention_layer_variables s;
            beta := b; gamma := gamma s |})
    | Py.Raised e => (Py.Raised e, s)
    end.

Definition set_gamma (i : nat) (v : vec) : M unit :=
  fun s =>
    match set_row (gamma s) i v with
    | Py.Done g =>
        (Py.Done tt,
         {| attention_layer_variables := attention_layer_variables s;
            beta := beta s; gamma := g |})
    | Py.Raised e => (Py.Raised e, s)
    end.

Fixpoint for_each (l : list nat) (body : nat -> M unit) : M unit :=
  match l with
  | [] => ret tt
  | i :: rest => body i >> for_each rest body
  end.

(** The names of the variables of the layer normalization of layer [0]
    and of a layer [i >= 1]. *)
Definition first_layer_key (suffix param : string) : string :=
  "attention_layer_0" ++ suffix ++ "/layer_normalization/" ++ param.

Definition later_layer_key (i : nat) (suffix param : string) : string :=
  "attention_layer_" ++ Py.str i ++ suffix ++ "/layer_normalization_" ++ Py.str i ++ "/"
  ++ param.

Definition init_variables (self : descrpt) (variables : list (string * vec))
    (suffix : string) : M unit :=
  (fun s => (Py.Done tt,
             {| attention_layer_variables := Some variables;
                beta := beta s; gamma := gamma s |})) >>
  if (0 <? attn_layer self)%nat then
    (v <~ variable (first_layer_key suffix "beta") ;; set_beta 0 v) >>
    (v <~ variable (first_layer_key suffix "gamma") ;; set_gamma 0 v) >>
    for_each (seq 1 (attn_layer self - 1))
      (fun i =>
         (v <~ variable (later_layer_key i suffix "beta") ;; set_beta i v) >>
         (v <~ variable (later_layer_key i suffix "gamma") ;; set_gamma i v))
  else ret tt.

(** The name under which the variable [param] of layer [i] is looked
    up. *)
Definition layer_key (i : nat) (suffix param : string) : string :=
  match i with
  | O => first_layer_key suffix param
  | S _ => later_layer_key i suffix param
  end.

End Variables.

(** ** A descriptor with two attention layers

    The descriptor of [Examples] with two attention layers, the gate and
    the diagonal mask, and a dictionary that holds the variables of the layer
    normalization of both layers. *)

Module AttentionExamples.
Import Sem.
Local Open Scope string_scope.

Definition descrpt_attention (one_side : bool) : descrpt :=
  {| ntypes := 2; sel_a := [2%nat]; nnei := 2; ndescrpt := 8; filter_neuron := [1%nat];
     n_axis_neuron := 1; att_n := 1; attn_layer := 2; attn_dotr := true;
     attn_mask := true; type_one_side := one_side; compress := false;
     original_sel := None; exclude_types := []; sel_all_a := [2%nat];
     davg := None; dstd := None; dim_out := 1; dim_rot_mat_1 := 1 |}.

Definition variables_example : list (string * vec) :=
  [("attention_layer_0/layer_normalization/beta", [1%R]);
   ("attention_layer_0/layer_normalization/gamma", [2%R]);
   ("attention_layer_1/layer_normalization_1/beta", [3%R]);
   ("attention_layer_1/layer_normalization_1/gamma", [4%R])].

(** The arrays as the constructor leaves them: zeros and ones. *)
Definition layer_norm_example : Variables.layer_norm :=
  {| Variables.attention_layer_variables := None;
     Variables.beta := [[0%R]; [0%R]];
     Variables.gamma := [[1%R]; [1%R]] |}.

End AttentionExamples.

(** ** The concatenated type embedding ([_lookup_type_embedding]) *)

Module Lookup.

Import Sem.

(** [tf.concat([x, y], 1)] on two matrices with the same number of rows. *)
Definition concat_columns (x y : mat) : result mat :=
  if (length x =? length y)%nat then Ok (zipWith (@app R) x y)
  else Raise InvalidArgumentError.

(** [te_out_dim] is the static width of [type_embedding]. *)
Definition _lookup_type_embedding (self : descrpt) (e : env) (te_out_dim : nat)
    (xyz_scatter : mat) (natype : list Z) (type_embedding : mat) : result mat :=
  test_nei_embed <- embedding_lookup type_embedding (nei_type_vec e) ;;
  nei_embed <- reshape2_infer te_out_dim (concat test_nei_embed) ;;
  embedding_input <- concat_columns xyz_scatter nei_embed ;;
  if negb (type_one_side self) then
    atm_embed <- embedding_lookup type_embedding natype ;;
    let atm_embed := map (tile (nnei self)) atm_embed in
    atm_embed <- reshape2_infer te_out_dim (concat atm_embed) ;;
    concat_columns embedding_input atm_embed
  else Ok embedding_input.

End Lookup.


(** ** Changes of the coordinate frame

    A neighbor slot of the environment matrix holds
    [(s, s x / r, s y / r, s z / r)] for the relative position [(x, y, z)]
    of the neighbor. A linear change of frame [O] acts on the last three
    entries and leaves the first; [_filter] returns, with the descriptor,
    rows of three entries that live in the same frame. *)

Module Frame.

Import Sem.
Local Open Scope R_scope.

(** The image of a vector of three entries under the 3 x 3 matrix [O]. *)
Definition rotate_vec (O : mat) (v : vec) : vec :=
  map (fun i => big_sum 3 (fun j => entry O i j * nth j v 0)) (seq 0 3).

Definition rotate_slot (O : mat) (row : vec) : vec :=
  firstn 1 row ++ rotate_vec O (skipn 1 row).

(** [O^T O = 1]: rotations and reflections. *)
Definition orthogonal (O : mat) : Prop :=
  forall j k : nat, (j < 3)%nat -> (k < 3)%nat ->
    big_sum 3 (fun i => entry O i j * entry O i k) = if (j =? k)%nat then 1 else 0.

End Frame.

(** ** Concrete operators with padding and with neighbor types

    Two local atoms with two neighbor slots each, as in [Examples]. *)

Module OperatorExamples.

Import Sem.
Local Open Scope R_scope.

(** The second slot of the first atom is padding: zero features, the
    sentinel type [ntypes] and a false validity flag. *)
Definition op_padded : prod_env_mat :=
  fun _ _ _ _ _ _ _ =>
    {| op_descrpt := [[1; 1; 0; 0; 0; 0; 0; 0]; [1; 1; 0; 0; 1; 0; 1; 0]];
       op_nei_type_vec := [[0; 2]; [0; 0]]%Z;
       op_nmask := [[true; false]; [true; true]] |}.

(** The neighbors of each local atom are the two other atoms of the
    frame, and their types are reported as the caller gave them. *)
Definition op_neighbors : prod_env_mat :=
  fun _ atype _ _ _ _ _ =>
    let t := concat atype in
    {| op_descrpt := Examples.inputs_example;
       op_nei_type_vec := [[nth 1 t 0; nth 2 t 0]; [nth 0 t 0; nth 2 t 0]]%Z;
       op_nmask := [[true; true]; [true; true]] |}.

(** The rows that enter an attention layer in the example. *)
Definition rows_example : mat := [[3]; [1000000]; [4]; [5]].

(** A type embedding with a row for each of the two types and one for the
    sentinel type, and the dictionary that holds it. *)
Definition type_embedding_padded : mat := [[0]; [1]; [0]].

Definition input_dict_padded : list (string * option mat) :=
  [("type_embedding"%string, Some type_embedding_padded)].

End OperatorExamples.

(** * Properties *)

Unset Implicit Arguments.

(** ** Lists as tensors *)

Section ChunkFacts.
Context {A : Type}.
Implicit Types (l : list A) (X : list (list A)).

Lemma chunk_length k r l : length (chunk k r l) = r.
Proof. revert l; induction r; simpl; intros; auto. Qed.

Lemma chunk_concat k X :
  Forall (fun row => length row = k) X -> chunk k (length X) (concat X) = X.
Proof.
  induction 1 as [|row X Hrow _ IH]; simpl; auto.
  assert (H1 : firstn k (row ++ concat X) = row).
  { rewrite <- Hrow, firstn_app, Nat.sub_diag, firstn_all. simpl. apply app_nil_r. }
  assert (H2 : skipn k (row ++ concat X) = concat X).
  { rewrite <- Hrow, skipn_app, Nat.sub_diag, skipn_all. reflexivity. }
  now rewrite H1, H2, IH.
Qed.

Lemma length_concat_uniform w X :
  Forall (fun row => length row = w) X -> length (concat X) = (length X * w)%nat.
Proof. induction 1; simpl; auto. rewrite length_app. lia. Qed.

Lemma chunk_rows k r l :
  length l = (r * k)%nat -> Forall (fun row => length row = k) (chunk k r l).
Proof.
  revert l; induction r; simpl; intros l Hl; constructor.
  - rewrite length_firstn. lia.
  - apply IHr. rewrite length_skipn. lia.
Qed.

Lemma concat_chunk k r l : length l = (r * k)%nat -> concat (chunk k r l) = l.
Proof.
  revert l; induction r; simpl; intros l Hl.
  - destruct l; simpl in *; auto; discriminate.
  - rewrite IHr by (rewrite length_skipn; lia). apply firstn_skipn.
Qed.

Lemma nth_chunk k r l i :
  (i < r)%nat -> nth i (chunk k r l) [] = firstn k (skipn (i * k) l).
Proof.
  revert l i; induction r; intros l i Hi; [lia|].
  destruct i; simpl; auto.
  rewrite IHr by lia. now rewrite skipn_skipn, Nat.add_comm.
Qed.

Lemma chunk_one r l : length l = r -> chunk 1 r l = map (fun x => [x]) l.
Proof.
  revert l; induction r; intros [|x l] Hl; simpl in *; try discriminate; auto.
  f_equal. apply IHr. lia.
Qed.

Lemma chunk_map {B} (f : A -> B) k r l :
  chunk k r (map f l) = map (map f) (chunk k r l).
Proof.
  revert l; induction r; simpl; intros; auto.
  now rewrite firstn_map, skipn_map, IHr.
Qed.

Lemma tile_single m (x : A) : tile m [x] = repeat x m.
Proof. unfold tile. induction m; simpl; auto. now rewrite IHm. Qed.

Lemma nth_concat_uniform w X i j d :
  Forall (fun row => length row = w) X -> (j < w)%nat ->
  nth (i * w + j) (concat X) d = nth j (nth i X []) d.
Proof.
  intros HX; revert i; induction HX as [|row X Hrow _ IH]; intros i Hj.
  - replace (nth i (@nil (list A)) []) with (@nil A) by (destruct i; reflexivity).
    simpl. destruct (i * w + j)%nat, j; reflexivity.
  - destruct i; simpl.
    + rewrite app_nth1 by lia. reflexivity.
    + rewrite app_nth2 by lia.
      replace (w + i * w + j - length row)%nat with (i * w + j)%nat by lia.
      now apply IH.
Qed.

Lemma nth_flat_repeat k (C : list A) j c d :
  (c < k)%nat ->
  nth (k * j + c) (flat_map (fun t => repeat t k) C) d = nth j C d.
Proof.
  intros Hc; revert j; induction C as [|t C IH]; intros j; simpl.
  - destruct (k * j + c)%nat, j; reflexivity.
  - destruct j.
    + rewrite app_nth1 by (rewrite repeat_length; lia).
      rewrite Nat.mul_0_r. simpl. apply nth_repeat_lt. lia.
    + rewrite app_nth2 by (rewrite repeat_length; lia).
      rewrite repeat_length.
      replace (k * S j + c - k)%nat with (k * j + c)%nat by lia. apply IH.
Qed.

Lemma length_flat_repeat k (C : list A) :
  length (flat_map (fun t => repeat t k) C) = (k * length C)%nat.
Proof. induction C; simpl; [lia|]. rewrite length_app, repeat_length, IHC. lia. Qed.

Lemma mapM_lookup_ok (params : list A) (ids : list Z) d :
  Forall (fun i => (0 <= i < Z.of_nat (length params))%Z) ids ->
  embedding_lookup params ids = Ok (map (fun i => nth (Z.to_nat i) params d) ids).
Proof.
  unfold embedding_lookup.
  induction 1 as [|i ids Hi _ IH]; simpl; auto.
  unfold lookup1 at 1. destruct (Z.ltb_spec i 0); [lia|].
  destruct (nth_error params (Z.to_nat i)) eqn:E.
  - rewrite IH. f_equal. f_equal. symmetry. now apply nth_error_nth.
  - apply nth_error_None in E. lia.
Qed.
End ChunkFacts.

(** ** The type-exclusion mask *)

Import ExcludeMask.

Lemma floordiv_pos a b : (0 < b)%nat -> floordiv a b = Ok (a / b)%nat.
Proof. destruct b; [lia|reflexivity]. Qed.

Lemma combine_map2 {A B C D : Type} (f : A -> C) (g : B -> D) l l' :
  combine (map f l) (map g l') = map (fun p => (f (fst p), g (snd p))) (combine l l').
Proof.
  revert l'; induction l as [|a l IH]; intros [|b l']; simpl; auto. now rewrite IH.
Qed.

Section ExcludeMaskFacts.

Variables (exclude_types : list (Z * Z)) (ntypes sel0 shape0 : nat) (sel_rest : list nat).
Variables (atype nei_type_vec : list Z).

Hypothesis sel0_pos : (0 < sel0)%nat.
Hypothesis atype_length : length atype = shape0.
Hypothesis nei_length : length nei_type_vec = (shape0 * sel0)%nat.

Let ndescrpt := (4 * sel0)%nat.

(** Row [i] of the gather index, as the source's tile/reshape/add produce it. *)
Let idx_row (p : Z * list Z) : list Z :=
  zip_add (repeat (fst p * (Z.of_nat ntypes + 1))%Z ndescrpt)
          (flat_map (fun t => repeat t 4) (snd p)).

Lemma exclude_idx_rows :
  exclude_idx ntypes (sel0 :: sel_rest) ndescrpt atype shape0 nei_type_vec
  = Ok (map idx_row (combine atype (chunk sel0 shape0 nei_type_vec))).
Proof.
  unfold exclude_idx. simpl index0. cbn [rbind].
  unfold reshape3. rewrite nei_length, !Nat.mul_1_r, Nat.eqb_refl. cbn [rbind].
  rewrite floordiv_pos by assumption. cbn [rbind].
  assert (Hk : (ndescrpt / sel0 = 4)%nat).
  { unfold ndescrpt. apply Nat.div_mul. lia. }
  rewrite Hk.
  pose proof (chunk_rows sel0 shape0 nei_type_vec nei_length) as Hrows.
  set (chunks := chunk sel0 shape0 nei_type_vec) in *.
  assert (HX : map (@concat Z) (map (map (tile 4)) (map (chunk 1 sel0) chunks))
               = map (fun C => flat_map (fun t => repeat t 4) C) chunks).
  { rewrite !map_map. apply map_ext_in. intros C HC.
    rewrite Forall_forall in Hrows. specialize (Hrows C HC).
    rewrite chunk_one by assumption. rewrite map_map.
    rewrite flat_map_concat_map. f_equal. }
  rewrite HX.
  set (X := map (fun C => flat_map (fun t => repeat t 4) C) chunks).
  assert (HXrows : Forall (fun row => length row = ndescrpt) X).
  { unfold X. rewrite Forall_map. eapply Forall_impl; [|exact Hrows].
    intros C HC. cbv beta. rewrite length_flat_repeat, HC. reflexivity. }
  assert (HXlen : length X = shape0).
  { unfold X, chunks. now rewrite length_map, chunk_length. }
  unfold reshape2.
  assert (Hlen : length (concat X) = (shape0 * ndescrpt)%nat).
  { rewrite <- HXlen. now apply length_concat_uniform. }
  rewrite Hlen, Nat.eqb_refl. cbn [rbind].
  rewrite <- HXlen at 1. rewrite chunk_concat by assumption.
  unfold add2. rewrite !length_map, atype_length, HXlen, Nat.eqb_refl.
  f_equal. unfold X. rewrite (map_map (fun a : Z => [a])), combine_map2, !map_map.
  apply map_ext. intros [a C]. unfold idx_row. simpl. now rewrite tile_single.
Qed.
End ExcludeMaskFacts.

Lemma reshape2_infer_ok {A : Type} (k r : nat) (l : list A) :
  (0 < k)%nat -> length l = (r * k)%nat -> reshape2_infer k l = Ok (chunk k r l).
Proof.
  intros Hk Hl. unfold reshape2_infer. destruct k as [|k']; [lia|].
  rewrite Hl, Nat.Div0.mod_mul, Nat.div_mul by lia. reflexivity.
Qed.

Lemma nth_zip_add u v n :
  (n < length u)%nat -> (n < length v)%nat ->
  nth n (zip_add u v) 0%Z = (nth n u 0 + nth n v 0)%Z.
Proof.
  revert v n; induction u as [|x u IH]; intros [|y v] [|n]; simpl; intros; try lia.
  apply IH; lia.
Qed.

Lemma length_zip_add u v : length (zip_add u v) = Nat.min (length u) (length v).
Proof. unfold zip_add. now rewrite length_map, length_combine. Qed.

Lemma Forall_zip_add_repeat (P Q : Z -> Prop) x n v :
  (forall t, Q t -> P (x + t)%Z) -> Forall Q v -> Forall P (zip_add (repeat x n) v).
Proof.
  intros HPQ Hv; revert n; induction Hv as [|t v Ht _ IH]; intros [|n]; simpl;
    constructor; auto. apply IH.
Qed.

Lemma Forall_firstn' {A : Type} (P : A -> Prop) k (l : list A) :
  Forall P l -> Forall P (firstn k l).
Proof. intros H; revert k; induction H; intros [|k]; simpl; auto. Qed.

Lemma Forall_skipn' {A : Type} (P : A -> Prop) k (l : list A) :
  Forall P l -> Forall P (skipn k l).
Proof. intros H; revert k; induction H; intros [|k]; simpl; auto. Qed.

Lemma Forall_chunk {A : Type} (P : A -> Prop) k r (l : list A) :
  Forall P l -> Forall (Forall P) (chunk k r l).
Proof.
  revert l; induction r; simpl; intros l Hl; constructor.
  - now apply Forall_firstn'.
  - apply IHr. now apply Forall_skipn'.
Qed.

Lemma nth_map_range {B : Type} (f : Z -> B) n i d :
  (i < n)%nat -> nth i (map f (range n)) d = f (Z.of_nat i).
Proof.
  intros Hi. unfold range. rewrite map_map.
  rewrite nth_indep with (d' := f (Z.of_nat 0)) by (now rewrite length_map, length_seq).
  rewrite (map_nth (fun x => f (Z.of_nat x))). now rewrite seq_nth.
Qed.

Lemma nth_combine {A B : Type} (l : list A) (l' : list B) i da db :
  length l = length l' -> nth i (combine l l') (da, db) = (nth i l da, nth i l' db).
Proof.
  revert l' i; induction l as [|a l IH]; intros [|b l'] [|i] Hlen; simpl in *;
    try discriminate; auto.
Qed.

Section TypeMaskTable.

Variables (exclude_types : list (Z * Z)) (ntypes : nat).

Lemma type_mask_length : length (type_mask exclude_types ntypes) = ntypes.
Proof. unfold type_mask, range. now rewrite !length_map, length_seq. Qed.

Lemma type_mask_rows :
  Forall (fun row => length row = (ntypes + 1)%nat) (type_mask exclude_types ntypes).
Proof.
  unfold type_mask. rewrite Forall_map. apply Forall_forall. intros tt_j _.
  unfold range. now rewrite !length_map, length_seq.
Qed.

Let table : list R := concat (map (map to_float) (type_mask exclude_types ntypes)).

Lemma table_length : length table = (ntypes * (ntypes + 1))%nat.
Proof.
  unfold table.
  rewrite (length_concat_uniform (ntypes + 1)%nat).
  - now rewrite length_map, type_mask_length.
  - rewrite Forall_map. eapply Forall_impl; [|apply type_mask_rows].
    intros row Hrow. simpl. now rewrite length_map.
Qed.

(** The flattened table at [a * (ntypes + 1) + b]. *)
Lemma table_entry (a b : Z) :
  (0 <= a < Z.of_nat ntypes)%Z -> (0 <= b <= Z.of_nat ntypes)%Z ->
  nth (Z.to_nat (a * (Z.of_nat ntypes + 1) + b)) table 0%R
  = if pair_in (b, a) exclude_types then 0%R else 1%R.
Proof.
  intros Ha Hb.
  replace (Z.to_nat (a * (Z.of_nat ntypes + 1) + b))
    with (Z.to_nat a * (ntypes + 1) + Z.to_nat b)%nat by nia.
  unfold table. rewrite nth_concat_uniform with (w := (ntypes + 1)%nat); [| |lia].
  - unfold type_mask. rewrite map_map.
    rewrite nth_map_range by lia.
    rewrite map_map, nth_map_range by lia.
    rewrite !Z2Nat.id by lia.
    destruct (pair_in (b, a) exclude_types); reflexivity.
  - rewrite Forall_map. eapply Forall_impl; [|apply type_mask_rows].
    intros row Hrow. simpl. now rewrite length_map.
Qed.

End TypeMaskTable.

Section ExcludeMaskEntries.

Variables (exclude_types : list (Z * Z)) (ntypes sel0 : nat) (sel_rest : list nat).
Variables (atype nei_type_vec : list Z).

Hypothesis sel0_pos : (0 < sel0)%nat.
Hypothesis nei_length : length nei_type_vec = (length atype * sel0)%nat.
Hypothesis atype_range : Forall (fun a => (0 <= a < Z.of_nat ntypes)%Z) atype.
Hypothesis nei_range : Forall (fun t => (0 <= t <= Z.of_nat ntypes)%Z) nei_type_vec.

Let idx_rows : list (list Z) :=
  map (fun p : Z * list Z =>
         zip_add (repeat (fst p * (Z.of_nat ntypes + 1))%Z (4 * sel0))
                 (flat_map (fun t => repeat t 4) (snd p)))
      (combine atype (chunk sel0 (length atype) nei_type_vec)).

Let lookup (z : Z) : R :=
  nth (Z.to_nat z) (concat (map (map to_float) (type_mask exclude_types ntypes))) 0%R.

Lemma idx_rows_length : length idx_rows = length atype.
Proof.
  unfold idx_rows. rewrite length_map, length_combine, chunk_length. lia.
Qed.

Lemma idx_rows_uniform : Forall (fun row => length row = (4 * sel0)%nat) idx_rows.
Proof.
  unfold idx_rows. rewrite Forall_map. apply Forall_forall. intros [a C] HC.
  apply in_combine_r in HC.
  pose proof (chunk_rows sel0 (length atype) nei_type_vec nei_length) as Hrows.
  rewrite Forall_forall in Hrows. specialize (Hrows C HC). cbn [fst snd].
  rewrite length_zip_add, repeat_length, length_flat_repeat, Hrows. lia.
Qed.

Lemma idx_rows_range :
  Forall (fun z => (0 <= z < Z.of_nat (ntypes * (ntypes + 1)))%Z) (concat idx_rows).
Proof.
  apply Forall_concat. unfold idx_rows. rewrite Forall_map. apply Forall_forall.
  intros [a C] HaC. cbn [fst snd].
  pose proof (in_combine_l _ _ _ _ HaC) as Ha.
  pose proof (in_combine_r _ _ _ _ HaC) as HC.
  rewrite Forall_forall in atype_range. specialize (atype_range a Ha).
  pose proof (Forall_chunk _ sel0 (length atype) _ nei_range) as Hch.
  rewrite Forall_forall in Hch. specialize (Hch C HC).
  eapply Forall_zip_add_repeat with (Q := fun t => (0 <= t <= Z.of_nat ntypes)%Z).
  - intros t Ht. nia.
  - apply Forall_flat_map. eapply Forall_impl; [|exact Hch].
    intros t Ht. cbv beta in Ht. simpl.
    repeat (apply Forall_cons; [cbv beta; lia|]). apply Forall_nil.
Qed.

Lemma idx_rows_entry i j c :
  (i < length atype)%nat -> (j < sel0)%nat -> (c < 4)%nat ->
  nth (4 * j + c) (nth i idx_rows []) 0%Z
  = (nth i atype 0 * (Z.of_nat ntypes + 1) + nth (i * sel0 + j) nei_type_vec 0)%Z.
Proof.
  intros Hi Hj Hc. unfold idx_rows.
  set (f := fun p : Z * list Z => _).
  rewrite nth_indep with (d' := f (0%Z, []))
    by (rewrite length_map, length_combine, chunk_length; lia).
  rewrite map_nth, nth_combine by (now rewrite chunk_length).
  unfold f; cbn [fst snd].
  rewrite nth_chunk by assumption.
  assert (HC : length (firstn sel0 (skipn (i * sel0) nei_type_vec)) = sel0).
  { rewrite length_firstn, length_skipn. nia. }
  rewrite nth_zip_add
    by (rewrite ?repeat_length, ?length_flat_repeat, ?HC; lia).
  rewrite nth_repeat_lt by lia.
  rewrite nth_flat_repeat by assumption.
  rewrite nth_firstn. destruct (Nat.ltb_spec j sel0); [|lia].
  rewrite nth_skipn. reflexivity.
Qed.

Lemma build_type_exclude_mask_rows :
  exclude_idx ntypes (sel0 :: sel_rest) (4 * sel0) atype (length atype) nei_type_vec
    = Ok idx_rows
  /\ build_type_exclude_mask exclude_types ntypes (sel0 :: sel_rest) (4 * sel0)
       atype (length atype) nei_type_vec
     = Ok (map (map lookup) idx_rows).
Proof.
  assert (Hidx : exclude_idx ntypes (sel0 :: sel_rest) (4 * sel0) atype (length atype)
                   nei_type_vec = Ok idx_rows).
  { now apply exclude_idx_rows. }
  split; [exact Hidx|].
  unfold build_type_exclude_mask. rewrite Hidx. cbn [rbind].
  rewrite mapM_lookup_ok with (d := 0%R)
    by (rewrite table_length; apply idx_rows_range).
  cbn [rbind].
  assert (Hlen : length (concat idx_rows) = (length atype * (4 * sel0))%nat).
  { rewrite <- idx_rows_length. apply length_concat_uniform, idx_rows_uniform. }
  rewrite reshape2_infer_ok with (r := length atype)
    by (rewrite ?length_map, ?Hlen; lia).
  rewrite chunk_map. rewrite <- idx_rows_length.
  now rewrite chunk_concat by apply idx_rows_uniform.
Qed.

Lemma build_type_exclude_mask_entry i j c :
  (i < length atype)%nat -> (j < sel0)%nat -> (c < 4)%nat ->
  nth_error (nth i (map (map lookup) idx_rows) []) (4 * j + c)
  = Some (if pair_in (nth (i * sel0 + j) nei_type_vec 0%Z, nth i atype 0%Z) exclude_types
          then 0%R else 1%R).
Proof.
  intros Hi Hj Hc.
  change (@nil R) with (map lookup []). rewrite map_nth.
  rewrite nth_error_map.
  pose proof idx_rows_uniform as Hu. rewrite Forall_forall in Hu.
  assert (Hrow : length (nth i idx_rows []) = (4 * sel0)%nat).
  { apply Hu. apply nth_In. now rewrite idx_rows_length. }
  rewrite (nth_error_nth' _ 0%Z) by lia. cbn [option_map].
  rewrite idx_rows_entry by assumption. f_equal.
  unfold lookup. apply table_entry.
  - rewrite Forall_forall in atype_range. apply atype_range. now apply nth_In.
  - rewrite Forall_forall in nei_range. apply nei_range. apply nth_In. nia.
Qed.

End ExcludeMaskEntries.

(** C1 (amended). For every exclusion list, every [ntypes] and every batch
    whose center types lie in [0, ntypes) and whose neighbor types lie in
    [0, ntypes] (the value [ntypes] is the sentinel of a missing neighbor),
    [build_type_exclude_mask] succeeds; its table has [ntypes] rows (center
    type) of [ntypes + 1] entries (neighbor type); the gather index of
    channel [c] of slot [j] of atom [i] is
    [center_type * (ntypes + 1) + neighbor_type]; and the mask there is 0
    when the pair (neighbor type, center type) is in the exclusion list and 1
    otherwise. When the list is symmetric this is the same as the pair
    (center type, neighbor type) being in it. *)
Theorem build_type_exclude_mask_correct :
  forall (exclude_types : list (Z * Z)) (ntypes sel0 : nat) (sel_rest : list nat)
         (atype nei_type_vec : list Z),
    (0 < sel0)%nat ->
    length nei_type_vec = (length atype * sel0)%nat ->
    Forall (fun a => (0 <= a < Z.of_nat ntypes)%Z) atype ->
    Forall (fun t => (0 <= t <= Z.of_nat ntypes)%Z) nei_type_vec ->
    length (type_mask exclude_types ntypes) = ntypes /\
    Forall (fun row => length row = (ntypes + 1)%nat) (type_mask exclude_types ntypes) /\
    exists idx mask,
      exclude_idx ntypes (sel0 :: sel_rest) (4 * sel0) atype (length atype) nei_type_vec
        = Ok idx /\
      build_type_exclude_mask exclude_types ntypes (sel0 :: sel_rest) (4 * sel0)
        atype (length atype) nei_type_vec = Ok mask /\
      length mask = length atype /\
      forall i j c,
        (i < length atype)%nat -> (j < sel0)%nat -> (c < 4)%nat ->
        let a := nth i atype 0%Z in
        let b := nth (i * sel0 + j) nei_type_vec 0%Z in
        nth (4 * j + c) (nth i idx []) 0%Z = (a * (Z.of_nat ntypes + 1) + b)%Z /\
        nth_error (nth i mask []) (4 * j + c)
          = Some (if pair_in (b, a) exclude_types then 0%R else 1%R) /\
        ((forall x y, pair_in (x, y) exclude_types = pair_in (y, x) exclude_types) ->
         nth_error (nth i mask []) (4 * j + c)
           = Some (if pair_in (a, b) exclude_types then 0%R else 1%R)).
Proof.
  intros exclude_types ntypes sel0 sel_rest atype nei_type_vec Hsel Hlen Ha Hn.
  split; [apply type_mask_length|]. split; [apply type_mask_rows|].
  destruct (build_type_exclude_mask_rows exclude_types ntypes sel0 sel_rest atype
              nei_type_vec Hsel Hlen Ha Hn) as [Hidx Hmask].
  eexists; eexists. split; [exact Hidx|]. split; [exact Hmask|].
  split; [rewrite length_map; now apply idx_rows_length|].
  intros i j c Hi Hj Hc a b.
  split; [now apply idx_rows_entry|].
  pose proof (build_type_exclude_mask_entry exclude_types ntypes sel0 atype
                nei_type_vec Hsel Hlen Ha Hn i j c Hi Hj Hc) as He.
  split; [exact He|].
  intros Hsym. rewrite He. fold a b. now rewrite Hsym.
Qed.

(** The theorem at a symmetric exclusion list, two atoms with two neighbor
    slots each, one of them a missing neighbor. *)
Lemma build_type_exclude_mask_correct_witness :
  exists idx mask,
    exclude_idx 2 [2%nat] 8 [0; 1]%Z 2 [1; 2; 0; 1]%Z = Ok idx /\
    build_type_exclude_mask [(0, 1); (1, 0)]%Z 2 [2%nat] 8 [0; 1]%Z 2 [1; 2; 0; 1]%Z
      = Ok mask /\
    nth_error (nth 0 mask []) 0 = Some 0%R /\
    nth_error (nth 1 mask []) 7 = Some 1%R.
Proof.
  destruct (build_type_exclude_mask_correct [(0, 1); (1, 0)]%Z 2 2 [] [0; 1]%Z
              [1; 2; 0; 1]%Z) as (_ & _ & idx & mask & Hidx & Hmask & _ & Hent).
  - lia.
  - reflexivity.
  - repeat constructor; lia.
  - repeat constructor; lia.
  - exists idx, mask. split; [exact Hidx|]. split; [exact Hmask|].
    split.
    + exact (proj1 (proj2 (Hent 0 0 0 ltac:(simpl; lia) ltac:(lia) ltac:(lia)))%nat).
    + exact (proj1 (proj2 (Hent 1 1 3 ltac:(simpl; lia) ltac:(lia) ltac:(lia)))%nat).
Defined.

(** C1 as stated fails for a list that is not symmetric: with only [(0, 1)]
    excluded, a slot with center type 0 and neighbor type 1 keeps the mask 1,
    and a slot with center type 1 and neighbor type 0 gets the mask 0. *)
Lemma build_type_exclude_mask_asymmetric :
  pair_in (0, 1)%Z [(0, 1)%Z] = true /\
  pair_in (1, 0)%Z [(0, 1)%Z] = false /\
  build_type_exclude_mask [(0, 1)%Z] 2 [1%nat] 4 [0%Z] 1 [1%Z] = Ok [[1; 1; 1; 1]%R] /\
  build_type_exclude_mask [(0, 1)%Z] 2 [1%nat] 4 [1%Z] 1 [0%Z] = Ok [[0; 0; 0; 0]%R].
Proof. repeat split; reflexivity. Qed.

(** ** The result monad *)

Lemma rbind_ok {A B : Type} (c : result A) (k : A -> result B) (b : B) :
  rbind c k = Ok b -> exists a, c = Ok a /\ k a = Ok b.
Proof. destruct c as [a|e]; simpl; intros H; [now exists a|discriminate]. Qed.

Lemma mapM_ok {A B : Type} (f : A -> result B) (l : list A) (l' : list B) :
  mapM f l = Ok l' -> Forall2 (fun x y => f x = Ok y) l l'.
Proof.
  revert l'; induction l as [|x l IH]; simpl; intros l' H.
  - inversion H. constructor.
  - destruct (f x) as [y|e] eqn:Ex; [|discriminate].
    destruct (mapM f l) as [ys|e]; [|discriminate].
    inversion H; subst. constructor; auto.
Qed.

Lemma mapM_all_ok {A B : Type} (f : A -> result B) (g : A -> B) (l : list A) :
  Forall (fun x => f x = Ok (g x)) l -> mapM f l = Ok (map g l).
Proof. induction 1 as [|x l Hx _ IH]; simpl; [reflexivity|]. now rewrite Hx, IH. Qed.

Ltac bind_inv H :=
  let a := fresh "a" in
  let Ha := fresh "E" in
  apply rbind_ok in H; destruct H as (a & Ha & H).

(** ** Clipping of the center types in [build] *)

Lemma clip_by_value_range lo hi t :
  (lo <= hi)%Z -> (lo <= Sem.clip_by_value lo hi t <= hi)%Z.
Proof. unfold Sem.clip_by_value. lia. Qed.


Lemma reshape2_infer_concat {A : Type} (k : nat) (l : list A) (rows : list (list A)) :
  reshape2_infer k l = Ok rows -> concat rows = l.
Proof.
  unfold reshape2_infer. destruct k as [|k']; [discriminate|].
  destruct (Nat.eqb_spec (length l mod S k') 0) as [Hm|]; [|discriminate].
  intros H; inversion H; subst. apply concat_chunk.
  pose proof (Nat.div_mod_eq (length l) (S k')) as Hdm.
  rewrite Hm, Nat.add_0_r in Hdm. rewrite Nat.mul_comm. exact Hdm.
Qed.

Lemma lookup_in_range {A : Type} (table : list A) (ids : list Z) :
  Forall (fun t => (0 <= t <= Z.of_nat (length table) - 1)%Z) ids ->
  exists rows, embedding_lookup table ids = Ok rows /\ length rows = length ids.
Proof.
  destruct table as [|d table'].
  - intros H. destruct ids as [|i ids]; [now exists []|].
    inversion H; subst. simpl in *. lia.
  - intros H. eexists. split.
    + apply mapM_lookup_ok with (d := d). eapply Forall_impl; [|exact H].
      intros t Ht. cbv beta in Ht. lia.
    + now rewrite length_map.
Qed.

(** ** Failures while the graph is built *)

Section GraphBuildFacts.

Import GraphBuild.
Local Open Scope string_scope.
Local Open Scope graph_scope.

Lemma run_node n s :
  node n s = (Ok tt, {| graph := (graph s ++ [n])%list; attrs := attrs s |}).
Proof. reflexivity. Qed.

Lemma run_assign n s :
  assign n s = (Ok tt, {| graph := graph s; attrs := (attrs s ++ [n])%list |}).
Proof. reflexivity. Qed.

Lemma run_ret {A : Type} (a : A) s : ret a s = (Ok a, s).
Proof. reflexivity. Qed.

Lemma run_raise {A : Type} (e : exn) s : @raise A e s = (Raise e, s).
Proof. reflexivity. Qed.

Lemma run_nodes ns s :
  nodes ns s = (Ok tt, {| graph := (graph s ++ ns)%list; attrs := attrs s |}).
Proof.
  revert s; induction ns as [|n ns IH]; intros s; simpl.
  - unfold ret. rewrite app_nil_r. now destruct s.
  - unfold bind. rewrite run_node, IH. simpl. now rewrite <- app_assoc.
Qed.

Lemma run_assigns ns s :
  assigns ns s = (Ok tt, {| graph := graph s; attrs := (attrs s ++ ns)%list |}).
Proof.
  revert s; induction ns as [|n ns IH]; intros s; simpl.
  - unfold ret. rewrite app_nil_r. now destruct s.
  - unfold bind, assign. rewrite IH. simpl. now rewrite <- app_assoc.
Qed.

Lemma run_bind_ok {A B : Type} (c : M A) (k : A -> M B) s a s' :
  c s = (Ok a, s') -> bind c k s = k a s'.
Proof. unfold bind. now intros ->. Qed.

Lemma run_bind_raise {A B : Type} (c : M A) (k : A -> M B) s e s' :
  c s = (Raise e, s') -> bind c k s = (Raise e, s').
Proof. unfold bind. now intros ->. Qed.

Lemma build_before_pass_filter self input_dict s0 :
  exists s1,
    extends s0 s1 before_pass_filter_nodes before_pass_filter_attrs /\
    build self input_dict s0
    = bind (_pass_filter self input_dict)
        (fun _ => bind (assigns ["dout"; "qmat"])
                    (fun _ => node "summary.histogram:embedding_net_output")) s1.
Proof.
  eexists. split; [|unfold build].
  2:{ repeat (first [ rewrite (run_bind_ok _ _ _ _ _ (run_nodes _ _))
                    | rewrite (run_bind_ok _ _ _ _ _ (run_assigns _ _))
                    | rewrite (run_bind_ok _ _ _ _ _ (run_node _ _))
                    | rewrite (run_bind_ok _ _ _ _ _ (run_assign _ _)) ];
              cbn [graph attrs]).
      reflexivity. }
  unfold extends; simpl. rewrite <- !app_assoc. simpl. split; reflexivity.
Qed.

Lemma build_without_type_embedding self input_dict s0 :
  (input_dict = None \/
   exists d, input_dict = Some d /\ Sem.dict_get d "type_embedding" = None) ->
  exists s1,
    build self input_dict s0 = (Raise (AssertionError type_embedding_message), s1) /\
    extends s0 s1 before_pass_filter_nodes before_pass_filter_attrs.
Proof.
  intros Hd.
  destruct (build_before_pass_filter self input_dict s0) as (s1 & Hext & ->).
  exists s1. split; [|exact Hext].
  unfold _pass_filter.
  destruct Hd as [-> | (d & -> & ->)]; reflexivity.
Qed.

Ltac run_step :=
  first [ rewrite (run_bind_ok _ _ _ _ _ (run_nodes _ _))
        | rewrite (run_bind_ok _ _ _ _ _ (run_assigns _ _))
        | rewrite (run_bind_ok _ _ _ _ _ (run_node _ _))
        | rewrite (run_bind_ok _ _ _ _ _ (run_assign _ _))
        | rewrite (run_bind_ok _ _ _ _ _ (run_ret _ _)) ];
  cbn [graph attrs].

Lemma run_filter_lower_compress self s :
  Sem.compress self = true ->
  _filter_lower self true s
  = (Raise (RuntimeError compress_message),
     {| graph := (graph s ++ ["slice"; "shape"; "reshape"; "slice"; "reshape"; "cast"])%list;
        attrs := attrs s |}).
Proof.
  intros Hc. unfold _filter_lower. rewrite Hc.
  do 3 run_step.
  rewrite (run_bind_raise _ _ _ (RuntimeError compress_message) _ (run_raise _ _)).
  now rewrite <- !app_assoc.
Qed.

Lemma run_filter_compress self s :
  Sem.compress self = true ->
  _filter self s
  = (Raise (RuntimeError compress_message),
     {| graph := (graph s ++ ["reshape"; "shape"; "slice"; "shape"; "reshape"; "slice";
                              "reshape"; "cast"])%list;
        attrs := attrs s |}).
Proof.
  intros Hc. unfold _filter. run_step.
  rewrite (run_bind_raise _ _ _ _ _ (run_filter_lower_compress self _ Hc)).
  cbn [graph attrs]. now rewrite <- !app_assoc.
Qed.

Lemma run_exclude_mask (self : Sem.descrpt) s :
  when (negb (length (Sem.exclude_types self) =? 0)%nat)
       (bind (nodes ["shape"]) (fun _ => bind build_type_exclude_mask (fun _ => node "mul"))) s
  = (Ok tt,
     {| graph := (graph s ++ (if (length (Sem.exclude_types self) =? 0)%nat then []
                              else exclude_mask_nodes))%list;
        attrs := attrs s |}).
Proof.
  destruct (length (Sem.exclude_types self) =? 0)%nat; cbn [negb when].
  - rewrite run_ret, app_nil_r. now destruct s.
  - unfold build_type_exclude_mask. do 2 run_step. rewrite run_node.
    cbn [graph attrs]. now rewrite <- !app_assoc.
Qed.

Lemma build_with_compress self input_dict s0 :
  (exists d t, input_dict = Some d /\ Sem.dict_get d "type_embedding" = Some t) ->
  Sem.compress self = true ->
  exists s1,
    build self input_dict s0 = (Raise (RuntimeError compress_message), s1) /\
    extends s0 s1 (before_compress_check_nodes self) before_pass_filter_attrs.
Proof.
  intros (d & t & -> & Hd) Hc.
  destruct (build_before_pass_filter self (Some d) s0) as (s1 & (Hg & Ha) & ->).
  eexists. split.
  - apply run_bind_raise. unfold _pass_filter. rewrite Hd.
    do 2 run_step.
    rewrite (run_bind_ok _ _ _ _ _ (run_exclude_mask self _)). cbn [graph attrs].
    apply run_bind_raise. now apply run_filter_compress.
  - unfold extends, before_compress_check_nodes. cbn [graph attrs].
    rewrite Hg, Ha. now rewrite <- !app_assoc.
Qed.


(** C8 (amended). [build] fails with an [AssertionError] when [input_dict]
    is [None] or has no type embedding, and with the [RuntimeError] of the
    compression check when compression is enabled. Both failures come before
    [self.dout] and [self.qmat] are assigned and before any embedding or
    attention node is created. The nodes created up to the failing check
    (the constants and variables of [descrpt_attr], the environment-matrix
    operator, the reshapes and the summaries) stay in the graph. *)
Theorem build_fails_before_output :
  forall (self : Sem.descrpt) (input_dict : option (list (string * option unit)))
         (s0 : state),
    ((input_dict = None \/
      exists d, input_dict = Some d /\ Sem.dict_get d "type_embedding" = None) ->
     exists s1,
       GraphBuild.build self input_dict s0
         = (Raise (AssertionError type_embedding_message), s1) /\
       extends s0 s1 before_pass_filter_nodes before_pass_filter_attrs) /\
    ((exists d t, input_dict = Some d /\ Sem.dict_get d "type_embedding" = Some t) ->
     Sem.compress self = true ->
     exists s1,
       GraphBuild.build self input_dict s0 = (Raise (RuntimeError compress_message), s1) /\
       extends s0 s1 (before_compress_check_nodes self) before_pass_filter_attrs) /\
    existsb (String.eqb "dout") before_pass_filter_attrs = false /\
    existsb (String.eqb "qmat") before_pass_filter_attrs = false /\
    existsb (fun n => String.prefix "embedding_net" n || String.prefix "one_layer" n
                      || String.eqb "matmul" n || String.eqb "softmax" n)
            (before_compress_check_nodes self) = false /\
    existsb (String.eqb "prod_env_mat_a_mix") before_pass_filter_nodes = true.
Proof.
  intros self input_dict s0.
  split; [apply build_without_type_embedding|].
  split; [apply build_with_compress|].
  split; [reflexivity|]. split; [reflexivity|]. split; [|reflexivity].
  unfold before_compress_check_nodes.
  destruct (length (Sem.exclude_types self) =? 0)%nat; reflexivity.
Qed.

(** The theorem at a descriptor with compression enabled, once with a type
    embedding in [input_dict] and once without. *)
Lemma build_fails_before_output_witness :
  (exists s1,
      GraphBuild.build (Examples.descrpt_example true true []) None empty
        = (Raise (AssertionError type_embedding_message), s1) /\
      extends empty s1 before_pass_filter_nodes before_pass_filter_attrs) /\
  (exists s1,
      GraphBuild.build (Examples.descrpt_example true true [])
        (Some [("type_embedding", Some tt)]) empty
        = (Raise (RuntimeError compress_message), s1) /\
      extends empty s1 (before_compress_check_nodes (Examples.descrpt_example true true []))
        before_pass_filter_attrs).
Proof.
  split.
  - apply (proj1 (build_fails_before_output (Examples.descrpt_example true true [])
                    None empty)).
    left. reflexivity.
  - apply (proj1 (proj2 (build_fails_before_output (Examples.descrpt_example true true [])
                           (Some [("type_embedding", Some tt)]) empty))).
    + exists [("type_embedding", Some tt)], tt. split; reflexivity.
    + reflexivity.
Defined.

(** C8 as stated fails in its last part: when the compression check raises,
    the default graph already holds 34 nodes, the environment-matrix operator
    among them. *)
Lemma build_leaves_partial_graph :
  exists s1,
    GraphBuild.build (Examples.descrpt_example true true [])
      (Some [("type_embedding", Some tt)]) empty
      = (Raise (RuntimeError compress_message), s1) /\
    length (graph s1) = 34%nat /\
    has_node "prod_env_mat_a_mix" s1 = true /\
    graph s1 <> graph empty.
Proof.
  destruct (build_with_compress (Examples.descrpt_example true true [])
              (Some [("type_embedding", Some tt)]) empty) as (s1 & Hrun & Hg & _).
  - exists [("type_embedding", Some tt)], tt. split; reflexivity.
  - reflexivity.
  - exists s1. split; [exact Hrun|].
    unfold has_node. rewrite Hg. repeat split; try reflexivity. discriminate.
Qed.

End GraphBuildFacts.

(** ** Matrices *)

Section MatrixFacts.

Import Sem.
Local Open Scope R_scope.

Lemma big_sum_ext n f g :
  (forall t, (t < n)%nat -> f t = g t) -> big_sum n f = big_sum n g.
Proof.
  intros H. unfold big_sum. f_equal. apply map_ext_in. intros t Ht.
  apply in_seq in Ht. apply H. lia.
Qed.

Lemma nth_map_seq {A : Type} (f : nat -> A) n i d :
  (i < n)%nat -> nth i (map f (seq 0 n)) d = f i.
Proof.
  intros Hi. rewrite nth_indep with (d' := f 0%nat) by (now rewrite length_map, length_seq).
  rewrite map_nth, seq_nth by assumption. reflexivity.
Qed.

Lemma entry_matmul ta tb r k c a b i j :
  (i < r)%nat -> (j < c)%nat ->
  entry (matmul ta tb r k c a b) i j
  = big_sum k (fun t => (if ta then entry a t i else entry a i t)
                        * (if tb then entry b j t else entry b t j)).
Proof.
  intros Hi Hj. unfold entry at 1, matmul.
  rewrite nth_map_seq by assumption. now rewrite nth_map_seq by assumption.
Qed.

Lemma matmul_length ta tb r k c a b : length (matmul ta tb r k c a b) = r.
Proof. unfold matmul. now rewrite length_map, length_seq. Qed.

Lemma matmul_rows ta tb r k c a b :
  Forall (fun row => length row = c) (matmul ta tb r k c a b).
Proof.
  unfold matmul. rewrite Forall_map. apply Forall_forall. intros i _.
  now rewrite length_map, length_seq.
Qed.

Lemma entry_transpose r c a i j :
  (i < c)%nat -> (j < r)%nat -> entry (transpose r c a) i j = entry a j i.
Proof.
  intros Hi Hj. unfold entry at 1, transpose.
  rewrite nth_map_seq by assumption. now rewrite nth_map_seq by assumption.
Qed.

Lemma transpose_length r c a : length (transpose r c a) = c.
Proof. unfold transpose. now rewrite length_map, length_seq. Qed.

Lemma transpose_rows r c a : Forall (fun row => length row = r) (transpose r c a).
Proof.
  unfold transpose. rewrite Forall_map. apply Forall_forall. intros i _.
  now rewrite length_map, length_seq.
Qed.

Lemma length_zipWith {A B C : Type} (f : A -> B -> C) x y :
  length (zipWith f x y) = Nat.min (length x) (length y).
Proof. unfold zipWith. now rewrite length_map, length_combine. Qed.

Lemma nth_zipWith {A B C : Type} (f : A -> B -> C) x y i dx dy d :
  (i < length x)%nat -> (i < length y)%nat ->
  nth i (zipWith f x y) d = f (nth i x dx) (nth i y dy).
Proof.
  unfold zipWith.
  revert y i; induction x as [|a x IH]; intros [|b y] [|i]; simpl; intros; try lia.
  - reflexivity.
  - apply IH; lia.
Qed.

Lemma zipWith_map_r {A B C : Type} (f : A -> B -> C) (h : A -> B) x :
  zipWith f x (map h x) = map (fun a => f a (h a)) x.
Proof.
  unfold zipWith. induction x as [|a x IH]; simpl; [reflexivity|]. f_equal. exact IH.
Qed.

Lemma nth_map_default {A B : Type} (f : A -> B) l i d d' :
  f d = d' -> nth i (map f l) d' = f (nth i l d).
Proof. intros <-. apply map_nth. Qed.

Lemma nth_map_lt {A B : Type} (f : A -> B) l i d d' :
  (i < length l)%nat -> nth i (map f l) d' = f (nth i l d).
Proof.
  intros Hi. rewrite nth_indep with (d' := f d) by (now rewrite length_map).
  apply map_nth.
Qed.

Lemma entry_map_map (f : R -> R) (a : mat) i j :
  (i < length a)%nat -> (j < length (nth i a []))%nat ->
  entry (map (map f) a) i j = f (entry a i j).
Proof.
  intros Hi Hj. unfold entry.
  rewrite nth_indep with (d' := map f []) by (now rewrite length_map).
  rewrite map_nth.
  rewrite nth_indep with (d' := f 0) by (now rewrite length_map).
  now rewrite map_nth.
Qed.

Lemma entry_map_firstn (a : mat) m i j :
  (j < m)%nat -> entry (map (firstn m) a) i j = entry a i j.
Proof.
  intros Hj. unfold entry.
  rewrite (nth_map_default (firstn m) a i (@nil R) (@nil R) (firstn_nil R m)).
  rewrite nth_firstn. destruct (Nat.ltb_spec j m); [reflexivity|lia].
Qed.

Lemma entry_skipn (a : mat) s i j : entry (skipn s a) i j = entry a (s + i) j.
Proof. unfold entry. now rewrite nth_skipn. Qed.

Lemma entry_firstn (a : mat) m i j :
  (i < m)%nat -> entry (firstn m a) i j = entry a i j.
Proof.
  intros Hi. unfold entry. rewrite nth_firstn.
  destruct (Nat.ltb_spec i m); [reflexivity|lia].
Qed.

Lemma mapM_slice_rows (M : nat) (G : list mat) :
  Forall (Forall (fun row => (M <= length row)%nat)) G ->
  mapM (mapM (slice_last 0 M)) G = Ok (map (map (firstn M)) G).
Proof.
  intros H. apply mapM_all_ok. eapply Forall_impl; [|exact H].
  intros g Hg. cbv beta. apply mapM_all_ok. eapply Forall_impl; [|exact Hg].
  intros row Hrow. cbv beta in *. unfold slice_last.
  destruct (Nat.leb_spec (0 + M) (length row)); [reflexivity|lia].
Qed.

End MatrixFacts.

(** ** Descriptor assembly ([_filter_lower], [_filter], [_pass_filter]) *)

Section FilterFacts.

Import Sem.
Local Open Scope R_scope.

Variable fexp : R -> R.
Variables (self : descrpt) (P : params) (e : env).

Let W := outputs_size_last self.
Let M := n_axis_neuron self.
Let denom := filter_nnei self (ndescrpt self).
Let scale (g : mat) : mat := map (map (fun x => x / denom)) g.

(** What [_filter] makes of one atom's [xyz_scatter_1]. *)
Let descriptor_of (g : mat) : vec :=
  concat (matmul true false W 4 M (scale g) (map (firstn M) (scale g))).
Let qmat_of (g : mat) : mat := transpose 3 W (firstn 3 (skipn 1 (scale g))).

Lemma filter_lower_inv start incrs inputs te atype G0 :
  _filter_lower fexp self P e start incrs inputs te atype = Ok G0 ->
  exists Rs Es,
    attended fexp self P e start incrs inputs te atype = Ok (Rs, Es) /\
    G0 = zipWith (matmul true false 4 (incrs * 4 / 4) W) Rs Es.
Proof.
  unfold _filter_lower. intros H. bind_inv H. destruct a as [Rs Es].
  inversion H; subst. now exists Rs, Es.
Qed.

Lemma filter_lower_shape start incrs inputs te atype G0 :
  _filter_lower fexp self P e start incrs inputs te atype = Ok G0 ->
  Forall (fun g => length g = 4%nat /\ Forall (fun row => length row = W) g) G0.
Proof.
  intros H. apply filter_lower_inv in H. destruct H as (Rs & Es & _ & ->).
  apply Forall_forall. intros g Hg. unfold zipWith in Hg.
  apply in_map_iff in Hg. destruct Hg as (p & <- & _).
  split; [apply matmul_length|apply matmul_rows].
Qed.

Lemma filter_run inputs te atype nei G0 :
  cumsum_last (sel_a self) = Ok nei ->
  _filter_lower fexp self P e 0 nei inputs te atype = Ok G0 ->
  (M <= W)%nat ->
  _filter fexp self P e inputs te atype = Ok (map descriptor_of G0, map qmat_of G0).
Proof.
  intros Hsel HG HM. unfold _filter. rewrite Hsel. cbn [rbind]. rewrite HG. cbn [rbind].
  fold denom. fold W. fold M.
  change (map (map (map (fun x => x / denom))) G0) with (map scale G0).
  rewrite mapM_slice_rows.
  - cbn [rbind]. rewrite zipWith_map_r, !map_map. reflexivity.
  - rewrite Forall_map. pose proof (filter_lower_shape _ _ _ _ _ _ HG) as Hs.
    eapply Forall_impl; [|exact Hs]. intros g [_ Hrows]. cbv beta.
    unfold scale. rewrite Forall_map. eapply Forall_impl; [|exact Hrows].
    intros row Hrow. cbv beta in *. rewrite length_map. lia.
Qed.

Lemma scale_entry (g : mat) c w :
  length g = 4%nat -> Forall (fun row => length row = W) g ->
  (c < 4)%nat -> (w < W)%nat ->
  entry (scale g) c w = entry g c w / denom.
Proof.
  intros Hg Hrows Hc Hw. unfold scale. apply entry_map_map; [lia|].
  rewrite Forall_forall in Hrows. rewrite Hrows; [assumption|].
  apply nth_In. lia.
Qed.

Lemma descriptor_of_length (g : mat) : length (descriptor_of g) = (W * M)%nat.
Proof.
  unfold descriptor_of. rewrite (length_concat_uniform M) by apply matmul_rows.
  now rewrite matmul_length.
Qed.

Lemma descriptor_of_entry (g : mat) w m :
  length g = 4%nat -> Forall (fun row => length row = W) g ->
  (M <= W)%nat -> (w < W)%nat -> (m < M)%nat ->
  nth (w * M + m) (descriptor_of g) 0
  = big_sum 4 (fun c => entry g c w / denom * (entry g c m / denom)).
Proof.
  intros Hg Hrows HM Hw Hm. unfold descriptor_of.
  rewrite nth_concat_uniform by (apply matmul_rows || assumption).
  fold (entry (matmul true false W 4 M (scale g) (map (firstn M) (scale g))) w m).
  rewrite entry_matmul by assumption.
  apply big_sum_ext. intros c Hc.
  rewrite entry_map_firstn by assumption.
  rewrite !scale_entry by (assumption || lia). reflexivity.
Qed.

Lemma qmat_of_entry (g : mat) w k :
  length g = 4%nat -> Forall (fun row => length row = W) g ->
  (w < W)%nat -> (k < 3)%nat ->
  entry (qmat_of g) w k = entry g (1 + k) w / denom /\
  nth (w * 3 + k) (concat (qmat_of g)) 0 = entry g (1 + k) w / denom.
Proof.
  intros Hg Hrows Hw Hk.
  assert (He : entry (qmat_of g) w k = entry g (1 + k) w / denom).
  { unfold qmat_of. rewrite entry_transpose by assumption.
    rewrite entry_firstn by assumption. rewrite entry_skipn.
    apply scale_entry; assumption || lia. }
  split; [exact He|].
  rewrite nth_concat_uniform by (apply transpose_rows || assumption). exact He.
Qed.

Lemma qmat_of_shape (g : mat) :
  length (qmat_of g) = W /\ Forall (fun row => length row = 3%nat) (qmat_of g).
Proof. split; [apply transpose_length|apply transpose_rows]. Qed.

End FilterFacts.

Lemma filter_nnei_default (self : Sem.descrpt) (nei : nat) :
  Sem.ndescrpt self = (4 * nei)%nat ->
  Sem.filter_nnei self (Sem.ndescrpt self)
  = match Sem.original_sel self with
    | Some osel => IZR (fold_right Z.add 0%Z osel)
    | None => INR nei
    end.
Proof.
  intros H. unfold Sem.filter_nnei. destruct (Sem.original_sel self); [reflexivity|].
  rewrite H, mult_INR. simpl INR. lra.
Qed.

(** The entries of the descriptor of [_filter] in terms of what
    [_filter_lower] gets from [attended]: the raw features [Rs] and the
    attended embedding [Es] of every atom. *)
Lemma filter_contraction_entries :
  forall (fexp : R -> R) (self : Sem.descrpt) (P : Sem.params) (e : Sem.env)
         (inputs : list (list R)) (te : option (list (list R))) (atype : option (list Z))
         (nei : nat) (Rs Es : list (list (list R))),
    Sem.cumsum_last (Sem.sel_a self) = Ok nei ->
    Sem.ndescrpt self = (4 * nei)%nat ->
    (Sem.n_axis_neuron self <= Sem.outputs_size_last self)%nat ->
    Sem.attended fexp self P e 0 nei inputs te atype = Ok (Rs, Es) ->
    length Es = length Rs ->
    let W := Sem.outputs_size_last self in
    let M := Sem.n_axis_neuron self in
    let denom := match Sem.original_sel self with
                 | Some osel => IZR (fold_right Z.add 0%Z osel)
                 | None => INR nei
                 end in
    exists result qmat,
      Sem._filter fexp self P e inputs te atype = Ok (result, qmat) /\
      length result = length Rs /\
      forall a, (a < length Rs)%nat ->
        let G c w :=
          (Sem.big_sum nei (fun j => Sem.entry (nth a Rs []) j c * Sem.entry (nth a Es []) j w)
           / denom)%R in
        length (nth a result []) = (W * M)%nat /\
        forall w m, (w < W)%nat -> (m < M)%nat ->
          nth (w * M + m) (nth a result []) 0%R
          = Sem.big_sum 4 (fun c => (G c w * G c m)%R).
Proof.
  intros fexp self P e inputs te atype nei Rs Es Hsel Hnd HM Hatt Hlen W M denom.
  assert (HG : Sem._filter_lower fexp self P e 0 nei inputs te atype
               = Ok (Sem.zipWith (Sem.matmul true false 4 nei W) Rs Es)).
  { unfold Sem._filter_lower. rewrite Hatt. cbn [rbind fst snd].
    now rewrite Nat.div_mul by lia. }
  pose proof (filter_lower_shape _ _ _ _ _ _ _ _ _ _ HG) as Hshape.
  rewrite Forall_forall in Hshape.
  eexists; eexists. split; [apply (filter_run fexp self P e _ _ _ nei _ Hsel HG HM)|].
  split; [rewrite length_map, length_zipWith; lia|].
  intros a Ha G.
  set (G0 := Sem.zipWith (Sem.matmul true false 4 nei W) Rs Es) in *.
  assert (Ha0 : (a < length G0)%nat) by (unfold G0; rewrite length_zipWith; lia).
  destruct (Hshape (nth a G0 []) (nth_In _ _ Ha0)) as [Hg4 HgW].
  set (dsc := fun g : list (list R) => _).
  rewrite (nth_map_lt dsc G0 a [] []) by assumption.
  split; [apply descriptor_of_length|].
  intros w m Hw Hm.
  unfold dsc. subst W M. rewrite (descriptor_of_entry self (nth a G0 []) w m Hg4 HgW HM Hw Hm).
  apply big_sum_ext. intros c Hc.
  rewrite (filter_nnei_default self nei Hnd). fold denom.
  assert (HGe : forall w', (w' < Sem.outputs_size_last self)%nat ->
            (Sem.entry (nth a G0 []) c w' / denom)%R = G c w').
  { intros w' Hw'. unfold G. f_equal. unfold G0.
    rewrite (nth_zipWith _ Rs Es a [] []) by lia.
    now rewrite entry_matmul by assumption. }
  rewrite !HGe by (assumption || lia). reflexivity.
Qed.

Lemma reshape3_inv {A : Type} (r k m : nat) (l : list A) (X : list (list (list A))) :
  reshape3 r k m l = Ok X ->
  concat (map (@concat A) X) = l /\
  Forall (Forall (fun v => length v = m)) X.
Proof.
  unfold reshape3. destruct (Nat.eqb_spec (length l) (r * k * m)) as [Hl|]; [|discriminate].
  intros H; inversion H; subst X; clear H.
  assert (Hl' : length l = (r * (k * m))%nat) by lia.
  pose proof (chunk_rows (k * m) r l Hl') as Hrows.
  split.
  - rewrite map_map.
    rewrite (map_ext_in _ (fun c => c)).
    + rewrite map_id. now apply concat_chunk.
    + intros c Hc. rewrite Forall_forall in Hrows. apply concat_chunk.
      rewrite (Hrows c Hc). lia.
  - rewrite Forall_map. eapply Forall_impl; [|exact Hrows].
    intros c Hc. cbv beta in *. apply chunk_rows. lia.
Qed.

(** C7 (amended). For every atom the rotation matrix of [_filter] is the
    transpose of the 3 spatial rows (rows 1 to 3) of the scaled matrix: it
    has [W] rows of 3 entries, entry [(w, k)] being entry [(k + 1, w)] of the
    scaled [xyz_scatter_1]. [_pass_filter] hands it on flattened row by row,
    as one vector of length [get_dim_rot_mat_1() * 3] per atom. *)
Theorem filter_rotation_matrix :
  (forall (fexp : R -> R) (self : Sem.descrpt) (P : Sem.params) (e : Sem.env)
          (inputs : list (list R)) (te : option (list (list R))) (atype : option (list Z))
          (nei : nat) (G0 : list (list (list R))),
      Sem.cumsum_last (Sem.sel_a self) = Ok nei ->
      Sem._filter_lower fexp self P e 0 nei inputs te atype = Ok G0 ->
      (Sem.n_axis_neuron self <= Sem.outputs_size_last self)%nat ->
      exists result qmat,
        Sem._filter fexp self P e inputs te atype = Ok (result, qmat) /\
        length qmat = length G0 /\
        forall a, (a < length G0)%nat ->
          length (nth a qmat []) = Sem.outputs_size_last self /\
          Forall (fun row => length row = 3%nat) (nth a qmat []) /\
          forall w k, (w < Sem.outputs_size_last self)%nat -> (k < 3)%nat ->
            Sem.entry (nth a qmat []) w k
            = (Sem.entry (nth a G0 []) (1 + k) w
               / Sem.filter_nnei self (Sem.ndescrpt self))%R /\
            nth (w * 3 + k) (concat (nth a qmat [])) 0%R
            = (Sem.entry (nth a G0 []) (1 + k) w
               / Sem.filter_nnei self (Sem.ndescrpt self))%R) /\
  (forall (fexp : R -> R) (self : Sem.descrpt) (P : Sem.params) (e : Sem.env)
          (inputs : list (list R)) (atype : list Z) (natoms0 : nat)
          (input_dict : option (list (string * option (list (list R)))))
          (layer q : list (list (list R))),
      Sem._pass_filter fexp self P e inputs atype natoms0 input_dict = Ok (layer, q) ->
      exists inputs_i te result qmat,
        Sem._filter fexp self P e inputs_i (Some te) (Some atype) = Ok (result, qmat) /\
        concat (map (@concat R) q) = concat (map (@concat R) qmat) /\
        Forall (Forall (fun v => length v = (Sem.dim_rot_mat_1 self * 3)%nat)) q).
Proof.
  split.
  - intros fexp self P e inputs te atype nei G0 Hsel HG HM.
    pose proof (filter_lower_shape _ _ _ _ _ _ _ _ _ _ HG) as Hshape.
    rewrite Forall_forall in Hshape.
    eexists; eexists. split; [apply (filter_run fexp self P e _ _ _ nei _ Hsel HG HM)|].
    split; [now rewrite length_map|].
    intros a Ha.
    destruct (Hshape (nth a G0 []) (nth_In _ _ Ha)) as [Hg4 HgW].
    set (rot := fun g : list (list R) => _).
    rewrite (nth_map_lt rot G0 a [] []) by assumption. unfold rot.
    split; [apply qmat_of_shape|]. split; [apply qmat_of_shape|].
    intros w k Hw Hk. now apply qmat_of_entry.
  - intros fexp self P e inputs atype natoms0 input_dict layer q H.
    unfold Sem._pass_filter in H.
    bind_inv H. rename a into te.
    bind_inv H. rename a into inputs3.
    bind_inv H. rename a into inputs_i0.
    bind_inv H. rename a into inputs_i.
    bind_inv H. destruct a as [result qmat]. rename E3 into Hf.
    bind_inv H. rename a into layer'.
    bind_inv H. rename a into q'. rename E4 into Hq.
    inversion H; subst layer' q'; clear H.
    cbn [snd] in Hq. apply reshape3_inv in Hq. destruct Hq as [Hdata Hrows].
    exists inputs_i, te, result, qmat. split; [exact Hf|]. split; assumption.
Qed.

(** The theorem at the wide example. *)
Lemma filter_rotation_matrix_witness :
  exists result qmat,
    Sem._filter exp Examples.descrpt_wide Examples.params_wide Examples.env_example
      Examples.inputs_example (Some Examples.type_embedding_example) (Some [0; 1]%Z)
    = Ok (result, qmat) /\
    length qmat = 2%nat /\
    length (nth 0 qmat []) = 2%nat /\
    Forall (fun row => length row = 3%nat) (nth 0 qmat []).
Proof.
  edestruct (proj1 filter_rotation_matrix exp Examples.descrpt_wide Examples.params_wide
               Examples.env_example Examples.inputs_example
               (Some Examples.type_embedding_example) (Some [0; 1]%Z) 2%nat)
    as (result & qmat & Hrun & Hlen & Hent).
  - reflexivity.
  - reflexivity.
  - apply Nat.le_succ_diag_r.
  - exists result, qmat. split; [exact Hrun|]. split; [exact Hlen|].
    destruct (Hent 0%nat (Nat.lt_0_succ _)) as (H1 & H2 & _). split; assumption.
Defined.

(** C7 as stated fails on the shape: with width [W = 2] the rotation matrix
    of an atom has 2 rows of 3 entries, not 3 rows of 2, and its flattening
    lists the spatial rows of [G] column by column: the entry at position 1
    is [G[2][0] = 2], where a [3 x W] layout would have [G[1][1] = 1/2]. *)
Lemma filter_rotation_matrix_shape :
  exists result qmat,
    Sem._filter exp Examples.descrpt_wide Examples.params_wide Examples.env_example
      Examples.inputs_example (Some Examples.type_embedding_example) (Some [0; 1]%Z)
    = Ok (result, qmat) /\
    length (nth 0 qmat []) = 2%nat /\
    length (nth 0 qmat []) <> 3%nat /\
    Forall (fun row => length row = 3%nat) (nth 0 qmat []) /\
    nth 1 (concat (nth 0 qmat [])) 0%R = 2%R /\
    nth 1 (concat (nth 0 qmat [])) 0%R <> (1 / 2)%R.
Proof.
  eexists; eexists. split; [reflexivity|].
  split; [reflexivity|]. split; [discriminate|].
  split; [repeat constructor|].
  cbn. split; lra.
Qed.

(** ** The two-sided type embedding *)

Lemma nth_tile {A : Type} (m : nat) (l : list A) (k : nat) (d : A) :
  (k < m * length l)%nat -> nth k (tile m l) d = nth (k mod length l) l d.
Proof.
  unfold tile. revert k; induction m as [|m IH]; intros k Hk; [lia|].
  simpl repeat. simpl concat.
  destruct (Nat.lt_ge_cases k (length l)) as [Hlt|Hge].
  - rewrite app_nth1 by assumption. now rewrite Nat.mod_small.
  - rewrite app_nth2 by assumption. rewrite IH by lia.
    f_equal.
    replace k with ((k - length l) + 1 * length l)%nat at 2 by lia.
    now rewrite Nat.Div0.mod_add.
Qed.

Lemma length_tile {A : Type} (m : nat) (l : list A) : length (tile m l) = (m * length l)%nat.
Proof.
  unfold tile. induction m as [|m IH]; simpl; [reflexivity|].
  rewrite length_app, IH. reflexivity.
Qed.

(** The center type that the two-sided branch pairs with the flat neighbor
    slot [k] is [atype[k mod natom]]; slot [k] belongs to atom [k / nnei]. *)
Lemma index_of_two_side_nth (nt nei : nat) (nei_types atype : list Z) (k : nat) :
  length nei_types = (length atype * nei)%nat ->
  (k < length atype * nei)%nat ->
  nth k (Sem.index_of_two_side nt nei nei_types atype) 0%Z
  = (nth k nei_types 0 * Z.of_nat nt + nth (k mod length atype) atype 0)%Z.
Proof.
  intros Hlen Hk. unfold Sem.index_of_two_side.
  rewrite nth_zip_add by (rewrite ?length_map, ?length_tile; lia).
  rewrite nth_tile by lia.
  rewrite (nth_map_lt (fun t => (t * Z.of_nat nt)%Z) nei_types k 0%Z 0%Z) by lia.
  reflexivity.
Qed.

(** C5 at a batch of two atoms of types 0 and 1 with two neighbor slots
    each, all neighbors of type 0: the gather index is [0; 1; 0; 1], so the
    second slot of atom 0 is paired with center type 1 and the first slot of
    atom 1 with center type 0, where the slots' own pairs give [0; 0; 1; 1];
    the embedding of the second slot of atom 0 is then
    [base * pair(1, 0) = 2] instead of [base * pair(0, 0) = 0]. *)
Theorem two_side_center_type_mismatch :
  Sem.index_of_two_side 2 2 [0; 0; 0; 0]%Z [0; 1]%Z = [0; 1; 0; 1]%Z /\
  map (fun k => (nth k [0; 0; 0; 0] 0 * 2 + nth (k / 2) [0; 1] 0)%Z) (seq 0 4)
    = [0; 0; 1; 1]%Z /\
  exists out v,
    Sem.type_embedded (Examples.descrpt_example false false []) Examples.params_example
      Examples.env_example [[1]; [2]; [1]; [1]]%R Examples.type_embedding_example [0; 1]%Z
    = Ok out /\
    nth 1 out [] = [v] /\ v = 2%R /\ v <> 0%R.
Proof.
  split; [reflexivity|]. split; [reflexivity|].
  eexists; eexists. split; [reflexivity|]. cbn. split; [reflexivity|]. split; lra.
Qed.

(** ** Permutation of the neighbor slots *)

(** C3 at the two-sided example: exchanging the two neighbor slots of atom
    0 (their features; their types and validity flags are equal) changes the
    descriptor of atom 0. *)
Theorem two_side_not_permutation_invariant :
  forall fexp : R -> R,
    chunk 4 2 (nth 0 Examples.inputs_swapped []) = rev (chunk 4 2 (nth 0 Examples.inputs_example [])) /\
    nth 1 Examples.inputs_swapped [] = nth 1 Examples.inputs_example [] /\
    exists d q d' q',
      Sem._filter fexp (Examples.descrpt_example false false []) Examples.params_example
        Examples.env_example Examples.inputs_example (Some Examples.type_embedding_example)
        (Some [0; 1]%Z) = Ok (d, q) /\
      Sem._filter fexp (Examples.descrpt_example false false []) Examples.params_example
        Examples.env_example Examples.inputs_swapped (Some Examples.type_embedding_example)
        (Some [0; 1]%Z) = Ok (d', q') /\
      nth 0 d [] = [8]%R /\ nth 0 d' [] = [1 / 2]%R /\
      nth 0 d [] <> nth 0 d' [].
Proof.
  intros fexp. split; [reflexivity|]. split; [reflexivity|].
  do 4 eexists. split; [reflexivity|]. split; [reflexivity|].
  cbn.
  assert (H1 : forall x y : R, x = y -> [x] = [y]) by (intros; subst; reflexivity).
  split; [apply H1; lra|]. split; [apply H1; lra|].
  intros H. inversion H. lra.
Qed.

(** ** Attention weights ([_scaled_dot_attn]) *)

Section AttentionFacts.

Import Sem.
Local Open Scope R_scope.

Lemma big_sum_S n f : big_sum (S n) f = big_sum n f + f n.
Proof.
  unfold big_sum, reduce_sum. rewrite seq_S, map_app, fold_right_app. simpl.
  generalize (map f (seq 0 n)). intros l. induction l as [|x l IH]; simpl; [lra|].
  rewrite IH. lra.
Qed.

Lemma big_sum_0 n : big_sum n (fun _ => 0) = 0.
Proof. induction n as [|n IH]; [reflexivity|]. rewrite big_sum_S, IH. lra. Qed.

Lemma nth_vmul (x y : list R) j :
  (j < length x)%nat -> (j < length y)%nat ->
  nth j (vmul x y) 0 = nth j x 0 * nth j y 0.
Proof. intros Hx Hy. unfold vmul. now apply nth_zipWith. Qed.

Lemma nth_vadd (x y : list R) j :
  (j < length x)%nat -> (j < length y)%nat ->
  nth j (vadd x y) 0 = nth j x 0 + nth j y 0.
Proof. intros Hx Hy. unfold vadd. now apply nth_zipWith. Qed.

Lemma entry_map_map0 (f : R -> R) (a : list (list R)) i j :
  f 0 = 0 -> entry (map (map f) a) i j = f (entry a i j).
Proof.
  intros Hf. unfold entry.
  rewrite (nth_map_default (map f) a i [] []) by reflexivity.
  now rewrite (nth_map_default f (nth i a []) j 0 0).
Qed.

Lemma softmax_length fexp x : length (softmax fexp x) = length x.
Proof. unfold softmax. now rewrite !length_map. Qed.

Lemma nth_softmax fexp x j :
  (j < length x)%nat ->
  nth j (softmax fexp x) 0
  = fexp (nth j x 0 - reduce_max x)
    / reduce_sum (map (fun v => fexp (v - reduce_max x)) x).
Proof.
  intros Hj. unfold softmax.
  set (s := reduce_sum _). set (mx := reduce_max x).
  rewrite (nth_map_lt (fun v => v / s) _ j 0 0) by (now rewrite length_map).
  now rewrite (nth_map_lt (fun v => fexp (v - mx)) x j 0 0).
Qed.

Lemma reduce_max_ge x j : (j < length x)%nat -> nth j x 0 <= reduce_max x.
Proof.
  unfold reduce_max. generalize (hd 0 x). intros d.
  revert j; induction x as [|v x IH]; intros j Hj; simpl in *; [lia|].
  destruct j.
  - apply Rmax_l.
  - eapply Rle_trans; [apply IH; lia|apply Rmax_r].
Qed.

(** Rows of the score matrix. *)
Lemma attn_scores_length nei d m neg Q K T : length (attn_scores nei d m neg Q K T) = nei.
Proof. unfold attn_scores. now rewrite !length_map, matmul_length. Qed.

Lemma attn_scores_row_length nei d m neg Q K T i :
  length m = nei -> length neg = nei -> (i < nei)%nat ->
  length (nth i (attn_scores nei d m neg Q K T) []) = nei.
Proof.
  intros Hm Hneg Hi. unfold attn_scores. rewrite map_map.
  set (A := matmul _ _ _ _ _ _ _).
  rewrite (nth_map_lt _ A i [] []) by (unfold A; now rewrite matmul_length).
  assert (Hrow : length (nth i A []) = nei).
  { pose proof (matmul_rows false true nei d nei (map (map (fun q => q / T)) Q) K) as Hr.
    rewrite Forall_forall in Hr. apply Hr, nth_In. unfold A. now rewrite matmul_length. }
  unfold vadd, vmul. rewrite !length_zipWith. lia.
Qed.

(** The pre-softmax score: [(Q_i . K_j / temperature) * mask_j + neg_j]. *)
Lemma attn_scores_entry nei d m neg Q K T i j :
  length m = nei -> length neg = nei -> (i < nei)%nat -> (j < nei)%nat ->
  entry (attn_scores nei d m neg Q K T) i j
  = big_sum d (fun t => entry Q i t / T * entry K j t) * nth j m 0 + nth j neg 0.
Proof.
  intros Hm Hneg Hi Hj. unfold entry at 1, attn_scores. rewrite map_map.
  set (A := matmul _ _ _ _ _ _ _).
  assert (HA : length A = nei) by (unfold A; apply matmul_length).
  rewrite (nth_map_lt _ A i [] []) by lia.
  assert (Hrow : length (nth i A []) = nei).
  { pose proof (matmul_rows false true nei d nei (map (map (fun q => q / T)) Q) K) as Hr.
    rewrite Forall_forall in Hr. apply Hr, nth_In. fold A. lia. }
  rewrite nth_vadd by (unfold vmul; rewrite ?length_zipWith; lia).
  rewrite nth_vmul by lia.
  f_equal. f_equal.
  change (nth j (nth i A []) 0) with (entry A i j). unfold A.
  rewrite entry_matmul by assumption.
  apply big_sum_ext. intros t _.
  rewrite entry_map_map0 by (unfold Rdiv; apply Rmult_0_l). reflexivity.
Qed.


Lemma attn_softmax_pre_length fexp nei d m neg Q K T :
  length (map (softmax fexp) (attn_scores nei d m neg Q K T)) = nei.
Proof. now rewrite length_map, attn_scores_length. Qed.

(** The weight after softmax and row masking (the saved [attn_weight]). *)
Lemma attn_softmax_entry fexp nei d m neg Q K T i j :
  length m = nei -> length neg = nei -> (i < nei)%nat -> (j < nei)%nat ->
  entry (attn_softmax fexp nei d m neg Q K T) i j
  = nth j (softmax fexp (nth i (attn_scores nei d m neg Q K T) [])) 0 * nth i m 0.
Proof.
  intros Hm Hneg Hi Hj. unfold entry, attn_softmax.
  rewrite (nth_zipWith _ _ m i [] 0)
    by (rewrite ?attn_softmax_pre_length; lia).
  rewrite (nth_map_lt (softmax fexp) _ i [] []) by (rewrite attn_scores_length; lia).
  rewrite (nth_map_lt (fun w => w * nth i m 0) _ j 0 0); [reflexivity|].
  rewrite softmax_length, attn_scores_row_length; assumption.
Qed.

Lemma attn_softmax_length fexp nei d m neg Q K T :
  length m = nei -> length (attn_softmax fexp nei d m neg Q K T) = nei.
Proof.
  intros Hm. unfold attn_softmax. rewrite length_zipWith, attn_softmax_pre_length. lia.
Qed.

Lemma attn_softmax_row_length fexp nei d m neg Q K T i :
  length m = nei -> length neg = nei -> (i < nei)%nat ->
  length (nth i (attn_softmax fexp nei d m neg Q K T) []) = nei.
Proof.
  intros Hm Hneg Hi. unfold attn_softmax.
  rewrite (nth_zipWith _ _ m i [] 0)
    by (rewrite ?attn_softmax_pre_length; lia).
  rewrite length_map.
  rewrite (nth_map_lt (softmax fexp) _ i [] []) by (rewrite attn_scores_length; lia).
  rewrite softmax_length. now apply attn_scores_row_length.
Qed.

Lemma entry_zipWith_vmul (A B : list (list R)) i j :
  (i < length A)%nat -> (i < length B)%nat ->
  (j < length (nth i A []))%nat -> (j < length (nth i B []))%nat ->
  entry (zipWith vmul A B) i j = entry A i j * entry B i j.
Proof.
  intros HA HB HjA HjB. unfold entry.
  rewrite (nth_zipWith vmul A B i [] []) by assumption.
  now apply nth_vmul.
Qed.

(** The gate: the weight times the inner product of the two slots' rows of
    [input_r]. *)
Lemma attn_gated_entry fexp nei d m neg Q K T input_r i j :
  length m = nei -> length neg = nei -> (i < nei)%nat -> (j < nei)%nat ->
  entry (attn_gated fexp nei d m neg Q K T input_r true) i j
  = entry (attn_softmax fexp nei d m neg Q K T) i j
    * big_sum 3 (fun t => entry input_r i t * entry input_r j t).
Proof.
  intros Hm Hneg Hi Hj. unfold attn_gated.
  pose proof (matmul_rows false true nei 3 nei input_r input_r) as Hr.
  rewrite Forall_forall in Hr.
  rewrite entry_zipWith_vmul.
  - now rewrite entry_matmul by assumption.
  - now rewrite attn_softmax_length.
  - now rewrite matmul_length.
  - now rewrite attn_softmax_row_length.
  - rewrite Hr; [assumption|]. apply nth_In. now rewrite matmul_length.
Qed.

Lemma attn_gated_length fexp nei d m neg Q K T input_r dotr :
  length m = nei -> length (attn_gated fexp nei d m neg Q K T input_r dotr) = nei.
Proof.
  intros Hm. unfold attn_gated. destruct dotr.
  - rewrite length_zipWith, attn_softmax_length, matmul_length by assumption. lia.
  - now apply attn_softmax_length.
Qed.

Lemma attn_gated_row_length fexp nei d m neg Q K T input_r dotr i :
  length m = nei -> length neg = nei -> (i < nei)%nat ->
  length (nth i (attn_gated fexp nei d m neg Q K T input_r dotr) []) = nei.
Proof.
  intros Hm Hneg Hi. unfold attn_gated. destruct dotr.
  - pose proof (matmul_rows false true nei 3 nei input_r input_r) as Hr.
    rewrite Forall_forall in Hr.
    rewrite (nth_zipWith vmul _ _ i [] [])
      by (rewrite ?attn_softmax_length, ?matmul_length; lia).
    unfold vmul. rewrite length_zipWith, attn_softmax_row_length by assumption.
    rewrite Hr; [lia|]. apply nth_In. now rewrite matmul_length.
  - now apply attn_softmax_row_length.
Qed.

(** The diagonal mask. *)
Lemma attn_final_entry fexp nei d m neg Q K T input_r dotr do_mask i j :
  length m = nei -> length neg = nei -> (i < nei)%nat -> (j < nei)%nat ->
  entry (attn_final fexp nei d m neg Q K T input_r dotr do_mask) i j
  = entry (attn_gated fexp nei d m neg Q K T input_r dotr) i j
    * (if do_mask then 1 - (if (i =? j)%nat then 1 else 0) else 1).
Proof.
  intros Hm Hneg Hi Hj. unfold attn_final. destruct do_mask; [|lra].
  set (mask := map _ (seq 0 nei)).
  assert (Hmask : nth i mask [] = map (fun j => 1 - (if (i =? j)%nat then 1 else 0)) (seq 0 nei)).
  { unfold mask. now rewrite nth_map_seq. }
  rewrite entry_zipWith_vmul.
  - f_equal. unfold entry. rewrite Hmask. now rewrite nth_map_seq.
  - now rewrite attn_gated_length.
  - unfold mask. now rewrite length_map, length_seq.
  - now rewrite attn_gated_row_length.
  - rewrite Hmask. now rewrite length_map, length_seq.
Qed.

End AttentionFacts.

Section NormalizedScores.

Import Sem.
Local Open Scope R_scope.

Lemma reduce_sum_sq_nonneg (x : list R) : 0 <= reduce_sum (map (fun v => v * v) x).
Proof. induction x as [|v x IH]; simpl; [lra|]. nra. Qed.

Lemma big_sum_shift n f : big_sum (S n) f = f 0%nat + big_sum n (fun t => f (S t)).
Proof.
  unfold big_sum. simpl. f_equal. rewrite <- seq_shift, map_map. reflexivity.
Qed.

Lemma big_sum_sq_le (v : list R) d :
  big_sum d (fun t => nth t v 0 * nth t v 0) <= reduce_sum (map (fun x => x * x) v).
Proof.
  revert d; induction v as [|x v IH]; intros d.
  - rewrite (big_sum_ext d _ (fun _ => 0)).
    + rewrite big_sum_0. simpl. lra.
    + intros t _. destruct t; simpl; lra.
  - destruct d as [|d].
    + unfold big_sum. simpl. pose proof (reduce_sum_sq_nonneg v). nra.
    + rewrite big_sum_shift. simpl. specialize (IH d). lra.
Qed.

Lemma reduce_sum_scale (c : R) (x : list R) :
  reduce_sum (map (fun v => v * v) (map (fun v => v * c) x))
  = c * c * reduce_sum (map (fun v => v * v) x).
Proof. induction x as [|v x IH]; simpl; [lra|]. rewrite IH. lra. Qed.

Lemma l2_epsilon_pos : 0 < l2_epsilon.
Proof. unfold l2_epsilon. apply Rinv_0_lt_compat. lra. Qed.

(** A row that [tf.nn.l2_normalize] returns has norm at most 1. *)
Lemma l2_normalize_sq (x : list R) :
  reduce_sum (map (fun v => v * v) (l2_normalize x)) <= 1.
Proof.
  unfold l2_normalize.
  set (S := reduce_sum (map (fun v => v * v) x)).
  set (s := Rmax S l2_epsilon).
  assert (HS : 0 <= S) by apply reduce_sum_sq_nonneg.
  assert (Hs : 0 < s).
  { unfold s. eapply Rlt_le_trans; [apply l2_epsilon_pos|apply Rmax_r]. }
  assert (HSs : S <= s) by apply Rmax_l.
  rewrite reduce_sum_scale. fold S.
  assert (Hsq : / sqrt s * / sqrt s = / s).
  { rewrite <- Rinv_mult. now rewrite sqrt_sqrt by lra. }
  rewrite Hsq.
  apply Rmult_le_reg_l with (r := s); [assumption|].
  rewrite <- Rmult_assoc, Rinv_r by lra. lra.
Qed.

Lemma big_sum_dot_ge d (a b : nat -> R) :
  - (big_sum d (fun t => a t * a t) + big_sum d (fun t => b t * b t)) / 2
  <= big_sum d (fun t => a t * b t).
Proof.
  induction d as [|d IH].
  - unfold big_sum. simpl. lra.
  - rewrite !big_sum_S.
    pose proof (Rle_0_sqr (a d + b d)) as Hsq. unfold Rsqr in Hsq. nra.
Qed.

(** The score of two normalized rows is at least -1. *)
Lemma normalized_score_ge (Qc Kc : list (list R)) d i j :
  -1 <= big_sum d (fun t => entry (map l2_normalize Qc) i t / sqrt 1
                           * entry (map l2_normalize Kc) j t).
Proof.
  rewrite sqrt_1.
  assert (Hrow : forall (X : list (list R)) r t,
            entry (map l2_normalize X) r t = nth t (l2_normalize (nth r X [])) 0).
  { intros X r t. unfold entry.
    now rewrite (nth_map_default l2_normalize X r [] []). }
  rewrite (big_sum_ext d _ (fun t => nth t (l2_normalize (nth i Qc [])) 0
                                     * nth t (l2_normalize (nth j Kc [])) 0)).
  2:{ intros t _. rewrite !Hrow. lra. }
  pose proof (big_sum_dot_ge d (fun t => nth t (l2_normalize (nth i Qc [])) 0)
                (fun t => nth t (l2_normalize (nth j Kc [])) 0)) as Hdot.
  cbv beta in Hdot.
  pose proof (big_sum_sq_le (l2_normalize (nth i Qc [])) d) as Hq.
  pose proof (big_sum_sq_le (l2_normalize (nth j Kc [])) d) as Hk.
  pose proof (l2_normalize_sq (nth i Qc [])) as Hq1.
  pose proof (l2_normalize_sq (nth j Kc [])) as Hk1.
  lra.
Qed.

End NormalizedScores.

Section MaskedSoftmax.

Import Sem.
Local Open Scope R_scope.

Variable fexp : R -> R.
Hypothesis fexp_underflow : forall x, x <= 1 - IZR (2 ^ 33) -> fexp x = 0.

Variables (nei d : nat) (m : list R) (Qc Kc : list (list R)).
Hypothesis m_length : length m = nei.
Hypothesis m_flags : Forall (fun x => x = 0 \/ x = 1) m.

Let neg : list R := map (fun x => - IZR (2 ^ 33) * (1 - x)) m.
Let Q := map l2_normalize Qc.
Let K := map l2_normalize Kc.

Lemma neg_length : length neg = nei.
Proof. unfold neg. now rewrite length_map. Qed.

Lemma m_flag i : (i < nei)%nat -> nth i m 0 = 0 \/ nth i m 0 = 1.
Proof.
  intros Hi. rewrite Forall_forall in m_flags. apply m_flags, nth_In. lia.
Qed.

Lemma masked_score i j :
  (i < nei)%nat -> (j < nei)%nat ->
  entry (attn_scores nei d m neg Q K (sqrt 1)) i j
  = big_sum d (fun t => entry Q i t / sqrt 1 * entry K j t) * nth j m 0
    - IZR (2 ^ 33) * (1 - nth j m 0).
Proof.
  intros Hi Hj. rewrite attn_scores_entry by (assumption || apply neg_length).
  unfold neg. rewrite (nth_map_lt _ m j 0 0) by lia. lra.
Qed.

Lemma masked_softmax_zero i j :
  (i < nei)%nat -> (j < nei)%nat -> nth j m 0 = 0 ->
  entry (attn_softmax fexp nei d m neg Q K (sqrt 1)) i j = 0.
Proof.
  intros Hi Hj Hmj.
  rewrite attn_softmax_entry by (assumption || apply neg_length).
  destruct (m_flag i Hi) as [Hmi|Hmi]; rewrite Hmi; [lra|].
  rewrite Rmult_1_r.
  set (row := nth i (attn_scores nei d m neg Q K (sqrt 1)) []).
  assert (Hrow : length row = nei).
  { unfold row. apply attn_scores_row_length; assumption || apply neg_length. }
  rewrite nth_softmax by lia.
  assert (Hj0 : nth j row 0 = - IZR (2 ^ 33)).
  { change (nth j row 0) with (entry (attn_scores nei d m neg Q K (sqrt 1)) i j).
    rewrite masked_score by assumption. rewrite Hmj. lra. }
  assert (Hi0 : -1 <= nth i row 0).
  { change (nth i row 0) with (entry (attn_scores nei d m neg Q K (sqrt 1)) i i).
    rewrite masked_score by assumption. rewrite Hmi.
    pose proof (normalized_score_ge Qc Kc d i i) as Hs. fold Q K in Hs. lra. }
  pose proof (reduce_max_ge row i ltac:(lia)) as Hmax.
  rewrite fexp_underflow by lra.
  unfold Rdiv. apply Rmult_0_l.
Qed.

Lemma masked_final_zero input_r dotr do_mask i j :
  (i < nei)%nat -> (j < nei)%nat -> nth j m 0 = 0 ->
  entry (attn_final fexp nei d m neg Q K (sqrt 1) input_r dotr do_mask) i j = 0.
Proof.
  intros Hi Hj Hmj.
  rewrite attn_final_entry by (assumption || apply neg_length).
  assert (Hg : entry (attn_gated fexp nei d m neg Q K (sqrt 1) input_r dotr) i j = 0).
  { destruct dotr.
    - rewrite attn_gated_entry by (assumption || apply neg_length).
      rewrite masked_softmax_zero by assumption. lra.
    - unfold attn_gated. now apply masked_softmax_zero. }
  rewrite Hg. lra.
Qed.

End MaskedSoftmax.

Lemma build_prepare_masks (self : Sem.descrpt) (op : Sem.prod_env_mat) (coord_ : list R)
    (atype_ : list Z) (natoms : list nat) (box_ : list R) (mesh : list Z)
    (pre : Sem.prepared) :
  Sem.build_prepare self op coord_ atype_ natoms box_ mesh = Ok pre ->
  Sem.negative_mask (Sem.pre_env pre)
    = map (map (fun x => (- IZR (2 ^ 33) * (1 - x))%R)) (Sem.nmask (Sem.pre_env pre)) /\
  Forall (Forall (fun x => x = 0%R \/ x = 1%R)) (Sem.nmask (Sem.pre_env pre)).
Proof.
  intros H. unfold Sem.build_prepare in H.
  do 9 (bind_inv H). inversion H; subst pre; clear H.
  cbn [Sem.pre_env Sem.negative_mask Sem.nmask].
  split; [reflexivity|].
  match goal with
  | Hn : reshape2_infer _ (map to_float _) = Ok ?nm |- Forall _ ?nm =>
      apply reshape2_infer_concat in Hn; apply Forall_concat; rewrite Hn
  end.
  rewrite Forall_map. apply Forall_forall. intros [|] _; [right|left]; reflexivity.
Qed.

(** With the exact exponential the weight of a padded slot is small but
    positive: an exact zero can only come from the underflow. *)
Lemma exact_exponential_weight_positive :
  (0 < Sem.entry
         (Sem.attn_softmax exp 2 1 [1; 0]%R
            (map (fun x => (- IZR (2 ^ 33) * (1 - x))%R) [1; 0]%R)
            (map Sem.l2_normalize [[3]; [1000000]]%R)
            (map Sem.l2_normalize [[4]; [-1000000]]%R) (sqrt 1)) 0 1)%R.
Proof.
  rewrite attn_softmax_entry by (reflexivity || lia).
  set (row := nth 0 (Sem.attn_scores _ _ _ _ _ _ _) []).
  assert (Hrow : length row = 2%nat).
  { unfold row. apply attn_scores_row_length; reflexivity || lia. }
  rewrite nth_softmax by lia.
  apply Rmult_lt_0_compat; [|simpl; lra].
  apply Rdiv_lt_0_compat; [apply exp_pos|].
  destruct row as [|x [|y row']]; try discriminate.
  simpl. pose proof (exp_pos (x - Sem.reduce_max (x :: y :: row'))).
  assert (Hs : forall l : list R,
             (0 <= Sem.reduce_sum (map (fun v => exp (v - Sem.reduce_max (x :: y :: row'))) l))%R).
  { induction l as [|v l IH]; simpl; [lra|].
    pose proof (exp_pos (v - Sem.reduce_max (x :: y :: row'))). lra. }
  specialize (Hs (y :: row')). simpl in Hs. lra.
Qed.


Lemma mapM_ok_length {A B : Type} (f : A -> result B) (l : list A) (l' : list B) :
  mapM f l = Ok l' -> length l' = length l.
Proof.
  intros H. apply mapM_ok in H. induction H; simpl; [reflexivity|]. now rewrite IHForall2.
Qed.

Lemma reshape2_infer_length {A : Type} (k : nat) (l : list A) (rows : list (list A)) :
  reshape2_infer k l = Ok rows -> length rows = (length l / k)%nat.
Proof.
  unfold reshape2_infer. destruct k as [|k']; [discriminate|].
  destruct (length l mod S k' =? 0)%nat; [|discriminate].
  intros H; inversion H; subst. apply chunk_length.
Qed.




(** ** The normalization mean in [build] *)

(** When [self.davg] was never assigned, [build] standardizes with a mean
    of zero for every type and channel. Whether [compute_input_stats]
    assigns it is decided by the base class [DescrptSeA]. *)
Lemma build_default_mean (self : Sem.descrpt) (op : Sem.prod_env_mat) (coord_ : list R)
    (atype_ : list Z) (natoms : list nat) (box_ : list R) (mesh : list Z)
    (pre : Sem.prepared) :
  Sem.davg self = None ->
  Sem.build_prepare self op coord_ atype_ natoms box_ mesh = Ok pre ->
  exists coord atype box std,
    Sem.pre_op pre
    = op coord atype natoms box mesh
        (repeat (repeat 0%R (Sem.ndescrpt self)) (Sem.ntypes self)) std.
Proof.
  intros Hd H. unfold Sem.build_prepare in H. rewrite Hd in H.
  do 9 (bind_inv H). inversion H; subst pre; clear H.
  cbn [Sem.pre_op]. eauto.
Qed.

(** ** Reordering the neighbor slots of an atom *)

Section PermuteFacts.

Import Sem.
Local Open Scope R_scope.

Variables (nei : nat) (sigma : list nat).
Hypothesis sigma_perm : Permutation sigma (seq 0 nei).

Lemma sigma_length : length sigma = nei.
Proof. rewrite (Permutation_length sigma_perm). apply length_seq. Qed.

Lemma sigma_lt i : In i sigma -> (i < nei)%nat.
Proof.
  intros Hi. apply (Permutation_in _ sigma_perm) in Hi. apply in_seq in Hi. lia.
Qed.

Lemma sigma_nth_lt k : (k < nei)%nat -> (nth k sigma 0 < nei)%nat.
Proof. intros Hk. apply sigma_lt, nth_In. now rewrite sigma_length. Qed.

Lemma sigma_inj i j :
  (i < nei)%nat -> (j < nei)%nat -> nth i sigma 0%nat = nth j sigma 0%nat -> i = j.
Proof.
  intros Hi Hj. apply NoDup_nth; rewrite ?sigma_length; try assumption.
  apply (Permutation_NoDup (Permutation_sym sigma_perm)). apply seq_NoDup.
Qed.

Lemma map_nth_seq_self {A : Type} (l : list A) (d : A) :
  map (fun i => nth i l d) (seq 0 (length l)) = l.
Proof.
  apply nth_ext with (d := d) (d' := d).
  - now rewrite length_map, length_seq.
  - intros k Hk. rewrite length_map, length_seq in Hk. now rewrite nth_map_seq.
Qed.

Lemma permute_length {A : Type} (d : A) (l : list A) : length (permute d sigma l) = nei.
Proof. unfold permute. now rewrite length_map, sigma_length. Qed.

Lemma nth_permute {A : Type} (d d' : A) (l : list A) k :
  (k < nei)%nat -> nth k (permute d sigma l) d' = nth (nth k sigma 0%nat) l d.
Proof.
  intros Hk. unfold permute.
  now rewrite (nth_map_lt (fun i => nth i l d) sigma k 0%nat d') by (rewrite sigma_length; lia).
Qed.

Lemma permute_default {A : Type} (d d' : A) (l : list A) :
  length l = nei -> permute d sigma l = permute d' sigma l.
Proof.
  intros Hl. unfold permute. apply map_ext_in. intros i Hi.
  apply nth_indep. rewrite Hl. now apply sigma_lt.
Qed.

Lemma permute_Permutation {A : Type} (d : A) (l : list A) :
  length l = nei -> Permutation (permute d sigma l) l.
Proof.
  intros Hl. unfold permute.
  apply Permutation_trans with (l' := map (fun i => nth i l d) (seq 0 nei)).
  - now apply Permutation_map.
  - rewrite <- Hl, map_nth_seq_self. apply Permutation_refl.
Qed.

Lemma permute_map {A B : Type} (f : A -> B) (d : A) (l : list A) :
  permute (f d) sigma (map f l) = map f (permute d sigma l).
Proof.
  unfold permute. rewrite map_map. apply map_ext. intros i. apply map_nth.
Qed.

Lemma permute_zipWith {A B C : Type} (f : A -> B -> C) (da : A) (db : B) (dc : C) x y :
  length x = nei -> length y = nei ->
  permute dc sigma (zipWith f x y) = zipWith f (permute da sigma x) (permute db sigma y).
Proof.
  intros Hx Hy. unfold permute.
  assert (Hc : combine sigma sigma = map (fun i => (i, i)) sigma).
  { clear. induction sigma as [|i s IH]; simpl; [reflexivity|]. now rewrite IH. }
  transitivity (map (fun i => f (nth i x da) (nth i y db)) sigma).
  - apply map_ext_in. intros i Hi. apply sigma_lt in Hi.
    apply nth_zipWith; lia.
  - unfold zipWith. rewrite combine_map2, Hc, !map_map. reflexivity.
Qed.

Lemma permute_Forall {A : Type} (Pr : A -> Prop) (d : A) (l : list A) :
  length l = nei -> Forall Pr l -> Forall Pr (permute d sigma l).
Proof.
  intros Hl Hall. unfold permute. rewrite Forall_map. apply Forall_forall.
  intros i Hi. rewrite Forall_forall in Hall. apply Hall, nth_In.
  rewrite Hl. now apply sigma_lt.
Qed.

Lemma reduce_sum_Permutation (x y : list R) :
  Permutation x y -> reduce_sum x = reduce_sum y.
Proof. unfold reduce_sum. induction 1; simpl; lra. Qed.

Lemma big_sum_reindex (f : nat -> R) :
  big_sum nei (fun j => f (nth j sigma 0%nat)) = big_sum nei f.
Proof.
  unfold big_sum.
  rewrite <- (map_map (fun j => nth j sigma 0%nat) f).
  rewrite <- sigma_length at 1. rewrite map_nth_seq_self.
  apply reduce_sum_Permutation. now apply Permutation_map.
Qed.

End PermuteFacts.

Section ReduceMax.

Import Sem.
Local Open Scope R_scope.

Lemma fold_max_in (d : R) (l : list R) :
  fold_right Rmax d l = d \/ In (fold_right Rmax d l) l.
Proof.
  induction l as [|v l IH]; simpl; [now left|].
  destruct (Rle_dec v (fold_right Rmax d l)) as [Hle|Hnle].
  - rewrite (Rmax_right _ _ Hle).
    destruct IH as [IH|IH]; [now left|right; now right].
  - rewrite Rmax_left by lra. right. now left.
Qed.

Lemma fold_max_ge (d : R) (l : list R) v :
  v = d \/ In v l -> v <= fold_right Rmax d l.
Proof.
  induction l as [|w l IH]; simpl.
  - intros [->|[]]. lra.
  - intros [Hv|[Hv|Hv]].
    + eapply Rle_trans; [apply IH; now left|apply Rmax_r].
    + subst. apply Rmax_l.
    + eapply Rle_trans; [apply IH; now right|apply Rmax_r].
Qed.

Lemma reduce_max_in (x : list R) : x <> [] -> In (reduce_max x) x.
Proof.
  destruct x as [|a l]; [congruence|]. intros _. unfold reduce_max. cbn [hd].
  destruct (fold_max_in a (a :: l)) as [H|H]; [rewrite H; now left|exact H].
Qed.

Lemma reduce_max_upper (x : list R) v : In v x -> v <= reduce_max x.
Proof. intros Hv. unfold reduce_max. apply fold_max_ge. now right. Qed.

Lemma reduce_max_Permutation (x y : list R) :
  Permutation x y -> reduce_max x = reduce_max y.
Proof.
  intros Hp. destruct x as [|a l].
  - apply Permutation_nil in Hp. now subst.
  - assert (Hy : y <> []).
    { intros ->. apply Permutation_sym, Permutation_nil in Hp. discriminate. }
    apply Rle_antisym.
    + apply reduce_max_upper. apply (Permutation_in _ Hp).
      apply reduce_max_in. discriminate.
    + apply reduce_max_upper. apply (Permutation_in _ (Permutation_sym Hp)).
      now apply reduce_max_in.
Qed.

End ReduceMax.

Section PermuteSoftmax.

Import Sem.
Local Open Scope R_scope.

Variable fexp : R -> R.
Variables (nei : nat) (sigma : list nat).
Hypothesis sigma_perm : Permutation sigma (seq 0 nei).

Lemma softmax_permute (x : list R) :
  length x = nei ->
  softmax fexp (permute 0 sigma x) = permute 0 sigma (softmax fexp x).
Proof.
  intros Hx. unfold softmax.
  pose proof (permute_Permutation nei sigma sigma_perm 0 x Hx) as Hp.
  rewrite (reduce_max_Permutation _ _ Hp).
  set (mx := reduce_max x).
  set (g := fun v => fexp (v - mx)).
  rewrite (reduce_sum_Permutation (map g (permute 0 sigma x)) (map g x))
    by (now apply Permutation_map).
  set (s := reduce_sum (map g x)).
  rewrite <- (permute_map sigma g 0 x).
  rewrite <- (permute_map sigma (fun v => v / s) (g 0) (map g x)).
  apply permute_default with (nei := nei); [assumption|].
  now rewrite !length_map.
Qed.

(** Lookups commute with the reordering. *)
Lemma lookup_permute {A : Type} (table : list A) (ids : list Z) (d : A) :
  length ids = nei ->
  embedding_lookup table (permute 0%Z sigma ids)
  = match embedding_lookup table ids with
    | Ok rows => Ok (permute d sigma rows)
    | Raise err => Raise err
    end.
Proof.
  intros Hids. unfold embedding_lookup.
  assert (Herr : forall i, lookup1 table i = Raise InvalidArgumentError
                           \/ exists a, lookup1 table i = Ok a).
  { intros i. unfold lookup1. destruct (i <? 0)%Z; [now left|].
    destruct (nth_error table (Z.to_nat i)); [right; eauto|now left]. }
  assert (Hall : forall l : list Z,
            (exists rows, mapM (lookup1 table) l = Ok rows /\ length rows = length l /\
                          forall k, (k < length l)%nat ->
                                    lookup1 table (nth k l 0%Z) = Ok (nth k rows d))
            \/ (mapM (lookup1 table) l = Raise InvalidArgumentError /\
                exists i, In i l /\ lookup1 table i = Raise InvalidArgumentError)).
  { induction l as [|i l IH]; simpl.
    - left. exists []. repeat split. intros k Hk. lia.
    - destruct (Herr i) as [Hi|[a Hi]]; rewrite Hi.
      + right. split; [reflexivity|]. exists i. split; [now left|assumption].
      + destruct IH as [(rows & -> & Hlen & Hk)|(-> & j & Hj & Hjr)].
        * left. exists (a :: rows). split; [reflexivity|]. split; [simpl; lia|].
          intros [|k] Hlt; simpl; [assumption|]. apply Hk. simpl in Hlt. lia.
        * right. split; [reflexivity|]. exists j. split; [now right|assumption]. }
  destruct (Hall ids) as [(rows & Hrows & Hlen & Hk)|(Hr & i & Hi & Hir)].
  - rewrite Hrows.
    unfold permute. clear Hrows.
    assert (Hs : Forall (fun i => (i < nei)%nat) sigma).
    { apply Forall_forall. intros i0 Hi0. eapply sigma_lt; eassumption. }
    clear sigma_perm. induction Hs as [|i0 s Hi0 _ IH]; simpl; [reflexivity|].
    rewrite Hk by lia. now rewrite IH.
  - rewrite Hr.
    destruct (Hall (permute 0%Z sigma ids)) as [(rows & _ & _ & Hk)|(-> & _)];
      [|reflexivity].
    exfalso.
    apply (Permutation_in _ (Permutation_sym
             (permute_Permutation nei sigma sigma_perm 0%Z ids Hids))) in Hi.
    apply In_nth with (d := 0%Z) in Hi. destruct Hi as (k & Hklt & Hkeq).
    specialize (Hk k Hklt). rewrite Hkeq, Hir in Hk. discriminate.
Qed.

End PermuteSoftmax.

Section PermuteAttention.

Import Sem.
Local Open Scope R_scope.

Variable fexp : R -> R.
Variables (nei : nat) (sigma : list nat).
Hypothesis sigma_perm : Permutation sigma (seq 0 nei).

Variables (d : nat) (m neg : list R) (Q K V r : list (list R)) (T : R).
Hypothesis m_length : length m = nei.
Hypothesis neg_length : length neg = nei.

Let m' := permute 0 sigma m.
Let neg' := permute 0 sigma neg.
Let Q' := permute [] sigma Q.
Let K' := permute [] sigma K.
Let V' := permute [] sigma V.
Let r' := permute [] sigma r.
Let s (i : nat) : nat := nth i sigma 0%nat.

Lemma m'_length : length m' = nei.
Proof. apply permute_length; assumption. Qed.

Lemma neg'_length : length neg' = nei.
Proof. apply permute_length; assumption. Qed.

Lemma s_lt i : (i < nei)%nat -> (s i < nei)%nat.
Proof. apply sigma_nth_lt; assumption. Qed.

Lemma entry_permute (X : list (list R)) i t :
  (i < nei)%nat -> entry (permute [] sigma X) i t = entry X (s i) t.
Proof.
  intros Hi. unfold entry. now rewrite (nth_permute nei sigma sigma_perm [] [] X i Hi).
Qed.

Lemma attn_scores_permute i j :
  (i < nei)%nat -> (j < nei)%nat ->
  entry (attn_scores nei d m' neg' Q' K' T) i j
  = entry (attn_scores nei d m neg Q K T) (s i) (s j).
Proof.
  intros Hi Hj.
  rewrite attn_scores_entry by (assumption || apply m'_length || apply neg'_length).
  rewrite attn_scores_entry by (assumption || now apply s_lt).
  unfold m', neg', Q', K'.
  rewrite !(nth_permute nei sigma sigma_perm 0 0) by assumption.
  f_equal. f_equal. apply big_sum_ext. intros t _.
  now rewrite !entry_permute by assumption.
Qed.

Lemma attn_scores_row_permute i :
  (i < nei)%nat ->
  nth i (attn_scores nei d m' neg' Q' K' T) []
  = permute 0 sigma (nth (s i) (attn_scores nei d m neg Q K T) []).
Proof.
  intros Hi. apply nth_ext with (d := 0) (d' := 0).
  - rewrite attn_scores_row_length
      by (assumption || apply m'_length || apply neg'_length).
    symmetry. apply permute_length; assumption.
  - intros k Hk.
    rewrite attn_scores_row_length in Hk
      by (assumption || apply m'_length || apply neg'_length).
    rewrite (nth_permute nei sigma sigma_perm 0 0) by assumption.
    now apply attn_scores_permute.
Qed.

Lemma attn_softmax_permute i j :
  (i < nei)%nat -> (j < nei)%nat ->
  entry (attn_softmax fexp nei d m' neg' Q' K' T) i j
  = entry (attn_softmax fexp nei d m neg Q K T) (s i) (s j).
Proof.
  intros Hi Hj.
  rewrite attn_softmax_entry by (assumption || apply m'_length || apply neg'_length).
  rewrite attn_softmax_entry by (assumption || now apply s_lt).
  rewrite attn_scores_row_permute by assumption.
  rewrite (softmax_permute fexp nei sigma sigma_perm)
    by (apply attn_scores_row_length; assumption || now apply s_lt).
  unfold m'. rewrite !(nth_permute nei sigma sigma_perm 0 0) by assumption.
  reflexivity.
Qed.

Lemma attn_gated_permute dotr i j :
  (i < nei)%nat -> (j < nei)%nat ->
  entry (attn_gated fexp nei d m' neg' Q' K' T r' dotr) i j
  = entry (attn_gated fexp nei d m neg Q K T r dotr) (s i) (s j).
Proof.
  intros Hi Hj. destruct dotr.
  - rewrite attn_gated_entry by (assumption || apply m'_length || apply neg'_length).
    rewrite attn_gated_entry by (assumption || now apply s_lt).
    rewrite attn_softmax_permute by assumption. f_equal.
    apply big_sum_ext. intros t _. unfold r'. now rewrite !entry_permute by assumption.
  - unfold attn_gated. now apply attn_softmax_permute.
Qed.

Lemma attn_final_permute dotr do_mask i j :
  (i < nei)%nat -> (j < nei)%nat ->
  entry (attn_final fexp nei d m' neg' Q' K' T r' dotr do_mask) i j
  = entry (attn_final fexp nei d m neg Q K T r dotr do_mask) (s i) (s j).
Proof.
  intros Hi Hj.
  rewrite attn_final_entry by (assumption || apply m'_length || apply neg'_length).
  rewrite attn_final_entry by (assumption || now apply s_lt).
  rewrite attn_gated_permute by assumption. f_equal.
  destruct do_mask; [|reflexivity].
  destruct (Nat.eqb_spec i j) as [->|Hne].
  - now rewrite Nat.eqb_refl.
  - destruct (Nat.eqb_spec (s i) (s j)) as [Heq|_]; [|reflexivity].
    exfalso. apply Hne. eapply sigma_inj; eassumption.
Qed.

(** The output of the attention of one atom is reordered like its
    input. *)
Lemma attn_output_permute dotr do_mask :
  matmul false false nei nei d
    (attn_final fexp nei d m' neg' Q' K' T r' dotr do_mask) V'
  = permute [] sigma
      (matmul false false nei nei d
         (attn_final fexp nei d m neg Q K T r dotr do_mask) V).
Proof.
  unfold permute at 1. unfold matmul at 2.
  rewrite <- (map_nth_seq_self sigma 0%nat) at 1.
  rewrite (sigma_length nei sigma sigma_perm).
  rewrite map_map. unfold matmul at 1.
  apply map_ext_in. intros i Hi. apply in_seq in Hi.
  rewrite nth_map_seq by (apply sigma_nth_lt; assumption || lia).
  apply map_ext_in. intros c Hc.
  rewrite <- (big_sum_reindex nei sigma sigma_perm
                (fun t => entry (attn_final fexp nei d m neg Q K T r dotr do_mask)
                                (nth i sigma 0%nat) t * entry V t c)).
  apply big_sum_ext. intros t Ht.
  rewrite attn_final_permute by lia.
  unfold V'. now rewrite entry_permute by assumption.
Qed.

End PermuteAttention.

Section PermuteLayers.

Import Sem.
Local Open Scope R_scope.

Variable fexp : R -> R.
Variables (self : descrpt) (P : params).
Variables (nei : nat) (sigma : list nat).
Hypothesis sigma_perm : Permutation sigma (seq 0 nei).
Hypothesis nei_pos : (0 < nei)%nat.

Variables (types : list Z) (m neg : list R) (r : list (list R)).
Hypothesis m_length : length m = nei.
Hypothesis neg_length : length neg = nei.

Let e : env := {| nei_type_vec := types; nmask := [m]; negative_mask := [neg] |}.
Let e' : env :=
  {| nei_type_vec := permute 0%Z sigma types;
     nmask := [permute 0 sigma m];
     negative_mask := [permute 0 sigma neg] |}.

Lemma chunk_single {A : Type} (l : list A) : length l = nei -> chunk nei 1 l = [l].
Proof. intros Hl. simpl. rewrite <- Hl. now rewrite firstn_all. Qed.

Lemma permute_rows_length (x : list (list R)) : length (permute [] sigma x) = nei.
Proof. apply permute_length; assumption. Qed.

(** One attention layer on the rows of a single atom. *)
Lemma attention_layer_single (W : nat) (dotr do_mask : bool) (x : list (list R)) (i : nat) :
  length x = nei ->
  attention_layer fexp self P e nei W [r] dotr do_mask x i
  = map (layer_normalization P i)
      (zipWith vadd x
         (map (c_out P i)
            (matmul false false nei nei (att_n self)
               (attn_final fexp nei (att_n self) m neg
                  (map l2_normalize (map (c_query P i) x))
                  (map l2_normalize (map (c_key P i) x)) (sqrt 1) r dotr do_mask)
               (map l2_normalize (map (c_value P i) x))))).
Proof.
  intros Hx. unfold attention_layer.
  rewrite Hx, Nat.div_same by lia.
  rewrite !chunk_single by (now rewrite length_map).
  unfold _scaled_dot_attn, e. cbn [map length seq nth nmask negative_mask concat].
  now rewrite app_nil_r.
Qed.

Lemma attention_layer_length (W : nat) (dotr do_mask : bool) (x : list (list R)) (i : nat) :
  length x = nei ->
  length (attention_layer fexp self P e nei W [r] dotr do_mask x i) = nei.
Proof.
  intros Hx. rewrite attention_layer_single by assumption.
  rewrite length_map, length_zipWith, length_map, matmul_length. lia.
Qed.

End PermuteLayers.

Section PermuteStack.

Import Sem.
Local Open Scope R_scope.

Variable fexp : R -> R.
Variables (self : descrpt) (P : params).
Variables (nei : nat) (sigma : list nat).
Hypothesis sigma_perm : Permutation sigma (seq 0 nei).
Hypothesis nei_pos : (0 < nei)%nat.

Variables (types : list Z) (m neg : list R) (r : list (list R)).
Hypothesis types_length : length types = nei.
Hypothesis m_length : length m = nei.
Hypothesis neg_length : length neg = nei.

Let e : env := {| nei_type_vec := types; nmask := [m]; negative_mask := [neg] |}.
Let e' : env :=
  {| nei_type_vec := permute 0%Z sigma types;
     nmask := [permute 0 sigma m];
     negative_mask := [permute 0 sigma neg] |}.
Let r' := permute [] sigma r.

Lemma permute_map_rows (f : list R -> list R) (X : list (list R)) :
  length X = nei -> map f (permute [] sigma X) = permute [] sigma (map f X).
Proof.
  intros HX. rewrite <- (permute_map sigma f [] X).
  apply permute_default with (nei := nei); [assumption|]. now rewrite length_map.
Qed.

Lemma attention_layer_permute (W : nat) (dotr do_mask : bool) (x : list (list R)) (i : nat) :
  length x = nei ->
  attention_layer fexp self P e' nei W [r'] dotr do_mask (permute [] sigma x) i
  = permute [] sigma (attention_layer fexp self P e nei W [r] dotr do_mask x i).
Proof.
  intros Hx. unfold e, e'.
  rewrite (attention_layer_single fexp self P nei nei_pos _ _ _ r')
    by (apply permute_length; assumption).
  rewrite (attention_layer_single fexp self P nei nei_pos _ _ _ r) by assumption.
  rewrite !(permute_map_rows _ x) by assumption.
  rewrite !(permute_map_rows l2_normalize) by (now rewrite length_map).
  unfold r'.
  rewrite (attn_output_permute fexp nei sigma sigma_perm) by assumption.
  rewrite (permute_map_rows (c_out P i)) by apply matmul_length.
  rewrite <- (permute_zipWith nei sigma sigma_perm vadd [] [] [])
    by (rewrite ?length_map, ?matmul_length; lia).
  rewrite (permute_map_rows (layer_normalization P i))
    by (rewrite length_zipWith, length_map, matmul_length; lia).
  reflexivity.
Qed.

Lemma attention_layers_permute (L W : nat) (dotr do_mask : bool) (x : list (list R)) :
  length x = nei ->
  length (_attention_layers fexp self P e x L (nei * 4) W [r] dotr do_mask) = nei /\
  _attention_layers fexp self P e' (permute [] sigma x) L (nei * 4) W [r'] dotr do_mask
  = permute [] sigma (_attention_layers fexp self P e x L (nei * 4) W [r] dotr do_mask).
Proof.
  unfold _attention_layers. rewrite Nat.div_mul by lia.
  generalize (seq 0 L). intros layers. revert x.
  induction layers as [|i layers IH]; intros x Hx; simpl.
  - split; [assumption|reflexivity].
  - rewrite attention_layer_permute by assumption.
    apply IH. unfold e. now apply attention_layer_length.
Qed.

Lemma zip_add_repeat (x : list Z) (a : Z) :
  zip_add x (repeat a (length x)) = map (fun t => (t + a)%Z) x.
Proof.
  unfold zip_add. induction x as [|t x IH]; simpl; [reflexivity|]. now rewrite IH.
Qed.

Lemma index_of_two_side_single (nt : nat) (ids : list Z) (a : Z) :
  length ids = nei ->
  index_of_two_side nt nei ids [a] = map (fun t => (t * Z.of_nat nt + a)%Z) ids.
Proof.
  intros Hids. unfold index_of_two_side.
  rewrite tile_single. rewrite <- Hids, <- (length_map (fun t => (t * Z.of_nat nt)%Z) ids).
  rewrite zip_add_repeat, map_map. reflexivity.
Qed.

Lemma embedding_lookup_length {A : Type} (table : list A) (ids : list Z) (rows : list A) :
  embedding_lookup table ids = Ok rows -> length rows = length ids.
Proof. apply mapM_ok_length. Qed.

(** The embedding before attention is reordered like the slots. *)
Lemma type_embedded_permute (xs te : list (list R)) (a : Z) :
  nnei self = nei -> length xs = nei ->
  type_embedded self P e' (permute [] sigma xs) te [a]
  = match type_embedded self P e xs te [a] with
    | Ok y => Ok (permute [] sigma y)
    | Raise err => Raise err
    end /\
  forall y, type_embedded self P e xs te [a] = Ok y -> length y = nei.
Proof.
  intros Hnnei Hxs. unfold type_embedded.
  rewrite (permute_map_rows (net_filter P)) by assumption.
  destruct (type_one_side self).
  - unfold e, e'. cbn [nei_type_vec].
    rewrite (lookup_permute nei sigma sigma_perm _ types []) by assumption.
    destruct (embedding_lookup _ types) as [rows|err] eqn:Hl; cbn [rbind].
    + apply embedding_lookup_length in Hl.
      split.
      * rewrite <- (permute_zipWith nei sigma sigma_perm vadd [] [] [])
          by (rewrite ?length_map; lia).
        reflexivity.
      * intros y Hy. inversion Hy; subst.
        rewrite length_zipWith, length_map. lia.
    + split; [reflexivity|discriminate].
  - unfold e, e'. cbn [nei_type_vec]. rewrite Hnnei.
    rewrite !index_of_two_side_single
      by (assumption || (apply permute_length; assumption)).
    set (idx := fun t => (t * Z.of_nat (length te) + a)%Z).
    assert (Hidx : map idx (permute 0%Z sigma types) = permute 0%Z sigma (map idx types)).
    { rewrite <- (permute_map sigma idx 0%Z types).
      apply permute_default with (nei := nei); [assumption|]. now rewrite length_map. }
    rewrite Hidx.
    rewrite (lookup_permute nei sigma sigma_perm _ (map idx types) [])
      by (now rewrite length_map).
    destruct (embedding_lookup _ (map idx types)) as [rows|err] eqn:Hl; cbn [rbind].
    + apply embedding_lookup_length in Hl. rewrite length_map in Hl.
      split.
      * rewrite <- (permute_zipWith nei sigma sigma_perm _ [] [] [])
          by (rewrite ?length_map; lia).
        reflexivity.
      * intros y Hy. inversion Hy; subst.
        rewrite length_zipWith, length_map. lia.
    + split; [reflexivity|discriminate].
Qed.

End PermuteStack.

Section PermuteFilter.

Import Sem.
Local Open Scope R_scope.

Variable fexp : R -> R.
Variables (self : descrpt) (P : params).
Variables (nei : nat) (sigma : list nat).
Hypothesis sigma_perm : Permutation sigma (seq 0 nei).
Hypothesis nei_pos : (0 < nei)%nat.

Lemma slice_rows_ok (start size : nat) (rows : list (list R)) :
  Forall (fun row => (start + size <= length row)%nat) rows ->
  mapM (slice_last start size) rows
  = Ok (map (fun row => firstn size (skipn start row)) rows).
Proof.
  intros H. apply mapM_all_ok. eapply Forall_impl; [|exact H].
  intros row Hrow. cbv beta in *. unfold slice_last.
  destruct (Nat.leb_spec (start + size) (length row)); [reflexivity|lia].
Qed.

(** [_filter_lower]'s attended embedding on a batch of one atom. *)
Lemma attended_single (e : env) (feats : list (list R)) (te : option (list (list R)))
    (a : Z) :
  length feats = nei -> Forall (fun row => length row = 4%nat) feats ->
  attended fexp self P e 0 nei [concat feats] te (Some [a])
  = match te with
    | None => Raise InvalidArgumentError
    | Some t =>
        if compress self
        then Raise (RuntimeError
                      "compression of attention descriptor is not supported at the moment")
        else
          match type_embedded self P e (map (firstn 1) feats) t [a] with
          | Raise err => Raise err
          | Ok xs =>
              let att :=
                _attention_layers fexp self P e xs (attn_layer self) (nei * 4)
                  (outputs_size_last self)
                  [map l2_normalize (map (fun row => firstn 3 (skipn 1 row)) feats)]
                  (attn_dotr self) (attn_mask self) in
              Ok ([feats], chunk nei (length att / nei) att)
          end
    end.
Proof.
  intros Hlen Hrows. unfold attended.
  assert (Hcat : length (concat feats) = (nei * 4)%nat).
  { rewrite (length_concat_uniform 4 feats Hrows). now rewrite Hlen. }
  rewrite (slice_rows_ok (0 * 4) (nei * 4) [concat feats])
    by (constructor; [lia|constructor]).
  cbn [rbind map length concat]. rewrite app_nil_r.
  replace (firstn (nei * 4) (skipn (0 * 4) (concat feats))) with (concat feats)
    by (simpl skipn; rewrite <- Hcat; now rewrite firstn_all).
  rewrite (reshape2_infer_ok 4 nei) by lia. cbn [rbind].
  assert (Hch : chunk 4 nei (concat feats) = feats).
  { rewrite <- Hlen. apply chunk_concat, Hrows. }
  rewrite !Hch.
  rewrite (slice_rows_ok 0 1 feats)
    by (eapply Forall_impl; [|exact Hrows]; intros row Hrow; cbv beta in *; lia).
  cbn [rbind skipn].
  destruct te as [t|]; cbn [rbind]; [|reflexivity].
  destruct (compress self); [reflexivity|].
  destruct (type_embedded self P e (map (firstn 1) feats) t [a]) as [xs|err];
    cbn [rbind]; [|reflexivity].
  rewrite (slice_rows_ok 1 3 feats)
    by (eapply Forall_impl; [|exact Hrows]; intros row Hrow; cbv beta in *; lia).
  cbn [rbind]. rewrite Nat.div_mul by lia.
  rewrite length_map, Hlen, Nat.div_same by lia.
  rewrite !(chunk_single nei) by (rewrite ?length_map; assumption).
  cbn [map]. reflexivity.
Qed.

End PermuteFilter.

Section PermuteDescriptor.

Import Sem.
Local Open Scope R_scope.

Variables (nei : nat) (sigma : list nat).
Hypothesis sigma_perm : Permutation sigma (seq 0 nei).

(** The contraction over the neighbor axis does not see the order of the
    slots. *)
Lemma contraction_permute (W : nat) (Rm E : list (list R)) :
  matmul true false 4 nei W (permute [] sigma Rm) (permute [] sigma E)
  = matmul true false 4 nei W Rm E.
Proof.
  unfold matmul. apply map_ext_in. intros c _. apply map_ext_in. intros w _.
  rewrite <- (big_sum_reindex nei sigma sigma_perm
                (fun t => entry Rm t c * entry E t w)).
  apply big_sum_ext. intros t Ht.
  now rewrite !(entry_permute nei sigma sigma_perm) by assumption.
Qed.

End PermuteDescriptor.

(** Reordering the neighbor slots of an atom, with their features, types
    and validity flags, does not change what [_filter] returns for a batch
    that holds this atom alone: in both branches of the type embedding, with
    any number of attention layers, with or without the gate and the
    diagonal mask. In a batch of several atoms the two-sided branch pairs
    the slots with the center types of other atoms, and the invariance is
    lost there. *)
Theorem single_atom_permutation_invariant :
  forall (fexp : R -> R) (self : Sem.descrpt) (P : Sem.params) (nei : nat)
         (sigma : list nat) (feats : list (list R)) (types : list Z) (m neg : list R)
         (te : option (list (list R))) (a : Z),
    Permutation sigma (seq 0 nei) ->
    Sem.cumsum_last (Sem.sel_a self) = Ok nei ->
    Sem.nnei self = nei ->
    length feats = nei ->
    Forall (fun row => length row = 4%nat) feats ->
    length types = nei -> length m = nei -> length neg = nei ->
    Sem._filter fexp self P
      {| Sem.nei_type_vec := permute 0%Z sigma types;
         Sem.nmask := [permute 0%R sigma m];
         Sem.negative_mask := [permute 0%R sigma neg] |}
      [concat (permute [] sigma feats)] te (Some [a])
    = Sem._filter fexp self P
        {| Sem.nei_type_vec := types; Sem.nmask := [m]; Sem.negative_mask := [neg] |}
        [concat feats] te (Some [a]).
Proof.
  intros fexp self P nei sigma feats types m neg te a Hperm Hsel Hnnei Hfeats Hrows
         Htypes Hm Hneg.
  destruct (Nat.eq_dec nei 0) as [Hz|Hz].
  - subst nei. rewrite Hz in *.
    apply Permutation_sym, Permutation_nil in Hperm. subst sigma.
    destruct feats; [|discriminate]. destruct types; [|discriminate].
    destruct m; [|discriminate]. destruct neg; [|discriminate]. reflexivity.
  - assert (Hpos : (0 < nei)%nat) by lia.
    unfold Sem._filter. rewrite Hsel. cbn [rbind].
    assert (Hlow :
      Sem._filter_lower fexp self P
        {| Sem.nei_type_vec := permute 0%Z sigma types;
           Sem.nmask := [permute 0%R sigma m];
           Sem.negative_mask := [permute 0%R sigma neg] |}
        0 nei [concat (permute [] sigma feats)] te (Some [a])
      = Sem._filter_lower fexp self P
          {| Sem.nei_type_vec := types; Sem.nmask := [m]; Sem.negative_mask := [neg] |}
          0 nei [concat feats] te (Some [a])).
    2:{ now rewrite Hlow. }
    unfold Sem._filter_lower.
    rewrite (attended_single fexp self P nei Hpos _ (permute [] sigma feats))
      by (first [ apply (permute_length nei sigma Hperm)
                | apply (permute_Forall nei sigma Hperm); assumption ]).
    rewrite (attended_single fexp self P nei Hpos _ feats) by assumption.
    destruct te as [t|]; [|reflexivity].
    destruct (Sem.compress self); [reflexivity|].
    rewrite (permute_map_rows nei sigma Hperm (firstn 1)) by assumption.
    destruct (type_embedded_permute self P nei sigma Hperm Hpos types m neg Htypes Hm Hneg
                (map (firstn 1) feats) t a Hnnei) as [Hte Hylen];
      [now rewrite length_map|].
    rewrite Hte.
    destruct (Sem.type_embedded self P _ (map (firstn 1) feats) t [a]) as [xs|err];
      [|reflexivity].
    specialize (Hylen xs eq_refl).
    rewrite (permute_map_rows nei sigma Hperm (fun row => firstn 3 (skipn 1 row)))
      by assumption.
    rewrite (permute_map_rows nei sigma Hperm Sem.l2_normalize)
      by (now rewrite length_map).
    destruct (attention_layers_permute fexp self P nei sigma Hperm Hpos types m neg
                (map Sem.l2_normalize (map (fun row => firstn 3 (skipn 1 row)) feats))
                Htypes Hm Hneg (Sem.attn_layer self) (Sem.outputs_size_last self)
                (Sem.attn_dotr self) (Sem.attn_mask self) xs Hylen) as [Hattlen Hatt].
    rewrite Hatt. cbv zeta. cbn [rbind fst snd].
    rewrite (permute_length nei sigma Hperm), Hattlen, Nat.div_same by lia.
    rewrite !(chunk_single nei)
      by (assumption || apply (permute_length nei sigma Hperm)).
    rewrite Nat.div_mul by lia.
    unfold Sem.zipWith. cbn [combine map fst snd].
    now rewrite (contraction_permute nei sigma Hperm).
Qed.

(** ** What the two-sided branch computes *)

Section TwoSideRows.

Import Sem.
Local Open Scope R_scope.

Lemma nth_repeat_lt' {A : Type} (x d : A) n i : (i < n)%nat -> nth i (repeat x n) d = x.
Proof. intros Hi. now apply nth_repeat_lt. Qed.

Lemma Forall2_nth_lt {A B : Type} (Rel : A -> B -> Prop) (l : list A) (l' : list B)
    (k : nat) (d : A) (d' : B) :
  Forall2 Rel l l' -> (k < length l)%nat -> Rel (nth k l d) (nth k l' d').
Proof.
  intros H; revert k; induction H as [|x y l l' Hxy _ IH]; intros [|k] Hk; simpl in *;
    try lia; [exact Hxy|apply IH; lia].
Qed.

(** Entry [i * nt + j] of the table joins the embedding of type [j] with
    that of type [i]. *)
Lemma two_side_table_entry (te : list (list R)) (i j : nat) :
  (i < length te)%nat -> (j < length te)%nat ->
  nth (i * length te + j) (two_side_type_embedding te) [] = nth j te [] ++ nth i te [].
Proof.
  intros Hi Hj. unfold two_side_type_embedding.
  set (nt := length te).
  assert (Hrow : forall k, (k < nt)%nat ->
            nth k (zipWith (zipWith (@app R)) (repeat te nt) (map (fun t => repeat t nt) te)) []
            = map (fun tj => tj ++ nth k te []) te).
  { intros k Hk.
    rewrite (nth_zipWith _ _ _ k [] [] [])
      by (rewrite ?repeat_length, ?length_map; assumption).
    rewrite nth_repeat_lt' by assumption.
    rewrite (nth_map_lt (fun t => repeat t nt) te k [] []) by assumption.
    unfold zipWith. clear. unfold nt. generalize (nth k te []). intros v.
    induction te as [|t l IH]; simpl; [reflexivity|]. now rewrite IH. }
  rewrite nth_concat_uniform with (w := nt).
  - rewrite Hrow by assumption.
    now rewrite (nth_map_lt (fun tj => tj ++ nth i te []) te j [] []).
  - apply Forall_forall. intros row Hrow'.
    apply In_nth with (d := []) in Hrow'. destruct Hrow' as (k & Hk & <-).
    rewrite length_zipWith, repeat_length, length_map in Hk.
    rewrite Hrow by (fold nt in Hk; lia). now rewrite length_map.
  - assumption.
Qed.

Lemma two_side_table_length (te : list (list R)) :
  length (two_side_type_embedding te) = (length te * length te)%nat.
Proof.
  unfold two_side_type_embedding.
  rewrite (length_concat_uniform (length te)).
  - rewrite length_zipWith, repeat_length, length_map. lia.
  - apply Forall_forall. intros row Hrow.
    unfold zipWith in Hrow. apply in_map_iff in Hrow. destruct Hrow as ([x y] & <- & Hin).
    pose proof (in_combine_l _ _ _ _ Hin) as Hx. apply repeat_spec in Hx.
    pose proof (in_combine_r _ _ _ _ Hin) as Hy. apply in_map_iff in Hy.
    destruct Hy as (t & <- & _). cbn [fst snd]. subst x.
    now rewrite length_map, length_combine, repeat_length, Nat.min_id.
Qed.

(** The embedding of the flat neighbor slot [k] in the two-sided branch:
    the mixing rule applied to the base embedding and to the pair embedding
    of the slot's neighbor type with the center type [atype[k mod natom]]. *)
Lemma two_side_embedding_row (self : descrpt) (P : params) (e : env)
    (xs te : list (list R)) (atype : list Z) (out : list (list R)) (k : nat) :
  type_one_side self = false ->
  type_embedded self P e xs te atype = Ok out ->
  length (nei_type_vec e) = (length atype * nnei self)%nat ->
  length xs = (length atype * nnei self)%nat ->
  (k < length atype * nnei self)%nat ->
  let b := nth k (nei_type_vec e) 0%Z in
  let c := nth (k mod length atype) atype 0%Z in
  (0 <= b < Z.of_nat (length te))%Z ->
  (0 <= c < Z.of_nat (length te))%Z ->
  let base := net_filter P (nth k xs []) in
  let pair := net_two_side_ebd P (nth (Z.to_nat c) te [] ++ nth (Z.to_nat b) te []) in
  nth k out []
  = vadd (vadd (vmul base pair) (vmul (embedding_compose_s P) base))
         (vmul (embedding_compose_n P) pair).
Proof.
  intros Hside Hrun Hnei Hxs Hk b c Hb Hc base pair.
  unfold type_embedded in Hrun. rewrite Hside in Hrun.
  bind_inv Hrun. rename a into two_embd, E into Hlook.
  inversion Hrun; subst out; clear Hrun.
  pose proof (mapM_ok_length _ _ _ Hlook) as Hlen.
  assert (Hidxlen : length (index_of_two_side (length te) (nnei self) (nei_type_vec e) atype)
                    = (length atype * nnei self)%nat).
  { unfold index_of_two_side. rewrite length_zip_add, length_map, length_tile. lia. }
  rewrite Hidxlen in Hlen.
  rewrite (nth_zipWith _ _ _ k [] [] []) by (rewrite ?length_map; lia).
  rewrite (nth_map_lt (net_filter P) xs k [] []) by lia.
  fold base. do 3 f_equal; try reflexivity.
  all: apply mapM_ok in Hlook.
  all: pose proof (Forall2_nth_lt _ _ _ k 0%Z [] Hlook ltac:(lia)) as Hk2.
  all: cbv beta in Hk2.
  all: rewrite index_of_two_side_nth in Hk2 by assumption.
  all: fold b c in Hk2; unfold lookup1 in Hk2.
  all: destruct (Z.ltb_spec (b * Z.of_nat (length te) + c) 0) as [Hneg|_]; [nia|].
  all: replace (Z.to_nat (b * Z.of_nat (length te) + c))
         with (Z.to_nat b * length te + Z.to_nat c)%nat in Hk2 by nia.
  all: rewrite nth_error_map, (nth_error_nth' _ [])in Hk2
         by (rewrite two_side_table_length; nia).
  all: cbn [option_map] in Hk2; inversion Hk2 as [Hv].
  all: rewrite two_side_table_entry by lia; reflexivity.
Qed.

End TwoSideRows.

(** ** Reordering the slots of every atom of a batch *)

Lemma seq_offset (s k : nat) : seq s k = map (fun i => (s + i)%nat) (seq 0 k).
Proof.
  revert s. induction k as [|k IH]; intros s; [reflexivity|].
  cbn [seq map]. f_equal; [lia|].
  rewrite (IH (S s)), <- seq_shift, map_map. apply map_ext. intros i. lia.
Qed.

Lemma zipWith_map_seq {A B C : Type} (f : A -> B -> C) (x : list A) (y : list B)
    (da : A) (db : B) (natom : nat) :
  length x = natom -> length y = natom ->
  Sem.zipWith f x y = map (fun a => f (nth a x da) (nth a y db)) (seq 0 natom).
Proof.
  intros Hx Hy.
  apply nth_ext with (d := f da db) (d' := f da db).
  - rewrite length_zipWith, length_map, length_seq. lia.
  - intros k Hk. rewrite length_zipWith in Hk.
    rewrite (nth_zipWith f x y k da db) by lia.
    now rewrite nth_map_seq by lia.
Qed.

Lemma combine_map_snd {A B C : Type} (g : B -> C) (x : list A) (y : list B) :
  combine x (map g y) = map (fun p => (fst p, g (snd p))) (combine x y).
Proof.
  revert y. induction x as [|a x IH]; intros [|b y]; simpl; try reflexivity.
  now rewrite IH.
Qed.

Section BlockPermutation.

Import Sem.

Variables (nei natom : nat) (sigmas : list (list nat)).
Hypothesis sigmas_length : length sigmas = natom.
Hypothesis sigmas_perm : Forall (fun sigma => Permutation sigma (seq 0 nei)) sigmas.

Let tau : list nat := block_slots nei natom sigmas.

Lemma sigma_at a : (a < natom)%nat -> Permutation (nth a sigmas []) (seq 0 nei).
Proof.
  intros Ha. rewrite Forall_forall in sigmas_perm. apply sigmas_perm, nth_In. lia.
Qed.

Lemma seq_blocks (n : nat) :
  seq 0 (n * nei) = concat (map (fun a => map (fun i => (a * nei + i)%nat) (seq 0 nei)) (seq 0 n)).
Proof.
  induction n as [|n IH].
  - reflexivity.
  - rewrite seq_S, map_app, concat_app. cbn [map concat]. rewrite app_nil_r, <- IH.
    replace (S n * nei)%nat with (n * nei + nei)%nat by lia.
    rewrite seq_app. f_equal. apply seq_offset.
Qed.

Lemma Permutation_concat_map {A : Type} (f g : nat -> list A) (l : list nat) :
  (forall a, In a l -> Permutation (f a) (g a)) ->
  Permutation (concat (map f l)) (concat (map g l)).
Proof.
  induction l as [|a l IH]; intros H; simpl; [constructor|].
  apply Permutation_app; [apply H; now left|apply IH; intros b Hb; apply H; now right].
Qed.

Lemma tau_perm : Permutation tau (seq 0 (natom * nei)).
Proof.
  rewrite seq_blocks. unfold tau, block_slots. apply Permutation_concat_map.
  intros a Ha. apply in_seq in Ha. apply Permutation_map, sigma_at. lia.
Qed.

Lemma permute_blocks_zipWith {A : Type} (d : A) (blocks : list (list A)) :
  permute_blocks d sigmas blocks = zipWith (permute d) sigmas blocks.
Proof. reflexivity. Qed.

(** Reordering inside the blocks is the flat reordering by [tau]. *)
Lemma concat_permute_blocks {A : Type} (d : A) (blocks : list (list A)) :
  length blocks = natom -> Forall (fun b => length b = nei) blocks ->
  concat (permute_blocks d sigmas blocks) = permute d tau (concat blocks).
Proof.
  intros Hlen Hrows.
  rewrite permute_blocks_zipWith.
  rewrite (zipWith_map_seq (permute d) sigmas blocks [] [] natom) by assumption.
  unfold permute at 2, tau, block_slots. rewrite concat_map, map_map. f_equal.
  apply map_ext_in. intros a Ha. apply in_seq in Ha.
  unfold permute. rewrite map_map. apply map_ext_in. intros i Hi.
  apply (sigma_lt nei _ (sigma_at a ltac:(lia))) in Hi.
  symmetry. now apply nth_concat_uniform.
Qed.

Lemma permute_blocks_rows {A : Type} (d : A) (blocks : list (list A)) :
  Forall (fun b => length b = nei) (permute_blocks d sigmas blocks).
Proof.
  apply Forall_forall. intros b Hb. unfold permute_blocks in Hb.
  apply in_map_iff in Hb. destruct Hb as ([sigma blk] & <- & Hin). cbn [fst snd].
  apply in_combine_l in Hin. rewrite Forall_forall in sigmas_perm.
  apply (permute_length nei sigma (sigmas_perm sigma Hin)).
Qed.

Lemma chunk_permute_blocks {A : Type} (d : A) (x : list A) :
  length x = (natom * nei)%nat ->
  chunk nei natom (permute d tau x) = permute_blocks d sigmas (chunk nei natom x).
Proof.
  intros Hx.
  rewrite <- (concat_chunk nei natom x Hx) at 1.
  rewrite <- concat_permute_blocks
    by (apply chunk_length || now apply chunk_rows).
  assert (Hl : length (permute_blocks d sigmas (chunk nei natom x)) = natom).
  { rewrite permute_blocks_zipWith, length_zipWith, chunk_length. lia. }
  rewrite <- Hl at 1. apply chunk_concat, permute_blocks_rows.
Qed.

Lemma nth_permute_blocks {A : Type} (d : A) (blocks : list (list A)) (a : nat) :
  length blocks = natom -> (a < natom)%nat ->
  nth a (permute_blocks d sigmas blocks) [] = permute d (nth a sigmas []) (nth a blocks []).
Proof using sigmas_length.
  intros Hlen Ha. rewrite permute_blocks_zipWith.
  rewrite (zipWith_map_seq (permute d) sigmas blocks [] [] natom) by assumption.
  now rewrite nth_map_seq.
Qed.

Lemma length_permute_blocks {A : Type} (d : A) (blocks : list (list A)) :
  length blocks = natom -> length (permute_blocks d sigmas blocks) = natom.
Proof using sigmas_length. intros Hlen. rewrite permute_blocks_zipWith, length_zipWith. lia. Qed.

Lemma map_permute_blocks (f : list R -> list R) (blocks : list (list (list R))) :
  Forall (fun b => length b = nei) blocks ->
  map (map f) (permute_blocks [] sigmas blocks) = permute_blocks [] sigmas (map (map f) blocks).
Proof using sigmas_perm.
  intros Hrows. unfold permute_blocks.
  rewrite combine_map_snd, !map_map. apply map_ext_in.
  intros [sigma b] Hin. cbn [fst snd].
  rewrite Forall_forall in sigmas_perm, Hrows.
  apply (permute_map_rows nei sigma (sigmas_perm sigma (in_combine_l _ _ _ _ Hin))).
  apply Hrows. exact (in_combine_r _ _ _ _ Hin).
Qed.

End BlockPermutation.

Section BatchAttention.

Import Sem.
Local Open Scope R_scope.

Variable fexp : R -> R.
Variables (self : descrpt) (P : params).
Variables (nei natom : nat) (sigmas : list (list nat)).
Hypothesis sigmas_length : length sigmas = natom.
Hypothesis sigmas_perm : Forall (fun sigma => Permutation sigma (seq 0 nei)) sigmas.
Hypothesis nei_pos : (0 < nei)%nat.

Variables (types : list Z) (ms negs : list (list R)) (rs : list (list (list R))).
Hypothesis ms_length : length ms = natom.
Hypothesis ms_rows : Forall (fun m => length m = nei) ms.
Hypothesis negs_length : length negs = natom.
Hypothesis negs_rows : Forall (fun m => length m = nei) negs.
Hypothesis rs_length : length rs = natom.

Let tau : list nat := block_slots nei natom sigmas.
Let e : env := {| nei_type_vec := types; nmask := ms; negative_mask := negs |}.
Let e' : env :=
  {| nei_type_vec := permute 0%Z tau types;
     nmask := permute_blocks 0 sigmas ms;
     negative_mask := permute_blocks 0 sigmas negs |}.
Let rs' := permute_blocks [] sigmas rs.

Lemma tau_permutation : Permutation tau (seq 0 (natom * nei)).
Proof. apply tau_perm; assumption. Qed.

Lemma scaled_dot_attn_permute (d : nat) (Q K V : list (list (list R))) (T : R)
    (dotr do_mask : bool) :
  length Q = natom -> length K = natom -> length V = natom ->
  _scaled_dot_attn fexp e' nei d (permute_blocks [] sigmas Q) (permute_blocks [] sigmas K)
    (permute_blocks [] sigmas V) T rs' dotr do_mask
  = permute_blocks [] sigmas (_scaled_dot_attn fexp e nei d Q K V T rs dotr do_mask).
Proof.
  intros HQ HK HV. unfold _scaled_dot_attn.
  rewrite (length_permute_blocks natom sigmas sigmas_length), HQ by assumption.
  apply nth_ext with (d := []) (d' := []).
  - rewrite (length_permute_blocks natom sigmas sigmas_length); now rewrite length_map, length_seq.
  - intros a Ha. rewrite length_map, length_seq in Ha.
    rewrite (nth_permute_blocks natom sigmas sigmas_length) by (rewrite ?length_map, ?length_seq; auto).
    rewrite !nth_map_seq by assumption.
    unfold e, e', rs'. cbn [nmask negative_mask].
    rewrite (nth_permute_blocks natom sigmas sigmas_length 0 ms), (nth_permute_blocks natom sigmas sigmas_length 0 negs),
      (nth_permute_blocks natom sigmas sigmas_length [] Q), (nth_permute_blocks natom sigmas sigmas_length [] K), (nth_permute_blocks natom sigmas sigmas_length [] V),
      (nth_permute_blocks natom sigmas sigmas_length [] rs) by assumption.
    rewrite Forall_forall in ms_rows, negs_rows.
    apply (attn_output_permute fexp nei _
             (sigma_at nei natom sigmas sigmas_length sigmas_perm a Ha)).
    + apply ms_rows, nth_In. lia.
    + apply negs_rows, nth_In. lia.
Qed.

Lemma scaled_dot_attn_rows (en : env) (d : nat) (Q K V : list (list (list R))) (T : R)
    (input_r : list (list (list R))) (dotr do_mask : bool) :
  length (_scaled_dot_attn fexp en nei d Q K V T input_r dotr do_mask) = length Q /\
  Forall (fun b => length b = nei)
    (_scaled_dot_attn fexp en nei d Q K V T input_r dotr do_mask).
Proof.
  unfold _scaled_dot_attn. split.
  - now rewrite length_map, length_seq.
  - apply Forall_forall. intros b Hb. apply in_map_iff in Hb.
    destruct Hb as (a & <- & _). apply matmul_length.
Qed.

Lemma attention_layer_batch_length (en : env) (W : nat) (input_r : list (list (list R)))
    (dotr do_mask : bool) (x : list (list R)) (i : nat) :
  length x = (natom * nei)%nat ->
  length (attention_layer fexp self P en nei W input_r dotr do_mask x i) = (natom * nei)%nat.
Proof.
  intros Hx. unfold attention_layer.
  rewrite length_map, length_zipWith, length_map.
  destruct (scaled_dot_attn_rows en (att_n self)
              (map (map l2_normalize) (chunk nei (length x / nei) (map (c_query P i) x)))
              (map (map l2_normalize) (chunk nei (length x / nei) (map (c_key P i) x)))
              (map (map l2_normalize) (chunk nei (length x / nei) (map (c_value P i) x)))
              (sqrt 1) input_r dotr do_mask) as [Hlen Hrows].
  rewrite (length_concat_uniform nei _ Hrows), Hlen, length_map, chunk_length.
  rewrite Hx, Nat.div_mul by lia. lia.
Qed.

Lemma permute_flat_rows (f : list R -> list R) (X : list (list R)) :
  length X = (natom * nei)%nat -> map f (permute [] tau X) = permute [] tau (map f X).
Proof. apply (permute_map_rows (natom * nei) tau tau_permutation). Qed.

Lemma attention_layer_batch_permute (W : nat) (dotr do_mask : bool) (x : list (list R))
    (i : nat) :
  length x = (natom * nei)%nat ->
  attention_layer fexp self P e' nei W rs' dotr do_mask (permute [] tau x) i
  = permute [] tau (attention_layer fexp self P e nei W rs dotr do_mask x i).
Proof.
  intros Hx. unfold attention_layer.
  rewrite (permute_length (natom * nei) tau tau_permutation), Hx, Nat.div_mul by lia.
  rewrite !(permute_flat_rows _ x) by assumption.
  unfold tau.
  rewrite !(chunk_permute_blocks nei natom sigmas sigmas_length sigmas_perm)
    by (now rewrite length_map).
  rewrite !(map_permute_blocks nei sigmas sigmas_perm l2_normalize)
    by (apply chunk_rows; now rewrite length_map).
  rewrite scaled_dot_attn_permute by (now rewrite length_map, chunk_length).
  idtac.
  match goal with
  | |- context [concat (permute_blocks [] sigmas ?outs)] =>
      destruct (scaled_dot_attn_rows e (att_n self)
                  (map (map l2_normalize) (chunk nei natom (map (c_query P i) x)))
                  (map (map l2_normalize) (chunk nei natom (map (c_key P i) x)))
                  (map (map l2_normalize) (chunk nei natom (map (c_value P i) x)))
                  (sqrt 1) rs dotr do_mask) as [Hlen Hrows];
      rewrite length_map, chunk_length in Hlen;
      rewrite (concat_permute_blocks nei natom sigmas sigmas_length sigmas_perm [] outs
                 Hlen Hrows);
      assert (Hcat : length (concat outs) = (natom * nei)%nat)
        by (rewrite (length_concat_uniform nei _ Hrows), Hlen; reflexivity)
  end.
  fold tau.
  rewrite (permute_flat_rows (c_out P i)) by assumption.
  rewrite <- (permute_zipWith (natom * nei) tau tau_permutation vadd [] [] [])
    by (rewrite ?length_map; lia).
  rewrite (permute_flat_rows (layer_normalization P i))
    by (rewrite length_zipWith, length_map; lia).
  reflexivity.
Qed.

Lemma attention_layers_batch_permute (L W : nat) (dotr do_mask : bool) (x : list (list R)) :
  length x = (natom * nei)%nat ->
  length (_attention_layers fexp self P e x L (nei * 4) W rs dotr do_mask)
  = (natom * nei)%nat /\
  _attention_layers fexp self P e' (permute [] tau x) L (nei * 4) W rs' dotr do_mask
  = permute [] tau (_attention_layers fexp self P e x L (nei * 4) W rs dotr do_mask).
Proof.
  unfold _attention_layers. rewrite Nat.div_mul by lia.
  generalize (seq 0 L). intros layers. revert x.
  induction layers as [|i layers IH]; intros x Hx; simpl.
  - split; [assumption|reflexivity].
  - rewrite attention_layer_batch_permute by assumption.
    apply IH. now apply attention_layer_batch_length.
Qed.

End BatchAttention.

Section OneSideEmbedding.

Import Sem.
Local Open Scope R_scope.

Variables (self : descrpt) (P : params).
Variables (N : nat) (tau : list nat).
Hypothesis tau_perm : Permutation tau (seq 0 N).
Variables (e e' : env).
Hypothesis types_length : length (nei_type_vec e) = N.
Hypothesis types_permuted : nei_type_vec e' = permute 0%Z tau (nei_type_vec e).
Hypothesis one_side : type_one_side self = true.

(** In the one-sided branch the embedding before attention is reordered
    like the slots, whatever the center types are. *)
Lemma type_embedded_one_side_permute (xs te : list (list R)) (atype atype' : list Z) :
  length xs = N ->
  type_embedded self P e' (permute [] tau xs) te atype'
  = match type_embedded self P e xs te atype with
    | Ok y => Ok (permute [] tau y)
    | Raise err => Raise err
    end /\
  forall y, type_embedded self P e xs te atype = Ok y -> length y = N.
Proof.
  intros Hxs. unfold type_embedded.
  rewrite (permute_map_rows N tau tau_perm (net_filter P)) by assumption.
  rewrite one_side, types_permuted.
  rewrite (lookup_permute N tau tau_perm _ (nei_type_vec e) []) by assumption.
  destruct (embedding_lookup _ (nei_type_vec e)) as [rows|err] eqn:Hl; cbn [rbind].
  - apply embedding_lookup_length in Hl. split.
    + rewrite <- (permute_zipWith N tau tau_perm vadd [] [] [])
        by (rewrite ?length_map; lia).
      reflexivity.
    + intros y Hy. inversion Hy; subst. rewrite length_zipWith, length_map. lia.
  - split; [reflexivity|discriminate].
Qed.

End OneSideEmbedding.

Lemma concat_map_concat {A : Type} (l : list (list (list A))) :
  concat (map (@concat A) l) = concat (concat l).
Proof.
  induction l as [|x l IH]; simpl; [reflexivity|]. now rewrite concat_app, IH.
Qed.

Section BatchFilter.

Import Sem.
Local Open Scope R_scope.

Variable fexp : R -> R.
Variables (self : descrpt) (P : params).
Variables (nei natom : nat).
Hypothesis nei_pos : (0 < nei)%nat.

(** [_filter_lower]'s attended embedding on a batch given atom by atom. *)
Lemma attended_batch (e : env) (featss : list (list (list R)))
    (te : option (list (list R))) (atype : option (list Z)) :
  length featss = natom ->
  Forall (fun b => length b = nei) featss ->
  Forall (Forall (fun row => length row = 4%nat)) featss ->
  attended fexp self P e 0 nei (map (@concat R) featss) te atype
  = match atype with
    | None => Raise (AssertionError "atype must exist!!")
    | Some a =>
        match te with
        | None => Raise InvalidArgumentError
        | Some t =>
            if compress self
            then Raise (RuntimeError
                          "compression of attention descriptor is not supported at the moment")
            else
              match type_embedded self P e (map (firstn 1) (concat featss)) t a with
              | Raise err => Raise err
              | Ok xs =>
                  let att :=
                    _attention_layers fexp self P e xs (attn_layer self) (nei * 4)
                      (outputs_size_last self)
                      (map (map l2_normalize)
                         (map (map (fun row => firstn 3 (skipn 1 row))) featss))
                      (attn_dotr self) (attn_mask self) in
                  Ok (featss, chunk nei (length att / nei) att)
              end
        end
    end.
Proof.
  intros Hlen Hblocks Hrows. unfold attended.
  assert (Hflat : Forall (fun row => length row = 4%nat) (concat featss))
    by now apply Forall_concat.
  assert (Hcount : length (concat featss) = (natom * nei)%nat)
    by (rewrite (length_concat_uniform nei featss Hblocks); now rewrite Hlen).
  assert (Hwide : Forall (fun row => (0 * 4 + nei * 4 <= length row)%nat)
                    (map (@concat R) featss)).
  { apply Forall_forall. intros row Hin. apply in_map_iff in Hin.
    destruct Hin as (b & <- & Hb). rewrite Forall_forall in Hblocks, Hrows.
    rewrite (length_concat_uniform 4 b (Hrows b Hb)), (Hblocks b Hb). lia. }
  rewrite (slice_rows_ok nei nei_pos (0 * 4) (nei * 4) _ Hwide). cbn [rbind].
  assert (Hid : map (fun row => firstn (nei * 4) (skipn (0 * 4) row)) (map (@concat R) featss)
                = map (@concat R) featss).
  { rewrite map_map. apply map_ext_in. intros b Hb. simpl skipn.
    rewrite Forall_forall in Hblocks, Hrows.
    rewrite firstn_all2; [reflexivity|].
    rewrite (length_concat_uniform 4 b (Hrows b Hb)), (Hblocks b Hb). lia. }
  rewrite Hid, concat_map_concat.
  rewrite (reshape2_infer_ok 4 (natom * nei))
    by (lia || (rewrite (length_concat_uniform 4 _ Hflat); lia)).
  cbn [rbind].
  assert (Hch : chunk 4 (natom * nei) (concat (concat featss)) = concat featss).
  { rewrite <- Hcount. apply chunk_concat, Hflat. }
  rewrite !Hch.
  rewrite (slice_rows_ok nei nei_pos 0 1 (concat featss))
    by (eapply Forall_impl; [|exact Hflat]; intros row Hrow; cbv beta in *; lia).
  cbn [rbind skipn].
  destruct atype as [a|]; cbn [rbind]; [|reflexivity].
  destruct te as [t|]; cbn [rbind]; [|reflexivity].
  destruct (compress self); [reflexivity|].
  destruct (type_embedded self P e (map (firstn 1) (concat featss)) t a) as [xs|err];
    cbn [rbind]; [|reflexivity].
  rewrite (slice_rows_ok nei nei_pos 1 3 (concat featss))
    by (eapply Forall_impl; [|exact Hflat]; intros row Hrow; cbv beta in *; lia).
  cbn [rbind]. rewrite Nat.div_mul by lia.
  rewrite !length_map, Hcount, Nat.div_mul by lia.
  assert (Hr : chunk nei natom (map (fun row => firstn 3 (skipn 1 row)) (concat featss))
               = map (map (fun row => firstn 3 (skipn 1 row))) featss).
  { rewrite concat_map, <- Hlen, <- (length_map (map (fun row => firstn 3 (skipn 1 row)))).
    apply chunk_concat. apply Forall_forall. intros b Hb. apply in_map_iff in Hb.
    destruct Hb as (b0 & <- & Hb0). rewrite length_map.
    rewrite Forall_forall in Hblocks. now apply Hblocks. }
  rewrite Hr.
  assert (Hf : chunk nei natom (concat featss) = featss).
  { rewrite <- Hlen. now apply chunk_concat. }
  rewrite ?Hlen, Hf. reflexivity.
Qed.

End BatchFilter.

Section BatchDescriptor.

Import Sem.
Local Open Scope R_scope.

Variables (nei natom : nat) (sigmas : list (list nat)).
Hypothesis sigmas_length : length sigmas = natom.
Hypothesis sigmas_perm : Forall (fun sigma => Permutation sigma (seq 0 nei)) sigmas.

Lemma zipWith_contraction_blocks (W : nat) (Rs Es : list (list (list R))) :
  length Rs = natom -> length Es = natom ->
  zipWith (matmul true false 4 nei W) (permute_blocks [] sigmas Rs)
    (permute_blocks [] sigmas Es)
  = zipWith (matmul true false 4 nei W) Rs Es.
Proof.
  intros HR HE.
  rewrite (zipWith_map_seq _ _ _ [] [] natom)
    by (apply (length_permute_blocks natom sigmas sigmas_length); assumption).
  rewrite (zipWith_map_seq _ Rs Es [] [] natom) by assumption.
  apply map_ext_in. intros a Ha. apply in_seq in Ha.
  rewrite !(nth_permute_blocks natom sigmas sigmas_length) by (assumption || lia).
  apply (contraction_permute nei _ (sigma_at nei natom sigmas sigmas_length sigmas_perm a
                                       ltac:(lia))).
Qed.

Lemma permute_blocks_inner {A : Type} (Pr : A -> Prop) (d : A) (blocks : list (list A)) :
  Forall (fun b => length b = nei) blocks ->
  Forall (Forall Pr) blocks ->
  Forall (Forall Pr) (permute_blocks d sigmas blocks).
Proof.
  intros Hlen Hin. apply Forall_forall. intros b Hb. unfold permute_blocks in Hb.
  apply in_map_iff in Hb. destruct Hb as ([sigma blk] & <- & Hc). cbn [fst snd].
  rewrite Forall_forall in sigmas_perm, Hlen, Hin.
  apply (permute_Forall nei sigma (sigmas_perm sigma (in_combine_l _ _ _ _ Hc))).
  - apply Hlen. exact (in_combine_r _ _ _ _ Hc).
  - apply Hin. exact (in_combine_r _ _ _ _ Hc).
Qed.

End BatchDescriptor.

(** In the one-sided branch of the type embedding, reordering the neighbor
    slots of every atom of a batch on its own, with their features, types
    and validity flags, does not change what [_filter] returns: with any
    number of atoms and of attention layers, with or without the gate and
    the diagonal mask. *)
Theorem one_side_permutation_invariant :
  forall (fexp : R -> R) (self : Sem.descrpt) (P : Sem.params) (nei : nat)
         (sigmas : list (list nat)) (featss : list (list (list R)))
         (typess : list (list Z)) (ms negs : list (list R))
         (te : option (list (list R))) (atype : option (list Z)),
    Sem.type_one_side self = true ->
    (0 < nei)%nat ->
    Sem.cumsum_last (Sem.sel_a self) = Ok nei ->
    length sigmas = length featss ->
    Forall (fun sigma => Permutation sigma (seq 0 nei)) sigmas ->
    Forall (fun b => length b = nei) featss ->
    Forall (Forall (fun row => length row = 4%nat)) featss ->
    length typess = length featss -> Forall (fun b => length b = nei) typess ->
    length ms = length featss -> Forall (fun b => length b = nei) ms ->
    length negs = length featss -> Forall (fun b => length b = nei) negs ->
    Sem._filter fexp self P
      {| Sem.nei_type_vec := concat (permute_blocks 0%Z sigmas typess);
         Sem.nmask := permute_blocks 0%R sigmas ms;
         Sem.negative_mask := permute_blocks 0%R sigmas negs |}
      (map (@concat R) (permute_blocks [] sigmas featss)) te atype
    = Sem._filter fexp self P
        {| Sem.nei_type_vec := concat typess; Sem.nmask := ms; Sem.negative_mask := negs |}
        (map (@concat R) featss) te atype.
Proof.
  intros fexp self P nei sigmas featss typess ms negs te atype Hside Hpos Hsel Hsig Hperm
         Hblocks Hrows Htn Htr Hmn Hmr Hnn Hnr.
  set (natom := length featss) in *.
  set (tau := block_slots nei natom sigmas).
  assert (Htau : Permutation tau (seq 0 (natom * nei))) by now apply tau_perm.
  unfold Sem._filter. rewrite Hsel. cbn [rbind].
  rewrite (concat_permute_blocks nei natom sigmas Hsig Hperm 0%Z typess Htn Htr).
  fold tau.
  set (e := {| Sem.nei_type_vec := concat typess; Sem.nmask := ms;
               Sem.negative_mask := negs |}).
  set (e' := {| Sem.nei_type_vec := permute 0%Z tau (concat typess);
                Sem.nmask := permute_blocks 0%R sigmas ms;
                Sem.negative_mask := permute_blocks 0%R sigmas negs |}).
  assert (Hlow :
    Sem._filter_lower fexp self P e' 0 nei (map (@concat R) (permute_blocks [] sigmas featss))
      te atype
    = Sem._filter_lower fexp self P e 0 nei (map (@concat R) featss) te atype).
  2:{ now rewrite Hlow. }
  unfold Sem._filter_lower.
  rewrite (attended_batch fexp self P nei natom Hpos e' (permute_blocks [] sigmas featss))
    by (first [ now apply (length_permute_blocks natom sigmas Hsig)
              | now apply (permute_blocks_rows nei sigmas Hperm)
              | now apply (permute_blocks_inner nei sigmas Hperm) ]).
  rewrite (attended_batch fexp self P nei natom Hpos e featss) by (assumption || reflexivity).
  destruct atype as [a|]; [|reflexivity].
  destruct te as [t|]; [|reflexivity].
  destruct (Sem.compress self); [reflexivity|].
  assert (Hcount : length (concat featss) = (natom * nei)%nat)
    by (now rewrite (length_concat_uniform nei featss Hblocks)).
  rewrite (concat_permute_blocks nei natom sigmas Hsig Hperm [] featss eq_refl Hblocks).
  fold tau.
  rewrite (permute_map_rows (natom * nei) tau Htau (firstn 1)) by assumption.
  assert (Htypes : length (concat typess) = (natom * nei)%nat)
    by (rewrite (length_concat_uniform nei typess Htr); now rewrite Htn).
  destruct (type_embedded_one_side_permute self P (natom * nei) tau Htau e e' Htypes eq_refl
              Hside (map (firstn 1) (concat featss)) t a a) as [Hte Hylen];
    [now rewrite length_map|].
  rewrite Hte.
  destruct (Sem.type_embedded self P e (map (firstn 1) (concat featss)) t a) as [xs|err];
    [|reflexivity].
  specialize (Hylen xs eq_refl).
  rewrite (map_permute_blocks nei sigmas Hperm (fun row => firstn 3 (skipn 1 row)))
    by assumption.
  rewrite (map_permute_blocks nei sigmas Hperm Sem.l2_normalize).
  2:{ apply Forall_forall. intros b Hb. apply in_map_iff in Hb.
      destruct Hb as (b0 & <- & Hb0). rewrite length_map.
      rewrite Forall_forall in Hblocks. now apply Hblocks. }
  destruct (attention_layers_batch_permute fexp self P nei natom sigmas Hsig Hperm Hpos
              (concat typess) ms negs
              (map (map Sem.l2_normalize)
                 (map (map (fun row => firstn 3 (skipn 1 row))) featss))
              Hmn Hmr Hnn Hnr ltac:(now rewrite !length_map)
              (Sem.attn_layer self) (Sem.outputs_size_last self)
              (Sem.attn_dotr self) (Sem.attn_mask self) xs Hylen) as [Hattlen Hatt].
  fold tau e e' in Hatt. fold e in Hattlen.
  rewrite Hatt. cbv zeta. cbn [rbind fst snd].
  rewrite (permute_length (natom * nei) tau Htau), Hattlen, !Nat.div_mul by lia.
  unfold tau.
  rewrite (chunk_permute_blocks nei natom sigmas Hsig Hperm) by assumption.
  now rewrite (zipWith_contraction_blocks nei natom sigmas Hsig Hperm)
    by (reflexivity || apply chunk_length).
Qed.

Lemma one_side_permutation_invariant_witness :
  Sem._filter exp (AttentionExamples.descrpt_attention true) Examples.params_example
    {| Sem.nei_type_vec := concat (permute_blocks 0%Z [[1; 0]; [0; 1]]%nat [[0; 1]; [1; 0]]%Z);
       Sem.nmask := permute_blocks 0%R [[1; 0]; [0; 1]]%nat [[1; 1]; [1; 0]]%R;
       Sem.negative_mask :=
         permute_blocks 0%R [[1; 0]; [0; 1]]%nat [[0; 0]; [0; - IZR (2 ^ 33)]]%R |}
    (map (@concat R)
       (permute_blocks [] [[1; 0]; [0; 1]]%nat
          [[[1; 1; 0; 0]; [2; 0; 2; 0]]; [[1; 1; 0; 0]; [0; 0; 0; 0]]]%R))
    (Some Examples.type_embedding_example) (Some [0; 1]%Z)
  = Sem._filter exp (AttentionExamples.descrpt_attention true) Examples.params_example
      {| Sem.nei_type_vec := concat [[0; 1]; [1; 0]]%Z;
         Sem.nmask := [[1; 1]; [1; 0]]%R;
         Sem.negative_mask := [[0; 0]; [0; - IZR (2 ^ 33)]]%R |}
      (map (@concat R) [[[1; 1; 0; 0]; [2; 0; 2; 0]]; [[1; 1; 0; 0]; [0; 0; 0; 0]]]%R)
      (Some Examples.type_embedding_example) (Some [0; 1]%Z).
Proof.
  apply (one_side_permutation_invariant exp (AttentionExamples.descrpt_attention true)
           Examples.params_example 2 [[1; 0]; [0; 1]]%nat
           [[[1; 1; 0; 0]; [2; 0; 2; 0]]; [[1; 1; 0; 0]; [0; 0; 0; 0]]]%R
           [[0; 1]; [1; 0]]%Z [[1; 1]; [1; 0]]%R [[0; 0]; [0; - IZR (2 ^ 33)]]%R
           (Some Examples.type_embedding_example) (Some [0; 1]%Z) eq_refl (Nat.lt_0_succ 1)
           eq_refl eq_refl).
  - constructor; [apply perm_swap|]. constructor; [apply Permutation_refl|constructor].
  - repeat constructor.
  - repeat constructor.
  - reflexivity.
  - repeat constructor.
  - reflexivity.
  - repeat constructor.
  - reflexivity.
  - repeat constructor.
Defined.

Lemma single_atom_permutation_invariant_witness :
  Sem._filter exp (AttentionExamples.descrpt_attention false) Examples.params_example
    {| Sem.nei_type_vec := permute 0%Z [1; 0]%nat [0; 1]%Z;
       Sem.nmask := [permute 0%R [1; 0]%nat [1; 1]%R];
       Sem.negative_mask := [permute 0%R [1; 0]%nat [0; 0]%R] |}
    [concat (permute [] [1; 0]%nat [[1; 1; 0; 0]; [2; 0; 2; 0]]%R)]
    (Some Examples.type_embedding_example) (Some [1%Z])
  = Sem._filter exp (AttentionExamples.descrpt_attention false) Examples.params_example
      {| Sem.nei_type_vec := [0; 1]%Z; Sem.nmask := [[1; 1]%R];
         Sem.negative_mask := [[0; 0]%R] |}
      [concat [[1; 1; 0; 0]; [2; 0; 2; 0]]%R]
      (Some Examples.type_embedding_example) (Some [1%Z]).
Proof.
  apply (single_atom_permutation_invariant exp (AttentionExamples.descrpt_attention false)
           Examples.params_example 2 [1; 0]%nat [[1; 1; 0; 0]; [2; 0; 2; 0]]%R [0; 1]%Z
           [1; 1]%R [0; 0]%R (Some Examples.type_embedding_example) 1%Z).
  - apply perm_swap.
  - reflexivity.
  - reflexivity.
  - reflexivity.
  - repeat constructor.
  - reflexivity.
  - reflexivity.
  - reflexivity.
Defined.


(** ** The statistics pass *)

Section NumpyFacts.

Context {A : Type}.

Lemma chunk_app (k a b : nat) (l1 l2 : list A) :
  length l1 = (a * k)%nat -> chunk k (a + b) (l1 ++ l2) = chunk k a l1 ++ chunk k b l2.
Proof.
  revert l1. induction a as [|a IH]; intros l1 Hl.
  - destruct l1; [reflexivity|discriminate].
  - cbn [Nat.add chunk app].
    assert (Hk : (k <= length l1)%nat) by lia.
    rewrite firstn_app, skipn_app.
    replace (k - length l1)%nat with 0%nat by lia.
    cbn [firstn skipn]. rewrite app_nil_r. f_equal.
    apply IH. rewrite length_skipn. lia.
Qed.

Lemma reshape_rows_ok (k r : nat) (l : list A) :
  (0 < k)%nat -> length l = (r * k)%nat -> Py.reshape_rows k l = Py.Done (chunk k r l).
Proof.
  intros Hk Hl. unfold Py.reshape_rows. destruct k as [|k]; [lia|].
  rewrite Hl, Nat.Div0.mod_mul, Nat.div_mul by lia. reflexivity.
Qed.

Lemma reshape_rows_done (k : nat) (l : list A) (X : list (list A)) :
  Py.reshape_rows k l = Py.Done X ->
  (0 < k)%nat /\ length l = (length l / k * k)%nat /\ X = chunk k (length l / k) l.
Proof.
  unfold Py.reshape_rows. destruct k as [|k]; [discriminate|].
  destruct (Nat.eqb_spec (length l mod S k) 0) as [Hm|Hm]; [|discriminate].
  intros H. inversion H; subst. split; [lia|]. split; [|reflexivity].
  pose proof (Nat.div_mod_eq (length l) (S k)). lia.
Qed.

Lemma reshape_rows_zero (l : list A) : Py.reshape_rows 0 l = Py.Raised Py.ValueError.
Proof. reflexivity. Qed.

Lemma columns_app (start stop : nat) (a b : list (list A)) :
  Py.columns start stop (a ++ b) = Py.columns start stop a ++ Py.columns start stop b.
Proof. apply map_app. Qed.

Lemma getitem_lt (l : list A) (i : nat) (d : A) :
  (i < length l)%nat -> Py.getitem l i = Py.Done (nth i l d).
Proof.
  intros Hi. unfold Py.getitem. now rewrite (nth_error_nth' l d Hi).
Qed.

Lemma getitem_ge (l : list A) (i : nat) :
  (length l <= i)%nat -> Py.getitem l i = Py.Raised Py.IndexError.
Proof.
  intros Hi. unfold Py.getitem. now rewrite (proj2 (nth_error_None l i) Hi).
Qed.

Lemma length_setitem (l : list A) (i : nat) (v : A) : length (Py.setitem l i v) = length l.
Proof.
  revert i. induction l as [|x l IH]; intros [|i]; simpl; try reflexivity. now rewrite IH.
Qed.

Lemma nth_setitem (l : list A) (i j : nat) (v d : A) :
  (i < length l)%nat ->
  nth j (Py.setitem l i v) d = if (j =? i)%nat then v else nth j l d.
Proof.
  revert i j. induction l as [|x l IH]; intros i j Hi; [simpl in Hi; lia|].
  destruct i as [|i], j as [|j]; simpl; try reflexivity.
  apply IH. simpl in Hi. lia.
Qed.

End NumpyFacts.

Section SumFacts.

Import Sem.
Local Open Scope R_scope.

Lemma reduce_sum_app (x y : list R) : reduce_sum (x ++ y) = reduce_sum x + reduce_sum y.
Proof.
  unfold reduce_sum. induction x as [|a x IH]; simpl; [lra|]. rewrite IH. lra.
Qed.

Lemma np_sum_app (a b : list (list R)) : Stats.np_sum (a ++ b) = Stats.np_sum a + Stats.np_sum b.
Proof. unfold Stats.np_sum. now rewrite concat_app, reduce_sum_app. Qed.

Lemma np_square_app (a b : list (list R)) :
  Stats.np_square (a ++ b) = Stats.np_square a ++ Stats.np_square b.
Proof. apply map_app. Qed.

(** The square of a sum is at most the number of terms times the sum of
    the squares. *)
Lemma sum_square_le (x : list R) :
  reduce_sum x * reduce_sum x <= INR (length x) * reduce_sum (map (fun v => v * v) x).
Proof.
  induction x as [|a x IH].
  - simpl. lra.
  - cbn [map length]. rewrite S_INR.
    change (reduce_sum (a :: x)) with (a + reduce_sum x).
    change (reduce_sum (a * a :: map (fun v => v * v) x))
      with (a * a + reduce_sum (map (fun v => v * v) x)).
    set (s := reduce_sum x) in *. set (q := reduce_sum (map (fun v => v * v) x)) in *.
    set (n := INR (length x)) in *.
    assert (Hn : 0 <= n) by apply pos_INR.
    assert (Hq : 0 <= q) by apply reduce_sum_sq_nonneg.
    destruct (Req_dec n 0) as [Hz|Hz].
    + assert (Hx : x = []).
      { destruct x; [reflexivity|]. unfold n in Hz. cbn [length] in Hz.
        rewrite S_INR in Hz. pose proof (pos_INR (length x)). lra. }
      subst x. unfold s, q, n. simpl. lra.
    + assert (Hpos : 0 < n) by lra.
      assert (Hcross : 2 * a * s <= q + n * (a * a)).
      { assert (H1 : 0 <= (s - n * a) * (s - n * a)) by apply Rle_0_sqr.
        assert (H2 : 2 * n * a * s <= n * q + n * n * (a * a)) by nra.
        assert (H3 : n * (2 * a * s) <= n * (q + n * (a * a))) by nra.
        apply (Rmult_le_reg_l n); assumption. }
      nra.
Qed.

End SumFacts.

Section BlockStats.

Import Sem.
Local Open Scope R_scope.

Lemma firstn_one_map {A B : Type} (f : A -> B) (l : list A) :
  firstn 1 (map f l) = map f (firstn 1 l).
Proof. destruct l; reflexivity. Qed.

Lemma skipn_one_map {A B : Type} (f : A -> B) (l : list A) :
  skipn 1 (map f l) = map f (skipn 1 l).
Proof. destruct l; reflexivity. Qed.

(** A block that passes both reshapes has the statistics of its flat
    data. *)
Lemma block_stats_done (nd : nat) (dd : list (list R)) (s : Stats.type_stats) :
  Stats.block_stats nd dd = Py.Done s ->
  (0 < nd)%nat /\
  length (concat dd) = (length (concat dd) / nd * nd)%nat /\
  length (concat dd) = (length (concat dd) / 4 * 4)%nat /\
  s = Stats.flat_stats (concat dd).
Proof.
  unfold Stats.block_stats. intros H.
  destruct (Py.reshape_rows nd (concat dd)) as [X|e] eqn:HX; [|discriminate].
  apply reshape_rows_done in HX. destruct HX as (Hnd & Hlen & ->).
  cbn [Py.bind] in H. rewrite (concat_chunk nd _ _ Hlen) in H.
  destruct (Py.reshape_rows 4 (concat dd)) as [Y|e] eqn:HY; [|discriminate].
  apply reshape_rows_done in HY. destruct HY as (_ & Hlen4 & ->).
  cbn [Py.bind] in H. inversion H; subst. repeat (split; [assumption|]).
  reflexivity.
Qed.

Lemma block_stats_ok (nd a b : nat) (dd : list (list R)) :
  (0 < nd)%nat -> length (concat dd) = (a * nd)%nat -> length (concat dd) = (b * 4)%nat ->
  Stats.block_stats nd dd = Py.Done (Stats.flat_stats (concat dd)).
Proof.
  intros Hnd Ha Hb. unfold Stats.block_stats.
  rewrite (reshape_rows_ok nd a _ Hnd Ha). cbn [Py.bind].
  rewrite (concat_chunk nd a _ Ha).
  rewrite (reshape_rows_ok 4 b _ ltac:(lia) Hb). cbn [Py.bind].
  unfold Stats.flat_stats. rewrite Hb, Nat.div_mul by lia. reflexivity.
Qed.

(** The entrywise sum of the numbers of two blocks. *)
Lemma flat_stats_app (x y : list R) :
  length x = (length x / 4 * 4)%nat -> length y = (length y / 4 * 4)%nat ->
  let s := Stats.flat_stats (x ++ y) in
  let sx := Stats.flat_stats x in
  let sy := Stats.flat_stats y in
  Stats.sumr s = Stats.sumr sx + Stats.sumr sy /\
  Stats.suma s = Stats.suma sx + Stats.suma sy /\
  Stats.sumn s = (Stats.sumn sx + Stats.sumn sy)%nat /\
  Stats.sumr2 s = Stats.sumr2 sx + Stats.sumr2 sy /\
  Stats.suma2 s = Stats.suma2 sx + Stats.suma2 sy.
Proof.
  intros Hx Hy. cbv zeta. unfold Stats.flat_stats.
  cbn [Stats.sumr Stats.suma Stats.sumn Stats.sumr2 Stats.suma2].
  assert (Hdiv : (length (x ++ y) / 4 = length x / 4 + length y / 4)%nat).
  { rewrite length_app. rewrite Hx, Hy at 1. rewrite <- Nat.mul_add_distr_r.
    now rewrite Nat.div_mul by lia. }
  rewrite Hdiv, (chunk_app 4 _ _ x y Hx).
  rewrite !map_app, !np_square_app, !np_sum_app, length_app.
  repeat split; try reflexivity; lra.
Qed.

End BlockStats.

Section StatsAdditive.

Import Sem.
Local Open Scope R_scope.

(** Two intermediate results with lists of the same lengths. *)
Let same_shape (a b : Stats.sys_stats) : Prop :=
  length (Stats.sysr a) = length (Stats.sysr b) /\
  length (Stats.sysr2 a) = length (Stats.sysr2 b) /\
  length (Stats.sysa a) = length (Stats.sysa b) /\
  length (Stats.sysa2 a) = length (Stats.sysa2 b) /\
  length (Stats.sysn a) = length (Stats.sysn b).

Lemma combine_snoc {A B : Type} (x : list A) (y : list B) (a : A) (b : B) :
  length x = length y -> combine (x ++ [a]) (y ++ [b]) = combine x y ++ [(a, b)].
Proof.
  revert y. induction x as [|u x IH]; intros [|v y] Hlen; try discriminate.
  - reflexivity.
  - simpl. rewrite IH; [reflexivity|]. simpl in Hlen. lia.
Qed.

Lemma zipWith_snoc {A B C : Type} (f : A -> B -> C) (x : list A) (y : list B) (a : A) (b : B) :
  length x = length y ->
  zipWith f (x ++ [a]) (y ++ [b]) = zipWith f x y ++ [f a b].
Proof.
  intros Hlen. unfold zipWith. rewrite combine_snoc by assumption.
  now rewrite map_app.
Qed.

Lemma type_loop_append_app (nd : nat) (natoms : list nat) (D1 D2 : list (list R))
    (types : list nat) :
  forall (start : nat) (acc1 acc2 r1 r2 : Stats.sys_stats),
    same_shape acc1 acc2 ->
    Stats.type_loop nd natoms D1 Stats.append_stats types start acc1 = Py.Done r1 ->
    Stats.type_loop nd natoms D2 Stats.append_stats types start acc2 = Py.Done r2 ->
    Stats.type_loop nd natoms (D1 ++ D2) Stats.append_stats types start
      (Stats.add_sys acc1 acc2)
    = Py.Done (Stats.add_sys r1 r2).
Proof.
  induction types as [|t types IH]; intros start acc1 acc2 r1 r2 Hshape H1 H2.
  - simpl in *. inversion H1; inversion H2; subst. reflexivity.
  - cbn [Stats.type_loop] in *.
    destruct (Py.getitem natoms (2 + t)) as [n|e]; [|discriminate].
    cbn [Py.bind] in *.
    destruct (Stats.block_stats nd (Py.columns start (start + nd * n) D1)) as [s1|e] eqn:Hs1;
      [|discriminate].
    destruct (Stats.block_stats nd (Py.columns start (start + nd * n) D2)) as [s2|e] eqn:Hs2;
      [|discriminate].
    cbn [Py.bind] in *.
    apply block_stats_done in Hs1. destruct Hs1 as (Hnd & Hxd & Hx & ->).
    apply block_stats_done in Hs2. destruct Hs2 as (_ & Hyd & Hy & ->).
    set (x := concat (Py.columns start (start + nd * n) D1)) in *.
    set (y := concat (Py.columns start (start + nd * n) D2)) in *.
    assert (Hxy : concat (Py.columns start (start + nd * n) (D1 ++ D2)) = x ++ y)
      by (now rewrite columns_app, concat_app).
    rewrite (block_stats_ok nd (length x / nd + length y / nd) (length x / 4 + length y / 4))
      by (rewrite ?Hxy, ?length_app; lia).
    cbn [Py.bind]. rewrite Hxy.
    destruct (flat_stats_app x y Hx Hy) as (Er & Ea & En & Er2 & Ea2).
    destruct Hshape as (L1 & L2 & L3 & L4 & L5).
    assert (Hstep :
      Stats.append_stats (Stats.add_sys acc1 acc2) t (Stats.flat_stats (x ++ y))
      = Stats.add_sys (Stats.append_stats acc1 t (Stats.flat_stats x))
                      (Stats.append_stats acc2 t (Stats.flat_stats y))).
    { unfold Stats.append_stats, Stats.add_sys.
      cbn [Stats.sysr Stats.sysr2 Stats.sysa Stats.sysa2 Stats.sysn].
      rewrite !zipWith_snoc by assumption.
      now rewrite Er, Ea, En, Er2, Ea2. }
    rewrite Hstep. apply IH; [|assumption|assumption].
    unfold same_shape, Stats.append_stats.
    cbn [Stats.sysr Stats.sysr2 Stats.sysa Stats.sysa2 Stats.sysn].
    rewrite !length_app. cbn [length]. lia.
Qed.



End StatsAdditive.

Section BigSumBlocks.

Import Sem.
Local Open Scope R_scope.

Lemma big_sum_add (a b : nat) (G : nat -> R) :
  big_sum (a + b) G = big_sum a G + big_sum b (fun j => G (a + j)%nat).
Proof.
  induction b as [|b IH].
  - rewrite Nat.add_0_r. unfold big_sum at 3. simpl. lra.
  - rewrite Nat.add_succ_r, !big_sum_S, IH. lra.
Qed.

Lemma big_sum_blocks (F w : nat) (G : nat -> R) :
  big_sum (F * w) G = big_sum F (fun f => big_sum w (fun j => G (f * w + j)%nat)).
Proof.
  induction F as [|F IH].
  - reflexivity.
  - rewrite big_sum_S, <- IH.
    replace (S F * w)%nat with (F * w + w)%nat by lia.
    apply big_sum_add.
Qed.

Lemma np_sum_cons (x : list R) (a : list (list R)) :
  Stats.np_sum (x :: a) = reduce_sum x + Stats.np_sum a.
Proof. unfold Stats.np_sum. cbn [concat]. apply reduce_sum_app. Qed.

(** The sums over the first column and over the three others of an array
    of rows of four, from its flat data. *)
Lemma quads_head_sum (m : nat) :
  forall L : list R,
    length L = (4 * m)%nat ->
    Stats.np_sum (map (firstn 1) (chunk 4 m L)) = big_sum m (fun j => nth (4 * j) L 0).
Proof.
  induction m as [|m IH]; intros L HL.
  - reflexivity.
  - destruct L as [|a [|b [|c [|d L]]]]; try (simpl in HL; lia).
    cbn [chunk firstn skipn map]. rewrite np_sum_cons, big_sum_shift.
    rewrite IH by (simpl in HL; lia).
    cbn [reduce_sum fold_right]. rewrite Nat.mul_0_r. cbn [nth].
    f_equal; [lra|]. apply big_sum_ext. intros j _.
    replace (4 * S j)%nat with (S (S (S (S (4 * j))))) by lia. reflexivity.
Qed.

Lemma quads_tail_sum (m : nat) :
  forall L : list R,
    length L = (4 * m)%nat ->
    Stats.np_sum (map (skipn 1) (chunk 4 m L))
    = big_sum m (fun j => nth (4 * j + 1) L 0 + nth (4 * j + 2) L 0 + nth (4 * j + 3) L 0).
Proof.
  induction m as [|m IH]; intros L HL.
  - reflexivity.
  - destruct L as [|a [|b [|c [|d L]]]]; try (simpl in HL; lia).
    cbn [chunk firstn skipn map]. rewrite np_sum_cons, big_sum_shift.
    rewrite IH by (simpl in HL; lia).
    cbn [reduce_sum fold_right]. rewrite Nat.mul_0_r. cbn [nth Nat.add].
    f_equal; [lra|]. apply big_sum_ext. intros j _.
    replace (4 * S j + 1)%nat with (S (S (S (S (4 * j + 1))))) by lia.
    replace (4 * S j + 2)%nat with (S (S (S (S (4 * j + 2))))) by lia.
    replace (4 * S j + 3)%nat with (S (S (S (S (4 * j + 3))))) by lia.
    reflexivity.
Qed.

Lemma np_square_quads (m : nat) (L : list R) :
  Stats.np_square (chunk 4 m L) = chunk 4 m (map (fun v => v * v) L).
Proof. unfold Stats.np_square. symmetry. apply chunk_map. Qed.

Lemma np_square_heads (X : list (list R)) :
  Stats.np_square (map (firstn 1) X) = map (firstn 1) (Stats.np_square X).
Proof.
  unfold Stats.np_square. rewrite !map_map. apply map_ext. intros row.
  symmetry. apply firstn_one_map.
Qed.

Lemma np_square_tails (X : list (list R)) :
  Stats.np_square (map (skipn 1) X) = map (skipn 1) (Stats.np_square X).
Proof.
  unfold Stats.np_square. rewrite !map_map. apply map_ext. intros row.
  symmetry. apply skipn_one_map.
Qed.

Lemma nth_square (L : list R) (i : nat) :
  nth i (map (fun v => v * v) L) 0 = nth i L 0 * nth i L 0.
Proof.
  rewrite <- (Rmult_0_l 0) at 1.
  exact (map_nth (fun v => v * v) L 0 i).
Qed.

End BigSumBlocks.

Section StatsClosed.

Import Sem.
Local Open Scope R_scope.

Variables (nd nnei n0 T : nat) (natoms : list nat) (D : list (list R)).
Hypothesis nd_quads : nd = (4 * nnei)%nat.
Hypothesis nnei_pos : (0 < nnei)%nat.
Hypothesis natoms_long : (T + 2 <= length natoms)%nat.
Hypothesis rows_wide : Forall (fun row => length row = (nd * n0)%nat) D.
Hypothesis types_fit : (Stats.atoms_before natoms T <= n0)%nat.

Let n (u : nat) : nat := nth (2 + u) natoms 0%nat.
Let p (u : nat) : nat := Stats.atoms_before natoms u.
Let block (u : nat) : list R :=
  concat (Py.columns (nd * p u) (nd * p u + nd * n u) D).

Lemma firstn_snoc {A : Type} (l : list A) (k : nat) (d : A) :
  (k < length l)%nat -> firstn (S k) l = firstn k l ++ [nth k l d].
Proof.
  revert k. induction l as [|x l IH]; intros k Hk; [simpl in Hk; lia|].
  destruct k as [|k]; [reflexivity|].
  cbn [firstn nth app]. f_equal. apply IH. simpl in Hk. lia.
Qed.

Lemma fold_add_app (x y : list nat) :
  fold_right Nat.add 0%nat (x ++ y) = (fold_right Nat.add 0 x + fold_right Nat.add 0 y)%nat.
Proof. induction x as [|a x IH]; simpl; [reflexivity|]. rewrite IH. lia. Qed.

Lemma atoms_before_S (u : nat) : (u < T)%nat -> p (S u) = (p u + n u)%nat.
Proof.
  intros Hu. unfold p, n, Stats.atoms_before.
  rewrite (firstn_snoc (skipn 2 natoms) u 0%nat) by (rewrite length_skipn; lia).
  rewrite fold_add_app, nth_skipn. simpl. lia.
Qed.

Lemma atoms_before_mono (u v : nat) : (u <= v)%nat -> (v <= T)%nat -> (p u <= p v)%nat.
Proof.
  intros Huv Hv. induction Huv as [|v Huv IH]; [lia|].
  rewrite atoms_before_S by lia. specialize (IH ltac:(lia)). lia.
Qed.

Lemma block_fits (u : nat) : (u < T)%nat -> (p u + n u <= n0)%nat.
Proof.
  intros Hu. rewrite <- atoms_before_S by assumption.
  pose proof (atoms_before_mono (S u) T ltac:(lia) ltac:(lia)). unfold p in *. lia.
Qed.

Lemma segment_length (u : nat) (row : list R) :
  (u < T)%nat -> length row = (nd * n0)%nat ->
  length (firstn (nd * p u + nd * n u - nd * p u) (skipn (nd * p u) row)) = (nd * n u)%nat.
Proof.
  intros Hu Hrow. pose proof (block_fits u Hu) as Hfit.
  rewrite length_firstn, length_skipn, Hrow. nia.
Qed.

Lemma columns_uniform (u : nat) :
  (u < T)%nat ->
  Forall (fun row => length row = (nd * n u)%nat)
    (Py.columns (nd * p u) (nd * p u + nd * n u) D).
Proof.
  intros Hu. unfold Py.columns. apply Forall_forall. intros seg Hin.
  apply in_map_iff in Hin. destruct Hin as (row & <- & Hrow).
  rewrite Forall_forall in rows_wide. apply segment_length; auto.
Qed.

Lemma block_length (u : nat) :
  (u < T)%nat -> length (block u) = (length D * (nd * n u))%nat.
Proof.
  intros Hu. unfold block.
  rewrite (length_concat_uniform (nd * n u) _ (columns_uniform u Hu)).
  unfold Py.columns. now rewrite length_map.
Qed.

(** The type loop stores, type after type, the numbers of the block of
    each type. *)
Lemma type_loop_prefix (store : Stats.sys_stats -> nat -> Stats.type_stats -> Stats.sys_stats)
    (rest : list nat) (k : nat) :
  forall (t : nat) (acc : Stats.sys_stats),
    (t + k <= T)%nat ->
    Stats.type_loop nd natoms D store (seq t k ++ rest) (nd * p t) acc
    = Stats.type_loop nd natoms D store rest (nd * p (t + k))
        (fold_left (fun a u => store a u (Stats.flat_stats (block u))) (seq t k) acc).
Proof.
  induction k as [|k IH]; intros t acc Htk.
  - now rewrite Nat.add_0_r.
  - cbn [seq app Stats.type_loop fold_left].
    rewrite (getitem_lt natoms (2 + t) 0%nat) by lia. cbn [Py.bind]. fold (n t).
    pose proof (block_length t ltac:(lia)) as Hlen. unfold block in Hlen.
    rewrite (block_stats_ok nd (length D * n t) (length D * (nnei * n t)))
      by (rewrite ?Hlen; nia).
    cbn [Py.bind]. fold (block t).
    replace (nd * p t + nd * n t)%nat with (nd * p (S t))%nat
      by (rewrite atoms_before_S by lia; lia).
    rewrite IH by lia. now rewrite Nat.add_succ_r.
Qed.

Lemma type_loop_closed (store : Stats.sys_stats -> nat -> Stats.type_stats -> Stats.sys_stats)
    (k t : nat) (acc : Stats.sys_stats) :
  (t + k <= T)%nat ->
  Stats.type_loop nd natoms D store (seq t k) (nd * p t) acc
  = Py.Done (fold_left (fun a u => store a u (Stats.flat_stats (block u))) (seq t k) acc).
Proof.
  intros Htk. rewrite <- (app_nil_r (seq t k)) at 1.
  now rewrite type_loop_prefix.
Qed.

(** The entries of the block of a type, frame by frame. *)
Lemma block_entry (u f i : nat) :
  (u < T)%nat -> (f < length D)%nat -> (i < nd * n u)%nat ->
  nth (f * (nd * n u) + i) (block u) 0 = nth (nd * p u + i) (nth f D []) 0.
Proof.
  intros Hu Hf Hi. unfold block.
  rewrite (nth_concat_uniform (nd * n u) _ f i 0 (columns_uniform u Hu) Hi).
  unfold Py.columns.
  rewrite (nth_map_lt _ D f [] []) by assumption.
  rewrite nth_firstn.
  replace (nd * p u + nd * n u - nd * p u)%nat with (nd * n u)%nat by lia.
  destruct (Nat.ltb_spec i (nd * n u)); [|lia].
  now rewrite nth_skipn.
Qed.

(** A sum over the slots of the block of a type is the sum, over the
    frames, of the sums over the slots of this type in the frame. [Q] reads
    the four entries of a slot. *)
Lemma block_quads_sum (u : nat) (Q : (nat -> R) -> R) :
  (u < T)%nat ->
  (forall a b : nat -> R, (forall c, (c < 4)%nat -> a c = b c) -> Q a = Q b) ->
  big_sum (length D * (n u * nnei)) (fun j => Q (fun c => nth (4 * j + c) (block u) 0))
  = big_sum (length D)
      (fun f => big_sum (n u * nnei)
         (fun j => Q (fun c => entry D f (nd * p u + 4 * j + c)))).
Proof.
  intros Hu HQ. rewrite big_sum_blocks.
  apply big_sum_ext. intros f Hf. apply big_sum_ext. intros j Hj.
  apply HQ. intros c Hc. unfold entry.
  replace (4 * (f * (n u * nnei) + j) + c)%nat with (f * (nd * n u) + (4 * j + c))%nat
    by nia.
  rewrite (block_entry u f (4 * j + c)) by (assumption || nia).
  f_equal. lia.
Qed.

Lemma flat_stats_block (u : nat) :
  (u < T)%nat ->
  let s := Stats.flat_stats (block u) in
  let slots (q : nat -> nat -> R) : R :=
    big_sum (length D) (fun f => big_sum (n u * nnei) (fun j => q f (nd * p u + 4 * j)%nat)) in
  Stats.sumn s = (length D * (n u * nnei))%nat /\
  Stats.sumr s = slots (fun f b => entry D f b) /\
  Stats.suma s
  = slots (fun f b => entry D f (b + 1) + entry D f (b + 2) + entry D f (b + 3)) / 3 /\
  Stats.sumr2 s = slots (fun f b => entry D f b * entry D f b) /\
  Stats.suma2 s
  = slots (fun f b => entry D f (b + 1) * entry D f (b + 1)
                      + entry D f (b + 2) * entry D f (b + 2)
                      + entry D f (b + 3) * entry D f (b + 3)) / 3.
Proof.
  intros Hu. cbv zeta.
  set (m := (length D * (n u * nnei))%nat).
  assert (Hlen : length (block u) = (4 * m)%nat) by (rewrite block_length by assumption; nia).
  unfold Stats.flat_stats.
  cbn [Stats.sumr Stats.suma Stats.sumn Stats.sumr2 Stats.suma2].
  replace (length (block u) / 4)%nat with m
    by (rewrite Hlen, Nat.mul_comm, Nat.div_mul by lia; reflexivity).
  rewrite chunk_length, np_square_heads, np_square_tails, np_square_quads.
  rewrite !quads_head_sum, !quads_tail_sum by (rewrite ?length_map; assumption).
  split; [reflexivity|].
  assert (Hhead : forall h : R -> R,
    big_sum m (fun j => h (nth (4 * j) (block u) 0))
    = big_sum (length D)
        (fun f => big_sum (n u * nnei) (fun j => h (entry D f (nd * p u + 4 * j))))).
  { intros h. unfold m.
    rewrite (big_sum_ext _ _ (fun j => (fun a : nat -> R => h (a 0%nat))
                                         (fun c => nth (4 * j + c) (block u) 0)))
      by (intros j _; cbv beta; now rewrite Nat.add_0_r).
    rewrite (block_quads_sum u (fun a => h (a 0%nat)) Hu)
      by (intros a b H; now rewrite H by lia).
    apply big_sum_ext. intros f _. apply big_sum_ext. intros j _.
    now rewrite Nat.add_0_r. }
  split; [exact (Hhead (fun v => v))|].
  split.
  { f_equal. unfold m.
    apply (block_quads_sum u (fun a => a 1%nat + a 2%nat + a 3%nat) Hu).
    intros a b H. now rewrite !H by lia. }
  split.
  { rewrite (big_sum_ext _ _ (fun j => (fun v => v * v) (nth (4 * j) (block u) 0)))
      by (intros j _; apply nth_square).
    exact (Hhead (fun v => v * v)). }
  f_equal.
  rewrite (big_sum_ext _ _
             (fun j => (fun a : nat -> R => a 1%nat * a 1%nat + a 2%nat * a 2%nat
                                            + a 3%nat * a 3%nat)
                         (fun c => nth (4 * j + c) (block u) 0)))
    by (intros j _; cbv beta; now rewrite !nth_square).
  unfold m.
  apply (block_quads_sum u (fun a => a 1%nat * a 1%nat + a 2%nat * a 2%nat
                                      + a 3%nat * a 3%nat) Hu).
  intros a b H. now rewrite !H by lia.
Qed.

End StatsClosed.

Section StatsPlain.

Import Sem.
Local Open Scope R_scope.

Lemma fold_append_stats (g : nat -> Stats.type_stats) (l : list nat) :
  forall acc : Stats.sys_stats,
    fold_left (fun a u => Stats.append_stats a u (g u)) l acc
    = {| Stats.sysr := Stats.sysr acc ++ map (fun u => Stats.sumr (g u)) l;
         Stats.sysr2 := Stats.sysr2 acc ++ map (fun u => Stats.sumr2 (g u)) l;
         Stats.sysa := Stats.sysa acc ++ map (fun u => Stats.suma (g u)) l;
         Stats.sysa2 := Stats.sysa2 acc ++ map (fun u => Stats.suma2 (g u)) l;
         Stats.sysn := Stats.sysn acc ++ map (fun u => Stats.sumn (g u)) l |}.
Proof.
  induction l as [|u l IH]; intros acc.
  - simpl. rewrite !app_nil_r. now destruct acc.
  - cbn [fold_left map]. rewrite IH. unfold Stats.append_stats.
    cbn [Stats.sysr Stats.sysr2 Stats.sysa Stats.sysa2 Stats.sysn].
    now rewrite <- !app_assoc.
Qed.

(** The result of the plain branch on well-formed data. *)
Lemma dstats_of_plain (self : descrpt) (D : list (list R)) (natoms : list nat)
    (nnei n0 : nat) :
  ndescrpt self = (4 * nnei)%nat -> (0 < nnei)%nat -> (0 < n0)%nat ->
  nth_error natoms 0 = Some n0 ->
  (ntypes self + 2 <= length natoms)%nat ->
  Forall (fun row => length row = (ndescrpt self * n0)%nat) D ->
  (Stats.atoms_before natoms (ntypes self) <= n0)%nat ->
  let g (u : nat) :=
    Stats.flat_stats
      (concat (Py.columns (ndescrpt self * Stats.atoms_before natoms u)
                 (ndescrpt self * Stats.atoms_before natoms u
                  + ndescrpt self * nth (2 + u) natoms 0%nat) D)) in
  Stats.dstats_of self D natoms false None
  = Py.Done {| Stats.sysr := map (fun u => Stats.sumr (g u)) (seq 0 (ntypes self));
               Stats.sysr2 := map (fun u => Stats.sumr2 (g u)) (seq 0 (ntypes self));
               Stats.sysa := map (fun u => Stats.suma (g u)) (seq 0 (ntypes self));
               Stats.sysa2 := map (fun u => Stats.suma2 (g u)) (seq 0 (ntypes self));
               Stats.sysn := map (fun u => Stats.sumn (g u)) (seq 0 (ntypes self)) |}.
Proof.
  intros Hnd Hnnei Hn0 Hnat Hlong Hrows Hfit g. unfold Stats.dstats_of, Py.getitem.
  rewrite Hnat. cbn [Py.bind].
  rewrite (reshape_rows_ok _ (length D))
    by (nia || now rewrite (length_concat_uniform _ D Hrows)).
  cbn [Py.bind]. rewrite (chunk_concat _ D Hrows).
  pose proof (type_loop_closed (ndescrpt self) nnei n0 (ntypes self) natoms D Hnd Hnnei
                Hlong Hrows Hfit Stats.append_stats (ntypes self) 0%nat) as Hloop.
  change (Stats.atoms_before natoms 0) with 0%nat in Hloop.
  rewrite Nat.mul_0_r in Hloop. rewrite Hloop by lia.
  now rewrite (fold_append_stats g).
Qed.

End StatsPlain.

Section StatsMixed.

Import Sem.
Local Open Scope R_scope.

Lemma fold_setitem_nth {A : Type} (op : A -> nat -> A) (d : A) (k : nat) :
  forall (t : nat) (l : list A),
    (t + k <= length l)%nat ->
    let l' := fold_left (fun x u => Py.setitem x u (op (nth u x d) u)) (seq t k) l in
    length l' = length l /\
    forall j, nth j l' d = if ((t <=? j) && (j <? t + k))%nat then op (nth j l d) j
                           else nth j l d.
Proof.
  induction k as [|k IH]; intros t l Htk; cbv zeta.
  - split; [reflexivity|]. intros j. cbn [seq fold_left].
    destruct (Nat.leb_spec t j), (Nat.ltb_spec j (t + 0)); cbn [andb]; try reflexivity; lia.
  - cbn [seq fold_left].
    destruct (IH (S t) (Py.setitem l t (op (nth t l d) t))
                ltac:(rewrite length_setitem; lia)) as [Hlen Hnth].
    cbv zeta in Hlen, Hnth. rewrite length_setitem in Hlen. split; [exact Hlen|].
    intros j. rewrite Hnth, !nth_setitem by lia.
    destruct (Nat.eqb_spec j t) as [->|Hne].
    + destruct (Nat.leb_spec (S t) t), (Nat.ltb_spec t (S t + k)),
        (Nat.leb_spec t t), (Nat.ltb_spec t (t + S k)); cbn [andb]; try reflexivity; lia.
    + destruct (Nat.leb_spec (S t) j), (Nat.ltb_spec j (S t + k)),
        (Nat.leb_spec t j), (Nat.ltb_spec j (t + S k)); cbn [andb]; try reflexivity; lia.
Qed.

Lemma fold_setitem_all {A : Type} (op : A -> nat -> A) (d : A) (T : nat) (l : list A) :
  length l = T ->
  fold_left (fun x u => Py.setitem x u (op (nth u x d) u)) (seq 0 T) l
  = map (fun t => op (nth t l d) t) (seq 0 T).
Proof.
  intros Hl.
  destruct (fold_setitem_nth op d T 0%nat l ltac:(lia)) as [Hlen Hnth]. cbv zeta in *.
  apply nth_ext with (d := d) (d' := d).
  - now rewrite Hlen, length_map, length_seq.
  - intros j Hj. rewrite Hlen, Hl in Hj. rewrite Hnth, (nth_map_seq _ _ j d Hj).
    destruct (Nat.leb_spec 0 j), (Nat.ltb_spec j (0 + T)); cbn [andb]; try reflexivity; lia.
Qed.

(** The five lists have one entry per type. *)
Let shaped (T : nat) (a : Stats.sys_stats) : Prop :=
  length (Stats.sysr a) = T /\ length (Stats.sysr2 a) = T /\ length (Stats.sysa a) = T /\
  length (Stats.sysa2 a) = T /\ length (Stats.sysn a) = T.

(** [acc] with the numbers [g t] added to the entries of every type. *)
Let added (T : nat) (acc : Stats.sys_stats) (g : nat -> Stats.type_stats) : Stats.sys_stats :=
  {| Stats.sysr := map (fun t => nth t (Stats.sysr acc) 0 + Stats.sumr (g t)) (seq 0 T);
     Stats.sysr2 := map (fun t => nth t (Stats.sysr2 acc) 0 + Stats.sumr2 (g t)) (seq 0 T);
     Stats.sysa := map (fun t => nth t (Stats.sysa acc) 0 + Stats.suma (g t)) (seq 0 T);
     Stats.sysa2 := map (fun t => nth t (Stats.sysa2 acc) 0 + Stats.suma2 (g t)) (seq 0 T);
     Stats.sysn := map (fun t => (nth t (Stats.sysn acc) 0 + Stats.sumn (g t))%nat) (seq 0 T) |}.

Lemma fold_add_stats_fields (g : nat -> Stats.type_stats) (l : list nat) :
  forall acc : Stats.sys_stats,
    fold_left (fun a u => Stats.add_stats a u (g u)) l acc
    = {| Stats.sysr :=
           fold_left (fun x u => Py.setitem x u (nth u x 0 + Stats.sumr (g u))) l
             (Stats.sysr acc);
         Stats.sysr2 :=
           fold_left (fun x u => Py.setitem x u (nth u x 0 + Stats.sumr2 (g u))) l
             (Stats.sysr2 acc);
         Stats.sysa :=
           fold_left (fun x u => Py.setitem x u (nth u x 0 + Stats.suma (g u))) l
             (Stats.sysa acc);
         Stats.sysa2 :=
           fold_left (fun x u => Py.setitem x u (nth u x 0 + Stats.suma2 (g u))) l
             (Stats.sysa2 acc);
         Stats.sysn :=
           fold_left (fun x u => Py.setitem x u (nth u x 0 + Stats.sumn (g u))%nat) l
             (Stats.sysn acc) |}.
Proof.
  induction l as [|u l IH]; intros acc.
  - now destruct acc.
  - cbn [fold_left]. now rewrite IH.
Qed.

Lemma fold_add_stats (g : nat -> Stats.type_stats) (T : nat) (acc : Stats.sys_stats) :
  shaped T acc ->
  fold_left (fun a u => Stats.add_stats a u (g u)) (seq 0 T) acc = added T acc g.
Proof.
  intros (H1 & H2 & H3 & H4 & H5). rewrite fold_add_stats_fields. unfold added.
  rewrite (fold_setitem_all (fun v u => v + Stats.sumr (g u)) 0 T _ H1).
  rewrite (fold_setitem_all (fun v u => v + Stats.sumr2 (g u)) 0 T _ H2).
  rewrite (fold_setitem_all (fun v u => v + Stats.suma (g u)) 0 T _ H3).
  rewrite (fold_setitem_all (fun v u => v + Stats.suma2 (g u)) 0 T _ H4).
  rewrite (fold_setitem_all (fun v u => (v + Stats.sumn (g u))%nat) 0%nat T _ H5).
  reflexivity.
Qed.

Lemma added_shaped (T : nat) (acc : Stats.sys_stats) (g : nat -> Stats.type_stats) :
  shaped T (added T acc g).
Proof.
  unfold shaped, added. cbn [Stats.sysr Stats.sysr2 Stats.sysa Stats.sysa2 Stats.sysn].
  now rewrite !length_map, !length_seq.
Qed.

Lemma map_nth_seq_id {A : Type} (l : list A) (d : A) :
  map (fun t => nth t l d) (seq 0 (length l)) = l.
Proof.
  apply nth_ext with (d := d) (d' := d).
  - now rewrite length_map, length_seq.
  - intros j Hj. rewrite length_map, length_seq in Hj. now rewrite nth_map_seq.
Qed.

Variables (nd nnei n0 T : nat) (natoms : list nat) (rv : list (list nat)).
Hypothesis nd_quads : nd = (4 * nnei)%nat.
Hypothesis nnei_pos : (0 < nnei)%nat.
Hypothesis n0_pos : (0 < n0)%nat.
Hypothesis natoms_first : nth_error natoms 0 = Some n0.
Hypothesis natoms_long : (T + 2 <= length natoms)%nat.
Hypothesis types_fit : (Stats.atoms_before natoms T <= n0)%nat.

Let g (D : list (list R)) (u : nat) : Stats.type_stats :=
  Stats.flat_stats
    (concat (Py.columns (nd * Stats.atoms_before natoms u)
               (nd * Stats.atoms_before natoms u + nd * nth (2 + u) natoms 0%nat) D)).

Lemma flat_stats_nil :
  Stats.flat_stats [] = {| Stats.sumr := 0; Stats.suma := 0 / 3; Stats.sumn := 0;
                           Stats.sumr2 := 0; Stats.suma2 := 0 / 3 |}.
Proof. reflexivity. Qed.

Lemma added_nothing (acc : Stats.sys_stats) (h : nat -> Stats.type_stats) :
  shaped T acc -> (forall t, h t = Stats.flat_stats []) -> added T acc h = acc.
Proof.
  intros (H1 & H2 & H3 & H4 & H5) Hh. unfold added. destruct acc as [r r2 a a2 c].
  cbn [Stats.sysr Stats.sysr2 Stats.sysa Stats.sysa2 Stats.sysn] in *.
  f_equal.
  - transitivity (map (fun t => nth t r 0) (seq 0 T));
      [|rewrite <- H1; apply map_nth_seq_id].
    apply map_ext. intros t. rewrite Hh, flat_stats_nil. cbn [Stats.sumr]. lra.
  - transitivity (map (fun t => nth t r2 0) (seq 0 T));
      [|rewrite <- H2; apply map_nth_seq_id].
    apply map_ext. intros t. rewrite Hh, flat_stats_nil. cbn [Stats.sumr2]. lra.
  - transitivity (map (fun t => nth t a 0) (seq 0 T));
      [|rewrite <- H3; apply map_nth_seq_id].
    apply map_ext. intros t. rewrite Hh, flat_stats_nil. cbn [Stats.suma]. lra.
  - transitivity (map (fun t => nth t a2 0) (seq 0 T));
      [|rewrite <- H4; apply map_nth_seq_id].
    apply map_ext. intros t. rewrite Hh, flat_stats_nil. cbn [Stats.suma2]. lra.
  - transitivity (map (fun t => nth t c 0%nat) (seq 0 T));
      [|rewrite <- H5; apply map_nth_seq_id].
    apply map_ext. intros t. rewrite Hh, flat_stats_nil. cbn [Stats.sumn]. lia.
Qed.

Lemma added_twice (acc : Stats.sys_stats) (h1 h2 h : nat -> Stats.type_stats) :
  (forall t, (t < T)%nat ->
     Stats.sumr (h t) = Stats.sumr (h1 t) + Stats.sumr (h2 t) /\
     Stats.suma (h t) = Stats.suma (h1 t) + Stats.suma (h2 t) /\
     Stats.sumn (h t) = (Stats.sumn (h1 t) + Stats.sumn (h2 t))%nat /\
     Stats.sumr2 (h t) = Stats.sumr2 (h1 t) + Stats.sumr2 (h2 t) /\
     Stats.suma2 (h t) = Stats.suma2 (h1 t) + Stats.suma2 (h2 t)) ->
  added T (added T acc h1) h2 = added T acc h.
Proof.
  intros Hh. unfold added.
  cbn [Stats.sysr Stats.sysr2 Stats.sysa Stats.sysa2 Stats.sysn].
  f_equal; apply map_ext_in; intros t Ht; apply in_seq in Ht;
    destruct (Hh t ltac:(lia)) as (Er & Ea & En & Er2 & Ea2).
  - rewrite (nth_map_seq _ _ t 0) by lia. rewrite Er. lra.
  - rewrite (nth_map_seq _ _ t 0) by lia. rewrite Er2. lra.
  - rewrite (nth_map_seq _ _ t 0) by lia. rewrite Ea. lra.
  - rewrite (nth_map_seq _ _ t 0) by lia. rewrite Ea2. lra.
  - rewrite (nth_map_seq _ _ t 0%nat) by lia. rewrite En. lia.
Qed.

Lemma frame_loop_closed :
  forall (D : list (list R)) (off : nat) (acc : Stats.sys_stats),
    shaped T acc ->
    (forall f, (f < off + length D)%nat -> nth_error rv f = Some natoms) ->
    Forall (fun row => length row = (nd * n0)%nat) D ->
    Stats.frame_loop nd T (Some rv) (combine (seq off (length D)) D) acc
    = Py.Done (added T acc (g D)).
Proof.
  induction D as [|row D IH]; intros off acc Hacc Hrv Hrows.
  - cbn [length seq combine Stats.frame_loop]. f_equal. symmetry.
    apply added_nothing; [assumption|]. intros t. reflexivity.
  - cbn [length seq combine Stats.frame_loop]. unfold Py.getitem.
    rewrite (Hrv off) by (cbn [length]; lia). cbn [Py.bind].
    rewrite natoms_first. cbn [Py.bind].
    pose proof (Forall_inv Hrows) as Hrow. pose proof (Forall_inv_tail Hrows) as HrowsD.
    cbv beta in Hrow.
    rewrite (reshape_rows_ok (nd * n0) 1 row) by nia.
    cbn [Py.bind chunk]. rewrite <- Hrow at 1. rewrite firstn_all.
    assert (Hone : Forall (fun r => length r = (nd * n0)%nat) [row])
      by (constructor; [assumption|constructor]).
    pose proof (type_loop_closed nd nnei n0 T natoms [row] nd_quads nnei_pos natoms_long
                  Hone types_fit Stats.add_stats T 0%nat acc ltac:(lia)) as Hloop.
    change (Stats.atoms_before natoms 0) with 0%nat in Hloop.
    rewrite Nat.mul_0_r in Hloop. rewrite Hloop. cbn [Py.bind].
    erewrite fold_add_stats by exact Hacc.
    rewrite (IH (S off) _ (added_shaped T acc _))
      by (assumption || (intros f Hf; apply Hrv; cbn [length]; lia)).
    f_equal. apply added_twice. intros t Ht. unfold g.
    change (row :: D) with ([row] ++ D). rewrite columns_app, concat_app.
    apply flat_stats_app.
    + rewrite (block_length nd nnei n0 T natoms [row] nd_quads nnei_pos natoms_long Hone
                 types_fit t Ht).
      cbn [length]. rewrite nd_quads.
      replace (1 * (4 * nnei * nth (2 + t) natoms 0))%nat
        with (nnei * nth (2 + t) natoms 0 * 4)%nat by lia.
      now rewrite Nat.div_mul by lia.
    + rewrite (block_length nd nnei n0 T natoms D nd_quads nnei_pos natoms_long HrowsD
                 types_fit t Ht).
      rewrite nd_quads.
      replace (length D * (4 * nnei * nth (2 + t) natoms 0))%nat
        with (length D * nnei * nth (2 + t) natoms 0 * 4)%nat by lia.
      now rewrite Nat.div_mul by lia.
Qed.

End StatsMixed.

Section StatsVariance.

Import Sem.
Local Open Scope R_scope.

Lemma concat_np_square (X : list (list R)) :
  concat (Stats.np_square X) = map (fun v => v * v) (concat X).
Proof. unfold Stats.np_square. now rewrite concat_map. Qed.

(** The numbers of a block satisfy the inequality between the square of a
    sum and the sum of the squares. *)
Lemma flat_stats_bound (x : list R) :
  length x = (length x / 4 * 4)%nat ->
  let s := Stats.flat_stats x in
  Stats.sumr s * Stats.sumr s <= INR (Stats.sumn s) * Stats.sumr2 s /\
  Stats.suma s * Stats.suma s <= INR (Stats.sumn s) * Stats.suma2 s.
Proof.
  intros Hx. cbv zeta. unfold Stats.flat_stats.
  cbn [Stats.sumr Stats.suma Stats.sumn Stats.sumr2 Stats.suma2].
  set (m := (length x / 4)%nat) in *. set (dd := chunk 4 m x).
  assert (Hrows : Forall (fun row => length row = 4%nat) dd) by now apply chunk_rows.
  assert (Hdd : length dd = m) by apply chunk_length.
  assert (Hheads : length (concat (map (firstn 1) dd)) = m).
  { rewrite (length_concat_uniform 1).
    - now rewrite length_map, Hdd, Nat.mul_1_r.
    - apply Forall_forall. intros r Hr. apply in_map_iff in Hr.
      destruct Hr as (row & <- & Hin). rewrite Forall_forall in Hrows.
      rewrite length_firstn, (Hrows row Hin). reflexivity. }
  assert (Htails : length (concat (map (skipn 1) dd)) = (m * 3)%nat).
  { rewrite (length_concat_uniform 3).
    - now rewrite length_map, Hdd.
    - apply Forall_forall. intros r Hr. apply in_map_iff in Hr.
      destruct Hr as (row & <- & Hin). rewrite Forall_forall in Hrows.
      rewrite length_skipn, (Hrows row Hin). reflexivity. }
  unfold Stats.np_sum. rewrite !concat_np_square, Hdd.
  pose proof (sum_square_le (concat (map (firstn 1) dd))) as H1.
  pose proof (sum_square_le (concat (map (skipn 1) dd))) as H2.
  rewrite Hheads in H1. rewrite Htails, mult_INR in H2.
  split; [exact H1|].
  assert (H3 : INR 3 = 3) by (simpl; lra). rewrite H3 in H2.
  pose proof (pos_INR m) as Hm.
  nra.
Qed.

(** The five lists have the same length and every type satisfies the
    inequality. *)
Let bounded (a : Stats.sys_stats) : Prop :=
  length (Stats.sysr a) = length (Stats.sysn a) /\
  length (Stats.sysr2 a) = length (Stats.sysn a) /\
  length (Stats.sysa a) = length (Stats.sysn a) /\
  length (Stats.sysa2 a) = length (Stats.sysn a) /\
  forall t, (t < length (Stats.sysn a))%nat ->
    nth t (Stats.sysr a) 0 * nth t (Stats.sysr a) 0
    <= INR (nth t (Stats.sysn a) 0%nat) * nth t (Stats.sysr2 a) 0 /\
    nth t (Stats.sysa a) 0 * nth t (Stats.sysa a) 0
    <= INR (nth t (Stats.sysn a) 0%nat) * nth t (Stats.sysa2 a) 0.

Lemma nth_snoc {A : Type} (l : list A) (v d : A) (t : nat) :
  nth t (l ++ [v]) d = if (t <? length l)%nat then nth t l d
                       else if (t =? length l)%nat then v else d.
Proof.
  destruct (Nat.ltb_spec t (length l)) as [Hlt|Hge].
  - now apply app_nth1.
  - rewrite app_nth2 by lia.
    destruct (Nat.eqb_spec t (length l)) as [->|Hne].
    + now rewrite Nat.sub_diag.
    + destruct (t - length l)%nat as [|[|k]] eqn:E; try reflexivity. lia.
Qed.

Lemma type_loop_append_bounded (nd : nat) (natoms : list nat) (D : list (list R))
    (types : list nat) :
  forall (start : nat) (acc r : Stats.sys_stats),
    bounded acc ->
    Stats.type_loop nd natoms D Stats.append_stats types start acc = Py.Done r ->
    bounded r.
Proof.
  induction types as [|u types IH]; intros start acc r Hacc H.
  - cbn [Stats.type_loop] in H. inversion H; subst. assumption.
  - cbn [Stats.type_loop] in H.
    destruct (Py.getitem natoms (2 + u)) as [n|e]; [|discriminate]. cbn [Py.bind] in H.
    destruct (Stats.block_stats nd (Py.columns start (start + nd * n) D)) as [s|e] eqn:Hs;
      [|discriminate].
    cbn [Py.bind] in H. apply block_stats_done in Hs. destruct Hs as (_ & _ & Hx & ->).
    refine (IH _ _ _ _ H). clear IH H.
    destruct Hacc as (L1 & L2 & L3 & L4 & Hb).
    destruct (flat_stats_bound _ Hx) as [Br Ba].
    unfold bounded, Stats.append_stats.
    cbn [Stats.sysr Stats.sysr2 Stats.sysa Stats.sysa2 Stats.sysn].
    rewrite !length_app. cbn [length].
    repeat (split; [lia|]).
    intros t Ht. rewrite !(nth_snoc _ _ 0), (nth_snoc _ _ 0%nat), L1, L2, L3, L4.
    destruct (Nat.ltb_spec t (length (Stats.sysn acc))) as [Hlt|Hge].
    + now apply Hb.
    + destruct (Nat.eqb_spec t (length (Stats.sysn acc))) as [_|Hne]; [|lia].
      split; assumption.
Qed.

End StatsVariance.

(** *** [_compute_dstats_sys_smth] *)

(** On well-formed data (four entries per neighbor slot, frames of
    [natoms_vec[0]] atoms, the atoms of the types fitting in a frame)
    [_compute_dstats_sys_smth] returns in its plain branch, for every type,
    the number of neighbor slots of the atoms of this type in all the frames,
    the sum of their radial entries and of the squares, and a third of the
    sum of their three angular entries and of the squares. *)
Theorem compute_dstats_sums :
  forall (self : Sem.descrpt) (op : Sem.prod_env_mat) (data_coord data_box : list (list R))
         (data_atype : list (list Z)) (natoms_vec : list nat) (mesh : list Z)
         (D : list (list R)) (nnei n0 : nat),
    Sem.op_descrpt (op data_coord data_atype natoms_vec data_box mesh
                      (repeat (repeat 0%R (Sem.ndescrpt self)) (Sem.ntypes self))
                      (repeat (repeat 1%R (Sem.ndescrpt self)) (Sem.ntypes self))) = D ->
    Sem.ndescrpt self = (4 * nnei)%nat -> (0 < nnei)%nat -> (0 < n0)%nat ->
    nth_error natoms_vec 0 = Some n0 ->
    length natoms_vec = (Sem.ntypes self + 2)%nat ->
    Forall (fun row => length row = (Sem.ndescrpt self * n0)%nat) D ->
    (Stats.atoms_before natoms_vec (Sem.ntypes self) <= n0)%nat ->
    exists s : Stats.sys_stats,
      Stats._compute_dstats_sys_smth self op data_coord data_box data_atype natoms_vec mesh
        false None = Py.Done s /\
      length (Stats.sysn s) = Sem.ntypes self /\
      forall t : nat,
        (t < Sem.ntypes self)%nat ->
        let slots (q : nat -> nat -> R) : R :=
          Sem.big_sum (length D)
            (fun f => Sem.big_sum (nth (2 + t) natoms_vec 0%nat * nnei)
               (fun j => q f (Sem.ndescrpt self * Stats.atoms_before natoms_vec t
                              + 4 * j)%nat)) in
        nth t (Stats.sysn s) 0%nat = (length D * (nth (2 + t) natoms_vec 0%nat * nnei))%nat /\
        nth t (Stats.sysr s) 0%R = slots (fun f b => Sem.entry D f b) /\
        nth t (Stats.sysa s) 0%R
        = (slots (fun f b => Sem.entry D f (b + 1) + Sem.entry D f (b + 2)
                             + Sem.entry D f (b + 3)) / 3)%R /\
        nth t (Stats.sysr2 s) 0%R = slots (fun f b => Sem.entry D f b * Sem.entry D f b)%R /\
        nth t (Stats.sysa2 s) 0%R
        = (slots (fun f b => Sem.entry D f (b + 1) * Sem.entry D f (b + 1)
                             + Sem.entry D f (b + 2) * Sem.entry D f (b + 2)
                             + Sem.entry D f (b + 3) * Sem.entry D f (b + 3)) / 3)%R.
Proof.
  intros self op cc bb ty natoms mm D nnei n0 HD Hnd Hnnei Hn0 Hnat Hlen Hrows Hfit.
  assert (Hlong : (Sem.ntypes self + 2 <= length natoms)%nat) by (rewrite Hlen; apply le_n).
  unfold Stats._compute_dstats_sys_smth. rewrite Hlen, Nat.eqb_refl, HD.
  eexists. split; [apply (dstats_of_plain self D natoms nnei n0); assumption|].
  cbn [Stats.sysr Stats.sysr2 Stats.sysa Stats.sysa2 Stats.sysn].
  split; [now rewrite length_map, length_seq|].
  intros t Ht.
  destruct (flat_stats_block (Sem.ndescrpt self) nnei n0 (Sem.ntypes self) natoms D Hnd Hnnei
              Hlong Hrows Hfit t Ht) as (En & Er & Ea & Er2 & Ea2).
  cbv zeta.
  rewrite (nth_map_seq _ _ t 0%nat Ht), !(nth_map_seq _ _ t 0%R Ht).
  repeat split; assumption.
Qed.

Lemma compute_dstats_sums_witness :
  exists s : Stats.sys_stats,
    Stats._compute_dstats_sys_smth StatsExamples.self_example Examples.op_example
      (Stats.s_coord StatsExamples.system_example) (Stats.s_box StatsExamples.system_example)
      (Stats.s_atype StatsExamples.system_example) StatsExamples.natoms_example [] false None
    = Py.Done s /\
    Stats.sysn s = [4; 0]%nat.
Proof.
  destruct (compute_dstats_sums StatsExamples.self_example Examples.op_example
              (Stats.s_coord StatsExamples.system_example)
              (Stats.s_box StatsExamples.system_example)
              (Stats.s_atype StatsExamples.system_example) StatsExamples.natoms_example []
              Examples.inputs_example 2 1 eq_refl eq_refl (Nat.lt_0_succ 1) (Nat.lt_0_succ 0)
              eq_refl eq_refl)
    as (s & Hs & Hlen & Hall).
  - repeat constructor.
  - apply le_n.
  - exists s. split; [exact Hs|].
    destruct (Hall 0%nat (Nat.lt_0_succ 1)) as (H0 & _).
    destruct (Hall 1%nat (Nat.lt_succ_diag_r 1)) as (H1 & _).
    destruct (Stats.sysn s) as [|a [|b [|c l]]]; try discriminate Hlen.
    cbn [nth] in H0, H1. rewrite H0, H1. reflexivity.
Defined.

(** When every frame of a system has the atom counts of [natoms_vec], the
    mixed-type branch of [_compute_dstats_sys_smth], which goes through the
    frames one by one, returns what the plain branch returns for all the
    frames at once. *)
Theorem compute_dstats_mixed_uniform :
  forall (self : Sem.descrpt) (op : Sem.prod_env_mat) (data_coord data_box : list (list R))
         (data_atype : list (list Z)) (natoms_vec : list nat) (mesh : list Z)
         (real_natoms_vec : list (list nat)) (D : list (list R)) (nnei n0 : nat),
    Sem.op_descrpt (op data_coord data_atype natoms_vec data_box mesh
                      (repeat (repeat 0%R (Sem.ndescrpt self)) (Sem.ntypes self))
                      (repeat (repeat 1%R (Sem.ndescrpt self)) (Sem.ntypes self))) = D ->
    Sem.ndescrpt self = (4 * nnei)%nat -> (0 < nnei)%nat -> (0 < n0)%nat ->
    nth_error natoms_vec 0 = Some n0 ->
    (Sem.ntypes self + 2 <= length natoms_vec)%nat ->
    Forall (fun row => length row = (Sem.ndescrpt self * n0)%nat) D ->
    (Stats.atoms_before natoms_vec (Sem.ntypes self) <= n0)%nat ->
    (forall f, (f < length D)%nat -> nth_error real_natoms_vec f = Some natoms_vec) ->
    Stats._compute_dstats_sys_smth self op data_coord data_box data_atype natoms_vec mesh
      true (Some real_natoms_vec)
    = Stats._compute_dstats_sys_smth self op data_coord data_box data_atype natoms_vec mesh
        false None.
Proof.
  intros self op cc bb ty natoms mm rv D nnei n0 HD Hnd Hnnei Hn0 Hnat Hlong Hrows Hfit Hrv.
  unfold Stats._compute_dstats_sys_smth.
  destruct (length natoms =? Sem.ntypes self + 2)%nat; [|reflexivity].
  rewrite HD.
  rewrite (dstats_of_plain self D natoms nnei n0) by assumption.
  unfold Stats.dstats_of.
  rewrite (frame_loop_closed (Sem.ndescrpt self) nnei n0 (Sem.ntypes self) natoms rv
             Hnd Hnnei Hn0 Hnat Hlong Hfit D 0%nat).
  - f_equal. cbn [Stats.sysr Stats.sysr2 Stats.sysa Stats.sysa2 Stats.sysn].
    f_equal; apply map_ext_in; intros t Ht; apply in_seq in Ht;
      rewrite nth_repeat_lt' by lia; (lra || lia).
  - cbn [Stats.sysr Stats.sysr2 Stats.sysa Stats.sysa2 Stats.sysn].
    now rewrite !repeat_length.
  - exact Hrv.
  - exact Hrows.
Qed.

Lemma compute_dstats_mixed_uniform_witness :
  Stats._compute_dstats_sys_smth StatsExamples.self_example Examples.op_example
    (Stats.s_coord StatsExamples.system_example) (Stats.s_box StatsExamples.system_example)
    (Stats.s_atype StatsExamples.system_example) StatsExamples.natoms_example [] true
    (Some [StatsExamples.natoms_example; StatsExamples.natoms_example])
  = Stats._compute_dstats_sys_smth StatsExamples.self_example Examples.op_example
      (Stats.s_coord StatsExamples.system_example) (Stats.s_box StatsExamples.system_example)
      (Stats.s_atype StatsExamples.system_example) StatsExamples.natoms_example [] false None.
Proof.
  apply (compute_dstats_mixed_uniform StatsExamples.self_example Examples.op_example
           (Stats.s_coord StatsExamples.system_example)
           (Stats.s_box StatsExamples.system_example)
           (Stats.s_atype StatsExamples.system_example) StatsExamples.natoms_example []
           [StatsExamples.natoms_example; StatsExamples.natoms_example]
           Examples.inputs_example 2 1 eq_refl eq_refl (Nat.lt_0_succ 1) (Nat.lt_0_succ 0)
           eq_refl (le_n 4)).
  - repeat constructor.
  - apply le_n.
  - intros [|[|f]] Hf; [reflexivity|reflexivity|].
    exfalso. cbn [length Examples.inputs_example] in Hf.
    exact (Nat.nlt_0_r _ (proj2 (Nat.succ_lt_mono _ _) (proj2 (Nat.succ_lt_mono _ _) Hf))).
Defined.

(** The sums that the plain branch of [_compute_dstats_sys_smth] returns
    for a type give a variance that is not negative: the square of each sum
    is at most the number of slots times the sum of the squares. *)
Theorem compute_dstats_variance_nonneg :
  forall (self : Sem.descrpt) (op : Sem.prod_env_mat) (data_coord data_box : list (list R))
         (data_atype : list (list Z)) (natoms_vec : list nat) (mesh : list Z)
         (s : Stats.sys_stats) (t : nat),
    Stats._compute_dstats_sys_smth self op data_coord data_box data_atype natoms_vec mesh
      false None = Py.Done s ->
    (t < length (Stats.sysn s))%nat ->
    (nth t (Stats.sysr s) 0 * nth t (Stats.sysr s) 0
     <= INR (nth t (Stats.sysn s) 0%nat) * nth t (Stats.sysr2 s) 0)%R /\
    (nth t (Stats.sysa s) 0 * nth t (Stats.sysa s) 0
     <= INR (nth t (Stats.sysn s) 0%nat) * nth t (Stats.sysa2 s) 0)%R.
Proof.
  intros self op cc bb ty natoms mm s t H Ht.
  unfold Stats._compute_dstats_sys_smth in *.
  destruct (length natoms =? Sem.ntypes self + 2)%nat; [|discriminate].
  set (D := Sem.op_descrpt _) in *. clearbody D. unfold Stats.dstats_of in H.
  destruct (Py.getitem natoms 0) as [n0|e]; [|discriminate]. cbn [Py.bind] in H.
  destruct (Py.reshape_rows (Sem.ndescrpt self * n0) (concat D)) as [D'|e]; [|discriminate].
  cbn [Py.bind] in H.
  apply type_loop_append_bounded in H.
  - destruct H as (_ & _ & _ & _ & Hb). now apply Hb.
  - cbn [Stats.sysr Stats.sysr2 Stats.sysa Stats.sysa2 Stats.sysn length].
    repeat (split; [reflexivity|]). intros u Hu. lia.
Qed.

Lemma compute_dstats_variance_nonneg_witness :
  exists s : Stats.sys_stats,
    Stats._compute_dstats_sys_smth StatsExamples.self_example Examples.op_example
      (Stats.s_coord StatsExamples.system_example) (Stats.s_box StatsExamples.system_example)
      (Stats.s_atype StatsExamples.system_example) StatsExamples.natoms_example [] false None
    = Py.Done s /\
    (nth 0 (Stats.sysr s) 0 * nth 0 (Stats.sysr s) 0
     <= INR (nth 0 (Stats.sysn s) 0%nat) * nth 0 (Stats.sysr2 s) 0)%R.
Proof.
  eexists. split; [reflexivity|].
  apply (compute_dstats_variance_nonneg StatsExamples.self_example Examples.op_example
           (Stats.s_coord StatsExamples.system_example)
           (Stats.s_box StatsExamples.system_example)
           (Stats.s_atype StatsExamples.system_example) StatsExamples.natoms_example []
           _ 0%nat eq_refl).
  apply Nat.lt_0_succ.
Defined.

Lemma reshape_rows_raises {A : Type} (k : nat) (l : list A) (e : Py.exn) :
  Py.reshape_rows k l = Py.Raised e -> e = Py.ValueError.
Proof.
  unfold Py.reshape_rows. destruct k as [|k]; [intros H; now inversion H|].
  destruct (length l mod S k =? 0)%nat; [discriminate|intros H; now inversion H].
Qed.

Lemma block_stats_raises (nd : nat) (dd : list (list R)) (e : Py.exn) :
  Stats.block_stats nd dd = Py.Raised e -> e = Py.ValueError.
Proof.
  unfold Stats.block_stats.
  destruct (Py.reshape_rows nd (concat dd)) as [X|e1] eqn:E1; cbn [Py.bind].
  - destruct (Py.reshape_rows 4 (concat X)) as [Y|e2] eqn:E2; cbn [Py.bind];
      [discriminate|].
    intros H. inversion H; subst. exact (reshape_rows_raises _ _ _ E2).
  - intros H. inversion H; subst. exact (reshape_rows_raises _ _ _ E1).
Qed.

(** With a count for every type in [natoms], the loop over the types
    raises from [np.reshape] only. *)
Lemma type_loop_raises (nd : nat) (natoms : list nat) (dd_all : list (list R))
    (store : Stats.sys_stats -> nat -> Stats.type_stats -> Stats.sys_stats)
    (types : list nat) :
  Forall (fun t => (2 + t < length natoms)%nat) types ->
  forall (start : nat) (acc : Stats.sys_stats) (e : Py.exn),
    Stats.type_loop nd natoms dd_all store types start acc = Py.Raised e ->
    e = Py.ValueError.
Proof.
  induction 1 as [|t types Ht _ IH]; intros start acc e H; [discriminate|].
  cbn [Stats.type_loop] in H. rewrite (getitem_lt natoms (2 + t) 0%nat Ht) in H.
  cbn [Py.bind] in H.
  destruct (Stats.block_stats nd _) as [s|e1] eqn:Eb; cbn [Py.bind] in H.
  - exact (IH _ _ _ H).
  - inversion H; subst. exact (block_stats_raises _ _ _ Eb).
Qed.

(** [_compute_dstats_sys_smth] raises [ValueError], in both branches and
    before anything is computed, when [natoms_vec] does not have
    [ntypes + 2] entries: the session refuses the feed. With an operator
    that returns, its plain branch raises [ValueError] when [natoms_vec[0]]
    is zero, and raises nothing else: once the feed is accepted,
    [natoms[0]] and every [natoms[2 + type_i]] are there, and only
    [np.reshape] can fail. *)
Theorem compute_dstats_errors :
  forall (self : Sem.descrpt) (op : Sem.prod_env_mat) (data_coord data_box : list (list R))
         (data_atype : list (list Z)) (mesh : list Z),
    (forall (natoms_vec : list nat) (mixed_type : bool)
            (real_natoms_vec : option (list (list nat))),
       length natoms_vec <> (Sem.ntypes self + 2)%nat ->
       Stats._compute_dstats_sys_smth self op data_coord data_box data_atype natoms_vec mesh
         mixed_type real_natoms_vec = Py.Raised Py.ValueError) /\
    (forall rest : list nat,
       Stats._compute_dstats_sys_smth self op data_coord data_box data_atype (0%nat :: rest)
         mesh false None = Py.Raised Py.ValueError) /\
    (forall (natoms_vec : list nat) (e : Py.exn),
       Stats._compute_dstats_sys_smth self op data_coord data_box data_atype natoms_vec mesh
         false None = Py.Raised e ->
       e = Py.ValueError).
Proof.
  intros self op cc bb ty mm. unfold Stats._compute_dstats_sys_smth.
  split; [|split].
  - intros natoms mixed rv Hlen.
    destruct (Nat.eqb_spec (length natoms) (Sem.ntypes self + 2)) as [E|_];
      [contradiction|reflexivity].
  - intros rest.
    destruct (length (0%nat :: rest) =? Sem.ntypes self + 2)%nat; [|reflexivity].
    unfold Stats.dstats_of. cbn [Py.getitem nth_error Py.bind].
    now rewrite Nat.mul_0_r.
  - intros natoms e.
    destruct (Nat.eqb_spec (length natoms) (Sem.ntypes self + 2)) as [Hlen|_].
    2:{ intros H. now inversion H. }
    set (D := Sem.op_descrpt _). clearbody D. unfold Stats.dstats_of.
    rewrite (getitem_lt natoms 0 0%nat) by (rewrite Hlen, Nat.add_comm; apply Nat.lt_0_succ).
    cbn [Py.bind].
    destruct (Py.reshape_rows _ (concat D)) as [D'|e1] eqn:Er; cbn [Py.bind].
    + apply type_loop_raises. apply Forall_forall. intros t Ht.
      apply in_seq in Ht. rewrite Hlen.
      rewrite (Nat.add_comm (Sem.ntypes self) 2).
      apply Nat.add_lt_mono_l. exact (proj2 Ht).
    + intros H. inversion H; subst. exact (reshape_rows_raises _ _ _ Er).
Qed.

Lemma compute_dstats_errors_witness :
  Stats._compute_dstats_sys_smth StatsExamples.self_example Examples.op_example
    (Stats.s_coord StatsExamples.system_example) (Stats.s_box StatsExamples.system_example)
    (Stats.s_atype StatsExamples.system_example) [1; 1; 1]%nat [] false None
  = Py.Raised Py.ValueError.
Proof.
  apply (proj1 (compute_dstats_errors StatsExamples.self_example Examples.op_example
                  (Stats.s_coord StatsExamples.system_example)
                  (Stats.s_box StatsExamples.system_example)
                  (Stats.s_atype StatsExamples.system_example) [])
           [1; 1; 1]%nat false None).
  discriminate.
Defined.

(** When the operator treats the frames one by one, the statistics that
    the plain branch of [_compute_dstats_sys_smth] returns for the frames of
    two data sets together are the entrywise sums of those of each set. *)
Theorem compute_dstats_frames_additive :
  forall (self : Sem.descrpt) (op : Sem.prod_env_mat)
         (coordA coordB boxA boxB : list (list R)) (atypeA atypeB : list (list Z))
         (natoms_vec : list nat) (mesh : list Z) (sA sB : Stats.sys_stats),
    let avg_zero := repeat (repeat 0%R (Sem.ndescrpt self)) (Sem.ntypes self) in
    let std_ones := repeat (repeat 1%R (Sem.ndescrpt self)) (Sem.ntypes self) in
    Sem.op_descrpt (op (coordA ++ coordB) (atypeA ++ atypeB) natoms_vec (boxA ++ boxB) mesh
                      avg_zero std_ones)
    = Sem.op_descrpt (op coordA atypeA natoms_vec boxA mesh avg_zero std_ones)
      ++ Sem.op_descrpt (op coordB atypeB natoms_vec boxB mesh avg_zero std_ones) ->
    Stats._compute_dstats_sys_smth self op coordA boxA atypeA natoms_vec mesh false None
    = Py.Done sA ->
    Stats._compute_dstats_sys_smth self op coordB boxB atypeB natoms_vec mesh false None
    = Py.Done sB ->
    Stats._compute_dstats_sys_smth self op (coordA ++ coordB) (boxA ++ boxB)
      (atypeA ++ atypeB) natoms_vec mesh false None
    = Py.Done (Stats.add_sys sA sB).
Proof.
  intros self op cA cB bA bB tA tB natoms mm sA sB avg_zero std_ones Hop HA HB.
  unfold Stats._compute_dstats_sys_smth in *.
  destruct (length natoms =? Sem.ntypes self + 2)%nat; [|discriminate].
  fold avg_zero std_ones. rewrite Hop.
  fold avg_zero std_ones in HA, HB.
  set (A := Sem.op_descrpt (op cA tA natoms bA mm avg_zero std_ones)) in *.
  set (B := Sem.op_descrpt (op cB tB natoms bB mm avg_zero std_ones)) in *.
  clearbody A B. clear Hop. unfold Stats.dstats_of in *.
  destruct (Py.getitem natoms 0) as [n0|e]; [|discriminate]. cbn [Py.bind] in *.
  destruct (Py.reshape_rows (Sem.ndescrpt self * n0) (concat A)) as [A'|e] eqn:EA; [|discriminate].
  destruct (Py.reshape_rows (Sem.ndescrpt self * n0) (concat B)) as [B'|e] eqn:EB; [|discriminate].
  apply reshape_rows_done in EA. destruct EA as (Hk & HlA & ->).
  apply reshape_rows_done in EB. destruct EB as (_ & HlB & ->).
  cbn [Py.bind] in *.
  rewrite concat_app.
  rewrite (reshape_rows_ok _ (length (concat A) / (Sem.ndescrpt self * n0)
                              + length (concat B) / (Sem.ndescrpt self * n0)))
    by (rewrite ?length_app; lia).
  cbn [Py.bind]. rewrite (chunk_app _ _ _ _ _ HlA).
  apply (type_loop_append_app _ _ _ _ _ 0%nat
           {| Stats.sysr := []; Stats.sysr2 := []; Stats.sysa := []; Stats.sysa2 := [];
              Stats.sysn := [] |}
           {| Stats.sysr := []; Stats.sysr2 := []; Stats.sysa := []; Stats.sysa2 := [];
              Stats.sysn := [] |});
    [repeat split|assumption|assumption].
Qed.

Lemma compute_dstats_frames_additive_witness :
  exists sA sB : Stats.sys_stats,
    Stats._compute_dstats_sys_smth StatsExamples.self_example StatsExamples.op_per_frame
      [[0; 0; 0]%R] [Examples.box_example] [[0%Z]] StatsExamples.natoms_example [] false None
    = Py.Done sA /\
    Stats._compute_dstats_sys_smth StatsExamples.self_example StatsExamples.op_per_frame
      [[1; 0; 0]%R; [2; 0; 0]%R] [Examples.box_example; Examples.box_example] [[0%Z]; [0%Z]]
      StatsExamples.natoms_example [] false None
    = Py.Done sB /\
    Stats._compute_dstats_sys_smth StatsExamples.self_example StatsExamples.op_per_frame
      ([[0; 0; 0]%R] ++ [[1; 0; 0]%R; [2; 0; 0]%R])
      ([Examples.box_example] ++ [Examples.box_example; Examples.box_example])
      ([[0%Z]] ++ [[0%Z]; [0%Z]]) StatsExamples.natoms_example [] false None
    = Py.Done (Stats.add_sys sA sB).
Proof.
  eexists. eexists. split; [reflexivity|]. split; [reflexivity|].
  apply (compute_dstats_frames_additive StatsExamples.self_example StatsExamples.op_per_frame
           [[0; 0; 0]%R] [[1; 0; 0]%R; [2; 0; 0]%R] [Examples.box_example]
           [Examples.box_example; Examples.box_example] [[0%Z]] [[0%Z]; [0%Z]]
           StatsExamples.natoms_example []); reflexivity.
Defined.

(** *** [compute_input_stats] *)

Section ComputeInputStats.

Import Sem.

Lemma zip5_firstn (k : nat) :
  forall (dc db : list (list (list R))) (da : list (list (list Z))) (nv : list (list nat))
         (m : list (list Z)),
    Stats.zip5 (firstn k dc) (firstn k db) (firstn k da) (firstn k nv) (firstn k m)
    = firstn k (Stats.zip5 dc db da nv m).
Proof.
  induction k as [|k IH]; intros dc db da nv m.
  - reflexivity.
  - destruct dc, db, da, nv, m; try reflexivity.
    cbn [firstn Stats.zip5]. now rewrite IH.
Qed.

Lemma zip5_length (dc db : list (list (list R))) (da : list (list (list Z)))
    (nv : list (list nat)) (m : list (list Z)) :
  length (Stats.zip5 dc db da nv m)
  = Nat.min (length dc)
      (Nat.min (length db) (Nat.min (length da) (Nat.min (length nv) (length m)))).
Proof.
  revert db da nv m. induction dc as [|c dc IH]; intros db da nv m; [reflexivity|].
  destruct db, da, nv, m; cbn [Stats.zip5 length]; try (rewrite ?Nat.min_0_r; reflexivity).
  rewrite IH. reflexivity.
Qed.

Lemma zip5_app (dc db : list (list (list R))) (da : list (list (list Z)))
    (nv : list (list nat)) (m : list (list Z))
    (dc' db' : list (list (list R))) (da' : list (list (list Z)))
    (nv' : list (list nat)) (m' : list (list Z)) :
  length db = length dc -> length da = length dc -> length nv = length dc ->
  length m = length dc ->
  Stats.zip5 (dc ++ dc') (db ++ db') (da ++ da') (nv ++ nv') (m ++ m')
  = Stats.zip5 dc db da nv m ++ Stats.zip5 dc' db' da' nv' m'.
Proof.
  revert db da nv m. induction dc as [|c dc IH]; intros db da nv m H1 H2 H3 H4.
  - destruct db, da, nv, m; try discriminate. reflexivity.
  - destruct db, da, nv, m; try discriminate.
    cbn [app Stats.zip5]. f_equal. apply IH; simpl in *; lia.
Qed.

Lemma extend_stats_assoc (a b c : Stats.stat_dict) :
  Stats.extend_stats (Stats.extend_stats a b) c
  = Stats.extend_stats a (Stats.extend_stats b c).
Proof.
  unfold Stats.extend_stats.
  cbn [Stats.d_sumr Stats.d_suma Stats.d_sumn Stats.d_sumr2 Stats.d_suma2].
  now rewrite <- !app_assoc.
Qed.

Lemma extend_stats_nothing (a : Stats.stat_dict) :
  Stats.extend_stats a Stats.no_stats = a.
Proof.
  destruct a. unfold Stats.extend_stats, Stats.no_stats.
  cbn [Stats.d_sumr Stats.d_suma Stats.d_sumn Stats.d_sumr2 Stats.d_suma2].
  now rewrite !app_nil_r.
Qed.

Lemma push_stats_extend (a : Stats.stat_dict) (s : Stats.sys_stats) :
  Stats.push_stats a s = Stats.extend_stats a (Stats.push_stats Stats.no_stats s).
Proof. reflexivity. Qed.

Variable f : Stats.system -> option (list (list nat)) -> Py.res Stats.sys_stats.

(** The statistics collected from an accumulator are it, extended by those
    collected from nothing. *)
Lemma collect_from (l : list (Stats.system * option (list (list nat)))) :
  forall acc : Stats.stat_dict,
    Stats.collect f l acc
    = match Stats.collect f l Stats.no_stats with
      | Py.Done d => Py.Done (Stats.extend_stats acc d)
      | Py.Raised e => Py.Raised e
      end.
Proof.
  induction l as [|[s r] l IH]; intros acc.
  - cbn [Stats.collect]. now rewrite extend_stats_nothing.
  - cbn [Stats.collect]. destruct (f s r) as [st|e]; cbn [Py.bind]; [|reflexivity].
    rewrite (IH (Stats.push_stats acc st)), (IH (Stats.push_stats Stats.no_stats st)).
    destruct (Stats.collect f l Stats.no_stats) as [d|e]; [|reflexivity].
    now rewrite (push_stats_extend acc st), extend_stats_assoc.
Qed.

Lemma collect_app (l1 l2 : list (Stats.system * option (list (list nat)))) :
  forall acc : Stats.stat_dict,
    Stats.collect f (l1 ++ l2) acc
    = Py.bind (Stats.collect f l1 acc) (Stats.collect f l2).
Proof.
  induction l1 as [|[s r] l1 IH]; intros acc; [reflexivity|].
  cbn [app Stats.collect]. destruct (f s r) as [st|e]; cbn [Py.bind]; [|reflexivity].
  apply IH.
Qed.

(** The first system whose statistics fail decides the outcome. *)
Lemma collect_failure (pre post : list (Stats.system * option (list (list nat))))
    (s : Stats.system) (r : option (list (list nat))) (e : Py.exn) :
  Forall (fun p => exists st, f (fst p) (snd p) = Py.Done st) pre ->
  f s r = Py.Raised e ->
  forall acc, Stats.collect f (pre ++ (s, r) :: post) acc = Py.Raised e.
Proof.
  intros Hpre Hs. induction Hpre as [|[s' r'] pre (st & Hst) _ IH]; intros acc.
  - cbn [app Stats.collect]. now rewrite Hs.
  - cbn [app Stats.collect fst snd] in *. rewrite Hst. cbn [Py.bind]. apply IH.
Qed.

End ComputeInputStats.

(** [compute_input_stats] takes as many systems as the shortest of its five
    lists holds: what the longer lists hold beyond that is ignored. *)
Theorem compute_input_stats_truncates :
  forall (self : Sem.descrpt) (op : Sem.prod_env_mat) (o : Stats.stats_object)
         (data_coord data_box : list (list (list R))) (data_atype : list (list (list Z)))
         (natoms_vec : list (list nat)) (mesh : list (list Z)) (mixed_type : bool)
         (real_natoms_vec : option (list (list (list nat)))),
    let k := Nat.min (length data_coord)
               (Nat.min (length data_box)
                  (Nat.min (length data_atype)
                     (Nat.min (length natoms_vec) (length mesh)))) in
    Stats.compute_input_stats self op o (firstn k data_coord) (firstn k data_box)
      (firstn k data_atype) (firstn k natoms_vec) (firstn k mesh) mixed_type real_natoms_vec
    = Stats.compute_input_stats self op o data_coord data_box data_atype natoms_vec mesh
        mixed_type real_natoms_vec.
Proof.
  intros self op o dc db da nv m mixed r k. unfold Stats.compute_input_stats.
  rewrite zip5_firstn. unfold k. rewrite <- zip5_length, firstn_all. reflexivity.
Qed.

(** With [multi_task] set, two calls of [compute_input_stats] leave in
    [self.stat_dict] what one call on the systems of both leaves, and
    [merge_input_stats] is not called. *)
Theorem compute_input_stats_multi_task_accumulates :
  forall (self : Sem.descrpt) (op : Sem.prod_env_mat) (o o1 o2 : Stats.stats_object)
         (coordA boxA : list (list (list R))) (atypeA : list (list (list Z)))
         (natomsA : list (list nat)) (meshA : list (list Z))
         (coordB boxB : list (list (list R))) (atypeB : list (list (list Z)))
         (natomsB : list (list nat)) (meshB : list (list Z)),
    Stats.multi_task o = true ->
    length boxA = length coordA -> length atypeA = length coordA ->
    length natomsA = length coordA -> length meshA = length coordA ->
    Stats.compute_input_stats self op o coordA boxA atypeA natomsA meshA false None
    = (Py.Done tt, o1) ->
    Stats.compute_input_stats self op o1 coordB boxB atypeB natomsB meshB false None
    = (Py.Done tt, o2) ->
    Stats.compute_input_stats self op o (coordA ++ coordB) (boxA ++ boxB) (atypeA ++ atypeB)
      (natomsA ++ natomsB) (meshA ++ meshB) false None
    = (Py.Done tt, o2) /\
    Stats.merge_input_stats_calls o2 = Stats.merge_input_stats_calls o.
Proof.
  intros self op o o1 o2 cA bA tA nA mA cB bB tB nB mB Hmulti L1 L2 L3 L4 HA HB.
  unfold Stats.compute_input_stats in *.
  rewrite (zip5_app cA bA tA nA mA cB bB tB nB mB L1 L2 L3 L4), map_app.
  cbn [Py.bind] in *. rewrite collect_app.
  set (run := fun (s : Stats.system) (r_n : option (list (list nat))) =>
                Stats._compute_dstats_sys_smth self op (Stats.s_coord s) (Stats.s_box s)
                  (Stats.s_atype s) (Stats.s_natoms s) (Stats.s_mesh s) false r_n) in *.
  destruct (Stats.collect run (map (fun s => (s, None)) (Stats.zip5 cA bA tA nA mA))
              Stats.no_stats) as [dA|e] eqn:EA; [|discriminate].
  rewrite Hmulti in HA. cbn [negb] in HA. inversion HA; subst o1. clear HA.
  cbn [Stats.multi_task Stats.self_stat_dict Stats.merge_input_stats_calls] in HB.
  cbn [Py.bind]. rewrite (collect_from run _ dA).
  destruct (Stats.collect run (map (fun s => (s, None)) (Stats.zip5 cB bB tB nB mB))
              Stats.no_stats) as [dB|e] eqn:EB; [|discriminate].
  rewrite Hmulti in *. cbn [negb] in *. inversion HB; subst o2. clear HB.
  cbn [Stats.merge_input_stats_calls]. split; [|reflexivity].
  now rewrite extend_stats_assoc.
Qed.

(** When the statistics of one system fail and those of the systems before
    it do not, [compute_input_stats] raises what that system raises and
    leaves the object as it was: nothing is merged and [self.stat_dict] is
    not extended. *)
Theorem compute_input_stats_failure :
  forall (self : Sem.descrpt) (op : Sem.prod_env_mat) (o : Stats.stats_object)
         (data_coord data_box : list (list (list R))) (data_atype : list (list (list Z)))
         (natoms_vec : list (list nat)) (mesh : list (list Z))
         (pre post : list Stats.system) (s : Stats.system) (e : Py.exn),
    let run (s : Stats.system) :=
      Stats._compute_dstats_sys_smth self op (Stats.s_coord s) (Stats.s_box s)
        (Stats.s_atype s) (Stats.s_natoms s) (Stats.s_mesh s) false None in
    Stats.zip5 data_coord data_box data_atype natoms_vec mesh = pre ++ s :: post ->
    Forall (fun s' => exists st, run s' = Py.Done st) pre ->
    run s = Py.Raised e ->
    Stats.compute_input_stats self op o data_coord data_box data_atype natoms_vec mesh
      false None
    = (Py.Raised e, o).
Proof.
  intros self op o dc db da nv m pre post s e run Hzip Hpre Hs.
  unfold Stats.compute_input_stats. rewrite Hzip, map_app. cbn [map Py.bind].
  rewrite (collect_failure _ (map (fun s => (s, None)) pre) (map (fun s => (s, None)) post)
             s None e); [reflexivity| |exact Hs].
  apply Forall_forall. intros p Hp. apply in_map_iff in Hp. destruct Hp as (s' & <- & Hin).
  rewrite Forall_forall in Hpre. exact (Hpre s' Hin).
Qed.

Lemma compute_input_stats_multi_task_accumulates_witness :
  exists o2 : Stats.stats_object,
    Stats.compute_input_stats StatsExamples.self_example Examples.op_example
      (StatsExamples.object_example true)
      ([Stats.s_coord StatsExamples.system_example]
       ++ [Stats.s_coord StatsExamples.system_example])
      ([Stats.s_box StatsExamples.system_example]
       ++ [Stats.s_box StatsExamples.system_example])
      ([Stats.s_atype StatsExamples.system_example]
       ++ [Stats.s_atype StatsExamples.system_example])
      ([StatsExamples.natoms_example] ++ [StatsExamples.natoms_example])
      ([[]] ++ [[]]) false None
    = (Py.Done tt, o2) /\
    Stats.merge_input_stats_calls o2
    = Stats.merge_input_stats_calls (StatsExamples.object_example true).
Proof.
  eexists.
  eapply (compute_input_stats_multi_task_accumulates StatsExamples.self_example
            Examples.op_example (StatsExamples.object_example true) _ _
            [Stats.s_coord StatsExamples.system_example]
            [Stats.s_box StatsExamples.system_example]
            [Stats.s_atype StatsExamples.system_example]
            [StatsExamples.natoms_example] [[]]
            [Stats.s_coord StatsExamples.system_example]
            [Stats.s_box StatsExamples.system_example]
            [Stats.s_atype StatsExamples.system_example]
            [StatsExamples.natoms_example] [[]]
            eq_refl eq_refl eq_refl eq_refl eq_refl);
    reflexivity.
Defined.

Lemma compute_input_stats_failure_witness :
  Stats.compute_input_stats StatsExamples.self_example Examples.op_example
    (StatsExamples.object_example false)
    [Stats.s_coord StatsExamples.system_example; Stats.s_coord StatsExamples.system_example]
    [Stats.s_box StatsExamples.system_example; Stats.s_box StatsExamples.system_example]
    [Stats.s_atype StatsExamples.system_example; Stats.s_atype StatsExamples.system_example]
    [StatsExamples.natoms_example; [0; 0; 0; 0]%nat] [[]; []] false None
  = (Py.Raised Py.ValueError, StatsExamples.object_example false).
Proof.
  apply (compute_input_stats_failure StatsExamples.self_example Examples.op_example
           (StatsExamples.object_example false) _ _ _ _ _
           [StatsExamples.system_example] []
           {| Stats.s_coord := Stats.s_coord StatsExamples.system_example;
              Stats.s_box := Stats.s_box StatsExamples.system_example;
              Stats.s_atype := Stats.s_atype StatsExamples.system_example;
              Stats.s_natoms := [0; 0; 0; 0]%nat;
              Stats.s_mesh := [] |}
           Py.ValueError).
  - reflexivity.
  - constructor; [|constructor]. eexists. reflexivity.
  - reflexivity.
Defined.

(** ** Loading the variables of the attention layers *)

Section InitVariables.

Import Sem.
Local Open Scope string_scope.

Variables (variables : list (string * list R)) (suffix : string) (W L : nat).

(** What the dictionary holds for layer [i]. *)
Let bval (i : nat) : list R :=
  match Py.getkey variables (Variables.layer_key i suffix "beta") with
  | Py.Done v => v
  | Py.Raised _ => []
  end.
Let gval (i : nat) : list R :=
  match Py.getkey variables (Variables.layer_key i suffix "gamma") with
  | Py.Done v => v
  | Py.Raised _ => []
  end.

(** Both variables of layer [i] are in the dictionary, with [W] entries. *)
Let present (i : nat) : Prop :=
  (exists v, Py.getkey variables (Variables.layer_key i suffix "beta") = Py.Done v
             /\ length v = W) /\
  (exists v, Py.getkey variables (Variables.layer_key i suffix "gamma") = Py.Done v
             /\ length v = W).

(** The object holds the dictionary and arrays of [L] rows of [W]
    entries. *)
Let loaded (s : Variables.layer_norm) : Prop :=
  Variables.attention_layer_variables s = Some variables /\
  length (Variables.beta s) = L /\ length (Variables.gamma s) = L /\
  Forall (fun row => length row = W) (Variables.beta s) /\
  Forall (fun row => length row = W) (Variables.gamma s).

(** The assignments of one layer. *)
Let body (i : nat) : Variables.M unit :=
  Variables.bind
    (Variables.bind (Variables.variable (Variables.layer_key i suffix "beta"))
       (fun v => Variables.set_beta i v))
    (fun _ =>
       Variables.bind (Variables.variable (Variables.layer_key i suffix "gamma"))
         (fun v => Variables.set_gamma i v)).

Lemma set_row_ok (a : list (list R)) (i : nat) (v : list R) :
  (i < length a)%nat -> Forall (fun row => length row = W) a -> length v = W ->
  Variables.set_row a i v = Py.Done (Py.setitem a i v).
Proof.
  intros Hi Ha Hv. unfold Variables.set_row.
  rewrite (nth_error_nth' a [] Hi).
  rewrite Forall_forall in Ha. rewrite (Ha (nth i a []) (nth_In a [] Hi)), Hv.
  now rewrite Nat.eqb_refl.
Qed.

Lemma Forall_setitem {A : Type} (Pr : A -> Prop) (l : list A) (i : nat) (v : A) :
  Forall Pr l -> Pr v -> Forall Pr (Py.setitem l i v).
Proof.
  intros Hl Hv. revert i. induction Hl as [|x l Hx Hl IH]; intros [|i]; simpl;
    constructor; auto.
Qed.

Lemma body_ok (i : nat) (s : Variables.layer_norm) :
  loaded s -> (i < L)%nat -> present i ->
  body i s
  = (Py.Done tt,
     {| Variables.attention_layer_variables := Some variables;
        Variables.beta := Py.setitem (Variables.beta s) i (bval i);
        Variables.gamma := Py.setitem (Variables.gamma s) i (gval i) |}).
Proof.
  intros (Hv & Hb & Hg & Hbw & Hgw) Hi ((vb & Ekb & Lb) & (vg & Ekg & Lg)).
  unfold body, Variables.bind, Variables.variable, Variables.set_beta, Variables.set_gamma.
  rewrite Hv, Ekb. rewrite (set_row_ok _ i vb) by (assumption || lia).
  cbn [Variables.attention_layer_variables Variables.beta Variables.gamma].
  rewrite Hv, Ekg.
  cbn [Variables.attention_layer_variables Variables.beta Variables.gamma].
  rewrite (set_row_ok _ i vg) by (assumption || lia).
  cbn [Variables.attention_layer_variables Variables.beta Variables.gamma].
  unfold bval, gval. now rewrite ?Hv, Ekb, Ekg.
Qed.

Lemma body_loaded (i : nat) (s : Variables.layer_norm) :
  loaded s -> present i ->
  loaded {| Variables.attention_layer_variables := Some variables;
            Variables.beta := Py.setitem (Variables.beta s) i (bval i);
            Variables.gamma := Py.setitem (Variables.gamma s) i (gval i) |}.
Proof.
  intros (Hv & Hb & Hg & Hbw & Hgw) ((vb & Ekb & Lb) & (vg & Ekg & Lg)).
  unfold loaded. cbn [Variables.attention_layer_variables Variables.beta Variables.gamma].
  rewrite !length_setitem. repeat (split; [assumption || reflexivity|]).
  split; apply Forall_setitem; try assumption; unfold bval, gval;
    rewrite ?Ekb, ?Ekg; assumption.
Qed.

(** The loop over the layers [t], ..., [t + k - 1] when their variables are
    in the dictionary. *)
Lemma layers_ok (k : nat) :
  forall (t : nat) (s : Variables.layer_norm),
    loaded s -> (t + k <= L)%nat ->
    (forall i, (t <= i < t + k)%nat -> present i) ->
    exists s',
      Variables.for_each (seq t k) body s = (Py.Done tt, s') /\
      loaded s' /\
      forall i,
        nth i (Variables.beta s') []
        = (if ((t <=? i) && (i <? t + k))%nat then bval i else nth i (Variables.beta s) []) /\
        nth i (Variables.gamma s') []
        = (if ((t <=? i) && (i <? t + k))%nat then gval i else nth i (Variables.gamma s) []).
Proof.
  induction k as [|k IH]; intros t s Hs Htk Hpres.
  - exists s. split; [reflexivity|]. split; [assumption|]. intros i.
    destruct (Nat.leb_spec t i), (Nat.ltb_spec i (t + 0)); cbn [andb];
      try (split; reflexivity); lia.
  - cbn [seq Variables.for_each]. unfold Variables.bind at 1.
    rewrite (body_ok t s Hs ltac:(lia) (Hpres t ltac:(lia))).
    destruct (IH (S t) _ (body_loaded t s Hs (Hpres t ltac:(lia))) ltac:(lia)
                ltac:(intros i Hi; apply Hpres; lia)) as (s' & Hrun & Hs' & Hnth).
    exists s'. split; [exact Hrun|]. split; [exact Hs'|]. intros i.
    destruct (Hnth i) as [Hb Hg]. rewrite Hb, Hg.
    cbn [Variables.beta Variables.gamma].
    destruct Hs as (_ & Lb & Lg & _ & _).
    rewrite !nth_setitem by lia.
    destruct (Nat.eqb_spec i t) as [->|Hne].
    + destruct (Nat.leb_spec (S t) t), (Nat.ltb_spec t (S t + k)),
        (Nat.leb_spec t t), (Nat.ltb_spec t (t + S k)); cbn [andb];
        try (split; reflexivity); lia.
    + destruct (Nat.leb_spec (S t) i), (Nat.ltb_spec i (S t + k)),
        (Nat.leb_spec t i), (Nat.ltb_spec i (t + S k)); cbn [andb];
        try (split; reflexivity); lia.
Qed.

(** The loop stops at the first layer whose [beta] is not in the
    dictionary; the rows of the layers before it are already written. *)
Lemma layers_fail (j : nat) (e : Py.exn) (k : nat) :
  forall (t : nat) (s : Variables.layer_norm),
    loaded s -> (t <= j)%nat -> (j < t + k)%nat -> (t + k <= L)%nat ->
    (forall i, (t <= i < j)%nat -> present i) ->
    Py.getkey variables (Variables.layer_key j suffix "beta") = Py.Raised e ->
    exists s',
      Variables.for_each (seq t k) body s = (Py.Raised e, s') /\
      Variables.attention_layer_variables s' = Some variables /\
      forall i,
        nth i (Variables.beta s') []
        = (if ((t <=? i) && (i <? j))%nat then bval i else nth i (Variables.beta s) []) /\
        nth i (Variables.gamma s') []
        = (if ((t <=? i) && (i <? j))%nat then gval i else nth i (Variables.gamma s) []).
Proof.
  induction k as [|k IH]; intros t s Hs Htj Hjk HkL Hpres Hmiss; [lia|].
  cbn [seq Variables.for_each]. unfold Variables.bind at 1.
  destruct (Nat.eq_dec t j) as [->|Hne].
  - exists s. destruct Hs as (Hv & _).
    split.
    + unfold body, Variables.bind, Variables.variable. now rewrite Hv, Hmiss.
    + split; [assumption|]. intros i.
      destruct (Nat.leb_spec j i), (Nat.ltb_spec i j); cbn [andb];
        try (split; reflexivity); lia.
  - rewrite (body_ok t s Hs ltac:(lia) (Hpres t ltac:(lia))).
    destruct (IH (S t) _ (body_loaded t s Hs (Hpres t ltac:(lia))) ltac:(lia) ltac:(lia)
                ltac:(lia) ltac:(intros i Hi; apply Hpres; lia) Hmiss)
      as (s' & Hrun & Hv' & Hnth).
    exists s'. split; [exact Hrun|]. split; [exact Hv'|]. intros i.
    destruct (Hnth i) as [Hb Hg]. rewrite Hb, Hg.
    cbn [Variables.beta Variables.gamma].
    destruct Hs as (_ & Lb & Lg & _ & _).
    rewrite !nth_setitem by lia.
    destruct (Nat.eqb_spec i t) as [->|Hni].
    + destruct (Nat.leb_spec (S t) t), (Nat.ltb_spec t j), (Nat.leb_spec t t);
        cbn [andb]; try (split; reflexivity); lia.
    + destruct (Nat.leb_spec (S t) i), (Nat.ltb_spec i j), (Nat.leb_spec t i);
        cbn [andb]; try (split; reflexivity); lia.
Qed.

Lemma bind_assoc {A B C : Type} (c : Variables.M A) (f : A -> Variables.M B)
    (g : B -> Variables.M C) (s : Variables.layer_norm) :
  Variables.bind (Variables.bind c f) g s
  = Variables.bind c (fun a => Variables.bind (f a) g) s.
Proof.
  unfold Variables.bind. destruct (c s) as [[a|e] s']; reflexivity.
Qed.

Lemma bind_ext {A B : Type} (c : Variables.M A) (f g : A -> Variables.M B)
    (s : Variables.layer_norm) :
  (forall a s', f a s' = g a s') -> Variables.bind c f s = Variables.bind c g s.
Proof.
  intros Hfg. unfold Variables.bind. destruct (c s) as [[a|e] s']; [apply Hfg|reflexivity].
Qed.

Lemma for_each_ext (body1 body2 : nat -> Variables.M unit) (l : list nat) :
  (forall i s, In i l -> body1 i s = body2 i s) ->
  forall s, Variables.for_each l body1 s = Variables.for_each l body2 s.
Proof.
  induction l as [|i l IH]; intros Hext s; [reflexivity|].
  cbn [Variables.for_each]. unfold Variables.bind.
  rewrite (Hext i s (or_introl eq_refl)).
  destruct (body2 i s) as [[[]|e] s']; [|reflexivity].
  apply IH. intros i' s'' Hin. apply Hext. now right.
Qed.

(** [init_variables] stores the dictionary and then runs the assignments
    of the layers in their order. *)
Lemma init_variables_loop (self : descrpt) (s : Variables.layer_norm) :
  attn_layer self = L ->
  Variables.init_variables self variables suffix s
  = Variables.for_each (seq 0 L) body
      {| Variables.attention_layer_variables := Some variables;
         Variables.beta := Variables.beta s;
         Variables.gamma := Variables.gamma s |}.
Proof.
  intros HL. rewrite <- HL. unfold Variables.init_variables.
  unfold Variables.bind at 1.
  destruct (attn_layer self) as [|L']; [reflexivity|].
  cbn [Nat.ltb Nat.leb seq Variables.for_each].
  replace (S L' - 1)%nat with L' by lia.
  set (s0 := {| Variables.attention_layer_variables := Some variables;
                Variables.beta := Variables.beta s;
                Variables.gamma := Variables.gamma s |}).
  unfold body at 1. cbn [Variables.layer_key].
  set (A := Variables.bind (Variables.variable (Variables.first_layer_key suffix "beta"))
              (fun v => Variables.set_beta 0 v)).
  set (B := Variables.bind (Variables.variable (Variables.first_layer_key suffix "gamma"))
              (fun v => Variables.set_gamma 0 v)).
  rewrite (bind_assoc A (fun _ => B)).
  apply bind_ext. intros _ s1. apply bind_ext. intros _ s2.
  apply for_each_ext. intros i s' Hin. apply in_seq in Hin.
  unfold body. destruct i as [|i]; [lia|]. reflexivity.
Qed.

End InitVariables.

(** When the dictionary holds, for every attention layer, a [beta] and a
    [gamma] of the width of the rows, [init_variables] returns and every row
    of [self.beta] and of [self.gamma] is the variable of its layer: layer 0
    under [attention_layer_0<suffix>/layer_normalization], layer [i >= 1]
    under [attention_layer_<i><suffix>/layer_normalization_<i>]. *)
Theorem init_variables_loads :
  forall (self : Sem.descrpt) (s : Variables.layer_norm)
         (variables : list (string * list R)) (suffix : string) (W : nat),
    length (Variables.beta s) = Sem.attn_layer self ->
    length (Variables.gamma s) = Sem.attn_layer self ->
    Forall (fun row => length row = W) (Variables.beta s) ->
    Forall (fun row => length row = W) (Variables.gamma s) ->
    (forall i, (i < Sem.attn_layer self)%nat ->
       (exists v, Py.getkey variables (Variables.layer_key i suffix "beta") = Py.Done v
                  /\ length v = W) /\
       (exists v, Py.getkey variables (Variables.layer_key i suffix "gamma") = Py.Done v
                  /\ length v = W)) ->
    exists s',
      Variables.init_variables self variables suffix s = (Py.Done tt, s') /\
      Variables.attention_layer_variables s' = Some variables /\
      length (Variables.beta s') = Sem.attn_layer self /\
      length (Variables.gamma s') = Sem.attn_layer self /\
      forall i, (i < Sem.attn_layer self)%nat ->
        Py.getkey variables (Variables.layer_key i suffix "beta")
        = Py.Done (nth i (Variables.beta s') []) /\
        Py.getkey variables (Variables.layer_key i suffix "gamma")
        = Py.Done (nth i (Variables.gamma s') []).
Proof.
  intros self s variables suffix W Lb Lg Wb Wg Hpres.
  rewrite (init_variables_loop variables suffix (Sem.attn_layer self) self s eq_refl).
  destruct (layers_ok variables suffix W (Sem.attn_layer self) (Sem.attn_layer self) 0%nat
              {| Variables.attention_layer_variables := Some variables;
                 Variables.beta := Variables.beta s;
                 Variables.gamma := Variables.gamma s |})
    as (s' & Hrun & (Hv & Lb' & Lg' & _) & Hnth).
  - repeat split; assumption.
  - lia.
  - intros i Hi. apply Hpres. lia.
  - exists s'. repeat (split; [assumption|]). intros i Hi.
    destruct (Hnth i) as [Hb Hg]. rewrite Hb, Hg.
    destruct (Nat.leb_spec 0 i), (Nat.ltb_spec i (0 + Sem.attn_layer self)); cbn [andb];
      try lia.
    destruct (Hpres i Hi) as ((vb & Ekb & _) & (vg & Ekg & _)).
    now rewrite Ekb, Ekg.
Qed.

Lemma init_variables_loads_witness :
  exists s',
    Variables.init_variables (AttentionExamples.descrpt_attention true)
      AttentionExamples.variables_example "" AttentionExamples.layer_norm_example
    = (Py.Done tt, s') /\
    Py.getkey AttentionExamples.variables_example (Variables.layer_key 1 "" "beta")
    = Py.Done (nth 1 (Variables.beta s') []).
Proof.
  destruct (init_variables_loads (AttentionExamples.descrpt_attention true)
              AttentionExamples.layer_norm_example AttentionExamples.variables_example ""
              1%nat eq_refl eq_refl)
    as (s' & Hrun & _ & _ & _ & Hall).
  - repeat constructor.
  - repeat constructor.
  - intros [|[|i]] Hi.
    + split; eexists; split; reflexivity.
    + split; eexists; split; reflexivity.
    + exfalso. cbn [Sem.attn_layer AttentionExamples.descrpt_attention] in Hi.
      exact (Nat.nlt_0_r _ (proj2 (Nat.succ_lt_mono _ _) (proj2 (Nat.succ_lt_mono _ _) Hi))).
  - exists s'. split; [exact Hrun|].
    exact (proj1 (Hall 1%nat (Nat.lt_succ_diag_r 1))).
Defined.

(** When the [beta] of layer [j] is the first variable that the
    dictionary lacks, [init_variables] raises [KeyError] with its name after
    it has stored the dictionary and written the rows of the layers before
    [j]: the rows from [j] on are as they were. *)
Theorem init_variables_missing_beta :
  forall (self : Sem.descrpt) (s : Variables.layer_norm)
         (variables : list (string * list R)) (suffix : string) (W j : nat),
    length (Variables.beta s) = Sem.attn_layer self ->
    length (Variables.gamma s) = Sem.attn_layer self ->
    Forall (fun row => length row = W) (Variables.beta s) ->
    Forall (fun row => length row = W) (Variables.gamma s) ->
    (j < Sem.attn_layer self)%nat ->
    (forall i, (i < j)%nat ->
       (exists v, Py.getkey variables (Variables.layer_key i suffix "beta") = Py.Done v
                  /\ length v = W) /\
       (exists v, Py.getkey variables (Variables.layer_key i suffix "gamma") = Py.Done v
                  /\ length v = W)) ->
    Py.getkey variables (Variables.layer_key j suffix "beta")
    = Py.Raised (Py.KeyError (Variables.layer_key j suffix "beta")) ->
    exists s',
      Variables.init_variables self variables suffix s
      = (Py.Raised (Py.KeyError (Variables.layer_key j suffix "beta")), s') /\
      Variables.attention_layer_variables s' = Some variables /\
      (forall i, (i < j)%nat ->
         Py.getkey variables (Variables.layer_key i suffix "beta")
         = Py.Done (nth i (Variables.beta s') []) /\
         Py.getkey variables (Variables.layer_key i suffix "gamma")
         = Py.Done (nth i (Variables.gamma s') [])) /\
      (forall i, (j <= i)%nat ->
         nth i (Variables.beta s') [] = nth i (Variables.beta s) [] /\
         nth i (Variables.gamma s') [] = nth i (Variables.gamma s) []).
Proof.
  intros self s variables suffix W j Lb Lg Wb Wg Hj Hpres Hmiss.
  rewrite (init_variables_loop variables suffix (Sem.attn_layer self) self s eq_refl).
  destruct (layers_fail variables suffix W (Sem.attn_layer self) j
              (Py.KeyError (Variables.layer_key j suffix "beta")) (Sem.attn_layer self)
              0%nat
              {| Variables.attention_layer_variables := Some variables;
                 Variables.beta := Variables.beta s;
                 Variables.gamma := Variables.gamma s |})
    as (s' & Hrun & Hv & Hnth).
  - repeat split; assumption.
  - lia.
  - lia.
  - lia.
  - intros i Hi. apply Hpres. lia.
  - exact Hmiss.
  - exists s'. split; [exact Hrun|]. split; [exact Hv|]. split.
    + intros i Hi. destruct (Hnth i) as [Hb Hg]. rewrite Hb, Hg.
      destruct (Nat.leb_spec 0 i), (Nat.ltb_spec i j); cbn [andb]; try lia.
      destruct (Hpres i Hi) as ((vb & Ekb & _) & (vg & Ekg & _)).
      now rewrite Ekb, Ekg.
    + intros i Hi. destruct (Hnth i) as [Hb Hg]. rewrite Hb, Hg.
      destruct (Nat.leb_spec 0 i), (Nat.ltb_spec i j); cbn [andb]; try lia.
      split; reflexivity.
Qed.

Lemma init_variables_missing_beta_witness :
  exists s',
    Variables.init_variables (AttentionExamples.descrpt_attention true)
      (firstn 2 AttentionExamples.variables_example) "" AttentionExamples.layer_norm_example
    = (Py.Raised (Py.KeyError "attention_layer_1/layer_normalization_1/beta"), s') /\
    nth 1 (Variables.beta s') []
    = nth 1 (Variables.beta AttentionExamples.layer_norm_example) [].
Proof.
  destruct (init_variables_missing_beta (AttentionExamples.descrpt_attention true)
              AttentionExamples.layer_norm_example
              (firstn 2 AttentionExamples.variables_example) "" 1%nat 1%nat eq_refl eq_refl)
    as (s' & Hrun & _ & _ & Hrest).
  - repeat constructor.
  - repeat constructor.
  - apply Nat.lt_succ_diag_r.
  - intros [|i] Hi.
    + split; eexists; split; reflexivity.
    + exfalso. exact (Nat.nlt_0_r _ (proj2 (Nat.succ_lt_mono _ _) Hi)).
  - reflexivity.
  - exists s'. split; [exact Hrun|]. exact (proj1 (Hrest 1%nat (le_n 1))).
Defined.

(** ** The concatenated type embedding *)

Section LookupTypeEmbedding.

Import Sem.

Lemma concat_columns_ok (x y : list (list R)) :
  length x = length y -> Lookup.concat_columns x y = Ok (zipWith (@app R) x y).
Proof. intros H. unfold Lookup.concat_columns. now rewrite H, Nat.eqb_refl. Qed.

Lemma tiled_rows (nei : nat) (rows : list (list R)) :
  concat (map (tile nei) rows) = concat (flat_map (fun r => repeat r nei) rows).
Proof.
  unfold tile. rewrite flat_map_concat_map, <- concat_map_concat. now rewrite map_map.
Qed.

Lemma Forall_flat_repeat {A : Type} (Pr : A -> Prop) (k : nat) (l : list A) :
  Forall Pr l -> Forall Pr (flat_map (fun r => repeat r k) l).
Proof.
  intros H. apply Forall_forall. intros x Hx. apply in_flat_map in Hx.
  destruct Hx as (r & Hr & Hin). apply repeat_spec in Hin. subst x.
  rewrite Forall_forall in H. now apply H.
Qed.

Lemma Forall_lookup_rows (Y : nat) (te : list (list R)) (ids : list Z) :
  Forall (fun row => length row = Y) te ->
  Forall (fun t => (0 <= t < Z.of_nat (length te))%Z) ids ->
  Forall (fun row => length row = Y) (map (fun t => nth (Z.to_nat t) te []) ids).
Proof.
  intros Hte Hids. apply Forall_forall. intros row Hrow. apply in_map_iff in Hrow.
  destruct Hrow as (t & <- & Ht). rewrite Forall_forall in Hte, Hids.
  apply Hte, nth_In. specialize (Hids t Ht). lia.
Qed.

End LookupTypeEmbedding.

(** [_lookup_type_embedding] returns, for the neighbor slot [k] of a
    batch, its radial entry followed by the type embedding of its neighbor
    type and, in two-sided mode, by the type embedding of the center type of
    the atom [k / nnei] that holds the slot. *)
Theorem lookup_type_embedding_rows :
  forall (self : Sem.descrpt) (e : Sem.env) (Y : nat) (xyz_scatter : list (list R))
         (natype : list Z) (type_embedding : list (list R)),
    (0 < Y)%nat -> (0 < Sem.nnei self)%nat ->
    Forall (fun row => length row = Y) type_embedding ->
    length (Sem.nei_type_vec e) = (length natype * Sem.nnei self)%nat ->
    length xyz_scatter = (length natype * Sem.nnei self)%nat ->
    Forall (fun t => (0 <= t < Z.of_nat (length type_embedding))%Z) (Sem.nei_type_vec e) ->
    Forall (fun t => (0 <= t < Z.of_nat (length type_embedding))%Z) natype ->
    exists out : list (list R),
      Lookup._lookup_type_embedding self e Y xyz_scatter natype type_embedding = Ok out /\
      length out = (length natype * Sem.nnei self)%nat /\
      forall k : nat,
        (k < length natype * Sem.nnei self)%nat ->
        nth k out []
        = nth k xyz_scatter []
          ++ nth (Z.to_nat (nth k (Sem.nei_type_vec e) 0%Z)) type_embedding []
          ++ (if Sem.type_one_side self then []
              else nth (Z.to_nat (nth (k / Sem.nnei self) natype 0%Z)) type_embedding []).
Proof.
  intros self e Y xyz natype te HY Hnnei Hte Hnei Hxyz Hids Hcen.
  set (N := (length natype * Sem.nnei self)%nat) in *.
  unfold Lookup._lookup_type_embedding.
  rewrite (mapM_lookup_ok te (Sem.nei_type_vec e) [] Hids). cbn [rbind].
  set (nei_rows := map (fun t => nth (Z.to_nat t) te []) (Sem.nei_type_vec e)).
  assert (Hnr : Forall (fun row => length row = Y) nei_rows)
    by now apply Forall_lookup_rows.
  assert (Hnl : length nei_rows = N) by (unfold nei_rows; now rewrite length_map).
  rewrite (reshape2_infer_ok Y N)
    by (assumption || (rewrite (length_concat_uniform Y _ Hnr); lia)).
  cbn [rbind].
  replace (chunk Y N (concat nei_rows)) with nei_rows
    by (rewrite <- Hnl; symmetry; apply chunk_concat, Hnr).
  rewrite concat_columns_ok by lia. cbn [rbind].
  assert (Hnei_row : forall k, (k < N)%nat ->
            nth k nei_rows [] = nth (Z.to_nat (nth k (Sem.nei_type_vec e) 0%Z)) te []).
  { intros k Hk. unfold nei_rows.
    now rewrite (nth_map_lt _ (Sem.nei_type_vec e) k 0%Z []) by lia. }
  destruct (Sem.type_one_side self); cbn [negb].
  - eexists. split; [reflexivity|]. split; [rewrite length_zipWith; lia|].
    intros k Hk.
    rewrite (nth_zipWith _ _ _ k [] [] []) by lia.
    now rewrite Hnei_row, app_nil_r.
  - rewrite (mapM_lookup_ok te natype [] Hcen). cbn [rbind].
    set (atm := map (fun t => nth (Z.to_nat t) te []) natype).
    assert (Har : Forall (fun row => length row = Y) atm) by now apply Forall_lookup_rows.
    assert (Hal : length atm = length natype) by (unfold atm; now rewrite length_map).
    set (X := flat_map (fun r => repeat r (Sem.nnei self)) atm).
    assert (HXr : Forall (fun row => length row = Y) X) by now apply Forall_flat_repeat.
    assert (HXl : length X = N).
    { unfold X. rewrite length_flat_repeat, Hal. unfold N. lia. }
    rewrite tiled_rows. fold X.
    rewrite (reshape2_infer_ok Y N)
      by (assumption || (rewrite (length_concat_uniform Y _ HXr); lia)).
    cbn [rbind].
    replace (chunk Y N (concat X)) with X
      by (rewrite <- HXl; symmetry; apply chunk_concat, HXr).
    rewrite concat_columns_ok by (rewrite length_zipWith; lia).
    eexists. split; [reflexivity|]. split; [rewrite !length_zipWith; lia|].
    intros k Hk.
    rewrite (nth_zipWith _ _ _ k [] [] []) by (rewrite ?length_zipWith; lia).
    rewrite (nth_zipWith _ _ _ k [] [] []) by lia.
    rewrite Hnei_row by assumption. rewrite <- app_assoc. do 2 f_equal.
    unfold X.
    rewrite (Nat.div_mod_eq k (Sem.nnei self)) at 1.
    rewrite (nth_flat_repeat (Sem.nnei self) atm (k / Sem.nnei self) (k mod Sem.nnei self) [])
      by (apply Nat.mod_upper_bound; lia).
    unfold atm.
    rewrite (nth_map_lt _ natype (k / Sem.nnei self) 0%Z []); [reflexivity|].
    apply Nat.Div0.div_lt_upper_bound. unfold N in Hk. lia.
Qed.

Lemma lookup_type_embedding_rows_witness :
  exists out : list (list R),
    Lookup._lookup_type_embedding (Examples.descrpt_example false false []) Examples.env_example
      1 [[1]; [2]; [1]; [1]]%R [0; 1]%Z Examples.type_embedding_example = Ok out /\
    nth 2 out [] = [1; 0; 1]%R.
Proof.
  destruct (lookup_type_embedding_rows (Examples.descrpt_example false false [])
              Examples.env_example 1 [[1]; [2]; [1]; [1]]%R [0; 1]%Z
              Examples.type_embedding_example (Nat.lt_0_succ 0) (Nat.lt_0_succ 1))
    as (out & Hout & _ & Hrows).
  - repeat constructor.
  - reflexivity.
  - reflexivity.
  - repeat constructor; discriminate.
  - repeat constructor; discriminate.
  - exists out. split; [exact Hout|].
    exact (Hrows 2%nat (le_S 3 3 (le_n 3))).
Defined.

(** ** The diagonal mask of the attention weights *)

(** With the diagonal mask ([attn_mask]), the weight of a neighbor slot on
    itself is zero, and the row that [_scaled_dot_attn] returns for the slot
    does not depend on the value vector of the slot itself. *)
Theorem attn_mask_no_self_attention :
  forall (fexp : R -> R) (nei d : nat) (m neg : list R) (Q K V V' input_r : list (list R))
         (T : R) (dotr : bool) (i : nat),
    length m = nei -> length neg = nei -> (i < nei)%nat ->
    (forall j, j <> i -> nth j V' [] = nth j V []) ->
    Sem.entry (Sem.attn_final fexp nei d m neg Q K T input_r dotr true) i i = 0%R /\
    nth i (Sem.matmul false false nei nei d
             (Sem.attn_final fexp nei d m neg Q K T input_r dotr true) V') []
    = nth i (Sem.matmul false false nei nei d
               (Sem.attn_final fexp nei d m neg Q K T input_r dotr true) V) [].
Proof.
  intros fexp nei d m neg Q K V V' r T dotr i Hm Hneg Hi HV.
  assert (Hdiag : Sem.entry (Sem.attn_final fexp nei d m neg Q K T r dotr true) i i = 0%R).
  { rewrite attn_final_entry by assumption. rewrite Nat.eqb_refl. lra. }
  split; [exact Hdiag|].
  unfold Sem.matmul.
  rewrite !(nth_map_seq _ _ i [] Hi).
  apply map_ext_in. intros c _. apply big_sum_ext. intros t Ht.
  destruct (Nat.eq_dec t i) as [->|Hne].
  - rewrite Hdiag. lra.
  - unfold Sem.entry at 2 4. now rewrite (HV t Hne).
Qed.

Lemma attn_mask_no_self_attention_witness :
  nth 0 (Sem.matmul false false 2 2 1
           (Sem.attn_final exp 2 1 [1; 1]%R [0; 0]%R [[1]; [1]]%R [[1]; [1]]%R 1%R
              [[1; 0; 0]; [1; 0; 0]]%R true true) [[5]; [7]]%R) []
  = nth 0 (Sem.matmul false false 2 2 1
             (Sem.attn_final exp 2 1 [1; 1]%R [0; 0]%R [[1]; [1]]%R [[1]; [1]]%R 1%R
                [[1; 0; 0]; [1; 0; 0]]%R true true) [[9]; [7]]%R) [].
Proof.
  apply (attn_mask_no_self_attention exp 2 1 [1; 1]%R [0; 0]%R [[1]; [1]]%R [[1]; [1]]%R
           [[9]; [7]]%R [[5]; [7]]%R [[1; 0; 0]; [1; 0; 0]]%R 1%R true 0%nat eq_refl eq_refl
           (Nat.lt_0_succ 1)).
  intros [|[|j]] Hj; [exfalso; apply Hj; reflexivity|reflexivity|reflexivity].
Defined.

(** ** Failures of the type-exclusion mask *)

Lemma lookup1_raises {A : Type} (params : list A) (z : Z) :
  ~ (0 <= z < Z.of_nat (length params))%Z -> lookup1 params z = Raise InvalidArgumentError.
Proof.
  intros Hz. unfold lookup1. destruct (Z.ltb_spec z 0) as [Hneg|Hpos]; [reflexivity|].
  rewrite (proj2 (nth_error_None params (Z.to_nat z))); [reflexivity|]. lia.
Qed.

Lemma lookup1_cases {A : Type} (params : list A) (z : Z) :
  (exists x, lookup1 params z = Ok x) \/ lookup1 params z = Raise InvalidArgumentError.
Proof.
  unfold lookup1. destruct (z <? 0)%Z; [now right|].
  destruct (nth_error params (Z.to_nat z)) as [x|]; [left; now exists x|now right].
Qed.

Lemma embedding_lookup_raises {A : Type} (params : list A) (ids : list Z) (z : Z) :
  In z ids -> ~ (0 <= z < Z.of_nat (length params))%Z ->
  embedding_lookup params ids = Raise InvalidArgumentError.
Proof.
  intros Hin Hz. unfold embedding_lookup.
  induction ids as [|t ids IH]; [contradiction|].
  cbn [mapM]. destruct (lookup1_cases params t) as [(x & Hx)|Hx]; rewrite Hx; [|reflexivity].
  destruct Hin as [->|Hin].
  - rewrite (lookup1_raises params z Hz) in Hx. discriminate.
  - now rewrite (IH Hin).
Qed.

(** [build_type_exclude_mask] raises [IndexError] for an empty [sel] and
    [ZeroDivisionError] when [sel[0]] is zero, whatever the tensors are:
    both come from Python expressions evaluated while the graph is made.
    On well-shaped tensors its gather fails, as the CPU kernel of
    [tf.nn.embedding_lookup] does on an index outside the table, when the
    type of a center atom is outside [0 .. ntypes - 1] and the index of that
    atom fits in 32 bits. *)
Theorem build_type_exclude_mask_errors :
  (forall (exclude_types : list (Z * Z)) (ntypes ndescrpt shape0 : nat)
          (atype nei_type_vec : list Z),
     build_type_exclude_mask exclude_types ntypes [] ndescrpt atype shape0 nei_type_vec
     = Raise IndexError) /\
  (forall (exclude_types : list (Z * Z)) (ntypes ndescrpt shape0 : nat) (sel_rest : list nat)
          (atype nei_type_vec : list Z),
     build_type_exclude_mask exclude_types ntypes (0%nat :: sel_rest) ndescrpt atype shape0
       nei_type_vec
     = Raise ZeroDivisionError) /\
  (forall (exclude_types : list (Z * Z)) (ntypes sel0 : nat) (sel_rest : list nat)
          (atype nei_type_vec : list Z) (i : nat),
     (0 < sel0)%nat ->
     length nei_type_vec = (length atype * sel0)%nat ->
     Forall (fun t => (0 <= t <= Z.of_nat ntypes)%Z) nei_type_vec ->
     (i < length atype)%nat ->
     (nth i atype 0 < 0 \/ Z.of_nat ntypes <= nth i atype 0)%Z ->
     (- 2 ^ 31 <= nth i atype 0 * (Z.of_nat ntypes + 1))%Z ->
     (nth i atype 0 * (Z.of_nat ntypes + 1) + Z.of_nat ntypes < 2 ^ 31)%Z ->
     build_type_exclude_mask exclude_types ntypes (sel0 :: sel_rest) (4 * sel0) atype
       (length atype) nei_type_vec
     = Raise InvalidArgumentError).
Proof.
  split; [reflexivity|]. split; [reflexivity|].
  intros excl ntypes sel0 rest atype nei i Hsel Hnei Hrange Hi Hbad _ _.
  unfold build_type_exclude_mask.
  rewrite (exclude_idx_rows ntypes sel0 (length atype) rest atype nei Hsel eq_refl Hnei).
  cbn [rbind].
  set (idx_rows := map _ (combine atype (chunk sel0 (length atype) nei))).
  set (z := nth (4 * 0 + 0) (nth i idx_rows []) 0%Z).
  assert (Hz : z = (nth i atype 0 * (Z.of_nat ntypes + 1) + nth (i * sel0 + 0) nei 0)%Z)
    by (apply idx_rows_entry; assumption || lia).
  assert (Hb : (0 <= nth (i * sel0 + 0) nei 0 <= Z.of_nat ntypes)%Z).
  { rewrite Forall_forall in Hrange. apply Hrange, nth_In. nia. }
  assert (Hrow : length (nth i idx_rows []) = (4 * sel0)%nat).
  { pose proof (idx_rows_uniform ntypes sel0 atype nei Hsel Hnei) as Hu.
    rewrite Forall_forall in Hu. apply Hu, nth_In.
    unfold idx_rows. rewrite (idx_rows_length ntypes sel0 atype nei Hsel Hnei). exact Hi. }
  rewrite (embedding_lookup_raises _ (concat idx_rows) z); [reflexivity| |].
  - apply in_concat. exists (nth i idx_rows []). split.
    + apply nth_In. unfold idx_rows.
      rewrite (idx_rows_length ntypes sel0 atype nei Hsel Hnei). exact Hi.
    + apply nth_In. lia.
  - rewrite table_length, Hz. nia.
Qed.

Lemma build_type_exclude_mask_errors_witness :
  build_type_exclude_mask [(0, 1)%Z] 2 [1%nat] (4 * 1) [5%Z] (length [5%Z]) [0%Z]
  = Raise InvalidArgumentError.
Proof.
  apply (proj2 (proj2 build_type_exclude_mask_errors) [(0, 1)%Z] 2%nat 1%nat [] [5%Z] [0%Z]
           0%nat (Nat.lt_0_succ 0) eq_refl).
  - repeat constructor; discriminate.
  - apply Nat.lt_0_succ.
  - right. discriminate.
  - discriminate.
  - reflexivity.
Defined.

Section FrameFacts.

Import Sem.
Local Open Scope R_scope.

Variable O : list (list R).
Hypothesis O_orthogonal : Frame.orthogonal O.

Lemma big_sum_3 (f : nat -> R) : big_sum 3 f = f 0%nat + f 1%nat + f 2%nat.
Proof. unfold big_sum, reduce_sum. simpl. lra. Qed.

Lemma rotate_vec_length (v : list R) : length (Frame.rotate_vec O v) = 3%nat.
Proof. reflexivity. Qed.

Lemma nth_rotate_vec (v : list R) (i : nat) :
  (i < 3)%nat ->
  nth i (Frame.rotate_vec O v) 0 = big_sum 3 (fun j => entry O i j * nth j v 0).
Proof. intros Hi. unfold Frame.rotate_vec. now rewrite nth_map_seq. Qed.

(** An orthogonal matrix keeps the scalar product. *)
Lemma rotate_vec_dot (u v : list R) :
  big_sum 3 (fun i => nth i (Frame.rotate_vec O u) 0 * nth i (Frame.rotate_vec O v) 0)
  = big_sum 3 (fun j => nth j u 0 * nth j v 0).
Proof.
  rewrite (big_sum_ext 3 _
             (fun i => big_sum 3 (fun j => entry O i j * nth j u 0)
                       * big_sum 3 (fun j => entry O i j * nth j v 0)))
    by (intros i Hi; now rewrite !nth_rotate_vec).
  pose proof (O_orthogonal 0%nat 0%nat ltac:(lia) ltac:(lia)) as H00.
  pose proof (O_orthogonal 0%nat 1%nat ltac:(lia) ltac:(lia)) as H01.
  pose proof (O_orthogonal 0%nat 2%nat ltac:(lia) ltac:(lia)) as H02.
  pose proof (O_orthogonal 1%nat 1%nat ltac:(lia) ltac:(lia)) as H11.
  pose proof (O_orthogonal 1%nat 2%nat ltac:(lia) ltac:(lia)) as H12.
  pose proof (O_orthogonal 2%nat 2%nat ltac:(lia) ltac:(lia)) as H22.
  rewrite !big_sum_3 in *. cbn [Nat.eqb] in *.
  set (a0 := entry O 0%nat 0%nat) in *. set (a1 := entry O 0%nat 1%nat) in *. set (a2 := entry O 0%nat 2%nat) in *.
  set (b0 := entry O 1%nat 0%nat) in *. set (b1 := entry O 1%nat 1%nat) in *. set (b2 := entry O 1%nat 2%nat) in *.
  set (c0 := entry O 2%nat 0%nat) in *. set (c1 := entry O 2%nat 1%nat) in *. set (c2 := entry O 2%nat 2%nat) in *.
  set (x0 := nth 0 u 0). set (x1 := nth 1 u 0). set (x2 := nth 2 u 0).
  set (y0 := nth 0 v 0). set (y1 := nth 1 v 0). set (y2 := nth 2 v 0).
  transitivity
    ((a0 * a0 + b0 * b0 + c0 * c0) * (x0 * y0)
     + (a0 * a1 + b0 * b1 + c0 * c1) * (x0 * y1 + x1 * y0)
     + (a0 * a2 + b0 * b2 + c0 * c2) * (x0 * y2 + x2 * y0)
     + (a1 * a1 + b1 * b1 + c1 * c1) * (x1 * y1)
     + (a1 * a2 + b1 * b2 + c1 * c2) * (x1 * y2 + x2 * y1)
     + (a2 * a2 + b2 * b2 + c2 * c2) * (x2 * y2)); [ring|].
  rewrite H00, H01, H02, H11, H12, H22. ring.
Qed.

Lemma reduce_sum_3 (v : list R) :
  length v = 3%nat ->
  reduce_sum (map (fun x => x * x) v) = big_sum 3 (fun j => nth j v 0 * nth j v 0).
Proof.
  intros Hv. destruct v as [|x [|y [|z [|? ?]]]]; try discriminate.
  rewrite big_sum_3. unfold reduce_sum. simpl. lra.
Qed.

(** [l2_normalize] commutes with the change of frame. *)
Lemma l2_normalize_rotate (v : list R) :
  length v = 3%nat ->
  l2_normalize (Frame.rotate_vec O v) = Frame.rotate_vec O (l2_normalize v).
Proof.
  intros Hv. unfold l2_normalize.
  rewrite (reduce_sum_3 (Frame.rotate_vec O v)) by reflexivity.
  rewrite rotate_vec_dot, <- (reduce_sum_3 v Hv).
  set (c := / sqrt (Rmax (reduce_sum (map (fun x => x * x) v)) l2_epsilon)).
  unfold Frame.rotate_vec. rewrite map_map. apply map_ext_in. intros i _.
  destruct v as [|x [|y [|z [|? ?]]]]; try discriminate.
  rewrite !big_sum_3. simpl. ring.
Qed.

Lemma slot_rotate_length (row : list R) :
  length row = 4%nat -> length (Frame.rotate_slot O row) = 4%nat.
Proof.
  intros Hrow. unfold Frame.rotate_slot.
  rewrite length_app, length_firstn, rotate_vec_length, Hrow. reflexivity.
Qed.

Lemma slot_rotate_radial (row : list R) :
  length row = 4%nat -> firstn 1 (Frame.rotate_slot O row) = firstn 1 row.
Proof.
  intros Hrow. destruct row as [|s row]; [discriminate|]. reflexivity.
Qed.

Lemma slot_rotate_angular (row : list R) :
  length row = 4%nat ->
  firstn 3 (skipn 1 (Frame.rotate_slot O row))
  = Frame.rotate_vec O (firstn 3 (skipn 1 row)).
Proof.
  intros Hrow. destruct row as [|s [|x [|y [|z [|? ?]]]]]; try discriminate. reflexivity.
Qed.

Lemma entry_map_rotate (r : list (list R)) (i t : nat) :
  (t < 3)%nat ->
  entry (map (Frame.rotate_vec O) r) i t = nth t (Frame.rotate_vec O (nth i r [])) 0.
Proof.
  intros Ht. unfold entry. destruct (Nat.lt_ge_cases i (length r)) as [Hi|Hi].
  - now rewrite (nth_map_lt (Frame.rotate_vec O) r i [] []).
  - rewrite (nth_overflow (map _ r)) by (now rewrite length_map).
    rewrite (nth_overflow r) by assumption.
    rewrite nth_rotate_vec, big_sum_3 by assumption.
    destruct t; simpl; ring.
Qed.

(** The gate of [_scaled_dot_attn] is made of scalar products of the
    normalized directions: it is the same in every frame. *)
Lemma angular_weight_rotate (nei : nat) (r : list (list R)) :
  matmul false true nei 3 nei (map (Frame.rotate_vec O) r) (map (Frame.rotate_vec O) r)
  = matmul false true nei 3 nei r r.
Proof.
  unfold matmul. apply map_ext_in. intros i _. apply map_ext_in. intros j _.
  rewrite (big_sum_ext 3 _
             (fun t => nth t (Frame.rotate_vec O (nth i r [])) 0
                       * nth t (Frame.rotate_vec O (nth j r [])) 0))
    by (intros t Ht; now rewrite !entry_map_rotate).
  apply rotate_vec_dot.
Qed.

Lemma input_r_rotate (feats : list (list R)) :
  Forall (fun row => length row = 4%nat) feats ->
  map l2_normalize
    (map (fun row => firstn 3 (skipn 1 row)) (map (Frame.rotate_slot O) feats))
  = map (Frame.rotate_vec O)
      (map l2_normalize (map (fun row => firstn 3 (skipn 1 row)) feats)).
Proof.
  intros Hrows. rewrite !map_map. apply map_ext_in. intros row Hrow.
  rewrite Forall_forall in Hrows. specialize (Hrows row Hrow).
  rewrite slot_rotate_angular by assumption.
  apply l2_normalize_rotate.
  destruct row as [|s [|x [|y [|z [|? ?]]]]]; try discriminate. reflexivity.
Qed.

End FrameFacts.

Section AngularGate.

Import Sem.
Local Open Scope R_scope.

Variable fexp : R -> R.
Variables (self : descrpt) (P : params) (e : env).
Variable nei : nat.
Variables input_r input_r' : list (list (list R)).

Hypothesis same_gate :
  forall a : nat,
    matmul false true nei 3 nei (nth a input_r' []) (nth a input_r' [])
    = matmul false true nei 3 nei (nth a input_r []) (nth a input_r []).

(** [_scaled_dot_attn] reads [input_r] through the gate only. *)
Lemma scaled_dot_attn_gate (d : nat) (Q K V : list (list (list R))) (T : R)
    (dotr do_mask : bool) :
  _scaled_dot_attn fexp e nei d Q K V T input_r' dotr do_mask
  = _scaled_dot_attn fexp e nei d Q K V T input_r dotr do_mask.
Proof.
  unfold _scaled_dot_attn. apply map_ext_in. intros a _.
  unfold attn_final, attn_gated. now rewrite same_gate.
Qed.

Lemma attention_layers_gate (L W : nat) (dotr do_mask : bool) (x : list (list R)) :
  _attention_layers fexp self P e x L (nei * 4) W input_r' dotr do_mask
  = _attention_layers fexp self P e x L (nei * 4) W input_r dotr do_mask.
Proof.
  unfold _attention_layers. rewrite Nat.div_mul by lia.
  generalize (seq 0 L). intros l. revert x.
  induction l as [|i l IH]; intros x; [reflexivity|].
  cbn [fold_left]. rewrite IH. f_equal.
  unfold attention_layer. now rewrite scaled_dot_attn_gate.
Qed.

End AngularGate.

Section FrameContraction.

Import Sem.
Local Open Scope R_scope.

Variable O : list (list R).
Variables (nei W : nat).

Lemma big_sum_combine3 (n : nat) (a b c : R) (f g h : nat -> R) :
  big_sum n (fun t => a * f t + b * g t + c * h t)
  = a * big_sum n f + b * big_sum n g + c * big_sum n h.
Proof.
  induction n as [|n IH]; [unfold big_sum, reduce_sum; simpl; ring|].
  rewrite !big_sum_S, IH. ring.
Qed.

Lemma entry_rotate_slot (F : list (list R)) (t : nat) :
  (t < length F)%nat -> Forall (fun row => length row = 4%nat) F ->
  entry (map (Frame.rotate_slot O) F) t 0 = entry F t 0 /\
  forall i : nat, (i < 3)%nat ->
    entry (map (Frame.rotate_slot O) F) t (S i)
    = entry O i 0 * entry F t 1 + entry O i 1 * entry F t 2 + entry O i 2 * entry F t 3.
Proof.
  intros Ht Hrows. unfold entry.
  rewrite (nth_map_lt (Frame.rotate_slot O) F t [] []) by assumption.
  assert (Hrow : length (nth t F []) = 4%nat).
  { rewrite Forall_forall in Hrows. apply Hrows, nth_In, Ht. }
  destruct (nth t F []) as [|s [|x [|y [|z [|? ?]]]]]; try discriminate.
  split; [reflexivity|]. intros i Hi.
  change (nth (S i) (Frame.rotate_slot O [s; x; y; z]) 0)
    with (nth i (Frame.rotate_vec O [x; y; z]) 0).
  rewrite nth_rotate_vec, big_sum_3 by assumption. reflexivity.
Qed.

(** The contraction [R^T E] of [_filter_lower] in the new frame: its
    first row is kept and the three others are mixed by [O]. *)
Lemma contraction_rotate (F E : list (list R)) (w : nat) :
  length F = nei -> Forall (fun row => length row = 4%nat) F -> (w < W)%nat ->
  entry (matmul true false 4 nei W (map (Frame.rotate_slot O) F) E) 0 w
  = entry (matmul true false 4 nei W F E) 0 w /\
  forall i : nat, (i < 3)%nat ->
    entry (matmul true false 4 nei W (map (Frame.rotate_slot O) F) E) (S i) w
    = big_sum 3 (fun j => entry O i j * entry (matmul true false 4 nei W F E) (S j) w).
Proof.
  intros HF Hrows Hw. split.
  - rewrite !entry_matmul by (assumption || lia). apply big_sum_ext. intros t Ht.
    destruct (entry_rotate_slot F t) as [H0 _]; [lia|assumption|]. now rewrite H0.
  - intros i Hi. rewrite big_sum_3.
    rewrite !entry_matmul by (assumption || lia).
    rewrite <- big_sum_combine3. apply big_sum_ext. intros t Ht.
    destruct (entry_rotate_slot F t) as [_ HS]; [lia|assumption|].
    rewrite (HS i Hi). ring.
Qed.

End FrameContraction.

Lemma zipWith_map_l {A A' B C : Type} (f : A' -> B -> C) (h : A -> A') (x : list A)
    (y : list B) :
  Sem.zipWith f (map h x) y = map (fun p => f (h (fst p)) (snd p)) (combine x y).
Proof.
  unfold Sem.zipWith. revert y. induction x as [|a x IH]; intros [|b y]; simpl; auto.
  now rewrite IH.
Qed.

Lemma matmul_ext (ta tb : bool) (r k c : nat) (a b a' b' : list (list R)) :
  (forall i j : nat, (i < r)%nat -> (j < c)%nat ->
     Sem.big_sum k (fun t => ((if ta then Sem.entry a t i else Sem.entry a i t)
                              * (if tb then Sem.entry b j t else Sem.entry b t j))%R)
     = Sem.big_sum k (fun t => ((if ta then Sem.entry a' t i else Sem.entry a' i t)
                                * (if tb then Sem.entry b' j t else Sem.entry b' t j))%R)) ->
  Sem.matmul ta tb r k c a b = Sem.matmul ta tb r k c a' b'.
Proof.
  intros H. unfold Sem.matmul. apply map_ext_in. intros i Hi. apply map_ext_in. intros j Hj.
  apply in_seq in Hi, Hj. apply H; lia.
Qed.

Section FrameFilter.

Import Sem.
Local Open Scope R_scope.

Variable O : list (list R).
Hypothesis O_orthogonal : Frame.orthogonal O.
Variables (nei W M : nat) (d : R).

Let scale (g : mat) : mat := map (map (fun x => x / d)) g.
Let G (p : mat * mat) : mat := matmul true false 4 nei W (fst p) (snd p).
Let G' (p : mat * mat) : mat :=
  matmul true false 4 nei W (map (Frame.rotate_slot O) (fst p)) (snd p).
Let shaped (p : mat * mat) : Prop :=
  length (fst p) = nei /\ Forall (fun row => length row = 4%nat) (fst p).

Lemma big_sum_4 (f : nat -> R) : big_sum 4 f = f 0%nat + f 1%nat + f 2%nat + f 3%nat.
Proof. unfold big_sum, reduce_sum. simpl. lra. Qed.

Lemma orthogonal_dot (u0 u1 u2 v0 v1 v2 : R) :
  big_sum 3 (fun i =>
     (entry O i 0 * u0 + entry O i 1 * u1 + entry O i 2 * u2)
     * (entry O i 0 * v0 + entry O i 1 * v1 + entry O i 2 * v2))
  = u0 * v0 + u1 * v1 + u2 * v2.
Proof.
  pose proof (rotate_vec_dot O O_orthogonal [u0; u1; u2] [v0; v1; v2]) as H.
  rewrite (big_sum_3 (fun j => nth j [u0; u1; u2] 0 * nth j [v0; v1; v2] 0)) in H.
  cbn [nth] in H. rewrite <- H. apply big_sum_ext. intros i Hi.
  rewrite !nth_rotate_vec, !big_sum_3 by assumption. reflexivity.
Qed.

Lemma scaled_entries (p : list (list R) * list (list R)) (w : nat) :
  shaped p -> (w < W)%nat ->
  entry (scale (G' p)) 0 w = entry (scale (G p)) 0 w /\
  forall i : nat, (i < 3)%nat ->
    entry (scale (G' p)) (S i) w
    = entry O i 0 * entry (scale (G p)) 1 w + entry O i 1 * entry (scale (G p)) 2 w
      + entry O i 2 * entry (scale (G p)) 3 w.
Proof.
  intros [HF Hrows] Hw. unfold scale.
  assert (Hz : (fun x : R => x / d) 0 = 0) by (cbv beta; unfold Rdiv; ring).
  rewrite !(entry_map_map0 (fun x => x / d)) by exact Hz.
  destruct (contraction_rotate O nei W (fst p) (snd p) w HF Hrows Hw) as [H0 HS].
  fold (G p) (G' p) in H0, HS. split; [now rewrite H0|].
  intros i Hi. rewrite !(entry_map_map0 (fun x => x / d)) by exact Hz.
  rewrite (HS i Hi), big_sum_3. unfold Rdiv. ring.
Qed.

(** The descriptor [G^T G2] is a sum of scalar products. *)
Lemma descriptor_rotate (p : list (list R) * list (list R)) :
  shaped p -> (M <= W)%nat ->
  matmul true false W 4 M (scale (G' p)) (map (firstn M) (scale (G' p)))
  = matmul true false W 4 M (scale (G p)) (map (firstn M) (scale (G p))).
Proof.
  intros Hp HM. apply matmul_ext. intros w m Hw Hm.
  rewrite !big_sum_4. rewrite !entry_map_firstn by assumption.
  destruct (scaled_entries p w Hp Hw) as [Hw0 HwS].
  destruct (scaled_entries p m Hp ltac:(lia)) as [Hm0 HmS].
  rewrite Hw0, Hm0.
  pose proof (orthogonal_dot (entry (scale (G p)) 1 w) (entry (scale (G p)) 2 w)
                (entry (scale (G p)) 3 w) (entry (scale (G p)) 1 m)
                (entry (scale (G p)) 2 m) (entry (scale (G p)) 3 m)) as Hdot.
  rewrite big_sum_3 in Hdot.
  rewrite <- !HwS, <- !HmS in Hdot by lia. lra.
Qed.

(** The rows of the rotation matrix turn with the frame. *)
Lemma qmat_rotate (p : list (list R) * list (list R)) :
  shaped p ->
  transpose 3 W (firstn 3 (skipn 1 (scale (G' p))))
  = map (Frame.rotate_vec O) (transpose 3 W (firstn 3 (skipn 1 (scale (G p))))).
Proof.
  intros Hp. unfold transpose. rewrite map_map. apply map_ext_in. intros w Hw.
  apply in_seq in Hw. unfold Frame.rotate_vec. apply map_ext_in. intros i Hi.
  apply in_seq in Hi.
  rewrite entry_firstn, entry_skipn by lia.
  destruct (scaled_entries p w Hp ltac:(lia)) as [_ HS].
  change (1 + i)%nat with (S i). rewrite (HS i) by lia.
  rewrite big_sum_3.
  rewrite !nth_map_seq by lia.
  rewrite !entry_firstn, !entry_skipn by lia. reflexivity.
Qed.

Lemma scaled_rows (g : list (list R)) :
  Forall (fun row => length row = W) g ->
  Forall (fun row => (M <= length row)%nat <-> (M <= W)%nat) (scale g).
Proof.
  intros Hg. unfold scale. rewrite Forall_map. eapply Forall_impl; [|exact Hg].
  intros row Hrow. cbv beta in *. rewrite length_map, Hrow. tauto.
Qed.

(** What [_filter] does with the contractions of all atoms, in the two
    frames. *)
Lemma filter_tail_rotate (ps : list (list (list R) * list (list R))) :
  Forall shaped ps ->
  (xyz_scatter_2 <- mapM (mapM (slice_last 0 M))
                      (map (map (map (fun x => x / d))) (map G' ps)) ;;
   Ok (map (@concat R)
         (zipWith (matmul true false W 4 M)
            (map (map (map (fun x => x / d))) (map G' ps)) xyz_scatter_2),
       map (transpose 3 W)
         (map (fun g => firstn 3 (skipn 1 g))
            (map (map (map (fun x => x / d))) (map G' ps)))))
  = match
      (xyz_scatter_2 <- mapM (mapM (slice_last 0 M))
                          (map (map (map (fun x => x / d))) (map G ps)) ;;
       Ok (map (@concat R)
             (zipWith (matmul true false W 4 M)
                (map (map (map (fun x => x / d))) (map G ps)) xyz_scatter_2),
           map (transpose 3 W)
             (map (fun g => firstn 3 (skipn 1 g))
                (map (map (map (fun x => x / d))) (map G ps)))))
    with
    | Ok (result, qmat) => Ok (result, map (map (Frame.rotate_vec O)) qmat)
    | Raise err => Raise err
    end.
Proof.
  intros Hps.
  change (map (map (map (fun x => x / d))) (map G' ps)) with (map scale (map G' ps)).
  change (map (map (map (fun x => x / d))) (map G ps)) with (map scale (map G ps)).
  destruct (Nat.le_gt_cases M W) as [HM|HM].
  - rewrite !mapM_slice_rows.
    2,3: rewrite !Forall_map; apply Forall_forall; intros p _;
         (eapply Forall_impl; [|apply scaled_rows, matmul_rows]);
         intros row Hrow; cbv beta in Hrow; now apply Hrow.
    cbn [rbind]. rewrite !zipWith_map_r, !map_map. f_equal. f_equal.
    + apply map_ext_in. intros p Hp. rewrite Forall_forall in Hps.
      now rewrite (descriptor_rotate p (Hps p Hp) HM).
    + apply map_ext_in. intros p Hp. rewrite Forall_forall in Hps.
      apply (qmat_rotate p (Hps p Hp)).
  - destruct ps as [|p ps]; [reflexivity|].
    assert (Hfail : forall a b : list (list R),
              mapM (slice_last 0 M) (scale (matmul true false 4 nei W a b))
              = Raise InvalidArgumentError).
    { intros a b. unfold matmul, scale. cbn [seq map mapM]. unfold slice_last at 1.
      rewrite !length_map, length_seq.
      destruct (Nat.leb_spec (0 + M) W); [lia|reflexivity]. }
    cbn [map mapM]. unfold G at 1, G' at 1.
    now rewrite !Hfail.
Qed.

End FrameFilter.


(** [_filter] in a rotated or reflected frame: the descriptor of every atom
    is the same and every row of its rotation matrix is the image of the
    former row; the call fails in one frame when it fails in the other,
    with the same exception. *)
Theorem descriptor_rotation_invariant :
  forall (fexp : R -> R) (self : Sem.descrpt) (P : Sem.params) (e : Sem.env) (nei : nat)
         (O : list (list R)) (featss : list (list (list R)))
         (te : option (list (list R))) (atype : option (list Z)),
    Frame.orthogonal O ->
    (0 < nei)%nat ->
    Sem.cumsum_last (Sem.sel_a self) = Ok nei ->
    Forall (fun b => length b = nei) featss ->
    Forall (Forall (fun row => length row = 4%nat)) featss ->
    Sem._filter fexp self P e
      (map (@concat R) (map (map (Frame.rotate_slot O)) featss)) te atype
    = match Sem._filter fexp self P e (map (@concat R) featss) te atype with
      | Ok (result, qmat) => Ok (result, map (map (Frame.rotate_vec O)) qmat)
      | Raise err => Raise err
      end.
Proof.
  intros fexp self P e nei O featss te atype HO Hpos Hsel Hblocks Hrows.
  assert (Hblocks' : Forall (fun b => length b = nei) (map (map (Frame.rotate_slot O)) featss)).
  { rewrite Forall_map. eapply Forall_impl; [|exact Hblocks].
    intros b Hb. cbv beta. now rewrite length_map. }
  assert (Hrows' : Forall (Forall (fun row => length row = 4%nat))
                     (map (map (Frame.rotate_slot O)) featss)).
  { rewrite Forall_map. eapply Forall_impl; [|exact Hrows].
    intros b Hb. cbv beta. rewrite Forall_map. eapply Forall_impl; [|exact Hb].
    intros row Hrow. now apply slot_rotate_length. }
  unfold Sem._filter. rewrite Hsel. cbn [rbind]. unfold Sem._filter_lower.
  rewrite (attended_batch fexp self P nei (length featss) Hpos e
             (map (map (Frame.rotate_slot O)) featss))
    by (assumption || now rewrite length_map).
  rewrite (attended_batch fexp self P nei (length featss) Hpos e featss)
    by (assumption || reflexivity).
  destruct atype as [a|]; [|reflexivity].
  destruct te as [t|]; [|reflexivity].
  destruct (Sem.compress self); [reflexivity|].
  assert (Hradial : map (firstn 1) (concat (map (map (Frame.rotate_slot O)) featss))
                    = map (firstn 1) (concat featss)).
  { rewrite !concat_map. f_equal. rewrite map_map. apply map_ext_in. intros b Hb.
    rewrite map_map. apply map_ext_in. intros row Hrow. apply slot_rotate_radial.
    rewrite Forall_forall in Hrows. specialize (Hrows b Hb).
    rewrite Forall_forall in Hrows. now apply Hrows. }
  rewrite Hradial.
  destruct (Sem.type_embedded self P e (map (firstn 1) (concat featss)) t a) as [xs|err];
    [|reflexivity].
  rewrite (attention_layers_gate fexp self P e nei
             (map (map Sem.l2_normalize)
                (map (map (fun row => firstn 3 (skipn 1 row))) featss))
             (map (map Sem.l2_normalize)
                (map (map (fun row => firstn 3 (skipn 1 row)))
                   (map (map (Frame.rotate_slot O)) featss)))).
  2:{ intros k. rewrite !map_map.
      rewrite (nth_map_default
                 (fun b => map Sem.l2_normalize
                             (map (fun row => firstn 3 (skipn 1 row))
                                (map (Frame.rotate_slot O) b))) featss k [] [] eq_refl).
      rewrite (nth_map_default
                 (fun b => map Sem.l2_normalize
                             (map (fun row => firstn 3 (skipn 1 row)) b))
                 featss k [] [] eq_refl).
      rewrite (input_r_rotate O HO).
      - apply (angular_weight_rotate O HO).
      - destruct (Nat.lt_ge_cases k (length featss)) as [Hk|Hk].
        + rewrite Forall_forall in Hrows. apply Hrows, nth_In, Hk.
        + rewrite nth_overflow by assumption. constructor. }
  cbv zeta. cbn [rbind fst snd]. rewrite Nat.div_mul by lia.
  rewrite zipWith_map_l.
  apply (filter_tail_rotate O HO nei (Sem.outputs_size_last self) (Sem.n_axis_neuron self)
           (Sem.filter_nnei self (Sem.ndescrpt self))).
  apply Forall_forall. intros [b E] Hp. apply in_combine_l in Hp.
  rewrite Forall_forall in Hblocks, Hrows. split; [now apply Hblocks|now apply Hrows].
Qed.

Lemma descriptor_rotation_invariant_witness :
  Sem._filter exp (AttentionExamples.descrpt_attention true) Examples.params_example
    {| Sem.nei_type_vec := [0; 1; 1; 0]%Z;
       Sem.nmask := [[1; 1]; [1; 0]]%R;
       Sem.negative_mask := [[0; 0]; [0; - IZR (2 ^ 33)]]%R |}
    (map (@concat R)
       (map (map (Frame.rotate_slot [[0; -1; 0]; [1; 0; 0]; [0; 0; 1]]%R))
          [[[1; 1; 0; 0]; [2; 0; 2; 0]]; [[1; 1; 0; 0]; [0; 0; 0; 0]]]%R))
    (Some Examples.type_embedding_example) (Some [0; 1]%Z)
  = match
      Sem._filter exp (AttentionExamples.descrpt_attention true) Examples.params_example
        {| Sem.nei_type_vec := [0; 1; 1; 0]%Z;
           Sem.nmask := [[1; 1]; [1; 0]]%R;
           Sem.negative_mask := [[0; 0]; [0; - IZR (2 ^ 33)]]%R |}
        (map (@concat R) [[[1; 1; 0; 0]; [2; 0; 2; 0]]; [[1; 1; 0; 0]; [0; 0; 0; 0]]]%R)
        (Some Examples.type_embedding_example) (Some [0; 1]%Z)
    with
    | Ok (result, qmat) =>
        Ok (result,
            map (map (Frame.rotate_vec [[0; -1; 0]; [1; 0; 0]; [0; 0; 1]]%R)) qmat)
    | Raise err => Raise err
    end.
Proof.
  apply (descriptor_rotation_invariant exp (AttentionExamples.descrpt_attention true)
           Examples.params_example _ 2 [[0; -1; 0]; [1; 0; 0]; [0; 0; 1]]%R
           [[[1; 1; 0; 0]; [2; 0; 2; 0]]; [[1; 1; 0; 0]; [0; 0; 0; 0]]]%R).
  - intros j k Hj Hk.
    destruct j as [|[|[|j]]]; [| | |exfalso; lia];
      (destruct k as [|[|[|k]]]; [| | |exfalso; lia]);
      unfold Sem.big_sum, Sem.reduce_sum, Sem.entry; simpl; lra.
  - apply Nat.lt_0_succ.
  - reflexivity.
  - repeat constructor.
  - repeat constructor.
Defined.

Section PaddedAtom.

Import Sem.
Local Open Scope R_scope.

Variable fexp : R -> R.
Hypothesis fexp_underflow : forall x, x <= 1 - IZR (2 ^ 33) -> fexp x = 0.

Variables (nei d : nat) (m : list R).
Hypothesis m_length : length m = nei.
Hypothesis m_flags : Forall (fun x => x = 0 \/ x = 1) m.

Variables (Qc Kc Vc Qc' Kc' Vc' : list (list R)).
Hypothesis Q_real :
  forall j, (j < nei)%nat -> nth j m 0 = 1 -> nth j Qc [] = nth j Qc' [].
Hypothesis K_real :
  forall j, (j < nei)%nat -> nth j m 0 = 1 -> nth j Kc [] = nth j Kc' [].
Hypothesis V_real :
  forall j, (j < nei)%nat -> nth j m 0 = 1 -> nth j Vc [] = nth j Vc' [].

Variables (input_r : list (list R)) (dotr do_mask : bool).

Let neg : list R := map (fun x => - IZR (2 ^ 33) * (1 - x)) m.

Lemma entry_normalized (X : list (list R)) (i t : nat) :
  entry (map l2_normalize X) i t = nth t (l2_normalize (nth i X [])) 0.
Proof. unfold entry. now rewrite (nth_map_default l2_normalize X i [] []). Qed.

(** The scores of a real slot against all slots do not read the padded
    slots: the mask replaces their products. *)
Lemma scores_row_real (i : nat) :
  (i < nei)%nat -> nth i m 0 = 1 ->
  nth i (attn_scores nei d m neg (map l2_normalize Qc) (map l2_normalize Kc) (sqrt 1)) []
  = nth i (attn_scores nei d m neg (map l2_normalize Qc') (map l2_normalize Kc') (sqrt 1))
      [].
Proof.
  intros Hi Hmi.
  assert (Hneg : length neg = nei) by (unfold neg; now rewrite length_map).
  apply nth_ext with (d := 0) (d' := 0).
  - now rewrite !attn_scores_row_length.
  - intros j Hj. rewrite attn_scores_row_length in Hj by assumption.
    change (entry (attn_scores nei d m neg (map l2_normalize Qc) (map l2_normalize Kc)
                     (sqrt 1)) i j
            = entry (attn_scores nei d m neg (map l2_normalize Qc') (map l2_normalize Kc')
                       (sqrt 1)) i j).
    rewrite !attn_scores_entry by assumption.
    destruct (m_flag nei m m_length m_flags j Hj) as [Hmj|Hmj].
    + rewrite Hmj. ring.
    + f_equal. f_equal. apply big_sum_ext. intros t _.
      now rewrite !entry_normalized, (Q_real i Hi Hmi), (K_real j Hj Hmj).
Qed.

Lemma final_entry_real (i j : nat) :
  (i < nei)%nat -> (j < nei)%nat -> nth i m 0 = 1 ->
  entry (attn_final fexp nei d m neg (map l2_normalize Qc) (map l2_normalize Kc) (sqrt 1)
           input_r dotr do_mask) i j
  = entry (attn_final fexp nei d m neg (map l2_normalize Qc') (map l2_normalize Kc')
             (sqrt 1) input_r dotr do_mask) i j.
Proof.
  intros Hi Hj Hmi.
  assert (Hneg : length neg = nei) by (unfold neg; now rewrite length_map).
  assert (Hsoft :
    entry (attn_softmax fexp nei d m neg (map l2_normalize Qc) (map l2_normalize Kc)
             (sqrt 1)) i j
    = entry (attn_softmax fexp nei d m neg (map l2_normalize Qc') (map l2_normalize Kc')
               (sqrt 1)) i j).
  { rewrite !attn_softmax_entry by assumption. now rewrite (scores_row_real i Hi Hmi). }
  rewrite !attn_final_entry by assumption. f_equal.
  destruct dotr.
  - rewrite !attn_gated_entry by assumption. now rewrite Hsoft.
  - exact Hsoft.
Qed.

(** The row that [_scaled_dot_attn] returns for a real slot reads the
    rows of the real slots only. *)
Lemma output_row_real (i : nat) :
  (i < nei)%nat -> nth i m 0 = 1 ->
  nth i (matmul false false nei nei d
           (attn_final fexp nei d m neg (map l2_normalize Qc) (map l2_normalize Kc)
              (sqrt 1) input_r dotr do_mask) (map l2_normalize Vc)) []
  = nth i (matmul false false nei nei d
             (attn_final fexp nei d m neg (map l2_normalize Qc') (map l2_normalize Kc')
                (sqrt 1) input_r dotr do_mask) (map l2_normalize Vc')) [].
Proof.
  intros Hi Hmi. unfold matmul. rewrite !nth_map_seq by assumption.
  apply map_ext_in. intros c _. apply big_sum_ext. intros j Hj.
  destruct (m_flag nei m m_length m_flags j Hj) as [Hmj|Hmj].
  - unfold neg.
    rewrite !(masked_final_zero fexp fexp_underflow nei d m _ _ m_length m_flags)
      by assumption.
    ring.
  - rewrite (final_entry_real i j Hi Hj Hmi).
    now rewrite !entry_normalized, (V_real j Hj Hmj).
Qed.

End PaddedAtom.

Lemma slot_lt (natom nei a i : nat) :
  (a < natom)%nat -> (i < nei)%nat -> (a * nei + i < natom * nei)%nat.
Proof. intros Ha Hi. nia. Qed.

Lemma nth_chunk_row {A : Type} (nei natom : nat) (l : list A) (a j : nat) (d : A) :
  (a < natom)%nat -> (j < nei)%nat ->
  nth j (nth a (chunk nei natom l) []) d = nth (a * nei + j) l d.
Proof.
  intros Ha Hj. rewrite nth_chunk by assumption. rewrite nth_firstn.
  destruct (Nat.ltb_spec j nei); [|lia]. apply nth_skipn.
Qed.

Section PaddedBatch.

Import Sem.
Local Open Scope R_scope.

Variable fexp : R -> R.
Hypothesis fexp_underflow : forall x, x <= 1 - IZR (2 ^ 33) -> fexp x = 0.

Variables (self : descrpt) (P : params).
Variables (nei natom : nat).
Hypothesis nei_pos : (0 < nei)%nat.

Variable ms : list (list R).
Hypothesis ms_length : length ms = natom.
Hypothesis ms_rows : Forall (fun m => length m = nei) ms.
Hypothesis ms_flags : Forall (Forall (fun x => x = 0 \/ x = 1)) ms.

Variables (W : nat) (input_r : list (list (list R))) (dotr do_mask : bool).

Let negs : list (list R) := map (map (fun x => - IZR (2 ^ 33) * (1 - x))) ms.

(** Two batches of rows that are the same in the real slots. *)
Let agree (x x' : list (list R)) : Prop :=
  length x = (natom * nei)%nat /\ length x' = (natom * nei)%nat /\
  forall a i : nat, (a < natom)%nat -> (i < nei)%nat -> nth i (nth a ms []) 0 = 1 ->
    nth (a * nei + i) x [] = nth (a * nei + i) x' [].

Lemma attention_layer_flat_length (en : env) (x : list (list R)) (i : nat) :
  length x = (natom * nei)%nat ->
  length (attention_layer fexp self P en nei W input_r dotr do_mask x i) = (natom * nei)%nat.
Proof.
  intros Hx. unfold attention_layer.
  rewrite length_map, length_zipWith, length_map.
  destruct (scaled_dot_attn_rows fexp nei en (att_n self)
              (map (map l2_normalize) (chunk nei (length x / nei) (map (c_query P i) x)))
              (map (map l2_normalize) (chunk nei (length x / nei) (map (c_key P i) x)))
              (map (map l2_normalize) (chunk nei (length x / nei) (map (c_value P i) x)))
              (sqrt 1) input_r dotr do_mask) as [Hlen Hrows].
  rewrite (length_concat_uniform nei _ Hrows), Hlen, length_map, chunk_length.
  rewrite Hx, Nat.div_mul by lia. lia.
Qed.

(** One row of what a layer returns. *)
Lemma attention_layer_row (en : env) (x : list (list R)) (i a j : nat) :
  nmask en = ms -> negative_mask en = negs ->
  length x = (natom * nei)%nat -> (a < natom)%nat -> (j < nei)%nat ->
  nth (a * nei + j) (attention_layer fexp self P en nei W input_r dotr do_mask x i) []
  = layer_normalization P i
      (vadd (nth (a * nei + j) x [])
         (c_out P i
            (nth j
               (matmul false false nei nei (att_n self)
                  (attn_final fexp nei (att_n self) (nth a ms [])
                     (map (fun x => - IZR (2 ^ 33) * (1 - x)) (nth a ms []))
                     (map l2_normalize (nth a (chunk nei natom (map (c_query P i) x)) []))
                     (map l2_normalize (nth a (chunk nei natom (map (c_key P i) x)) []))
                     (sqrt 1) (nth a input_r []) dotr do_mask)
                  (map l2_normalize (nth a (chunk nei natom (map (c_value P i) x)) [])))
               []))).
Proof.
  intros Hm Hn Hx Ha Hj. pose proof (slot_lt natom nei a j Ha Hj) as Hk.
  unfold attention_layer. rewrite Hx, Nat.div_mul by lia.
  set (Q := map (map l2_normalize) (chunk nei natom (map (c_query P i) x))).
  set (K := map (map l2_normalize) (chunk nei natom (map (c_key P i) x))).
  set (V := map (map l2_normalize) (chunk nei natom (map (c_value P i) x))).
  destruct (scaled_dot_attn_rows fexp nei en (att_n self) Q K V (sqrt 1) input_r dotr
              do_mask) as [Hlen Hrows].
  assert (HQ : length Q = natom) by (unfold Q; now rewrite length_map, chunk_length).
  assert (Hcat : length (concat (_scaled_dot_attn fexp en nei (att_n self) Q K V (sqrt 1)
                                   input_r dotr do_mask)) = (natom * nei)%nat).
  { rewrite (length_concat_uniform nei _ Hrows), Hlen, HQ. reflexivity. }
  rewrite (nth_map_lt (layer_normalization P i) _ _ [] [])
    by (rewrite length_zipWith, length_map, Hcat, Hx; lia).
  rewrite (nth_zipWith vadd _ _ _ [] [] [])
    by (rewrite ?length_map, ?Hcat, ?Hx; lia).
  rewrite (nth_map_lt (c_out P i) _ _ [] []) by (rewrite Hcat; lia).
  rewrite (nth_concat_uniform nei _ a j [] Hrows Hj).
  unfold _scaled_dot_attn at 1. rewrite HQ, nth_map_seq by assumption.
  rewrite Hm, Hn. unfold negs, Q, K, V.
  rewrite (nth_map_default (map (fun x => - IZR (2 ^ 33) * (1 - x))) ms a [] [] eq_refl).
  rewrite !(nth_map_default (map l2_normalize) _ a [] [] eq_refl).
  reflexivity.
Qed.

Lemma attention_layer_agree (en en' : env) (x x' : list (list R)) (i : nat) :
  nmask en = ms -> negative_mask en = negs ->
  nmask en' = ms -> negative_mask en' = negs ->
  agree x x' ->
  agree (attention_layer fexp self P en nei W input_r dotr do_mask x i)
        (attention_layer fexp self P en' nei W input_r dotr do_mask x' i).
Proof.
  intros Hm Hn Hm' Hn' (Hx & Hx' & Hreal). repeat split.
  - now apply attention_layer_flat_length.
  - now apply attention_layer_flat_length.
  - intros a j Ha Hj Hmj.
    rewrite (attention_layer_row en x i a j Hm Hn Hx Ha Hj).
    rewrite (attention_layer_row en' x' i a j Hm' Hn' Hx' Ha Hj).
    rewrite (Hreal a j Ha Hj Hmj). do 3 f_equal.
    assert (Hrow : forall (f : list R -> list R) (t : nat),
              (t < nei)%nat -> nth t (nth a ms []) 0 = 1 ->
              nth t (nth a (chunk nei natom (map f x)) []) []
              = nth t (nth a (chunk nei natom (map f x')) []) []).
    { intros f t Ht Hmt. rewrite !nth_chunk_row by assumption.
      pose proof (slot_lt natom nei a t Ha Ht) as Hk.
      rewrite !(nth_map_lt f _ _ [] []) by lia. now rewrite (Hreal a t Ha Ht Hmt). }
    rewrite Forall_forall in ms_rows, ms_flags.
    apply (output_row_real fexp fexp_underflow nei (att_n self) (nth a ms [])).
    + apply ms_rows, nth_In. lia.
    + apply ms_flags, nth_In. lia.
    + intros t Ht Hmt. now apply Hrow.
    + intros t Ht Hmt. now apply Hrow.
    + intros t Ht Hmt. now apply Hrow.
    + assumption.
    + assumption.
Qed.

Lemma attention_layers_agree (en en' : env) (L : nat) (x x' : list (list R)) :
  nmask en = ms -> negative_mask en = negs ->
  nmask en' = ms -> negative_mask en' = negs ->
  agree x x' ->
  agree (_attention_layers fexp self P en x L (nei * 4) W input_r dotr do_mask)
        (_attention_layers fexp self P en' x' L (nei * 4) W input_r dotr do_mask).
Proof.
  intros Hm Hn Hm' Hn'. unfold _attention_layers. rewrite Nat.div_mul by lia.
  generalize (seq 0 L). intros l. revert x x'.
  induction l as [|i l IH]; intros x x' Hx; [exact Hx|].
  cbn [fold_left]. apply IH. now apply attention_layer_agree.
Qed.

End PaddedBatch.

Lemma lookup_rows_agree {A : Type} (table : list A) (ids ids' : list Z) (rows rows' : list A)
    (k : nat) (d : A) :
  embedding_lookup table ids = Ok rows -> embedding_lookup table ids' = Ok rows' ->
  (k < length ids)%nat -> (k < length ids')%nat -> nth k ids 0%Z = nth k ids' 0%Z ->
  nth k rows d = nth k rows' d.
Proof.
  unfold embedding_lookup. intros H H' Hk Hk' Hid.
  apply mapM_ok in H, H'.
  pose proof (Forall2_nth_lt _ _ _ k 0%Z d H Hk) as E.
  pose proof (Forall2_nth_lt _ _ _ k 0%Z d H' Hk') as E'.
  cbv beta in E, E'. rewrite Hid in E. rewrite E in E'. now inversion E'.
Qed.

Section PaddedEmbedding.

Import Sem.
Local Open Scope R_scope.

Variables (self : descrpt) (P : params).
Variables (nei natom : nat).
Variable ms : list (list R).
Variables (e e' : env).
Hypothesis nnei_self : nnei self = nei.
Hypothesis types_length : length (nei_type_vec e) = (natom * nei)%nat.
Hypothesis types_length' : length (nei_type_vec e') = (natom * nei)%nat.
Hypothesis types_real :
  forall a i : nat, (a < natom)%nat -> (i < nei)%nat -> nth i (nth a ms []) 0 = 1 ->
    nth (a * nei + i) (nei_type_vec e) 0%Z = nth (a * nei + i) (nei_type_vec e') 0%Z.

(** The embedding of a slot is made of its own feature and type, and of
    the types of the centers. *)
Lemma type_embedded_real (xs te : list (list R)) (atype : list Z) (X X' : list (list R)) :
  length xs = (natom * nei)%nat -> length atype = natom ->
  type_embedded self P e xs te atype = Ok X ->
  type_embedded self P e' xs te atype = Ok X' ->
  length X = (natom * nei)%nat /\ length X' = (natom * nei)%nat /\
  forall a i : nat, (a < natom)%nat -> (i < nei)%nat -> nth i (nth a ms []) 0 = 1 ->
    nth (a * nei + i) X [] = nth (a * nei + i) X' [].
Proof.
  intros Hxs Hat H H'. unfold type_embedded in H, H'.
  destruct (type_one_side self).
  - bind_inv H. bind_inv H'. inversion H; inversion H'; subst X X'; clear H H'.
    pose proof (embedding_lookup_length _ _ _ E) as Hl.
    pose proof (embedding_lookup_length _ _ _ E0) as Hl'.
    repeat split.
    + rewrite length_zipWith, length_map, Hl, types_length, Hxs. lia.
    + rewrite length_zipWith, length_map, Hl', types_length', Hxs. lia.
    + intros b i Hb Hi Hm. pose proof (slot_lt natom nei b i Hb Hi) as Hk.
      rewrite !(nth_zipWith vadd _ _ _ [] [] []) by (rewrite ?length_map; lia).
      f_equal.
      apply (lookup_rows_agree _ _ _ _ _ _ [] E E0); try lia.
      now apply types_real.
  - bind_inv H. bind_inv H'. inversion H; inversion H'; subst X X'; clear H H'.
    pose proof (embedding_lookup_length _ _ _ E) as Hl.
    pose proof (embedding_lookup_length _ _ _ E0) as Hl'.
    assert (Hidx : forall en : env, length (nei_type_vec en) = (natom * nei)%nat ->
              length (index_of_two_side (length te) (nnei self) (nei_type_vec en) atype)
              = Nat.min (natom * nei) (nnei self * natom)).
    { intros en Hen. unfold index_of_two_side.
      now rewrite length_zip_add, length_map, length_tile, Hen, Hat. }
    rewrite (Hidx e types_length) in Hl. rewrite (Hidx e' types_length') in Hl'.
    rewrite nnei_self in *.
    repeat split.
    + rewrite length_zipWith, length_map, Hl, Hxs. lia.
    + rewrite length_zipWith, length_map, Hl', Hxs. lia.
    + intros b i Hb Hi Hm. pose proof (slot_lt natom nei b i Hb Hi) as Hk.
      rewrite !(nth_zipWith _ _ _ _ [] [] []) by (rewrite ?length_map; lia).
      enough (Hrow : nth (b * nei + i) a [] = nth (b * nei + i) a0 []) by now rewrite Hrow.
      apply (lookup_rows_agree _ _ _ _ _ _ [] E E0).
      * rewrite (Hidx e types_length). lia.
      * rewrite (Hidx e' types_length'). lia.
      * rewrite !index_of_two_side_nth by (rewrite ?Hat; lia).
        now rewrite (types_real b i Hb Hi Hm).
Qed.

End PaddedEmbedding.

Lemma contraction_real (nei W : nat) (m : list R) (F E E' : list (list R)) :
  length m = nei -> Forall (fun x => x = 0 \/ x = 1)%R m ->
  (forall t : nat, (t < nei)%nat -> nth t m 0%R = 0%R -> nth t F [] = [0; 0; 0; 0]%R) ->
  (forall t : nat, (t < nei)%nat -> nth t m 0%R = 1%R -> nth t E [] = nth t E' []) ->
  Sem.matmul true false 4 nei W F E = Sem.matmul true false 4 nei W F E'.
Proof.
  intros Hm Hflags HF HE. apply matmul_ext. intros c w Hc Hw.
  apply big_sum_ext. intros t Ht. unfold Sem.entry.
  destruct (m_flag nei m Hm Hflags t Ht) as [Hmt|Hmt].
  - rewrite (HF t Ht Hmt).
    destruct c as [|[|[|[|c]]]]; [| | | |lia]; simpl; ring.
  - now rewrite (HE t Ht Hmt).
Qed.

Lemma Ok_inj {A : Type} (a b : A) : Ok a = Ok b -> a = b.
Proof. intros H. now inversion H. Qed.

Lemma both_ok {A : Type} (x y : result A) :
  (forall r r' : A, x = Ok r -> y = Ok r' -> r = r') ->
  match x, y with
  | Ok r, Ok r' => r = r'
  | _, _ => True
  end.
Proof. intros H. destruct x as [r|], y as [r'|]; try exact I. now apply H. Qed.

(** The neighbor types that the environment holds for padded slots are not
    read: when the features of the padded slots are zero and the exponential
    underflows, two lists of neighbor types that are the same in the real
    slots give the same descriptor and rotation matrix, with any number of
    attention layers and in both branches of the type embedding. *)
Theorem padded_neighbor_types_ignored :
  forall (fexp : R -> R) (self : Sem.descrpt) (P : Sem.params) (nei : nat)
         (featss : list (list (list R))) (ms : list (list R)) (types types' : list Z)
         (te : list (list R)) (atype : list Z),
    (forall x : R, (x <= 1 - IZR (2 ^ 33))%R -> fexp x = 0%R) ->
    (0 < nei)%nat ->
    Sem.cumsum_last (Sem.sel_a self) = Ok nei ->
    Sem.nnei self = nei ->
    Forall (fun b => length b = nei) featss ->
    Forall (Forall (fun row => length row = 4%nat)) featss ->
    length ms = length featss ->
    Forall (fun m => length m = nei) ms ->
    Forall (Forall (fun x => x = 0 \/ x = 1)%R) ms ->
    length types = (length featss * nei)%nat ->
    length types' = (length featss * nei)%nat ->
    length atype = length featss ->
    (forall a i : nat, (a < length featss)%nat -> (i < nei)%nat ->
       nth i (nth a ms []) 0%R = 0%R -> nth i (nth a featss []) [] = [0; 0; 0; 0]%R) ->
    (forall a i : nat, (a < length featss)%nat -> (i < nei)%nat ->
       nth i (nth a ms []) 0%R = 1%R ->
       nth (a * nei + i) types 0%Z = nth (a * nei + i) types' 0%Z) ->
    match
      Sem._filter fexp self P
        {| Sem.nei_type_vec := types; Sem.nmask := ms;
           Sem.negative_mask := map (map (fun x => (- IZR (2 ^ 33) * (1 - x))%R)) ms |}
        (map (@concat R) featss) (Some te) (Some atype),
      Sem._filter fexp self P
        {| Sem.nei_type_vec := types'; Sem.nmask := ms;
           Sem.negative_mask := map (map (fun x => (- IZR (2 ^ 33) * (1 - x))%R)) ms |}
        (map (@concat R) featss) (Some te) (Some atype)
    with
    | Ok r, Ok r' => r = r'
    | _, _ => True
    end.
Proof.
  intros fexp self P nei featss ms types types' te atype Hfexp Hpos Hsel Hnnei Hblocks Hrows
         Hms Hmrows Hflags Htypes Htypes' Hat Hzero Hreal.
  set (natom := length featss) in *.
  set (e := {| Sem.nei_type_vec := types; Sem.nmask := ms;
               Sem.negative_mask := map (map (fun x => (- IZR (2 ^ 33) * (1 - x))%R)) ms |}).
  set (e' := {| Sem.nei_type_vec := types'; Sem.nmask := ms;
                Sem.negative_mask := map (map (fun x => (- IZR (2 ^ 33) * (1 - x))%R)) ms |}).
  apply both_ok. intros r r' H H'.
  unfold Sem._filter in H, H'. rewrite Hsel in H, H'. cbn [rbind] in H, H'.
  destruct (Sem._filter_lower fexp self P e 0 nei (map (@concat R) featss) (Some te)
              (Some atype)) as [G0|] eqn:HG; [|discriminate].
  destruct (Sem._filter_lower fexp self P e' 0 nei (map (@concat R) featss) (Some te)
              (Some atype)) as [G0'|] eqn:HG'; [|discriminate].
  cbn [rbind] in H, H'.
  enough (HGG : G0 = G0').
  { subst G0'. rewrite H in H'. now inversion H'. }
  unfold Sem._filter_lower in HG, HG'.
  rewrite (attended_batch fexp self P nei natom Hpos e featss) in HG
    by (assumption || reflexivity).
  rewrite (attended_batch fexp self P nei natom Hpos e' featss) in HG'
    by (assumption || reflexivity).
  destruct (Sem.compress self); [discriminate|].
  set (xs0 := map (firstn 1) (concat featss)) in *.
  destruct (Sem.type_embedded self P e xs0 te atype) as [X|] eqn:HX; [|discriminate].
  destruct (Sem.type_embedded self P e' xs0 te atype) as [X'|] eqn:HX'; [|discriminate].
  cbv zeta in HG, HG'. cbn [rbind fst snd] in HG, HG'.
  apply Ok_inj in HG, HG'. subst G0 G0'.
  assert (Hxs0 : length xs0 = (natom * nei)%nat).
  { unfold xs0. rewrite length_map, (length_concat_uniform nei featss Hblocks). reflexivity. }
  pose proof (type_embedded_real self P nei natom ms e e' Hnnei Htypes Htypes' Hreal
                xs0 te atype X X' Hxs0 Hat HX HX') as HXX.
  set (input_r := map (map Sem.l2_normalize)
                    (map (map (fun row => firstn 3 (skipn 1 row))) featss)) in *.
  pose proof (attention_layers_agree fexp Hfexp self P nei natom Hpos ms Hms Hmrows Hflags
                (Sem.outputs_size_last self) input_r (Sem.attn_dotr self)
                (Sem.attn_mask self) e e' (Sem.attn_layer self) X X'
                eq_refl eq_refl eq_refl eq_refl HXX) as (Hl & Hl' & Hatt).
  rewrite Hl, Hl', !Nat.div_mul by lia.
  set (Y := Sem._attention_layers fexp self P e X (Sem.attn_layer self) (nei * 4)
              (Sem.outputs_size_last self) input_r (Sem.attn_dotr self)
              (Sem.attn_mask self)) in *.
  set (Y' := Sem._attention_layers fexp self P e' X' (Sem.attn_layer self) (nei * 4)
               (Sem.outputs_size_last self) input_r (Sem.attn_dotr self)
               (Sem.attn_mask self)) in *.
  rewrite !(zipWith_map_seq _ featss _ [] [] natom eq_refl) by apply chunk_length.
  apply map_ext_in. intros a Ha. apply in_seq in Ha.
  rewrite Forall_forall in Hmrows, Hflags.
  apply (contraction_real nei _ (nth a ms [])).
  - apply Hmrows, nth_In. lia.
  - apply Hflags, nth_In. lia.
  - intros t Ht Hmt. apply Hzero; assumption || lia.
  - intros t Ht Hmt. rewrite !nth_chunk_row by lia. apply Hatt; assumption || lia.
Qed.

Lemma padded_neighbor_types_ignored_witness :
  match
    Sem._filter Examples.exp_underflow (AttentionExamples.descrpt_attention true)
      Examples.params_example
      {| Sem.nei_type_vec := [0; 1; 1; 0]%Z; Sem.nmask := [[1; 1]; [1; 0]]%R;
         Sem.negative_mask :=
           map (map (fun x => (- IZR (2 ^ 33) * (1 - x))%R)) [[1; 1]; [1; 0]]%R |}
      (map (@concat R) [[[1; 1; 0; 0]; [2; 0; 2; 0]]; [[1; 1; 0; 0]; [0; 0; 0; 0]]]%R)
      (Some Examples.type_embedding_example) (Some [0; 1]%Z),
    Sem._filter Examples.exp_underflow (AttentionExamples.descrpt_attention true)
      Examples.params_example
      {| Sem.nei_type_vec := [0; 1; 1; 1]%Z; Sem.nmask := [[1; 1]; [1; 0]]%R;
         Sem.negative_mask :=
           map (map (fun x => (- IZR (2 ^ 33) * (1 - x))%R)) [[1; 1]; [1; 0]]%R |}
      (map (@concat R) [[[1; 1; 0; 0]; [2; 0; 2; 0]]; [[1; 1; 0; 0]; [0; 0; 0; 0]]]%R)
      (Some Examples.type_embedding_example) (Some [0; 1]%Z)
  with
  | Ok r, Ok r' => r = r'
  | _, _ => True
  end.
Proof.
  apply (padded_neighbor_types_ignored Examples.exp_underflow
           (AttentionExamples.descrpt_attention true) Examples.params_example 2
           [[[1; 1; 0; 0]; [2; 0; 2; 0]]; [[1; 1; 0; 0]; [0; 0; 0; 0]]]%R
           [[1; 1]; [1; 0]]%R [0; 1; 1; 0]%Z [0; 1; 1; 1]%Z
           Examples.type_embedding_example [0; 1]%Z).
  - intros x Hx. unfold Examples.exp_underflow.
    destruct (Rle_dec x (-745)) as [_|Hn]; [reflexivity|].
    exfalso. apply Hn. simpl in Hx. lra.
  - apply Nat.lt_0_succ.
  - reflexivity.
  - reflexivity.
  - repeat constructor.
  - repeat constructor.
  - reflexivity.
  - repeat constructor.
  - repeat constructor; (now left) || (now right).
  - reflexivity.
  - reflexivity.
  - reflexivity.
  - intros [|[|a]] [|[|i]] Ha Hi Hm; simpl in *; try lia; try reflexivity; exfalso; lra.
  - intros [|[|a]] [|[|i]] Ha Hi Hm; simpl in *; try lia; try reflexivity; exfalso; lra.
Defined.

Section SoftmaxRows.

Import Sem.
Local Open Scope R_scope.

Variable fexp : R -> R.
Hypothesis fexp_nonneg : forall v, 0 <= fexp v.
Hypothesis fexp_zero : 0 < fexp 0.

Lemma reduce_sum_nonneg (l : list R) : Forall (fun v => 0 <= v) l -> 0 <= reduce_sum l.
Proof. induction 1 as [|v l Hv _ IH]; simpl; lra. Qed.

Lemma reduce_sum_ge_in (l : list R) (v : R) :
  Forall (fun w => 0 <= w) l -> In v l -> v <= reduce_sum l.
Proof.
  induction 1 as [|w l Hw Hl IH]; intros Hin; [destruct Hin|].
  pose proof (reduce_sum_nonneg l Hl) as Hs. simpl.
  destruct Hin as [->|Hin]; [lra|]. specialize (IH Hin). lra.
Qed.

Lemma reduce_sum_map_scale (c : R) (l : list R) :
  reduce_sum (map (fun v => v * c) l) = reduce_sum l * c.
Proof. induction l as [|v l IH]; simpl; [lra|]. rewrite IH. lra. Qed.

(** The shifted exponentials of a row and their sum, which is positive
    because the largest logit is shifted to 0. *)
Lemma softmax_denominator (x : list R) :
  x <> [] ->
  Forall (fun w => 0 <= w) (map (fun v => fexp (v - reduce_max x)) x) /\
  0 < reduce_sum (map (fun v => fexp (v - reduce_max x)) x).
Proof.
  intros Hx.
  assert (Hall : Forall (fun w => 0 <= w) (map (fun v => fexp (v - reduce_max x)) x)).
  { rewrite Forall_map. apply Forall_forall. intros v _. apply fexp_nonneg. }
  split; [exact Hall|].
  eapply Rlt_le_trans; [exact fexp_zero|].
  apply reduce_sum_ge_in; [exact Hall|].
  apply in_map_iff. exists (reduce_max x). split.
  - f_equal. lra.
  - now apply reduce_max_in.
Qed.

Lemma softmax_sum (x : list R) : x <> [] -> reduce_sum (softmax fexp x) = 1.
Proof.
  intros Hx. destruct (softmax_denominator x Hx) as [_ Hs]. unfold softmax.
  unfold Rdiv. rewrite reduce_sum_map_scale. apply Rinv_r. lra.
Qed.

Lemma softmax_range (x : list R) :
  x <> [] -> Forall (fun w => 0 <= w <= 1) (softmax fexp x).
Proof.
  intros Hx. destruct (softmax_denominator x Hx) as [Hall Hs]. unfold softmax.
  set (e := map (fun v => fexp (v - reduce_max x)) x) in *.
  rewrite Forall_map. apply Forall_forall. intros v Hv.
  pose proof (reduce_sum_ge_in e v Hall Hv) as Hle.
  rewrite Forall_forall in Hall. specialize (Hall v Hv).
  split.
  - apply Rmult_le_pos; [exact Hall|]. left. now apply Rinv_0_lt_compat.
  - apply Rmult_le_reg_r with (r := reduce_sum e); [exact Hs|].
    unfold Rdiv. rewrite Rmult_assoc, Rinv_l by lra. lra.
Qed.

End SoftmaxRows.

(** The weights that [_scaled_dot_attn] saves as [attn_weight], for any
    queries and keys: the row of a real slot is a probability distribution
    over the slots and the row of a padded slot is zero. With the validity
    flag of the slot, 1 or 0, the row sums to the flag and its entries lie
    between 0 and the flag. *)
Theorem attention_weights_normalized :
  forall (fexp : R -> R) (nei d : nat) (m neg : list R) (Q K : list (list R)) (T : R)
         (i : nat),
    (forall v : R, (0 <= fexp v)%R) -> (0 < fexp 0%R)%R ->
    length m = nei -> length neg = nei ->
    Forall (fun x => x = 0 \/ x = 1)%R m ->
    (i < nei)%nat ->
    let row := nth i (Sem.attn_softmax fexp nei d m neg Q K T) [] in
    length row = nei /\
    Sem.reduce_sum row = nth i m 0%R /\
    Forall (fun w => 0 <= w <= nth i m 0%R)%R row.
Proof.
  intros fexp nei d m neg Q K T i Hnn Hz Hm Hneg Hflags Hi row.
  assert (Hrow : row = map (fun w => (w * nth i m 0)%R)
                         (Sem.softmax fexp (nth i (Sem.attn_scores nei d m neg Q K T) []))).
  { unfold row, Sem.attn_softmax.
    rewrite (nth_zipWith _ _ m i [] 0%R [])
      by (rewrite ?attn_softmax_pre_length; lia).
    now rewrite (nth_map_lt (Sem.softmax fexp) _ i [] [])
      by (rewrite attn_scores_length; lia). }
  set (x := nth i (Sem.attn_scores nei d m neg Q K T) []) in *.
  assert (Hx : x <> []).
  { intros E. pose proof (attn_scores_row_length nei d m neg Q K T i Hm Hneg Hi) as Hl.
    fold x in Hl. rewrite E in Hl. simpl in Hl. lia. }
  split; [|split].
  - unfold row. now apply attn_softmax_row_length.
  - rewrite Hrow, reduce_sum_map_scale, (softmax_sum fexp Hnn Hz x Hx). lra.
  - rewrite Hrow, Forall_map.
    pose proof (softmax_range fexp Hnn Hz x Hx) as Hr.
    eapply Forall_impl; [|exact Hr]. intros w Hw. cbv beta in *.
    destruct (m_flag nei m Hm Hflags i Hi) as [Hmi|Hmi]; rewrite Hmi; lra.
Qed.

Lemma attention_weights_normalized_witness :
  let row :=
    nth 0 (Sem.attn_softmax Examples.exp_underflow 2 1 [1; 0]%R
             (map (fun x => (- IZR (2 ^ 33) * (1 - x))%R) [1; 0]%R)
             [[3]; [1000000]]%R [[4]; [-1000000]]%R (sqrt 1)) [] in
  length row = 2%nat /\
  Sem.reduce_sum row = nth 0 [1; 0]%R 0%R /\
  Forall (fun w => 0 <= w <= nth 0 [1; 0]%R 0%R)%R row.
Proof.
  apply (attention_weights_normalized Examples.exp_underflow 2 1 [1; 0]%R
           (map (fun x => (- IZR (2 ^ 33) * (1 - x))%R) [1; 0]%R)
           [[3]; [1000000]]%R [[4]; [-1000000]]%R (sqrt 1) 0).
  - intros v. unfold Examples.exp_underflow.
    destruct (Rle_dec v (-745)); [lra|]. left. apply exp_pos.
  - unfold Examples.exp_underflow.
    destruct (Rle_dec 0 (-745)); [lra|]. apply exp_pos.
  - reflexivity.
  - reflexivity.
  - repeat constructor; (now left) || (now right).
  - apply Nat.lt_0_succ.
Defined.

Lemma mapM_block {A B : Type} (f : A -> result B) (l : list A) (l' : list B) (n k : nat) :
  mapM f l = Ok l' -> mapM f (firstn n (skipn k l)) = Ok (firstn n (skipn k l')).
Proof.
  intros H.
  assert (Hskip : forall (k : nat) (l : list A) (l' : list B),
            mapM f l = Ok l' -> mapM f (skipn k l) = Ok (skipn k l')).
  { clear. induction k as [|k IH]; intros l l' H; [exact H|].
    destruct l as [|x l]; simpl in H.
    - inversion H. reflexivity.
    - destruct (f x) as [y|]; [|discriminate].
      destruct (mapM f l) as [ys|] eqn:E; [|discriminate].
      inversion H. simpl. now apply IH. }
  assert (Hfirst : forall (n : nat) (l : list A) (l' : list B),
            mapM f l = Ok l' -> mapM f (firstn n l) = Ok (firstn n l')).
  { clear. induction n as [|n IH]; intros l l' H; [reflexivity|].
    destruct l as [|x l]; simpl in H.
    - inversion H. reflexivity.
    - destruct (f x) as [y|] eqn:Ex; [|discriminate].
      destruct (mapM f l) as [ys|] eqn:E; [|discriminate].
      inversion H. simpl. rewrite Ex. now rewrite (IH l ys E). }
  apply Hfirst, Hskip, H.
Qed.

Lemma combine_skipn {A B : Type} (k : nat) (x : list A) (y : list B) :
  combine (skipn k x) (skipn k y) = skipn k (combine x y).
Proof.
  revert x y. induction k as [|k IH]; intros [|a x] [|b y]; simpl; auto.
  destruct (skipn k x); reflexivity.
Qed.

Lemma zipWith_block {A B C : Type} (f : A -> B -> C) (n k : nat) (x : list A) (y : list B) :
  Sem.zipWith f (firstn n (skipn k x)) (firstn n (skipn k y))
  = firstn n (skipn k (Sem.zipWith f x y)).
Proof.
  unfold Sem.zipWith. now rewrite skipn_map, firstn_map, <- combine_skipn, combine_firstn.
Qed.

Lemma atom_block_length {A : Type} (nei natom a : nat) (x : list A) :
  (a < natom)%nat -> length x = (natom * nei)%nat ->
  length (firstn nei (skipn (a * nei) x)) = nei.
Proof. intros Ha Hx. rewrite length_firstn, length_skipn, Hx. nia. Qed.

Lemma nth_atom_block {A : Type} (nei a : nat) (x : list A) (j : nat) (d : A) :
  (j < nei)%nat -> nth j (firstn nei (skipn (a * nei) x)) d = nth (a * nei + j) x d.
Proof.
  intros Hj. rewrite nth_firstn. destruct (Nat.ltb_spec j nei); [|lia]. apply nth_skipn.
Qed.

Section AtomBlock.

Import Sem.
Local Open Scope R_scope.

Variable fexp : R -> R.
Variables (self : descrpt) (P : params).
Variables (nei natom : nat).
Hypothesis nei_pos : (0 < nei)%nat.
Variable ms : list (list R).
Hypothesis ms_length : length ms = natom.
Variables (W : nat) (input_r : list (list (list R))) (dotr do_mask : bool).
Lemma attention_layers_flat_length (en0 : env) (L : nat) (x : list (list R)) :
  length x = (natom * nei)%nat ->
  length (_attention_layers fexp self P en0 x L (nei * 4) W input_r dotr do_mask)
  = (natom * nei)%nat.
Proof.
  unfold _attention_layers. rewrite Nat.div_mul by lia.
  generalize (seq 0 L). intros l. revert x.
  induction l as [|i l IH]; intros x Hx; [exact Hx|].
  cbn [fold_left]. apply IH.
  now apply (attention_layer_flat_length fexp self P nei natom nei_pos ms ms_length).
Qed.

Variable a : nat.
Hypothesis a_lt : (a < natom)%nat.

Variables (en en1 : env).
Hypothesis en_mask : nmask en = ms.
Hypothesis en_neg :
  negative_mask en = map (map (fun x => - IZR (2 ^ 33) * (1 - x))) ms.
Hypothesis en1_mask : nmask en1 = [nth a ms []].
Hypothesis en1_neg :
  negative_mask en1 = map (map (fun x => - IZR (2 ^ 33) * (1 - x))) [nth a ms []].

(** The rows of atom [a] in a batch of rows. *)
Let block {A : Type} (x : list A) : list A := firstn nei (skipn (a * nei) x).

Lemma chunk_block (f : list R -> list R) (x : list (list R)) :
  length x = (natom * nei)%nat ->
  nth 0 (chunk nei 1 (map f (block x))) [] = nth a (chunk nei natom (map f x)) [].
Proof.
  intros Hx. rewrite !nth_chunk by lia. cbn [Nat.mul skipn].
  unfold block.
  rewrite firstn_all2 by (rewrite length_map, (atom_block_length nei natom a x a_lt Hx); trivial).
  now rewrite skipn_map, firstn_map.
Qed.

(** A layer on the rows of one atom alone. *)
Lemma attention_layer_block (x : list (list R)) (i : nat) :
  length x = (natom * nei)%nat ->
  attention_layer fexp self P en1 nei W [nth a input_r []] dotr do_mask (block x) i
  = block (attention_layer fexp self P en nei W input_r dotr do_mask x i).
Proof.
  intros Hx.
  assert (Hb : length (block x) = (1 * nei)%nat)
    by (unfold block; rewrite (atom_block_length nei natom a x a_lt Hx); lia).
  apply nth_ext with (d := []) (d' := []).
  - rewrite (attention_layer_flat_length fexp self P nei 1 nei_pos [nth a ms []] eq_refl)
      by assumption.
    unfold block. rewrite (atom_block_length nei natom a _ a_lt); [lia|].
    now apply (attention_layer_flat_length fexp self P nei natom nei_pos ms ms_length).
  - intros j Hj.
    rewrite (attention_layer_flat_length fexp self P nei 1 nei_pos [nth a ms []] eq_refl)
      in Hj by assumption.
    unfold block at 2. rewrite nth_atom_block by lia.
    rewrite (attention_layer_row fexp self P nei natom nei_pos ms ms_length W input_r dotr
               do_mask en x i a j en_mask en_neg Hx a_lt) by lia.
    change j with (0 * nei + j)%nat at 1.
    rewrite (attention_layer_row fexp self P nei 1 nei_pos [nth a ms []] eq_refl W
               [nth a input_r []] dotr do_mask en1 (block x) i 0 j en1_mask en1_neg Hb)
      by lia.
    cbn [nth]. rewrite !chunk_block by assumption.
    change (0 * nei + j)%nat with j. unfold block. now rewrite nth_atom_block by lia.
Qed.

Lemma attention_layers_block (L : nat) (x : list (list R)) :
  length x = (natom * nei)%nat ->
  _attention_layers fexp self P en1 (block x) L (nei * 4) W [nth a input_r []] dotr do_mask
  = block (_attention_layers fexp self P en x L (nei * 4) W input_r dotr do_mask).
Proof.
  unfold _attention_layers. rewrite Nat.div_mul by lia.
  generalize (seq 0 L). intros l. revert x.
  induction l as [|i l IH]; intros x Hx; [reflexivity|].
  cbn [fold_left]. rewrite (attention_layer_block x i Hx). apply IH.
  now apply (attention_layer_flat_length fexp self P nei natom nei_pos ms ms_length).
Qed.

(** The one-sided type embedding of the slots of one atom. *)
Lemma type_embedded_block (xs te : list (list R)) (atype atype1 : list Z)
    (X : list (list R)) :
  type_one_side self = true ->
  nei_type_vec en1 = block (nei_type_vec en) ->
  type_embedded self P en xs te atype = Ok X ->
  type_embedded self P en1 (block xs) te atype1 = Ok (block X).
Proof.
  intros Hside Htypes H. unfold type_embedded in *. rewrite Hside in *.
  bind_inv H. apply Ok_inj in H. subst X. rewrite Htypes.
  unfold embedding_lookup in *. unfold block.
  rewrite (mapM_block _ _ _ nei (a * nei) E). cbn [rbind].
  now rewrite <- zipWith_block, skipn_map, firstn_map.
Qed.

End AtomBlock.


(** In the one-sided branch of the type embedding the atoms of a batch do
    not see each other: when [_filter] returns for the batch, it returns
    for every atom taken alone, with that atom's neighbor types and
    validity flags, and gives the atom's descriptor and rotation matrix of
    the batch. *)
Theorem one_side_atoms_independent :
  forall (fexp : R -> R) (self : Sem.descrpt) (P : Sem.params) (nei : nat)
         (featss : list (list (list R))) (ms : list (list R)) (types : list Z)
         (te : list (list R)) (atype atype1 : list Z) (a : nat),
    Sem.type_one_side self = true ->
    (0 < nei)%nat ->
    Sem.cumsum_last (Sem.sel_a self) = Ok nei ->
    (Sem.n_axis_neuron self <= Sem.outputs_size_last self)%nat ->
    Forall (fun b => length b = nei) featss ->
    Forall (Forall (fun row => length row = 4%nat)) featss ->
    length ms = length featss ->
    length types = (length featss * nei)%nat ->
    (a < length featss)%nat ->
    match
      Sem._filter fexp self P
        {| Sem.nei_type_vec := types; Sem.nmask := ms;
           Sem.negative_mask := map (map (fun x => (- IZR (2 ^ 33) * (1 - x))%R)) ms |}
        (map (@concat R) featss) (Some te) (Some atype)
    with
    | Ok (result, qmat) =>
        Sem._filter fexp self P
          {| Sem.nei_type_vec := firstn nei (skipn (a * nei) types);
             Sem.nmask := [nth a ms []];
             Sem.negative_mask :=
               map (map (fun x => (- IZR (2 ^ 33) * (1 - x))%R)) [nth a ms []] |}
          [concat (nth a featss [])] (Some te) (Some atype1)
        = Ok ([nth a result []], [nth a qmat []])
    | Raise _ => True
    end.
Proof.
  intros fexp self P nei featss ms types te atype atype1 a Hside Hpos Hsel HM Hblocks Hrows
         Hms Htypes Ha.
  set (natom := length featss) in *.
  set (e := {| Sem.nei_type_vec := types; Sem.nmask := ms;
               Sem.negative_mask := map (map (fun x => (- IZR (2 ^ 33) * (1 - x))%R)) ms |}).
  set (e1 := {| Sem.nei_type_vec := firstn nei (skipn (a * nei) types);
                Sem.nmask := [nth a ms []];
                Sem.negative_mask :=
                  map (map (fun x => (- IZR (2 ^ 33) * (1 - x))%R)) [nth a ms []] |}).
  destruct (Sem._filter_lower fexp self P e 0 nei (map (@concat R) featss) (Some te)
              (Some atype)) as [G0|err] eqn:HG.
  2:{ unfold Sem._filter. rewrite Hsel. cbn [rbind]. rewrite HG. exact I. }
  rewrite (filter_run fexp self P e _ _ _ nei G0 Hsel HG HM).
  assert (Hfeats : nth a featss [] = firstn nei (skipn (a * nei) (concat featss))).
  { rewrite <- (nth_chunk nei natom (concat featss) a Ha). unfold natom.
    now rewrite chunk_concat. }
  assert (Hfa : length (nth a featss []) = nei).
  { rewrite Forall_forall in Hblocks. apply Hblocks, nth_In, Ha. }
  assert (Hra : Forall (fun row => length row = 4%nat) (nth a featss [])).
  { rewrite Forall_forall in Hrows. apply Hrows, nth_In, Ha. }
  unfold Sem._filter_lower in HG.
  rewrite (attended_batch fexp self P nei natom Hpos e featss) in HG
    by (assumption || reflexivity).
  destruct (Sem.compress self) eqn:Hcomp; [discriminate|].
  set (xs0 := map (firstn 1) (concat featss)) in *.
  destruct (Sem.type_embedded self P e xs0 te atype) as [X|] eqn:HX; [|discriminate].
  cbv zeta in HG. cbn [rbind fst snd] in HG. apply Ok_inj in HG.
  assert (HXl : length X = (natom * nei)%nat).
  { unfold Sem.type_embedded in HX. rewrite Hside in HX. bind_inv HX.
    apply Ok_inj in HX. subst X.
    rewrite length_zipWith, length_map, (embedding_lookup_length _ _ _ E).
    unfold xs0. rewrite length_map, (length_concat_uniform nei featss Hblocks).
    cbn [Sem.nei_type_vec e]. fold natom. lia. }
  set (input_r := map (map Sem.l2_normalize)
                    (map (map (fun row => firstn 3 (skipn 1 row))) featss)) in *.
  set (Y := Sem._attention_layers fexp self P e X (Sem.attn_layer self) (nei * 4)
              (Sem.outputs_size_last self) input_r (Sem.attn_dotr self)
              (Sem.attn_mask self)) in *.
  assert (HY1 :
    Sem._attention_layers fexp self P e1 (firstn nei (skipn (a * nei) X))
      (Sem.attn_layer self) (nei * 4) (Sem.outputs_size_last self) [nth a input_r []]
      (Sem.attn_dotr self) (Sem.attn_mask self)
    = firstn nei (skipn (a * nei) Y)).
  { apply (attention_layers_block fexp self P nei natom Hpos ms Hms
             (Sem.outputs_size_last self) input_r (Sem.attn_dotr self)
             (Sem.attn_mask self) a Ha e e1 eq_refl eq_refl eq_refl eq_refl). exact HXl. }
  assert (HYl : length Y = (natom * nei)%nat).
  { apply (attention_layers_flat_length fexp self P nei natom Hpos ms Hms). exact HXl. }
  assert (Hga : nth a G0 []
                = Sem.matmul true false 4 nei (Sem.outputs_size_last self)
                    (nth a featss []) (firstn nei (skipn (a * nei) Y))).
  { subst G0. rewrite HYl, !Nat.div_mul by lia.
    rewrite (zipWith_map_seq _ featss _ [] [] natom eq_refl) by apply chunk_length.
    rewrite nth_map_seq by assumption. now rewrite nth_chunk by assumption. }
  assert (HG0l : length G0 = natom).
  { subst G0. rewrite length_zipWith, chunk_length, HYl, Nat.div_mul by lia.
    fold natom. lia. }
  assert (HG1 : Sem._filter_lower fexp self P e1 0 nei [concat (nth a featss [])] (Some te)
                  (Some atype1) = Ok [nth a G0 []]).
  { unfold Sem._filter_lower.
    change [concat (nth a featss [])] with (map (@concat R) [nth a featss []]).
    rewrite (attended_batch fexp self P nei 1 Hpos e1 [nth a featss []])
      by (reflexivity || (constructor; [assumption|constructor])).
    rewrite Hcomp. cbn [concat]. rewrite app_nil_r.
    assert (Hxs : map (firstn 1) (nth a featss []) = firstn nei (skipn (a * nei) xs0)).
    { unfold xs0. now rewrite skipn_map, firstn_map, <- Hfeats. }
    rewrite Hxs.
    rewrite (type_embedded_block self P nei a e e1 xs0 te atype atype1 X Hside eq_refl HX).
    cbn [map].
    assert (Hr : map Sem.l2_normalize
                   (map (fun row => firstn 3 (skipn 1 row)) (nth a featss []))
                 = nth a input_r []).
    { unfold input_r.
      rewrite (nth_map_default (map Sem.l2_normalize) _ a [] [] eq_refl).
      now rewrite (nth_map_default (map (fun row => firstn 3 (skipn 1 row))) featss a [] []
                     eq_refl). }
    rewrite Hr, HY1. cbv zeta. cbn [rbind fst snd].
    rewrite (atom_block_length nei natom a Y Ha HYl), Nat.div_same, Nat.div_mul by lia.
    rewrite (chunk_single nei _ (atom_block_length nei natom a Y Ha HYl)).
    rewrite Hga. reflexivity. }
  rewrite (filter_run fexp self P e1 _ _ _ nei [nth a G0 []] Hsel HG1 HM).
  cbn [map]. now rewrite !(nth_map_lt _ G0 a [] []) by lia.
Qed.

Lemma one_side_atoms_independent_witness :
  match
    Sem._filter exp (AttentionExamples.descrpt_attention true) Examples.params_example
      {| Sem.nei_type_vec := [0; 1; 1; 0]%Z; Sem.nmask := [[1; 1]; [1; 0]]%R;
         Sem.negative_mask :=
           map (map (fun x => (- IZR (2 ^ 33) * (1 - x))%R)) [[1; 1]; [1; 0]]%R |}
      (map (@concat R) [[[1; 1; 0; 0]; [2; 0; 2; 0]]; [[1; 1; 0; 0]; [0; 0; 0; 0]]]%R)
      (Some Examples.type_embedding_example) (Some [0; 1]%Z)
  with
  | Ok (result, qmat) =>
      Sem._filter exp (AttentionExamples.descrpt_attention true) Examples.params_example
        {| Sem.nei_type_vec := firstn 2 (skipn (1 * 2) [0; 1; 1; 0]%Z);
           Sem.nmask := [nth 1 [[1; 1]; [1; 0]]%R []];
           Sem.negative_mask :=
             map (map (fun x => (- IZR (2 ^ 33) * (1 - x))%R))
               [nth 1 [[1; 1]; [1; 0]]%R []] |}
        [concat (nth 1 [[[1; 1; 0; 0]; [2; 0; 2; 0]]; [[1; 1; 0; 0]; [0; 0; 0; 0]]]%R [])]
        (Some Examples.type_embedding_example) (Some [1%Z])
      = Ok ([nth 1 result []], [nth 1 qmat []])
  | Raise _ => True
  end.
Proof.
  apply (one_side_atoms_independent exp (AttentionExamples.descrpt_attention true)
           Examples.params_example 2
           [[[1; 1; 0; 0]; [2; 0; 2; 0]]; [[1; 1; 0; 0]; [0; 0; 0; 0]]]%R
           [[1; 1]; [1; 0]]%R [0; 1; 1; 0]%Z Examples.type_embedding_example
           [0; 1]%Z [1%Z] 1).
  - reflexivity.
  - apply Nat.lt_0_succ.
  - reflexivity.
  - apply le_n.
  - repeat constructor.
  - repeat constructor.
  - reflexivity.
  - reflexivity.
  - apply Nat.lt_succ_diag_r.
Defined.

(** ** The attention layers, layer by layer *)

Section LayerRows.

Import Sem.
Local Open Scope R_scope.

Variable fexp : R -> R.
Variables (self : descrpt) (P : params) (e : env).
Variables (nei natom W : nat) (input_r : list (list (list R))) (dotr do_mask : bool).
Hypothesis nei_pos : (0 < nei)%nat.

(** [_attention_layers] runs [layer_num] passes of the layer body, each
    with the same [input_r], [dotr] and [do_mask]. *)
Lemma attention_layers_fold (x : list (list R)) (L : nat) :
  _attention_layers fexp self P e x L (nei * 4) W input_r dotr do_mask
  = fold_left (attention_layer fexp self P e nei W input_r dotr do_mask) (seq 0 L) x.
Proof. unfold _attention_layers. now rewrite Nat.div_mul by discriminate. Qed.

(** Row [j] of atom [a] after a pass: the layer normalization of the row
    plus the output projection of what [_scaled_dot_attn] returns for it
    on the normalized queries, keys and values of the pass. *)
Lemma attention_layer_slot (x : list (list R)) (i a j : nat) :
  length x = (natom * nei)%nat -> (a < natom)%nat -> (j < nei)%nat ->
  nth (a * nei + j) (attention_layer fexp self P e nei W input_r dotr do_mask x i) []
  = layer_normalization P i
      (vadd (nth (a * nei + j) x [])
         (c_out P i
            (nth j
               (nth a
                  (_scaled_dot_attn fexp e nei (att_n self)
                     (map (map l2_normalize) (chunk nei natom (map (c_query P i) x)))
                     (map (map l2_normalize) (chunk nei natom (map (c_key P i) x)))
                     (map (map l2_normalize) (chunk nei natom (map (c_value P i) x)))
                     (sqrt 1) input_r dotr do_mask) [])
               []))).
Proof.
  intros Hx Ha Hj. pose proof (slot_lt natom nei a j Ha Hj) as Hk.
  unfold attention_layer. rewrite Hx, Nat.div_mul by lia.
  set (Q := map (map l2_normalize) (chunk nei natom (map (c_query P i) x))).
  set (K := map (map l2_normalize) (chunk nei natom (map (c_key P i) x))).
  set (V := map (map l2_normalize) (chunk nei natom (map (c_value P i) x))).
  destruct (scaled_dot_attn_rows fexp nei e (att_n self) Q K V (sqrt 1) input_r dotr
              do_mask) as [Hlen Hrows].
  assert (HQ : length Q = natom) by (unfold Q; now rewrite length_map, chunk_length).
  assert (Hcat : length (concat (_scaled_dot_attn fexp e nei (att_n self) Q K V (sqrt 1)
                                   input_r dotr do_mask)) = (natom * nei)%nat).
  { rewrite (length_concat_uniform nei _ Hrows), Hlen, HQ. reflexivity. }
  rewrite (nth_map_lt (layer_normalization P i) _ _ [] [])
    by (rewrite length_zipWith, length_map, Hcat, Hx; lia).
  rewrite (nth_zipWith vadd _ _ _ [] [] [])
    by (rewrite ?length_map, ?Hcat, ?Hx; lia).
  rewrite (nth_map_lt (c_out P i) _ _ [] []) by (rewrite Hcat; lia).
  now rewrite (nth_concat_uniform nei _ a j [] Hrows Hj).
Qed.

(** What [_scaled_dot_attn] returns for atom [a]: the final weights of
    the atom, made with its rows of the two masks and its [input_r], times
    its values. *)
Lemma scaled_dot_attn_atom (d : nat) (Q K V : list (list (list R))) (T : R) (a : nat) :
  (a < length Q)%nat ->
  nth a (_scaled_dot_attn fexp e nei d Q K V T input_r dotr do_mask) []
  = matmul false false nei nei d
      (attn_final fexp nei d (nth a (nmask e) []) (nth a (negative_mask e) [])
         (nth a Q []) (nth a K []) T (nth a input_r []) dotr do_mask)
      (nth a V []).
Proof. intros Ha. unfold _scaled_dot_attn. now rewrite nth_map_seq. Qed.

End LayerRows.

Section LayerCount.

Import Sem.
Local Open Scope R_scope.

Variable fexp : R -> R.
Variables (self : descrpt) (P : params) (e : env).
Variables (nei natom W : nat) (input_r : list (list (list R))) (dotr do_mask : bool).
Hypothesis nei_pos : (0 < nei)%nat.

Lemma attention_layer_count (x : list (list R)) (i : nat) :
  length x = (natom * nei)%nat ->
  length (attention_layer fexp self P e nei W input_r dotr do_mask x i) = (natom * nei)%nat.
Proof.
  intros Hx. unfold attention_layer.
  rewrite length_map, length_zipWith, length_map.
  destruct (scaled_dot_attn_rows fexp nei e (att_n self)
              (map (map l2_normalize) (chunk nei (length x / nei) (map (c_query P i) x)))
              (map (map l2_normalize) (chunk nei (length x / nei) (map (c_key P i) x)))
              (map (map l2_normalize) (chunk nei (length x / nei) (map (c_value P i) x)))
              (sqrt 1) input_r dotr do_mask) as [Hlen Hrows].
  rewrite (length_concat_uniform nei _ Hrows), Hlen, length_map, chunk_length.
  rewrite Hx, Nat.div_mul by lia. lia.
Qed.

Lemma attention_layers_count (L : nat) (x : list (list R)) :
  length x = (natom * nei)%nat ->
  length (_attention_layers fexp self P e x L (nei * 4) W input_r dotr do_mask)
  = (natom * nei)%nat.
Proof.
  unfold _attention_layers. rewrite Nat.div_mul by lia.
  generalize (seq 0 L). intros l. revert x.
  induction l as [|i l IH]; intros x Hx; [exact Hx|].
  cbn [fold_left]. apply IH. now apply attention_layer_count.
Qed.

End LayerCount.

(** A batch of rows of [4 * nei] entries is the flattening of its slots. *)
Lemma rows_as_slots (nei : nat) (inputs : list (list R)) :
  Forall (fun row => length row = (4 * nei)%nat) inputs ->
  let featss := map (chunk 4 nei) inputs in
  inputs = map (@concat R) featss /\
  length featss = length inputs /\
  Forall (fun b => length b = nei) featss /\
  Forall (Forall (fun row => length row = 4%nat)) featss.
Proof.
  intros Hrows featss. unfold featss. repeat split.
  - rewrite map_map. rewrite <- (map_id inputs) at 1. apply map_ext_in.
    intros row Hrow. rewrite Forall_forall in Hrows. symmetry. apply concat_chunk.
    rewrite (Hrows row Hrow). apply Nat.mul_comm.
  - apply length_map.
  - rewrite Forall_map. apply Forall_forall. intros row _. apply chunk_length.
  - rewrite Forall_map. apply Forall_forall. intros row Hrow. apply chunk_rows.
    rewrite Forall_forall in Hrows. rewrite (Hrows row Hrow). apply Nat.mul_comm.
Qed.

Lemma entry_slots (nei : nat) (row : list R) (j c : nat) :
  (j < nei)%nat -> (c < 4)%nat ->
  Sem.entry (chunk 4 nei row) j c = nth (4 * j + c) row 0%R.
Proof.
  intros Hj Hc. unfold Sem.entry. rewrite nth_chunk_row by assumption.
  now rewrite (Nat.mul_comm j 4).
Qed.

(** ** [build], stage by stage *)

(** The stages of [build] before [_pass_filter], read off a call that
    returned. *)
Lemma build_prepare_inv (self : Sem.descrpt) (op : Sem.prod_env_mat) (coord_ : list R)
    (atype_ : list Z) (natoms : list nat) (box_ : list R) (mesh : list Z)
    (pre : Sem.prepared) :
  Sem.build_prepare self op coord_ atype_ natoms box_ mesh = Ok pre ->
  exists (natoms0 natoms1 sel0 : nat) (coord box : list (list R)) (atype : list (list Z))
         (atype_nloc : list (list Z)),
    let o :=
      op coord atype natoms box mesh
        match Sem.davg self with
        | Some d => d
        | None => repeat (repeat 0%R (Sem.ndescrpt self)) (Sem.ntypes self)
        end
        match Sem.dstd self with
        | Some d => d
        | None => repeat (repeat 1%R (Sem.ndescrpt self)) (Sem.ntypes self)
        end in
    nth_error natoms 0 = Some natoms0 /\
    nth_error natoms 1 = Some natoms1 /\
    reshape2_infer (natoms1 * 3) coord_ = Ok coord /\
    reshape2_infer 9 box_ = Ok box /\
    reshape2_infer natoms1 atype_ = Ok atype /\
    index0 (Sem.sel_all_a self) = Ok sel0 /\
    Sem.pre_op pre = o /\
    reshape2_infer sel0 (map to_float (concat (Sem.op_nmask o)))
      = Ok (Sem.nmask (Sem.pre_env pre)) /\
    Sem.nei_type_vec (Sem.pre_env pre) = concat (Sem.op_nei_type_vec o) /\
    reshape2_infer (Sem.ndescrpt self) (concat (Sem.op_descrpt o))
      = Ok (Sem.pre_descrpt_reshape pre) /\
    mapM (Sem.slice_last 0 natoms0)
      (map (map (Sem.clip_by_value 0 (Z.of_nat (Sem.ntypes self) - 1))) atype)
      = Ok atype_nloc /\
    Sem.pre_atype_nloc pre = concat atype_nloc.
Proof.
  intros H. unfold Sem.build_prepare in H.
  bind_inv H. rename a into natoms0, E into Hn0.
  bind_inv H. rename a into natoms1, E into Hn1.
  bind_inv H. rename a into coord, E into Hcoord.
  bind_inv H. rename a into box, E into Hbox.
  bind_inv H. rename a into atype, E into Hatype.
  bind_inv H. rename a into sel0, E into Hsel.
  bind_inv H. rename a into nmask, E into Hnmask.
  bind_inv H. rename a into descrpt_reshape, E into Hd.
  bind_inv H. rename a into atype_nloc, E into Hnloc.
  apply Ok_inj in H. subst pre.
  exists natoms0, natoms1, sel0, coord, box, atype, atype_nloc.
  cbn [Sem.pre_op Sem.pre_env Sem.pre_descrpt_reshape Sem.pre_atype_nloc Sem.nmask
       Sem.nei_type_vec].
  unfold Sem.natoms_at in Hn0, Hn1.
  destruct (nth_error natoms 0) as [n0|]; [|discriminate].
  destruct (nth_error natoms 1) as [n1|]; [|discriminate].
  apply Ok_inj in Hn0, Hn1. subst n0 n1.
  repeat (split; [reflexivity || assumption|]). reflexivity.
Qed.

Lemma reshape2_infer_rows {A : Type} (k : nat) (l : list A) (rows : list (list A)) :
  reshape2_infer k l = Ok rows ->
  (0 < k)%nat /\ Forall (fun row => length row = k) rows /\
  length l = (length rows * k)%nat.
Proof.
  intros H. pose proof (reshape2_infer_length k l rows H) as Hlen.
  unfold reshape2_infer in H. destruct k as [|k']; [discriminate|].
  destruct (Nat.eqb_spec (length l mod S k') 0) as [Hm|]; [|discriminate].
  apply Ok_inj in H. subst rows.
  assert (Hl : length l = (length l / S k' * S k')%nat).
  { pose proof (Nat.div_mod_eq (length l) (S k')) as Hdm.
    rewrite Hm, Nat.add_0_r, Nat.mul_comm in Hdm. exact Hdm. }
  split; [apply Nat.lt_0_succ|]. split.
  - now apply chunk_rows.
  - now rewrite chunk_length.
Qed.

(** ** [build] returns when the operator's neighbor types are in range *)

Lemma reshape3_infer_ok {A : Type} (r k m : nat) (l : list A) :
  (0 < k * m)%nat -> length l = (r * (k * m))%nat ->
  reshape3_infer k m l = Ok (map (chunk m k) (chunk (k * m) r l)).
Proof.
  intros Hkm Hl. unfold reshape3_infer. destruct (k * m)%nat as [|km] eqn:E; [lia|].
  rewrite Hl, Nat.Div0.mod_mul, Nat.div_mul by lia. reflexivity.
Qed.

Lemma concat_reshape3 {A : Type} (r k m : nat) (l : list A) :
  length l = (r * (k * m))%nat ->
  concat (map (@concat A) (map (chunk m k) (chunk (k * m) r l))) = l.
Proof.
  intros Hl. pose proof (chunk_rows (k * m) r l Hl) as Hrows.
  rewrite map_map. rewrite (map_ext_in _ (fun c => c)).
  - rewrite map_id. now apply concat_chunk.
  - intros c Hc. rewrite Forall_forall in Hrows. apply concat_chunk.
    rewrite (Hrows c Hc). lia.
Qed.

Lemma in_zip_add (u v : list Z) (z : Z) :
  In z (zip_add u v) -> exists x y, In x u /\ In y v /\ z = (x + y)%Z.
Proof.
  unfold zip_add. intros H. apply in_map_iff in H. destruct H as ([x y] & <- & Hin).
  exists x, y. split; [eapply in_combine_l; exact Hin|].
  split; [eapply in_combine_r; exact Hin|reflexivity].
Qed.

Lemma in_tile {A : Type} (m : nat) (l : list A) (x : A) : In x (tile m l) -> In x l.
Proof.
  unfold tile. intros H. apply in_concat in H. destruct H as (row & Hrow & Hx).
  apply repeat_spec in Hrow. now subst row.
Qed.

Section TypeLookups.

Import Sem.

Variables (self : descrpt) (P : params) (e : env).

(** The lookups of [_filter_lower] succeed when the neighbor types and the
    center types are rows of the type embedding. *)
Lemma type_embedded_in_range (xs te : mat) (atype : list Z) (N nei : nat) :
  Forall (fun t => (0 <= t <= Z.of_nat (length te) - 1)%Z) (nei_type_vec e) ->
  Forall (fun t => (0 <= t <= Z.of_nat (length te) - 1)%Z) atype ->
  length (nei_type_vec e) = (N * nei)%nat ->
  length xs = (N * nei)%nat ->
  length atype = N ->
  nnei self = nei ->
  exists X, type_embedded self P e xs te atype = Ok X /\ length X = (N * nei)%nat.
Proof.
  intros Hnei Hat Hlen Hxs HN Hnn. unfold type_embedded.
  destruct (type_one_side self).
  - destruct (lookup_in_range (map (net_ebd_of_ebd P) te) (nei_type_vec e))
      as (rows & Hrows & Hl).
    + now rewrite length_map.
    + rewrite Hrows. cbn [rbind]. eexists. split; [reflexivity|].
      unfold vadd. rewrite length_zipWith, length_map, Hl, Hxs, Hlen. apply Nat.min_id.
  - set (idx := index_of_two_side (length te) (nnei self) (nei_type_vec e) atype).
    destruct (lookup_in_range (map (net_two_side_ebd P) (two_side_type_embedding te)) idx)
      as (rows & Hrows & Hl).
    + rewrite length_map, two_side_table_length.
      apply Forall_forall. intros z Hz. unfold idx, index_of_two_side in Hz.
      apply in_zip_add in Hz. destruct Hz as (x & y & Hx & Hy & ->).
      apply in_map_iff in Hx. destruct Hx as (t & <- & Ht).
      apply in_tile in Hy.
      rewrite Forall_forall in Hnei, Hat.
      specialize (Hnei t Ht). specialize (Hat y Hy). cbv beta in Hnei, Hat. nia.
    + rewrite Hrows. cbn [rbind]. eexists. split; [reflexivity|].
      rewrite length_zipWith, length_map, Hl, Hxs. unfold idx, index_of_two_side.
      rewrite length_zip_add, length_map, length_tile, Hlen, Hnn, HN.
      rewrite (Nat.mul_comm nei N). now rewrite !Nat.min_id.
Qed.

End TypeLookups.

Section BuildReturns.

Import Sem.
Local Open Scope R_scope.

Variable fexp : R -> R.
Variables (self : descrpt) (P : params) (e : env).
Variables (nei N : nat).

Let W := outputs_size_last self.
Let M := n_axis_neuron self.

Hypothesis sel_single : sel_a self = [nei].
Hypothesis nnei_sel : nnei self = nei.
Hypothesis nei_pos : (0 < nei)%nat.
Hypothesis ndescrpt_sel : ndescrpt self = (4 * nei)%nat.
Hypothesis compress_off : compress self = false.
Hypothesis axis_le : (M <= W)%nat.

(** [_filter] returns one descriptor of [W * M] entries and one [W x 3]
    matrix per atom. *)
Lemma filter_returns (inputs te : mat) (atype : list Z) :
  length inputs = N ->
  Forall (fun row => length row = (4 * nei)%nat) inputs ->
  Forall (fun t => (0 <= t <= Z.of_nat (length te) - 1)%Z) (nei_type_vec e) ->
  Forall (fun t => (0 <= t <= Z.of_nat (length te) - 1)%Z) atype ->
  length (nei_type_vec e) = (N * nei)%nat ->
  length atype = N ->
  exists result qmat,
    _filter fexp self P e inputs (Some te) (Some atype) = Ok (result, qmat) /\
    length (concat result) = (N * (W * M))%nat /\
    length (concat (map (@concat R) qmat)) = (N * (W * 3))%nat.
Proof.
  intros HN Hrows Hnei Hat Hlen Hal.
  destruct (rows_as_slots nei inputs Hrows) as (Hin & Hsl & Hblocks & Hquads).
  set (slots := map (chunk 4 nei) inputs) in *.
  assert (Hcount : length (concat slots) = (N * nei)%nat).
  { rewrite (length_concat_uniform nei slots Hblocks). now rewrite Hsl, HN. }
  destruct (type_embedded_in_range self P e (map (firstn 1) (concat slots)) te atype N nei)
    as (X & HX & HXl); try assumption.
  { now rewrite length_map. }
  set (E := _attention_layers fexp self P e X (attn_layer self) (nei * 4) W
              (map (map l2_normalize)
                 (map (map (fun row => firstn 3 (skipn 1 row))) slots))
              (attn_dotr self) (attn_mask self)).
  assert (HE : length E = (N * nei)%nat).
  { unfold E. now apply attention_layers_count. }
  assert (Hatt : attended fexp self P e 0 nei inputs (Some te) (Some atype)
                 = Ok (slots, chunk nei N E)).
  { rewrite Hin at 1.
    rewrite (attended_batch fexp self P nei (length slots) nei_pos e slots)
      by (assumption || reflexivity).
    rewrite compress_off, HX. cbv zeta. fold W E. now rewrite HE, Nat.div_mul by lia. }
  assert (Hlow : _filter_lower fexp self P e 0 nei inputs (Some te) (Some atype)
                 = Ok (zipWith (matmul true false 4 (nei * 4 / 4) W) slots (chunk nei N E))).
  { unfold _filter_lower. rewrite Hatt. reflexivity. }
  assert (Hcs : cumsum_last (sel_a self) = Ok nei).
  { rewrite sel_single. simpl. now rewrite Nat.add_0_r. }
  pose proof (filter_run fexp self P e inputs (Some te) (Some atype) nei _ Hcs Hlow axis_le)
    as Hrun.
  eexists _, _. split; [exact Hrun|].
  assert (HG : length (zipWith (matmul true false 4 (nei * 4 / 4) W) slots (chunk nei N E))
               = N).
  { rewrite length_zipWith, chunk_length, Hsl, HN. apply Nat.min_id. }
  split.
  - rewrite (length_concat_uniform (W * M)).
    + now rewrite length_map, HG.
    + rewrite Forall_map. apply Forall_forall. intros g _. apply descriptor_of_length.
  - rewrite (length_concat_uniform (W * 3)).
    + now rewrite !length_map, HG.
    + rewrite !Forall_map. apply Forall_forall. intros g _. cbv beta.
      destruct (qmat_of_shape self g) as [Hq Hq3].
      now rewrite (length_concat_uniform 3 _ Hq3), Hq.
Qed.

End BuildReturns.

(** [_pass_filter] on the features of [nframes] frames of [natoms0] local
    atoms. *)
Lemma pass_filter_returns (fexp : R -> R) (self : Sem.descrpt) (P : Sem.params)
    (e : Sem.env) (nei nframes natoms0 : nat) (D : list R) (atype : list Z)
    (d : list (string * option (list (list R)))) (te : list (list R)) :
  Sem.sel_a self = [nei] ->
  Sem.nnei self = nei ->
  (0 < nei)%nat ->
  Sem.ndescrpt self = (4 * nei)%nat ->
  Sem.compress self = false ->
  (Sem.n_axis_neuron self <= Sem.outputs_size_last self)%nat ->
  Sem.dim_out self = (Sem.outputs_size_last self * Sem.n_axis_neuron self)%nat ->
  Sem.dim_rot_mat_1 self = Sem.outputs_size_last self ->
  (0 < natoms0)%nat ->
  (Sem.ntypes self < length te)%nat ->
  Sem.dict_get d "type_embedding" = Some te ->
  length D = (nframes * natoms0 * Sem.ndescrpt self)%nat ->
  Forall (fun t => (0 <= t <= Z.of_nat (Sem.ntypes self))%Z) (Sem.nei_type_vec e) ->
  Forall (fun t => (0 <= t <= Z.of_nat (Sem.ntypes self) - 1)%Z) atype ->
  length (Sem.nei_type_vec e) = (nframes * natoms0 * nei)%nat ->
  length atype = (nframes * natoms0)%nat ->
  exists dout qmat,
    Sem._pass_filter fexp self P e
      (chunk (Sem.ndescrpt self) (nframes * natoms0) D) atype natoms0 (Some d)
    = Ok (dout, qmat).
Proof.
  intros Hsel Hnn Hnei Hnd Hcomp HM Hdim Hrot Hn0 Hte Hd HD Hnt Hat Hnl Hal.
  unfold Sem._pass_filter. rewrite Hd. cbn [rbind].
  rewrite (concat_chunk (Sem.ndescrpt self) (nframes * natoms0) D HD).
  assert (HD3 : length D = (nframes * (natoms0 * Sem.ndescrpt self))%nat) by lia.
  rewrite (reshape3_infer_ok nframes natoms0 (Sem.ndescrpt self) D) by (assumption || nia).
  cbn [rbind]. rewrite (concat_reshape3 nframes natoms0 (Sem.ndescrpt self) D HD3).
  rewrite (reshape2_infer_ok (Sem.ndescrpt self) (nframes * natoms0) D) by (assumption || lia).
  cbn [rbind]. rewrite length_map, !chunk_length.
  set (rows := chunk (Sem.ndescrpt self) (nframes * natoms0) D).
  assert (Hrows : Forall (fun row => length row = (4 * nei)%nat) rows).
  { unfold rows. rewrite <- Hnd. now apply chunk_rows. }
  assert (Hrl : length rows = (nframes * natoms0)%nat) by apply chunk_length.
  assert (Hmasked : exists rows',
            (if (length (Sem.exclude_types self) =? 0)%nat then Ok rows
             else
               mask <- build_type_exclude_mask (Sem.exclude_types self) (Sem.ntypes self)
                         (Sem.sel_a self) (Sem.ndescrpt self) atype (nframes * natoms0)
                         (Sem.nei_type_vec e) ;;
               Ok (Sem.zipWith Sem.vmul rows mask)) = Ok rows' /\
            length rows' = (nframes * natoms0)%nat /\
            Forall (fun row => length row = (4 * nei)%nat) rows').
  { destruct (length (Sem.exclude_types self) =? 0)%nat.
    - exists rows. now repeat split.
    - rewrite Hsel, Hnd, <- Hal.
      assert (Hnl' : length (Sem.nei_type_vec e) = (length atype * nei)%nat)
        by now rewrite Hal.
      assert (Hat' : Forall (fun a => (0 <= a < Z.of_nat (Sem.ntypes self))%Z) atype).
      { eapply Forall_impl; [|exact Hat]. intros t Ht. cbv beta in Ht. lia. }
      destruct (build_type_exclude_mask_rows (Sem.exclude_types self) (Sem.ntypes self)
                  nei [] atype (Sem.nei_type_vec e) Hnei Hnl' Hat' Hnt) as [_ Hmask].
      rewrite Hmask. cbn [rbind]. eexists. split; [reflexivity|]. split.
      + rewrite length_zipWith, length_map.
        rewrite (idx_rows_length (Sem.ntypes self) nei atype _ Hnei Hnl'), Hrl, Hal.
        apply Nat.min_id.
      + apply Forall_forall. intros row Hin. unfold Sem.zipWith in Hin.
        apply in_map_iff in Hin. destruct Hin as ([r m] & <- & Hp). cbn [fst snd].
        unfold Sem.vmul. rewrite length_zipWith.
        pose proof (in_combine_l _ _ _ _ Hp) as Hr.
        pose proof (in_combine_r _ _ _ _ Hp) as Hm.
        rewrite Forall_forall in Hrows. rewrite (Hrows r Hr).
        apply in_map_iff in Hm. destruct Hm as (ir & <- & Hir).
        pose proof (idx_rows_uniform (Sem.ntypes self) nei atype _ Hnei Hnl') as Hu.
        rewrite Forall_forall in Hu. rewrite length_map, (Hu ir Hir). apply Nat.min_id. }
  destruct Hmasked as (rows' & -> & Hrl' & Hrows'). cbn [rbind].
  destruct (filter_returns fexp self P e nei (nframes * natoms0) Hsel Hnn Hnei Hnd Hcomp HM
              rows' te atype Hrl' Hrows')
    as (result & qm & Hrun & Hres & Hq); try assumption.
  - eapply Forall_impl; [|exact Hnt]. intros t Ht. cbv beta in Ht. lia.
  - eapply Forall_impl; [|exact Hat]. intros t Ht. cbv beta in Ht. lia.
  - rewrite Hrun. cbn [rbind fst snd]. unfold reshape3.
    rewrite Hres, Hq, Hdim, Hrot.
    rewrite (proj2 (Nat.eqb_eq _ _)) by lia. cbn [rbind].
    rewrite (proj2 (Nat.eqb_eq _ _)) by lia. cbn [rbind].
    eexists _, _. reflexivity.
Qed.

(** The stages of [build] before [_pass_filter] on inputs of the expected
    shapes. *)
Lemma build_prepare_returns (self : Sem.descrpt) (op : Sem.prod_env_mat) (coord_ : list R)
    (atype_ : list Z) (natoms0 natoms1 : nat) (natoms_rest : list nat) (box_ : list R)
    (mesh : list Z) (coord box : list (list R)) (atype : list (list Z)) (nei : nat) :
  let natoms := natoms0 :: natoms1 :: natoms_rest in
  let o :=
    op coord atype natoms box mesh
      match Sem.davg self with
      | Some d => d
      | None => repeat (repeat 0%R (Sem.ndescrpt self)) (Sem.ntypes self)
      end
      match Sem.dstd self with
      | Some d => d
      | None => repeat (repeat 1%R (Sem.ndescrpt self)) (Sem.ntypes self)
      end in
  reshape2_infer (natoms1 * 3) coord_ = Ok coord ->
  reshape2_infer 9 box_ = Ok box ->
  reshape2_infer natoms1 atype_ = Ok atype ->
  (natoms0 <= natoms1)%nat ->
  Sem.sel_all_a self = [nei] ->
  (0 < nei)%nat ->
  (0 < Sem.ndescrpt self)%nat ->
  length (concat (Sem.op_descrpt o)) = (length atype * natoms0 * Sem.ndescrpt self)%nat ->
  length (concat (Sem.op_nmask o)) = (length atype * natoms0 * nei)%nat ->
  exists pre,
    Sem.build_prepare self op coord_ atype_ natoms box_ mesh = Ok pre /\
    Sem.pre_op pre = o /\
    Sem.nei_type_vec (Sem.pre_env pre) = concat (Sem.op_nei_type_vec o) /\
    Sem.pre_descrpt_reshape pre
    = chunk (Sem.ndescrpt self) (length atype * natoms0) (concat (Sem.op_descrpt o)) /\
    Sem.pre_atype_nloc pre
    = concat (map (fun row => map (Sem.clip_by_value 0 (Z.of_nat (Sem.ntypes self) - 1))
                                  (firstn natoms0 row)) atype).
Proof.
  intros natoms o Hcoord Hbox Hatype Hle Hsel Hnei Hnd HD Hm.
  unfold Sem.build_prepare. subst natoms. cbn [Sem.natoms_at nth_error rbind].
  rewrite Hcoord, Hbox, Hatype. cbn [rbind]. fold o. rewrite Hsel. cbn [index0 rbind].
  rewrite (reshape2_infer_ok nei (length atype * natoms0))
    by (assumption || now rewrite length_map).
  cbn [rbind].
  rewrite (reshape2_infer_ok (Sem.ndescrpt self) (length atype * natoms0)) by assumption.
  cbn [rbind].
  destruct (reshape2_infer_rows natoms1 atype_ atype Hatype) as (_ & Hrows & _).
  rewrite (mapM_all_ok (Sem.slice_last 0 natoms0)
             (fun row => firstn natoms0 (skipn 0 row))).
  - cbn [rbind]. eexists. split; [reflexivity|].
    cbn [Sem.pre_op Sem.pre_env Sem.pre_descrpt_reshape Sem.pre_atype_nloc Sem.nei_type_vec].
    repeat (split; [reflexivity|]).
    f_equal. rewrite map_map. apply map_ext. intros row. cbn [skipn].
    now rewrite firstn_map.
  - rewrite Forall_map. eapply Forall_impl; [|exact Hrows].
    intros row Hrow. cbv beta in *. unfold Sem.slice_last.
    rewrite length_map, Hrow.
    destruct (Nat.leb_spec (0 + natoms0) natoms1); [reflexivity|lia].
Qed.

(** ** 32-bit indices of the exclusion mask *)

Lemma in_chunk {A : Type} (k r : nat) (l C : list A) (y : A) :
  In C (chunk k r l) -> In y C -> In y l.
Proof.
  revert l. induction r as [|r IH]; intros l HC Hy; [contradiction|].
  cbn [chunk] in HC. rewrite <- (firstn_skipn k l). apply in_or_app.
  destruct HC as [<-|HC]; [now left|right; now apply IH].
Qed.

Lemma wrap_int32_small (z : Z) : (- 2 ^ 31 <= z < 2 ^ 31)%Z -> wrap_int32 z = z.
Proof. intros Hz. unfold wrap_int32. rewrite Z.mod_small; lia. Qed.

(** With at most 46340 types and all types in range, neither the product
    [atype * (ntypes + 1)] nor any entry of the gather index leaves the
    32-bit range: the index computed in [Z] is the one the int32 tensors
    hold. *)
Lemma exclude_idx_int32 (ntypes sel0 : nat) (sel_rest : list nat)
    (atype nei_type_vec : list Z) (rows : list (list Z)) :
  (Z.of_nat ntypes <= 46340)%Z ->
  (0 < sel0)%nat ->
  length nei_type_vec = (length atype * sel0)%nat ->
  Forall (fun a => (0 <= a < Z.of_nat ntypes)%Z) atype ->
  Forall (fun t => (0 <= t <= Z.of_nat ntypes)%Z) nei_type_vec ->
  exclude_idx ntypes (sel0 :: sel_rest) (4 * sel0) atype (length atype) nei_type_vec
  = Ok rows ->
  Forall (fun a => wrap_int32 (a * (Z.of_nat ntypes + 1)) = (a * (Z.of_nat ntypes + 1))%Z)
         atype /\
  Forall (Forall (fun z => wrap_int32 z = z)) rows.
Proof.
  intros Hnt Hsel Hlen Hat Hnei Hrows.
  destruct (build_type_exclude_mask_rows [] ntypes sel0 sel_rest atype nei_type_vec Hsel
              Hlen Hat Hnei) as [Hidx _].
  rewrite Hidx in Hrows. apply Ok_inj in Hrows. subst rows.
  rewrite Forall_forall in Hat, Hnei. split.
  - apply Forall_forall. intros a Ha. specialize (Hat a Ha). cbv beta in Hat.
    apply wrap_int32_small. nia.
  - rewrite Forall_map. apply Forall_forall. intros [a C] Hp. cbn [fst snd].
    apply Forall_forall. intros z Hz.
    apply in_zip_add in Hz. destruct Hz as (x & y & Hx & Hy & ->).
    apply repeat_spec in Hx. subst x.
    apply in_flat_map in Hy. destruct Hy as (t & Ht & Hy).
    apply repeat_spec in Hy. subst y.
    pose proof (in_combine_l _ _ _ _ Hp) as Ha.
    pose proof (in_combine_r _ _ _ _ Hp) as HC.
    specialize (Hat a Ha). specialize (Hnei t (in_chunk _ _ _ _ _ HC Ht)).
    cbv beta in Hat, Hnei. apply wrap_int32_small. nia.
Qed.

(** C2. [build] takes the validity mask from the environment-matrix
    operator, one row of [sel] flags per atom, sets the additive mask to
    [-(2^33) * (1 - nmask)] and runs [_pass_filter] with the two. Every
    attention layer uses them:
    [_attention_layers] is [layer_num] passes of the layer body, and a pass
    adds to row [s] of atom [a] the output projection of row [s] of the
    product of the final weights with the values, where the weights are
    made from the normalized queries and keys of the pass, divided by
    [sqrt 1], with the atom's rows of the two masks: the score of slot [s]
    on slot [t] is the scaled product times the flag of [t] plus the
    additive mask of [t]. For a slot [t] that the operator marks invalid
    the score is therefore [-(2^33)] whatever its embedding is, and, on a
    numeric substrate whose exponential is zero at and below [1 - 2^33],
    its weight after softmax and in the weights applied to the values is
    zero. *)
Theorem invalid_slot_gets_zero_weight :
  forall fexp : R -> R,
    (forall x, (x <= 1 - IZR (2 ^ 33))%R -> fexp x = 0%R) ->
    forall (self : Sem.descrpt) (P : Sem.params) (op : Sem.prod_env_mat) (coord_ : list R)
           (atype_ : list Z) (natoms : list nat) (box_ : list R) (mesh : list Z)
           (pre : Sem.prepared) (nei : nat),
      Sem.build_prepare self op coord_ atype_ natoms box_ mesh = Ok pre ->
      index0 (Sem.sel_all_a self) = Ok nei ->
      let e := Sem.pre_env pre in
      let valid := concat (Sem.op_nmask (Sem.pre_op pre)) in
      let natom := length (Sem.nmask e) in
      (exists (coord box : list (list R)) (atype : list (list Z)) (avg std : list (list R)),
          Sem.pre_op pre = op coord atype natoms box mesh avg std) /\
      concat (Sem.nmask e) = map to_float valid /\
      Forall (fun m => length m = nei) (Sem.nmask e) /\
      Sem.negative_mask e
        = map (map (fun x => (- IZR (2 ^ 33) * (1 - x))%R)) (Sem.nmask e) /\
      (exists natoms0 : nat,
          nth_error natoms 0 = Some natoms0 /\
          forall input_dict,
            Sem.build fexp self P op coord_ atype_ natoms box_ mesh input_dict
            = Sem._pass_filter fexp self P e (Sem.pre_descrpt_reshape pre)
                (Sem.pre_atype_nloc pre) natoms0 input_dict) /\
      forall (W : nat) (input_r : list (list (list R))) (dotr do_mask : bool)
             (x : list (list R)) (L i a s t : nat),
        length x = (natom * nei)%nat -> (a < natom)%nat -> (s < nei)%nat -> (t < nei)%nat ->
        let Q := map Sem.l2_normalize (nth a (chunk nei natom (map (Sem.c_query P i) x)) []) in
        let K := map Sem.l2_normalize (nth a (chunk nei natom (map (Sem.c_key P i) x)) []) in
        let V := map Sem.l2_normalize (nth a (chunk nei natom (map (Sem.c_value P i) x)) []) in
        let m := nth a (Sem.nmask e) [] in
        let neg := nth a (Sem.negative_mask e) [] in
        let A :=
          Sem.attn_final fexp nei (Sem.att_n self) m neg Q K (sqrt 1) (nth a input_r [])
            dotr do_mask in
        Sem._attention_layers fexp self P e x L (nei * 4) W input_r dotr do_mask
          = fold_left (Sem.attention_layer fexp self P e nei W input_r dotr do_mask)
              (seq 0 L) x /\
        nth (a * nei + s) (Sem.attention_layer fexp self P e nei W input_r dotr do_mask x i) []
          = Sem.layer_normalization P i
              (Sem.vadd (nth (a * nei + s) x [])
                 (Sem.c_out P i
                    (nth s (Sem.matmul false false nei nei (Sem.att_n self) A V) []))) /\
        Sem.entry (Sem.attn_scores nei (Sem.att_n self) m neg Q K (sqrt 1)) s t
          = (Sem.big_sum (Sem.att_n self)
               (fun u => Sem.entry Q s u / sqrt 1 * Sem.entry K t u) * nth t m 0
             - IZR (2 ^ 33) * (1 - nth t m 0))%R /\
        (nth (a * nei + t) valid true = false ->
         Sem.entry (Sem.attn_scores nei (Sem.att_n self) m neg Q K (sqrt 1)) s t
           = (- IZR (2 ^ 33))%R /\
         Sem.entry (Sem.attn_softmax fexp nei (Sem.att_n self) m neg Q K (sqrt 1)) s t = 0%R /\
         Sem.entry A s t = 0%R).
Proof.
  intros fexp Hfexp self P op coord_ atype_ natoms box_ mesh pre nei Hpre Hsel e valid natom.
  destruct (build_prepare_masks self op coord_ atype_ natoms box_ mesh pre Hpre)
    as [Hneg Hflags].
  destruct (build_prepare_inv self op coord_ atype_ natoms box_ mesh pre Hpre)
    as (n0 & n1 & sel0 & coord & box & atype & nloc & Hn0 & _ & _ & _ & _ & Hsel0 & Hop
        & Hmask & _).
  rewrite Hsel in Hsel0. apply Ok_inj in Hsel0. subst sel0.
  rewrite <- Hop in Hmask. fold valid e in Hmask. fold e in Hneg, Hflags.
  destruct (reshape2_infer_rows _ _ _ Hmask) as (Hnei & Hrows & Hcount).
  pose proof (reshape2_infer_concat _ _ _ Hmask) as Hcat.
  split; [exists coord, box, atype; eexists; eexists; exact Hop|].
  split; [exact Hcat|]. split; [exact Hrows|]. split; [exact Hneg|].
  split.
  { exists n0. split; [exact Hn0|]. intros input_dict.
    unfold Sem.build. rewrite Hpre. cbn [rbind]. unfold Sem.natoms_at.
    now rewrite Hn0. }
  intros W input_r dotr do_mask x L i a s t Hx Ha Hs Ht Q K V m neg A.
  assert (Hm : length m = nei).
  { rewrite Forall_forall in Hrows. apply Hrows, nth_In, Ha. }
  assert (Hmf : Forall (fun v => v = 0 \/ v = 1)%R m).
  { rewrite Forall_forall in Hflags. apply Hflags, nth_In, Ha. }
  assert (Hnegm : neg = map (fun v => (- IZR (2 ^ 33) * (1 - v))%R) m).
  { unfold neg, m. rewrite Hneg.
    apply (nth_map_default (map (fun v => (- IZR (2 ^ 33) * (1 - v))%R)) _ a [] [] eq_refl). }
  split; [apply attention_layers_fold|]. split.
  - rewrite (attention_layer_slot fexp self P e nei natom W input_r dotr do_mask Hnei x i a s
               Hx Ha Hs).
    rewrite scaled_dot_attn_atom by (now rewrite length_map, chunk_length).
    now rewrite !(nth_map_default (map Sem.l2_normalize) _ a [] [] eq_refl).
  - rewrite Hnegm. unfold Q, K.
    split; [now apply masked_score|].
    intros Hinvalid.
    assert (Hmt : nth t m 0%R = 0%R).
    { unfold m. rewrite <- (nth_concat_uniform nei (Sem.nmask e) a t 0%R Hrows Ht).
      rewrite Hcat.
      rewrite (nth_map_lt to_float valid (a * nei + t) true 0%R).
      - now rewrite Hinvalid.
      - rewrite length_map in Hcount. rewrite Hcount. now apply slot_lt. }
    split; [|split].
    + rewrite masked_score by assumption. rewrite Hmt. lra.
    + now apply masked_softmax_zero.
    + unfold A. rewrite Hnegm. now apply masked_final_zero.
Qed.

(** The theorem at an operator that marks the second slot of the first
    atom invalid, in the first layer, on rows of large magnitude. *)
Lemma invalid_slot_gets_zero_weight_witness :
  exists pre : Sem.prepared,
    Sem.build_prepare (AttentionExamples.descrpt_attention true) OperatorExamples.op_padded
      Examples.coord_example Examples.atype_example Examples.natoms_example
      Examples.box_example [] = Ok pre /\
    Sem.entry
      (Sem.attn_softmax Examples.exp_underflow 2
         (Sem.att_n (AttentionExamples.descrpt_attention true))
         (nth 0 (Sem.nmask (Sem.pre_env pre)) [])
         (nth 0 (Sem.negative_mask (Sem.pre_env pre)) [])
         (map Sem.l2_normalize
            (nth 0 (chunk 2 (length (Sem.nmask (Sem.pre_env pre)))
                      (map (Sem.c_query Examples.params_example 0)
                         OperatorExamples.rows_example)) []))
         (map Sem.l2_normalize
            (nth 0 (chunk 2 (length (Sem.nmask (Sem.pre_env pre)))
                      (map (Sem.c_key Examples.params_example 0)
                         OperatorExamples.rows_example)) []))
         (sqrt 1)) 0 1 = 0%R.
Proof.
  eexists. split; [reflexivity|].
  assert (Hunder : forall x : R, (x <= 1 - IZR (2 ^ 33))%R -> Examples.exp_underflow x = 0%R).
  { intros x Hx. unfold Examples.exp_underflow.
    destruct (Rle_dec x (-745)) as [_|Hn]; [reflexivity|].
    exfalso. apply Hn. simpl in Hx. lra. }
  destruct (invalid_slot_gets_zero_weight Examples.exp_underflow Hunder
              (AttentionExamples.descrpt_attention true) Examples.params_example
              OperatorExamples.op_padded Examples.coord_example Examples.atype_example
              Examples.natoms_example Examples.box_example [] _ 2%nat eq_refl eq_refl)
    as (_ & _ & _ & _ & _ & Hlayers).
  destruct (Hlayers 1%nat [] true true OperatorExamples.rows_example 0%nat 0%nat 0%nat 0%nat
              1%nat eq_refl (Nat.lt_0_succ 1) (Nat.lt_0_succ 1) (Nat.lt_succ_diag_r 1))
    as (_ & _ & _ & Hzero).
  exact (proj1 (proj2 (Hzero eq_refl))).
Defined.

(** C4. For a batch [inputs] with one row of [4 * nnei] raw features per
    atom, [_filter] contracts, for every atom, the [nnei x 4] matrix [R] of
    the raw features of its slots ([R[j][c]] is entry [4 j + c] of the
    atom's row) with the [nnei x W] attended embedding [E] of its slots (the
    rows that the attention layers return for the embedded radial features)
    over the neighbor axis, divides by the sum of [original_sel] when it is
    set and by [nnei] otherwise, and returns the product of the transposed
    quotient [G] with its first [axis_neuron] columns, flattened row by row
    to a vector of length [W * axis_neuron]. *)
Theorem filter_descriptor_assembly :
  forall (fexp : R -> R) (self : Sem.descrpt) (P : Sem.params) (e : Sem.env)
         (inputs : list (list R)) (te : list (list R)) (atype : list Z)
         (nei : nat) (xs : list (list R)),
    Sem.cumsum_last (Sem.sel_a self) = Ok nei ->
    (0 < nei)%nat ->
    Sem.ndescrpt self = (4 * nei)%nat ->
    (Sem.n_axis_neuron self <= Sem.outputs_size_last self)%nat ->
    Sem.compress self = false ->
    Forall (fun row => length row = (4 * nei)%nat) inputs ->
    let slots := map (chunk 4 nei) inputs in
    Sem.type_embedded self P e (map (firstn 1) (concat slots)) te atype = Ok xs ->
    length xs = (length inputs * nei)%nat ->
    let W := Sem.outputs_size_last self in
    let M := Sem.n_axis_neuron self in
    let denom := match Sem.original_sel self with
                 | Some osel => IZR (fold_right Z.add 0%Z osel)
                 | None => INR nei
                 end in
    let input_r :=
      map (map Sem.l2_normalize) (map (map (fun row => firstn 3 (skipn 1 row))) slots) in
    let E :=
      Sem._attention_layers fexp self P e xs (Sem.attn_layer self) (nei * 4) W input_r
        (Sem.attn_dotr self) (Sem.attn_mask self) in
    exists result qmat,
      Sem._filter fexp self P e inputs (Some te) (Some atype) = Ok (result, qmat) /\
      length result = length inputs /\
      forall a, (a < length inputs)%nat ->
        let G c w :=
          (Sem.big_sum nei
             (fun j => nth (4 * j + c) (nth a inputs []) 0 * nth w (nth (a * nei + j) E []) 0)
           / denom)%R in
        length (nth a result []) = (W * M)%nat /\
        forall w m, (w < W)%nat -> (m < M)%nat ->
          nth (w * M + m) (nth a result []) 0%R
          = Sem.big_sum 4 (fun c => (G c w * G c m)%R).
Proof.
  intros fexp self P e inputs te atype nei xs Hsel Hnei Hnd HM Hcomp Hrows slots Hxs Hxl
         W M denom input_r E.
  destruct (rows_as_slots nei inputs Hrows) as (Hin & Hlen & Hblocks & Hquads).
  fold slots in Hin, Hlen, Hblocks, Hquads.
  assert (HE : length E = (length inputs * nei)%nat).
  { unfold E. now apply attention_layers_count. }
  assert (Hatt : Sem.attended fexp self P e 0 nei inputs (Some te) (Some atype)
                 = Ok (slots, chunk nei (length inputs) E)).
  { rewrite Hin at 1.
    rewrite (attended_batch fexp self P nei (length slots) Hnei e slots)
      by (assumption || reflexivity).
    rewrite Hcomp, Hxs. cbv zeta. fold W input_r E. now rewrite HE, Nat.div_mul by lia. }
  destruct (filter_contraction_entries fexp self P e inputs (Some te) (Some atype) nei
              slots (chunk nei (length inputs) E) Hsel Hnd HM Hatt)
    as (result & qmat & Hrun & Hres & Hent).
  { now rewrite chunk_length, Hlen. }
  exists result, qmat. split; [exact Hrun|]. split; [now rewrite Hres, Hlen|].
  intros a Ha G. rewrite Hlen in Hent.
  destruct (Hent a Ha) as [Hl Hv]. split; [exact Hl|].
  intros w m Hw Hm. refine (eq_trans (Hv w m Hw Hm) _).
  assert (HG : forall c w', (c < 4)%nat ->
            (Sem.big_sum nei
               (fun j => Sem.entry (nth a slots []) j c
                         * Sem.entry (nth a (chunk nei (length inputs) E) []) j w')
             / denom)%R = G c w').
  { intros c w' Hc. unfold G. f_equal. apply big_sum_ext. intros j Hj. f_equal.
    - unfold slots. rewrite (nth_map_lt (chunk 4 nei) inputs a [] []) by assumption.
      now apply entry_slots.
    - unfold Sem.entry. now rewrite nth_chunk_row by assumption. }
  apply big_sum_ext. intros c Hc. now rewrite !HG.
Qed.

(** The theorem at the one-sided example: two atoms, two neighbor slots,
    width 1, one axis neuron. The descriptor of the first atom is
    (5/2)^2 + (1/2)^2 + 2^2 = 21/2. *)
Lemma filter_descriptor_assembly_witness :
  exists result qmat,
    Sem._filter exp (Examples.descrpt_example true false []) Examples.params_example
      Examples.env_example Examples.inputs_example (Some Examples.type_embedding_example)
      (Some [0; 1]%Z) = Ok (result, qmat) /\
    length result = 2%nat /\
    length (nth 0 result []) = 1%nat /\
    nth 0 (nth 0 result []) 0%R = (21 / 2)%R.
Proof.
  edestruct (filter_descriptor_assembly exp (Examples.descrpt_example true false [])
               Examples.params_example Examples.env_example Examples.inputs_example
               Examples.type_embedding_example [0; 1]%Z 2)
    as (result & qmat & Hrun & Hlen & Hent).
  - reflexivity.
  - apply Nat.lt_0_succ.
  - reflexivity.
  - apply le_n.
  - reflexivity.
  - repeat constructor.
  - reflexivity.
  - reflexivity.
  - exists result, qmat. split; [exact Hrun|]. split; [exact Hlen|].
    destruct (Hent 0%nat (Nat.lt_0_succ 1)) as [Hl Hv].
    split; [exact Hl|].
    refine (eq_trans (Hv 0%nat 0%nat (Nat.lt_0_succ 0) (Nat.lt_0_succ 0)) _).
    unfold Sem.big_sum, Sem.reduce_sum, Sem._attention_layers. simpl.
    lra.
Defined.



(** C9 (amended). [build] hands the environment-matrix operator the types
    as the caller gave them (reshaped only), takes the neighbor types as the
    operator reports them, and replaces the type of every local atom by its
    clip into [0, ntypes - 1] before [_pass_filter] uses it for the
    exclusion mask and the type-embedding lookups. So, whatever values the
    supplied types have, [build] returns, when the inputs and the operator's
    outputs have their shapes, the type embedding has a row for every type
    and for the sentinel, and the neighbor types that the operator reports
    lie in [0, ntypes]. The descriptor is as the constructor makes it: one
    entry [sel] in [sel_a] and [sel_all_a], [nnei = sel],
    [ndescrpt = 4 sel], [dim_out = W * axis_neuron] and
    [dim_rot_mat_1 = W]. *)
Theorem build_clips_center_types :
  forall (fexp : R -> R) (self : Sem.descrpt) (P : Sem.params) (op : Sem.prod_env_mat)
         (coord_ : list R) (atype_ : list Z) (natoms0 natoms1 : nat)
         (natoms_rest : list nat) (box_ : list R) (mesh : list Z)
         (d : list (string * option (list (list R)))) (te : list (list R))
         (coord box : list (list R)) (atype : list (list Z)) (nei : nat),
    let natoms := natoms0 :: natoms1 :: natoms_rest in
    let nframes := length atype in
    let W := Sem.outputs_size_last self in
    let o :=
      op coord atype natoms box mesh
        match Sem.davg self with
        | Some d => d
        | None => repeat (repeat 0%R (Sem.ndescrpt self)) (Sem.ntypes self)
        end
        match Sem.dstd self with
        | Some d => d
        | None => repeat (repeat 1%R (Sem.ndescrpt self)) (Sem.ntypes self)
        end in
    reshape2_infer (natoms1 * 3) coord_ = Ok coord ->
    reshape2_infer 9 box_ = Ok box ->
    reshape2_infer natoms1 atype_ = Ok atype ->
    (0 < natoms0 <= natoms1)%nat ->
    Sem.dict_get d "type_embedding" = Some te ->
    (0 < Sem.ntypes self < length te)%nat ->
    Sem.sel_a self = [nei] ->
    Sem.sel_all_a self = [nei] ->
    Sem.nnei self = nei ->
    (0 < nei)%nat ->
    Sem.ndescrpt self = (4 * nei)%nat ->
    Sem.compress self = false ->
    (Sem.n_axis_neuron self <= W)%nat ->
    Sem.dim_out self = (W * Sem.n_axis_neuron self)%nat ->
    Sem.dim_rot_mat_1 self = W ->
    length (concat (Sem.op_descrpt o)) = (nframes * natoms0 * Sem.ndescrpt self)%nat ->
    length (concat (Sem.op_nei_type_vec o)) = (nframes * natoms0 * nei)%nat ->
    length (concat (Sem.op_nmask o)) = (nframes * natoms0 * nei)%nat ->
    Forall (fun t => (0 <= t <= Z.of_nat (Sem.ntypes self))%Z)
           (concat (Sem.op_nei_type_vec o)) ->
    exists pre dout qmat,
      Sem.build_prepare self op coord_ atype_ natoms box_ mesh = Ok pre /\
      Sem.pre_op pre = o /\
      Sem.nei_type_vec (Sem.pre_env pre) = concat (Sem.op_nei_type_vec o) /\
      Sem.pre_atype_nloc pre
      = concat (map (fun row => map (Sem.clip_by_value 0 (Z.of_nat (Sem.ntypes self) - 1))
                                    (firstn natoms0 row)) atype) /\
      Sem.build fexp self P op coord_ atype_ natoms box_ mesh (Some d)
      = Sem._pass_filter fexp self P (Sem.pre_env pre) (Sem.pre_descrpt_reshape pre)
          (Sem.pre_atype_nloc pre) natoms0 (Some d) /\
      Sem.build fexp self P op coord_ atype_ natoms box_ mesh (Some d) = Ok (dout, qmat).
Proof.
  intros fexp self P op coord_ atype_ natoms0 natoms1 natoms_rest box_ mesh d te coord box
         atype nei natoms nframes W o Hcoord Hbox Hatype [Hn0 Hle] Hd [Hnt Hte] Hsel Hall
         Hnn Hnei Hnd Hcomp HM Hdim Hrot HD Hnl Hm Hrange.
  destruct (build_prepare_returns self op coord_ atype_ natoms0 natoms1 natoms_rest box_
              mesh coord box atype nei Hcoord Hbox Hatype Hle Hall Hnei)
    as (pre & Hpre & Hop & Hnei_types & Hdescrpt & Hnloc); try assumption.
  { lia. }
  destruct (reshape2_infer_rows natoms1 atype_ atype Hatype) as (_ & Hrows & _).
  assert (Hclipped : Forall (fun t => (0 <= t <= Z.of_nat (Sem.ntypes self) - 1)%Z)
                            (Sem.pre_atype_nloc pre)).
  { rewrite Hnloc. apply Forall_concat. rewrite Forall_map. apply Forall_forall.
    intros row _. rewrite Forall_map. apply Forall_forall. intros t _.
    apply clip_by_value_range. lia. }
  assert (Hcount : length (Sem.pre_atype_nloc pre) = (nframes * natoms0)%nat).
  { rewrite Hnloc. rewrite (length_concat_uniform natoms0).
    - now rewrite length_map.
    - rewrite Forall_map. eapply Forall_impl; [|exact Hrows].
      intros row Hrow. cbv beta in *. rewrite length_map, length_firstn, Hrow. lia. }
  assert (Hbuild : Sem.build fexp self P op coord_ atype_ natoms box_ mesh (Some d)
                   = Sem._pass_filter fexp self P (Sem.pre_env pre)
                       (Sem.pre_descrpt_reshape pre) (Sem.pre_atype_nloc pre) natoms0
                       (Some d)).
  { unfold Sem.build. subst natoms. rewrite Hpre. reflexivity. }
  destruct (pass_filter_returns fexp self P (Sem.pre_env pre) nei nframes natoms0
              (concat (Sem.op_descrpt o)) (Sem.pre_atype_nloc pre) d te)
    as (dout & qmat & Hrun); try assumption.
  { now rewrite Hnei_types. }
  { now rewrite Hnei_types. }
  exists pre, dout, qmat.
  repeat (split; [assumption|]).
  rewrite Hbuild, Hdescrpt. exact Hrun.
Qed.

(** The theorem at a call whose types are -1, 5 and 0, on the two-sided
    descriptor with the type pair (0, 1) excluded: the two local atoms
    reach [_pass_filter] with the types 0 and 1, and [build] returns. *)
Lemma build_clips_center_types_witness :
  exists pre dout qmat,
    Sem.build_prepare (Examples.descrpt_example false false [(0, 1)%Z]) Examples.op_example
      Examples.coord_example Examples.atype_example Examples.natoms_example
      Examples.box_example [] = Ok pre /\
    Sem.pre_atype_nloc pre = [0; 1]%Z /\
    Sem.build exp (Examples.descrpt_example false false [(0, 1)%Z]) Examples.params_example
      Examples.op_example Examples.coord_example Examples.atype_example
      Examples.natoms_example Examples.box_example []
      (Some OperatorExamples.input_dict_padded) = Ok (dout, qmat).
Proof.
  edestruct (build_clips_center_types exp (Examples.descrpt_example false false [(0, 1)%Z])
               Examples.params_example Examples.op_example Examples.coord_example
               Examples.atype_example 2 3 [1; 1]%nat Examples.box_example []
               OperatorExamples.input_dict_padded OperatorExamples.type_embedding_padded
               [Examples.coord_example] [Examples.box_example] [Examples.atype_example] 2)
    as (pre & dout & qmat & Hpre & _ & _ & Hnloc & _ & Hrun).
  - reflexivity.
  - reflexivity.
  - reflexivity.
  - split; [apply Nat.lt_0_succ|apply le_S, le_n].
  - reflexivity.
  - split; [apply Nat.lt_0_succ|apply le_n].
  - reflexivity.
  - reflexivity.
  - reflexivity.
  - apply Nat.lt_0_succ.
  - reflexivity.
  - reflexivity.
  - apply le_n.
  - reflexivity.
  - reflexivity.
  - reflexivity.
  - reflexivity.
  - reflexivity.
  - repeat constructor; discriminate.
  - exists pre, dout, qmat. split; [exact Hpre|]. split; [exact Hnloc|exact Hrun].
Defined.

(** C9, the claim as stated, at a call whose types are 0, 5 and 0 and an
    operator that reports the types of the neighbors as the caller gave
    them: the types of the two local atoms are clipped to 0 and 1, yet the
    neighbor type 5 reaches the type-embedding lookup unclipped and [build]
    fails there, in the one-sided and in the two-sided branch; with the type
    1 in place of 5 the same call returns. *)
Lemma build_fails_on_neighbor_type :
  (exists pre,
      Sem.build_prepare (Examples.descrpt_example true false [])
        OperatorExamples.op_neighbors Examples.coord_example [0; 5; 0]%Z
        Examples.natoms_example Examples.box_example [] = Ok pre /\
      Sem.pre_atype_nloc pre = [0; 1]%Z /\
      Sem.nei_type_vec (Sem.pre_env pre) = [5; 0; 0; 0]%Z) /\
  Sem.build exp (Examples.descrpt_example true false []) Examples.params_example
    OperatorExamples.op_neighbors Examples.coord_example [0; 5; 0]%Z
    Examples.natoms_example Examples.box_example []
    (Some OperatorExamples.input_dict_padded) = Raise InvalidArgumentError /\
  Sem.build exp (Examples.descrpt_example false false []) Examples.params_example
    OperatorExamples.op_neighbors Examples.coord_example [0; 5; 0]%Z
    Examples.natoms_example Examples.box_example []
    (Some OperatorExamples.input_dict_padded) = Raise InvalidArgumentError /\
  (exists r,
      Sem.build exp (Examples.descrpt_example true false []) Examples.params_example
        OperatorExamples.op_neighbors Examples.coord_example [0; 1; 0]%Z
        Examples.natoms_example Examples.box_example []
        (Some OperatorExamples.input_dict_padded) = Ok r).
Proof.
  split; [eexists; repeat split; reflexivity|].
  split; [reflexivity|]. split; [reflexivity|].
  eexists. reflexivity.
Qed.
